(** * RMDB storage and transaction core: a shallow embedding

    The development follows the C++ sources of the record manager
    ([rm_file_handle.cpp], [rm_scan.cpp]), the sequential-scan and update
    executors, the analyzer, the log manager and the transaction manager.

    Conventions.
    - C++ [int] values are [Z]; bytes are [Z] in [0, 255]; a record buffer
      ([char*]) is a [list Z].  The counters of the log manager and of the
      transaction manager, which only ever grow, wrap around at the width
      of their type.
    - Stateful code is written in a state-and-exception monad [M S]: a
      computation either returns, throws a C++ exception, or halts (a thread
      that blocks forever on a latch it already owns, a failed [assert], a
      null dereference, or a recursion that ran out of fuel).
    - Pointers to shared objects are modelled by the key of the object in a
      store: a page handle is the page number of the pinned page, a
      pointer to a [Transaction] is an address in the transaction heap.
    - The buffer pool, the lock manager, the disk manager and the index
      handles are external collaborators.  Calls to the buffer pool and the
      lock manager are recorded in a trace; a lock request is answered by an
      oracle carried by the context, a request for a new page by an oracle
      carried by the file handle. *)

From Stdlib Require Import ZArith List Bool Lia.
From Stdlib Require Import Floats.SpecFloat.
From stdpp Require Import gmap strings list fin_maps.

Local Open Scope Z_scope.

(** ** Errors and outcomes *)

(** The exception classes of [errors.h] that the modelled code throws. *)
Inductive Exn : Type :=
  | RecordNotFoundError (page_no slot_no : Z)
  | PageNotExistError (page_no : Z)
  | InternalError (msg : string)
  | TableNotFoundError (tab_name : string)
  | ColumnNotFoundError (col_name : string)
  | AmbiguousColumnError (col_name : string)
  | IncompatibleTypeError (lhs rhs : string)
  | StringOverflowError
  | TransactionAbortException
  | UnixError
  | OutOfRange.                 (* [std::out_of_range], from [at] on a map *)

(** Ways in which a call does not come back to its caller. *)
Inductive Halt : Type :=
  | SelfDeadlock      (* [std::mutex] locked again by the thread that owns it *)
  | AssertFailed
  | NullDeref
  | OutOfFuel.        (* unbounded recursion cut off by the fuel of the model *)

Inductive Outcome (S A : Type) : Type :=
  | Returned (a : A) (s : S)
  | Threw (e : Exn) (s : S)
  | Halted (h : Halt) (s : S).
Arguments Returned {S A} a s.
Arguments Threw {S A} e s.
Arguments Halted {S A} h s.

Definition M (S A : Type) : Type := S -> Outcome S A.

Definition ret {S A} (a : A) : M S A := fun s => Returned a s.

Definition bind {S A B} (m : M S A) (k : A -> M S B) : M S B :=
  fun s =>
    match m s with
    | Returned a s' => k a s'
    | Threw e s' => Threw e s'
    | Halted h s' => Halted h s'
    end.

Definition throw {S A} (e : Exn) : M S A := fun s => Threw e s.
Definition halt {S A} (h : Halt) : M S A := fun s => Halted h s.
Definition get {S} : M S S := fun s => Returned s s.
Definition put {S} (s : S) : M S unit := fun _ => Returned tt s.
Definition modify {S} (f : S -> S) : M S unit := fun s => Returned tt (f s).

(** Run a computation on a component of the state. *)
Definition zoom {S T A} (proj : S -> T) (inj : T -> S -> S) (m : M T A) : M S A :=
  fun s =>
    match m (proj s) with
    | Returned a t => Returned a (inj t s)
    | Threw e t => Threw e (inj t s)
    | Halted h t => Halted h (inj t s)
    end.

Declare Scope m_scope.
Delimit Scope m_scope with M.
Notation "x <- m ;; k" := (bind m (fun x => k))
  (at level 100, m at next level, right associativity) : m_scope.
Notation "m ;;; k" := (bind m (fun _ => k))
  (at level 100, right associativity) : m_scope.
Local Open Scope m_scope.

(** A computation that only fails, run inside a stateful one. *)
Definition lift_r {S A} (r : Exn + A) : M S A :=
  match r with
  | inl e => throw e
  | inr a => ret a
  end.

Definition state_of {S A} (o : Outcome S A) : S :=
  match o with
  | Returned _ s | Threw _ s | Halted _ s => s
  end.

Definition returned {S A} (o : Outcome S A) : bool :=
  match o with Returned _ _ => true | _ => false end.

Definition result_of {S A} (o : Outcome S A) : option A :=
  match o with Returned a _ => Some a | _ => None end.

(** ** Record manager: data model ([rm_defs.h]) *)

Definition RM_NO_PAGE : Z := -1.
Definition RM_FILE_HDR_PAGE : Z := 0.
Definition RM_FIRST_RECORD_PAGE : Z := 1.

Record Rid : Type := mkRid { page_no : Z; slot_no : Z }.

Record PageId : Type := mkPageId { pid_fd : Z; pid_page_no : Z }.

Record RmFileHdr : Type := mkRmFileHdr {
  record_size : Z;
  num_pages : Z;
  num_records_per_page : Z;
  first_free_page_no : Z;
  bitmap_size : Z
}.

Record RmPageHdr : Type := mkRmPageHdr {
  next_free_page_no : Z;
  num_records : Z
}.

(** A data page: header, bitmap (one [bool] per bit) and the slot area. *)
Record RmPage : Type := mkRmPage {
  page_hdr : RmPageHdr;
  bitmap : list bool;
  slots : list (list Z)
}.

Definition RmRecord : Type := list Z.

#[global] Instance Rid_eq_dec : EqDecision Rid.
Proof. solve_decision. Defined.
#[global] Instance PageId_eq_dec : EqDecision PageId.
Proof. solve_decision. Defined.

(** ** External collaborators *)

(** Calls made to the buffer pool and to the lock manager, in program order. *)
Inductive Event : Type :=
  | EvFetchPage (pid : PageId)
  | EvNewPage (pid : PageId)
  | EvUnpinPage (pid : PageId) (is_dirty : bool)
  | EvLockShared (txn : Z) (rid : Rid) (fd : Z)
  | EvLockExclusive (txn : Z) (rid : Rid) (fd : Z).

(** The lock manager is a contract only: a request is granted ([true]) or
    refused, in which case the call raises [TransactionAbortException]. *)
Record LockManager : Type := mkLockManager {
  lock_shared_on_record : Z -> Rid -> Z -> bool;
  lock_exclusive_on_record : Z -> Rid -> Z -> bool
}.

(** [Context]: [txn_] is the address of the running transaction, if any. *)
Record Context : Type := mkContext {
  lock_mgr_ : LockManager;
  log_mgr_ : bool;          (* [log_mgr_ != nullptr] *)
  txn_ : option Z
}.

(** ** Bitmap *)

Module Bitmap.

(** Modelled from the spec: [bitmap.h] is not part of the sources.  Bit [i]
    of a page bitmap is set iff slot [i] holds a live record; [first_bit]
    returns the lowest position below [max_n] holding [bit], and [max_n]
    when there is none.  Positions outside the bitmap read as clear and
    writes to them are dropped (the C++ code would touch the slot area). *)
Definition BITMAP_WIDTH : Z := 8.

Definition init (size : Z) : list bool :=
  replicate (Z.to_nat (BITMAP_WIDTH * size)) false.

Definition is_set (bm : list bool) (pos : Z) : bool :=
  if pos <? 0 then false else default false (bm !! Z.to_nat pos).

Definition set (bm : list bool) (pos : Z) : list bool :=
  if pos <? 0 then bm else <[Z.to_nat pos := true]> bm.

Definition reset (bm : list bool) (pos : Z) : list bool :=
  if pos <? 0 then bm else <[Z.to_nat pos := false]> bm.

Fixpoint next_bit_from (bit : bool) (bm : list bool) (pos : Z) (n : nat) : option Z :=
  match n with
  | O => None
  | S n' => if Bool.eqb (is_set bm pos) bit then Some pos
            else next_bit_from bit bm (pos + 1) n'
  end.

(** [next_bit bit bm max_n curr]: first position in [(curr, max_n)]. *)
Definition next_bit (bit : bool) (bm : list bool) (max_n curr : Z) : Z :=
  default max_n (next_bit_from bit bm (curr + 1) (Z.to_nat (max_n - (curr + 1)))).

Definition first_bit (bit : bool) (bm : list bool) (max_n : Z) : Z :=
  next_bit bit bm max_n (-1).

End Bitmap.

(** ** Record manager: [RmFileHandle] *)

(** The file handle together with the part of the buffer pool it talks to:
    [pages] are the frames of this file, keyed by page number, and
    [bpm_trace] lists the buffer-pool and lock-manager calls made so far.
    The buffer pool is a contract only: [new_page_ok] is its answer to a
    [new_page] request made after the calls listed so far, [false] when it
    has no frame to hand out and returns [nullptr]. *)
Record RmFileHandle : Type := mkRmFileHandle {
  fd_ : Z;
  file_hdr_ : RmFileHdr;
  pages : gmap Z RmPage;
  bpm_trace : list Event;
  new_page_ok : list Event -> bool
}.

Definition set_file_hdr (f : RmFileHdr -> RmFileHdr) (h : RmFileHandle) : RmFileHandle :=
  mkRmFileHandle (fd_ h) (f (file_hdr_ h)) (pages h) (bpm_trace h) (new_page_ok h).

Definition set_first_free_page_no (p : Z) (hdr : RmFileHdr) : RmFileHdr :=
  mkRmFileHdr (record_size hdr) (num_pages hdr) (num_records_per_page hdr) p (bitmap_size hdr).

Definition set_num_pages (n : Z) (hdr : RmFileHdr) : RmFileHdr :=
  mkRmFileHdr (record_size hdr) n (num_records_per_page hdr) (first_free_page_no hdr)
              (bitmap_size hdr).

Definition set_page (p : Z) (pg : RmPage) (h : RmFileHandle) : RmFileHandle :=
  mkRmFileHandle (fd_ h) (file_hdr_ h) (<[p := pg]> (pages h)) (bpm_trace h) (new_page_ok h).

Definition log_event (e : Event) (h : RmFileHandle) : RmFileHandle :=
  mkRmFileHandle (fd_ h) (file_hdr_ h) (pages h) (bpm_trace h ++ [e]) (new_page_ok h).

Definition empty_page : RmPage := mkRmPage (mkRmPageHdr RM_NO_PAGE 0) [] [].

(** The page a handle points to. *)
Definition page_at (h : RmFileHandle) (p : Z) : RmPage := default empty_page (pages h !! p).

Definition set_next_free_page_no (n : Z) (pg : RmPage) : RmPage :=
  mkRmPage (mkRmPageHdr n (num_records (page_hdr pg))) (bitmap pg) (slots pg).

Definition set_num_records (n : Z) (pg : RmPage) : RmPage :=
  mkRmPage (mkRmPageHdr (next_free_page_no (page_hdr pg)) n) (bitmap pg) (slots pg).

Definition set_bitmap (bm : list bool) (pg : RmPage) : RmPage :=
  mkRmPage (page_hdr pg) bm (slots pg).

(** [memcpy(slot, buf, record_size)] into slot [i] of the page. *)
Definition write_slot (record_size : Z) (i : Z) (buf : list Z) (pg : RmPage) : RmPage :=
  if i <? 0 then pg
  else mkRmPage (page_hdr pg) (bitmap pg)
                (<[Z.to_nat i := take (Z.to_nat record_size) buf]> (slots pg)).

Definition get_slot (pg : RmPage) (i : Z) : list Z :=
  if i <? 0 then [] else default [] (slots pg !! Z.to_nat i).

Module Rm.

Definition unpin_page (p : Z) (is_dirty : bool) : M RmFileHandle unit :=
  modify (fun h => log_event (EvUnpinPage (mkPageId (fd_ h) p) is_dirty) h).

Definition update_page (p : Z) (f : RmPage -> RmPage) : M RmFileHandle unit :=
  modify (fun h => set_page p (f (page_at h p)) h).

(** [context->lock_mgr_->lock_shared_on_record(context->txn_, rid, fd_)],
    guarded by [context != nullptr && context->txn_ != nullptr]. *)
Definition lock_shared (context : option Context) (rid : Rid) : M RmFileHandle unit :=
  match context with
  | Some ctx =>
      match txn_ ctx with
      | Some t =>
          h <- get ;;
          modify (log_event (EvLockShared t rid (fd_ h))) ;;;
          if lock_shared_on_record (lock_mgr_ ctx) t rid (fd_ h) then ret tt
          else throw TransactionAbortException
      | None => ret tt
      end
  | None => ret tt
  end.

Definition lock_exclusive (context : option Context) (rid : Rid) : M RmFileHandle unit :=
  match context with
  | Some ctx =>
      match txn_ ctx with
      | Some t =>
          h <- get ;;
          modify (log_event (EvLockExclusive t rid (fd_ h))) ;;;
          if lock_exclusive_on_record (lock_mgr_ ctx) t rid (fd_ h) then ret tt
          else throw TransactionAbortException
      | None => ret tt
      end
  | None => ret tt
  end.

(** [RmFileHandle::fetch_page_handle]. The buffer pool returns [nullptr]
    when it has no frame for the page; here, when the page is not in
    [pages]. *)
Definition fetch_page_handle (page_no : Z) : M RmFileHandle Z :=
  h <- get ;;
  if (page_no >=? num_pages (file_hdr_ h)) || (page_no <? 0) then
    throw (PageNotExistError page_no)
  else
    match pages h !! page_no with
    | None => throw (PageNotExistError page_no)
    | Some _ =>
        modify (log_event (EvFetchPage (mkPageId (fd_ h) page_no))) ;;;
        ret page_no
    end.

(** [RmFileHandle::get_record]. *)
Definition get_record (rid : Rid) (context : option Context) : M RmFileHandle RmRecord :=
  page_handle <- fetch_page_handle (page_no rid) ;;
  h <- get ;;
  if negb (Bitmap.is_set (bitmap (page_at h page_handle)) (slot_no rid)) then
    throw (RecordNotFoundError (page_no rid) (slot_no rid))
  else
    lock_shared context rid ;;;
    h <- get ;;
    let record := take (Z.to_nat (record_size (file_hdr_ h)))
                       (get_slot (page_at h page_handle) (slot_no rid)) in
    match context with
    | Some _ => unpin_page (page_no rid) false
    | None => ret tt
    end ;;;
    ret record.

(** [RmFileHandle::create_new_page_handle]. [new_page] is asked for the
    page numbered [num_pages]; when the buffer pool has no frame for it the
    call returns [nullptr] and the function throws.  A request that is
    turned down pins nothing and is not listed in the trace. *)
Definition create_new_page_handle : M RmFileHandle Z :=
  h <- get ;;
  let new_page_no := num_pages (file_hdr_ h) in
  if negb (new_page_ok h (bpm_trace h)) then
    throw (InternalError "Failed to create new page")
  else
    modify (log_event (EvNewPage (mkPageId (fd_ h) new_page_no))) ;;;
    modify (set_page new_page_no
              (mkRmPage (mkRmPageHdr RM_NO_PAGE 0)
                        (Bitmap.init (bitmap_size (file_hdr_ h)))
                        (replicate (Z.to_nat (num_records_per_page (file_hdr_ h))) []))) ;;;
    modify (set_file_hdr (fun hdr => set_num_pages (num_pages hdr + 1) hdr)) ;;;
    h <- get ;;
    (if first_free_page_no (file_hdr_ h) =? RM_NO_PAGE then
       modify (set_file_hdr (set_first_free_page_no new_page_no))
     else ret tt) ;;;
    ret new_page_no.

(** [RmFileHandle::create_page_handle]. The C++ function calls itself when
    the head of the free list is full; [fuel] bounds that recursion. *)
Fixpoint create_page_handle (fuel : nat) : M RmFileHandle Z :=
  match fuel with
  | O => halt OutOfFuel
  | S fuel' =>
      h <- get ;;
      if first_free_page_no (file_hdr_ h) =? RM_NO_PAGE then
        create_new_page_handle
      else
        page_handle <- fetch_page_handle (first_free_page_no (file_hdr_ h)) ;;
        h <- get ;;
        let pg := page_at h page_handle in
        if num_records (page_hdr pg) =? num_records_per_page (file_hdr_ h) then
          modify (set_file_hdr (set_first_free_page_no (next_free_page_no (page_hdr pg)))) ;;;
          unpin_page page_handle false ;;;
          create_page_handle fuel'
        else ret page_handle
  end.

(** [RmFileHandle::insert_record(buf, context)]: insertion at a free slot. *)
Definition insert_record (fuel : nat) (buf : list Z) (context : option Context)
  : M RmFileHandle Rid :=
  page_handle <- create_page_handle fuel ;;
  h <- get ;;
  let slot_no := Bitmap.first_bit false (bitmap (page_at h page_handle))
                                  (num_records_per_page (file_hdr_ h)) in
  lock_exclusive context (mkRid page_handle slot_no) ;;;
  update_page page_handle (write_slot (record_size (file_hdr_ h)) slot_no buf) ;;;
  update_page page_handle (fun pg => set_bitmap (Bitmap.set (bitmap pg) slot_no) pg) ;;;
  update_page page_handle (fun pg => set_num_records (num_records (page_hdr pg) + 1) pg) ;;;
  h <- get ;;
  (if num_records (page_hdr (page_at h page_handle)) =? num_records_per_page (file_hdr_ h)
   then modify (set_file_hdr (set_first_free_page_no
                                (next_free_page_no (page_hdr (page_at h page_handle)))))
   else ret tt) ;;;
  match context with
  | Some _ => unpin_page page_handle true
  | None => ret tt
  end ;;;
  ret (mkRid page_handle slot_no).

(** [RmFileHandle::insert_record(rid, buf)]: insertion at a given position. *)
Definition insert_record_at (rid : Rid) (buf : list Z) : M RmFileHandle unit :=
  page_handle <- fetch_page_handle (page_no rid) ;;
  h <- get ;;
  if Bitmap.is_set (bitmap (page_at h page_handle)) (slot_no rid) then
    throw (InternalError "Slot is already occupied")
  else
    update_page page_handle (write_slot (record_size (file_hdr_ h)) (slot_no rid) buf) ;;;
    update_page page_handle (fun pg => set_bitmap (Bitmap.set (bitmap pg) (slot_no rid)) pg) ;;;
    update_page page_handle (fun pg => set_num_records (num_records (page_hdr pg) + 1) pg) ;;;
    unpin_page page_handle true.

(** [RmFileHandle::release_page_handle]. *)
Definition release_page_handle (page_handle : Z) : M RmFileHandle unit :=
  h <- get ;;
  if num_records (page_hdr (page_at h page_handle)) =? num_records_per_page (file_hdr_ h) - 1
  then
    update_page page_handle (set_next_free_page_no (first_free_page_no (file_hdr_ h))) ;;;
    modify (set_file_hdr (set_first_free_page_no page_handle)) ;;;
    unpin_page page_handle true
  else ret tt.

(** [RmFileHandle::delete_record]. *)
Definition delete_record (rid : Rid) (context : option Context) : M RmFileHandle unit :=
  page_handle <- fetch_page_handle (page_no rid) ;;
  h <- get ;;
  if negb (Bitmap.is_set (bitmap (page_at h page_handle)) (slot_no rid)) then
    throw (RecordNotFoundError (page_no rid) (slot_no rid))
  else
    lock_exclusive context rid ;;;
    update_page page_handle (fun pg => set_bitmap (Bitmap.reset (bitmap pg) (slot_no rid)) pg) ;;;
    update_page page_handle (fun pg => set_num_records (num_records (page_hdr pg) - 1) pg) ;;;
    release_page_handle page_handle ;;;
    match context with
    | Some _ => unpin_page page_handle true
    | None => ret tt
    end.

(** [RmFileHandle::update_record]. *)
Definition update_record (rid : Rid) (buf : list Z) (context : option Context)
  : M RmFileHandle unit :=
  page_handle <- fetch_page_handle (page_no rid) ;;
  h <- get ;;
  if negb (Bitmap.is_set (bitmap (page_at h page_handle)) (slot_no rid)) then
    throw (RecordNotFoundError (page_no rid) (slot_no rid))
  else
    lock_exclusive context rid ;;;
    update_page page_handle (write_slot (record_size (file_hdr_ h)) (slot_no rid) buf) ;;;
    match context with
    | Some _ => unpin_page page_handle true
    | None => ret tt
    end.

End Rm.

(** ** Column types, values and conditions ([defs.h], [common.h], [sm_meta.h]) *)

Inductive ColType : Type := TYPE_INT | TYPE_FLOAT | TYPE_STRING.

#[global] Instance ColType_eq_dec : EqDecision ColType.
Proof. solve_decision. Defined.

Definition coltype2str (t : ColType) : string :=
  match t with
  | TYPE_INT => "INT"
  | TYPE_FLOAT => "FLOAT"
  | TYPE_STRING => "STRING"
  end.

Inductive CompOp : Type := OP_EQ | OP_NE | OP_LT | OP_GT | OP_LE | OP_GE.

Module TabCol.
Record t : Type := mk { tab_name : string; col_name : string }.
End TabCol.

Module ColMeta.
Record t : Type := mk {
  tab_name : string;
  name : string;
  type : ColType;
  len : Z;
  offset : Z
}.
End ColMeta.

Module IndexMeta.
Record t : Type := mk {
  tab_name : string;
  col_tot_len : Z;
  col_num : Z;
  cols : list ColMeta.t
}.
End IndexMeta.

(** ** Fixed-width encodings *)

Module Enc.

Definition INT_MIN : Z := - 2 ^ 31.
Definition INT_MAX : Z := 2 ^ 31 - 1.

(** Little-endian image of the low [n] bytes of [z]. *)
Fixpoint le_bytes (n : nat) (z : Z) : list Z :=
  match n with
  | O => []
  | S n' => (z mod 256) :: le_bytes n' (z / 256)
  end.

Fixpoint le_value (bs : list Z) : Z :=
  match bs with
  | [] => 0
  | b :: bs' => b + 256 * le_value bs'
  end.

(** A C++ [int] stored in four bytes (two's complement). *)
Definition int_bytes (i : Z) : list Z := le_bytes 4 (i mod 2 ^ 32).

Definition wrap_int (u : Z) : Z := if u <? 2 ^ 31 then u else u - 2 ^ 32.

(** The [n] bytes at [p], reading zero past the end of the buffer. *)
Definition bytes_at (data : list Z) (p : Z) (n : nat) : list Z :=
  take n (drop (Z.to_nat p) data ++ replicate n 0).

(** [*(int * )p]. *)
Definition read_int (data : list Z) (p : Z) : Z :=
  wrap_int (le_value (bytes_at data p 4)).

(** IEEE 754 binary32, on the specification floats of the standard
    library with [prec = 24] and [emax = 128]. *)
Definition prec : Z := 24.
Definition emax : Z := 128.

Definition float_of_bits (u : Z) : spec_float :=
  let s := Z.testbit u 31 in
  let ex := (u / 2 ^ 23) mod 256 in
  let mant := u mod 2 ^ 23 in
  if ex =? 0 then
    match mant with
    | Zpos m => S754_finite s m (-149)
    | _ => S754_zero s
    end
  else if ex =? 255 then
    (if mant =? 0 then S754_infinity s else S754_nan)
  else
    match mant + 2 ^ 23 with
    | Zpos m => S754_finite s m (ex - 150)
    | _ => S754_nan
    end.

Definition bits_of_float (f : spec_float) : Z :=
  let sign (s : bool) := if s then 2 ^ 31 else 0 in
  match f with
  | S754_zero s => sign s
  | S754_infinity s => sign s + 255 * 2 ^ 23
  | S754_nan => 255 * 2 ^ 23 + 2 ^ 22
  | S754_finite s m e =>
      if Zpos m <? 2 ^ 23 then sign s + Zpos m
      else sign s + (e + 150) * 2 ^ 23 + (Zpos m - 2 ^ 23)
  end.

Definition float_bytes (f : spec_float) : list Z := le_bytes 4 (bits_of_float f).

(** [*(float * )p]. *)
Definition read_float (data : list Z) (p : Z) : spec_float :=
  float_of_bits (le_value (bytes_at data p 4)).

(** [static_cast<float>(int)]: round to nearest, ties to even. *)
Definition int_to_float (i : Z) : spec_float := binary_normalize prec emax i 0 false.

(** The integer part of a finite float, rounding toward zero. *)
Definition trunc_float (f : spec_float) : option Z :=
  match f with
  | S754_zero _ => Some 0
  | S754_finite s m e =>
      let a := if 0 <=? e then Zpos m * 2 ^ e else Zpos m / 2 ^ (- e) in
      Some (if s then - a else a)
  | _ => None
  end.

(** [static_cast<int>(float)].  The conversion is undefined in C++ when the
    truncated value does not fit an [int]; the model then returns the value
    the x86 conversion instruction delivers, [INT_MIN]. *)
Definition float_to_int (f : spec_float) : Z :=
  match trunc_float f with
  | Some v => if (INT_MIN <=? v) && (v <=? INT_MAX) then v else INT_MIN
  | None => INT_MIN
  end.

Definition string_bytes (s : string) : list Z :=
  map (fun c => Z.of_N (Ascii.N_of_ascii c)) (String.list_ascii_of_string s).

End Enc.

Module Value.

Record t : Type := mk {
  type : ColType;
  int_val : Z;
  float_val : spec_float;
  str_val : string;
  raw : option (list Z)       (* [std::shared_ptr<RmRecord> raw], null when [None] *)
}.

Definition empty : t := mk TYPE_INT 0 (S754_zero false) "" None.

Definition set_int (i : Z) (v : t) : t := mk TYPE_INT i (float_val v) (str_val v) (raw v).
Definition set_float (f : spec_float) (v : t) : t :=
  mk TYPE_FLOAT (int_val v) f (str_val v) (raw v).
Definition set_str (s : string) (v : t) : t :=
  mk TYPE_STRING (int_val v) (float_val v) s (raw v).
Definition set_raw (r : list Z) (v : t) : t :=
  mk (type v) (int_val v) (float_val v) (str_val v) (Some r).

(** What [init_raw] does with a string longer than the column. *)
Inductive Overlong : Type := Truncate | Reject.

(** The image of the value, placed in a zeroed buffer of [len] bytes. *)
Definition fit (len : Z) (bs : list Z) : list Z :=
  take (Z.to_nat len) (bs ++ replicate (Z.to_nat len) 0).

(** Modelled from the spec: [Value::init_raw] lives in [common.h], which is
    not part of the sources.  It "populates the raw buffer in the target
    column's on-disk encoding, zero-padding strings on the right and
    truncating or rejecting overlong strings"; which of the two it does
    with an overlong string is the parameter [ov]. *)
Definition init_raw (ov : Overlong) (len : Z) (v : t) : Exn + t :=
  match type v with
  | TYPE_INT => inr (set_raw (fit len (Enc.int_bytes (int_val v))) v)
  | TYPE_FLOAT => inr (set_raw (fit len (Enc.float_bytes (float_val v))) v)
  | TYPE_STRING =>
      let bs := Enc.string_bytes (str_val v) in
      match ov with
      | Reject =>
          if len <? Z.of_nat (length bs) then inl StringOverflowError
          else inr (set_raw (fit len bs) v)
      | Truncate => inr (set_raw (fit len bs) v)
      end
  end.

End Value.

Module Condition.
Record t : Type := mk {
  lhs_col : TabCol.t;
  op : CompOp;
  is_rhs_val : bool;
  rhs_col : TabCol.t;
  rhs_val : Value.t
}.
End Condition.

Module SetClause.
Record t : Type := mk { lhs : TabCol.t; rhs : Value.t }.
End SetClause.

(** ** Comparison of column values *)

Module Cmp.

(** Modelled from the spec: the [compare] helper of the executors is not
    part of the sources.  Numeric columns are decoded as native
    fixed-width numbers and the operator is applied; strings are compared
    as byte strings. *)
Definition of_comparison (c : comparison) (op : CompOp) : bool :=
  match op, c with
  | OP_EQ, Eq => true
  | OP_NE, (Lt | Gt) => true
  | OP_LT, Lt => true
  | OP_GT, Gt => true
  | OP_LE, (Lt | Eq) => true
  | OP_GE, (Gt | Eq) => true
  | _, _ => false
  end.

Definition compare_int (lhs rhs : Z) (op : CompOp) : bool :=
  of_comparison (lhs ?= rhs) op.

(** An unordered pair (a NaN operand) satisfies [!=] only. *)
Definition compare_float (lhs rhs : spec_float) (op : CompOp) : bool :=
  match SFcompare lhs rhs with
  | Some c => of_comparison c op
  | None => match op with OP_NE => true | _ => false end
  end.

Fixpoint lex (l r : list Z) : comparison :=
  match l, r with
  | [], [] => Eq
  | [], _ :: _ => Lt
  | _ :: _, [] => Gt
  | a :: l', b :: r' =>
      match a ?= b with
      | Eq => lex l' r'
      | c => c
      end
  end.

Definition compare_string (lhs rhs : list Z) (op : CompOp) : bool :=
  of_comparison (lex lhs rhs) op.

End Cmp.

(** ** Table scan: [RmScan] ([rm_scan.cpp]) *)

Module RmScan.

(** The scan object holds [rid_]; [file_handle_] points to the file handle
    the computation runs on. *)
Record t : Type := mk { rid_ : Rid }.

(** The inner loop of [next]: the first set bit at or after [next_slot]
    and below [num_records_per_page]; [n] counts the remaining slots. *)
Fixpoint find_slot (bm : list bool) (next_slot : Z) (n : nat) : option Z :=
  match n with
  | O => None
  | S n' => if Bitmap.is_set bm next_slot then Some next_slot
            else find_slot bm (next_slot + 1) n'
  end.

(** The outer loop of [next]; [n] is [num_pages - rid_.page_no], so the
    loop condition [rid_.page_no < num_pages] holds exactly when [n] is
    positive.  The page handle fetched in each round is never unpinned. *)
Fixpoint next_loop (n : nat) (rid : Rid) : M RmFileHandle Rid :=
  match n with
  | O => h <- get ;; ret (mkRid (num_pages (file_hdr_ h)) 0)
  | S n' =>
      page_handle <- Rm.fetch_page_handle (page_no rid) ;;
      h <- get ;;
      let next_slot := slot_no rid + 1 in
      match find_slot (bitmap (page_at h page_handle)) next_slot
                      (Z.to_nat (num_records_per_page (file_hdr_ h) - next_slot)) with
      | Some s => ret (mkRid (page_no rid) s)
      | None => next_loop n' (mkRid (page_no rid + 1) (-1))
      end
  end.

(** [RmScan::next]. *)
Definition next (scan : t) : M RmFileHandle t :=
  h <- get ;;
  rid <- next_loop (Z.to_nat (num_pages (file_hdr_ h) - page_no (rid_ scan))) (rid_ scan) ;;
  ret (mk rid).

(** The constructor [RmScan::RmScan]. *)
Definition new : M RmFileHandle t := next (mk (mkRid RM_FIRST_RECORD_PAGE (-1))).

(** [RmScan::is_end]. *)
Definition is_end (scan : t) (h : RmFileHandle) : bool :=
  page_no (rid_ scan) >=? num_pages (file_hdr_ h).

Definition rid (scan : t) : Rid := rid_ scan.

End RmScan.

(** ** Sequential scan executor ([executor_seq_scan.h]) *)

Module SeqScanExecutor.

Record t : Type := mk {
  tab_name_ : string;
  conds_ : list Condition.t;
  cols_ : list ColMeta.t;
  len_ : Z;
  rid_ : Rid;
  scan_ : option RmScan.t;     (* [std::unique_ptr<RecScan>], null before [beginTuple] *)
  context_ : option Context
}.

(** The executor and the file handle [fh_] points to. *)
Record state : Type := mkState { self : t; fh_ : RmFileHandle }.

Definition on_fh {A} (m : M RmFileHandle A) : M state A :=
  zoom fh_ (fun h s => mkState (self s) h) m.

Definition set_rid (r : Rid) (s : state) : state :=
  let e := self s in
  mkState (mk (tab_name_ e) (conds_ e) (cols_ e) (len_ e) r (scan_ e) (context_ e)) (fh_ s).

Definition set_scan (sc : RmScan.t) (s : state) : state :=
  let e := self s in
  mkState (mk (tab_name_ e) (conds_ e) (cols_ e) (len_ e) (rid_ e) (Some sc) (context_ e))
          (fh_ s).

(** Modelled from the spec: [AbstractExecutor::get_col] is not part of the
    sources; it finds the column named by a [TabCol] among the columns of
    the executor and fails with [ColumnNotFound] when there is none. *)
Fixpoint get_col (rec_cols : list ColMeta.t) (target : TabCol.t) : Exn + ColMeta.t :=
  match rec_cols with
  | [] => inl (ColumnNotFoundError
                 (TabCol.tab_name target +:+ "." +:+ TabCol.col_name target))
  | col :: rest =>
      if bool_decide (ColMeta.tab_name col = TabCol.tab_name target)
         && bool_decide (ColMeta.name col = TabCol.col_name target)
      then inr col else get_col rest target
  end.

(** One round of the loop over [conds_] in [nextTuple]. *)
Definition eval_cond (cols : list ColMeta.t) (rec : RmRecord) (cond : Condition.t)
  : M state bool :=
  match get_col cols (Condition.lhs_col cond) with
  | inl e => throw e
  | inr lhs_col =>
      match Value.raw (Condition.rhs_val cond) with
      | None => halt NullDeref
      | Some rhs_val =>
          ret
            match ColMeta.type lhs_col with
            | TYPE_INT =>
                Cmp.compare_int (Enc.read_int rec (ColMeta.offset lhs_col))
                                (Enc.read_int rhs_val 0) (Condition.op cond)
            | TYPE_FLOAT =>
                Cmp.compare_float (Enc.read_float rec (ColMeta.offset lhs_col))
                                  (Enc.read_float rhs_val 0) (Condition.op cond)
            | TYPE_STRING =>
                Cmp.compare_string
                  (Enc.bytes_at rec (ColMeta.offset lhs_col)
                                (Z.to_nat (ColMeta.len lhs_col)))
                  rhs_val (Condition.op cond)
            end
      end
  end.

(** The loop over [conds_]: stops at the first condition that fails. *)
Fixpoint eval_conds (cols : list ColMeta.t) (rec : RmRecord) (conds : list Condition.t)
  : M state bool :=
  match conds with
  | [] => ret true
  | cond :: rest =>
      res <- eval_cond cols rec cond ;;
      if res then eval_conds cols rec rest else ret false
  end.

Definition the_scan : M state RmScan.t :=
  s <- get ;;
  match scan_ (self s) with
  | Some sc => ret sc
  | None => halt NullDeref
  end.

(** The [while] loop of [nextTuple]; every round that does not return
    advances the scan, and [fuel] bounds the number of rounds. *)
Fixpoint nextTuple_loop (fuel : nat) : M state unit :=
  match fuel with
  | O => halt OutOfFuel
  | S fuel' =>
      sc <- the_scan ;;
      s <- get ;;
      if RmScan.is_end sc (fh_ s) then ret tt
      else
        modify (set_rid (RmScan.rid sc)) ;;;
        rec <- on_fh (Rm.get_record (RmScan.rid sc) (context_ (self s))) ;;
        satisfies <- eval_conds (cols_ (self s)) rec (conds_ (self s)) ;;
        if satisfies then ret tt
        else
          sc' <- on_fh (RmScan.next sc) ;;
          modify (set_scan sc') ;;;
          nextTuple_loop fuel'
  end.

(** A scan visits at most [num_pages * num_records_per_page] slots and one
    end position. *)
Definition scan_fuel (h : RmFileHandle) : nat :=
  S (Z.to_nat (num_pages (file_hdr_ h) * (num_records_per_page (file_hdr_ h) + 1))).

(** [SeqScanExecutor::nextTuple]. *)
Definition nextTuple : M state unit :=
  s <- get ;;
  nextTuple_loop (scan_fuel (fh_ s)).

(** [SeqScanExecutor::beginTuple]. *)
Definition beginTuple : M state unit :=
  sc <- on_fh RmScan.new ;;
  modify (set_scan sc) ;;;
  nextTuple.

(** [SeqScanExecutor::Next]; [None] is the null record pointer. *)
Definition Next : M state (option RmRecord) :=
  sc <- the_scan ;;
  s <- get ;;
  if RmScan.is_end sc (fh_ s) then ret None
  else
    rec <- on_fh (Rm.get_record (rid_ (self s)) (context_ (self s))) ;;
    sc' <- on_fh (RmScan.next sc) ;;
    modify (set_scan sc') ;;;
    ret (Some rec).

Definition rid (s : state) : Rid := rid_ (self s).

Definition is_end : M state bool :=
  sc <- the_scan ;;
  s <- get ;;
  ret (RmScan.is_end sc (fh_ s)).

End SeqScanExecutor.

(** ** Write-ahead log ([log_manager.cpp]) *)

Definition INVALID_LSN : Z := -1.

(** Modelled from the spec: the integer types [lsn_t], [txn_id_t] and
    [timestamp_t] of the counters are declared in a header that is not part
    of the sources.  The log header stores an LSN and a transaction id as
    [i64]; the counters are taken to be 64-bit two's-complement integers,
    and an increment past the largest value wraps around to the smallest. *)
Module Counter.

Definition MIN : Z := - 2 ^ 63.
Definition MAX : Z := 2 ^ 63 - 1.

Definition wrap (z : Z) : Z := (z + 2 ^ 63) mod 2 ^ 64 - 2 ^ 63.

(** The value of the counter after [++]. *)
Definition succ (z : Z) : Z := wrap (z + 1).

End Counter.

Module LogRecord.

Inductive LogType : Type := UPDATE | INSERT | DELETE | BEGIN | COMMIT | ABORT.

Record t : Type := mk {
  log_type_ : LogType;
  lsn_ : Z;
  log_tot_len_ : Z;
  log_tid_ : Z;
  prev_lsn_ : Z;
  payload : list Z
}.

Definition set_lsn (l : Z) (r : t) : t :=
  mk (log_type_ r) l (log_tot_len_ r) (log_tid_ r) (prev_lsn_ r) (payload r).

Definition set_prev_lsn (l : Z) (r : t) : t :=
  mk (log_type_ r) (lsn_ r) (log_tot_len_ r) (log_tid_ r) l (payload r).

Definition type_tag (ty : LogType) : Z :=
  match ty with
  | UPDATE => 0 | INSERT => 1 | DELETE => 2 | BEGIN => 3 | COMMIT => 4 | ABORT => 5
  end.

(** Modelled from the spec: the log record classes live in
    [log_manager.h], which is not part of the sources.  A serialized
    record begins with the fixed header
    [{log_type: u8, lsn: i64, log_tot_len: u32, txn_id: i64, prev_lsn: i64}],
    followed by a payload that depends on the type. *)
Definition LOG_HEADER_SIZE : Z := 1 + 8 + 4 + 8 + 8.

Definition serialize (r : t) : list Z :=
  Enc.le_bytes 1 (type_tag (log_type_ r))
    ++ Enc.le_bytes 8 (lsn_ r mod 2 ^ 64)
    ++ Enc.le_bytes 4 (log_tot_len_ r mod 2 ^ 32)
    ++ Enc.le_bytes 8 (log_tid_ r mod 2 ^ 64)
    ++ Enc.le_bytes 8 (prev_lsn_ r mod 2 ^ 64)
    ++ payload r.

(** [BeginLogRecord(txn_id)], [CommitLogRecord(txn_id)] and
    [AbortLogRecord(txn_id)]: header-only records. *)
Definition header_only (ty : LogType) (txn_id : Z) : t :=
  mk ty INVALID_LSN LOG_HEADER_SIZE txn_id INVALID_LSN [].

Definition BeginLogRecord := header_only BEGIN.
Definition CommitLogRecord := header_only COMMIT.
Definition AbortLogRecord := header_only ABORT.

(** The serialized form has the length the record announces. *)
Definition wf (r : t) : Prop :=
  log_tot_len_ r = LOG_HEADER_SIZE + Z.of_nat (length (payload r)).

End LogRecord.

(** The disk manager is a contract only: [write_log] appends to the log
    file, or fails with a [UnixError] when the file cannot be written. *)
Module DiskManager.

Record t : Type := mk {
  log_file : list Z;
  log_writable : bool
}.

Definition write_log (data : list Z) : M t unit :=
  fun d =>
    if log_writable d then Returned tt (mk (log_file d ++ data) (log_writable d))
    else Threw UnixError d.

End DiskManager.

Module LogBuffer.

(** [LOG_BUFFER_SIZE] is a constant of [log_manager.h], which is not part
    of the sources; it is kept with the buffer it dimensions. *)
Record t : Type := mk {
  LOG_BUFFER_SIZE : Z;
  buffer_ : list Z;
  offset_ : Z
}.

(** Modelled from the spec: [is_full] holds when "the in-memory buffer
    cannot hold the serialized record". *)
Definition is_full (append_size : Z) (b : t) : bool :=
  offset_ b + append_size >? LOG_BUFFER_SIZE b.

Definition set_offset (o : Z) (b : t) : t := mk (LOG_BUFFER_SIZE b) (buffer_ b) o.

(** Bytes [img] written at position [offset_]. *)
Definition write (img : list Z) (b : t) : t :=
  let off := Z.to_nat (offset_ b) in
  mk (LOG_BUFFER_SIZE b)
     (take off (buffer_ b) ++ img ++ drop (off + length img) (buffer_ b))
     (offset_ b).

Definition zero (b : t) : t :=
  mk (LOG_BUFFER_SIZE b) (replicate (Z.to_nat (LOG_BUFFER_SIZE b)) 0) (offset_ b).

End LogBuffer.

Module LogManager.

Record t : Type := mk {
  global_lsn_ : Z;
  persist_lsn_ : Z;
  log_buffer_ : LogBuffer.t;
  latch_ : bool;                (* [true] while the running thread owns it *)
  disk_manager_ : DiskManager.t
}.

Definition set_global_lsn (l : Z) (m : t) : t :=
  mk l (persist_lsn_ m) (log_buffer_ m) (latch_ m) (disk_manager_ m).
Definition set_persist_lsn (l : Z) (m : t) : t :=
  mk (global_lsn_ m) l (log_buffer_ m) (latch_ m) (disk_manager_ m).
Definition set_log_buffer (f : LogBuffer.t -> LogBuffer.t) (m : t) : t :=
  mk (global_lsn_ m) (persist_lsn_ m) (f (log_buffer_ m)) (latch_ m) (disk_manager_ m).
Definition set_latch (b : bool) (m : t) : t :=
  mk (global_lsn_ m) (persist_lsn_ m) (log_buffer_ m) b (disk_manager_ m).
Definition set_disk (d : DiskManager.t) (m : t) : t :=
  mk (global_lsn_ m) (persist_lsn_ m) (log_buffer_ m) (latch_ m) d.

(** [std::unique_lock<std::mutex> lock(latch_)] around [body].  The mutex
    is not recursive: a thread that locks it while owning it never gets
    past the lock.  The lock is released when the scope is left, by return
    or by exception. *)
Definition with_latch {A} (body : M t A) : M t A :=
  fun m =>
    if latch_ m then Halted SelfDeadlock m
    else
      match body (set_latch true m) with
      | Returned a m' => Returned a (set_latch false m')
      | Threw e m' => Threw e (set_latch false m')
      | Halted h m' => Halted h m'
      end.

(** [LogManager::flush_log_to_disk]. *)
Definition flush_log_to_disk : M t unit :=
  with_latch
    (m <- get ;;
     if LogBuffer.offset_ (log_buffer_ m) =? 0 then ret tt
     else
       zoom disk_manager_ set_disk
            (DiskManager.write_log
               (take (Z.to_nat (LogBuffer.offset_ (log_buffer_ m)))
                     (LogBuffer.buffer_ (log_buffer_ m)))) ;;;
       modify (fun m => set_persist_lsn (global_lsn_ m) m) ;;;
       modify (set_log_buffer LogBuffer.zero) ;;;
       modify (set_log_buffer (LogBuffer.set_offset 0))).

(** [LogManager::add_log_to_buffer]; returns the LSN and the record as
    the call leaves it (with [lsn_] assigned). *)
Definition add_log_to_buffer (log_record : LogRecord.t) : M t (Z * LogRecord.t) :=
  with_latch
    (modify (fun m => set_global_lsn (Counter.succ (global_lsn_ m)) m) ;;;
     m <- get ;;
     let log_record := LogRecord.set_lsn (global_lsn_ m) log_record in
     (if LogBuffer.is_full (LogRecord.log_tot_len_ log_record) (log_buffer_ m) then
        flush_log_to_disk ;;;
        modify (set_log_buffer (LogBuffer.set_offset 0))
      else ret tt) ;;;
     modify (set_log_buffer (LogBuffer.write (LogRecord.serialize log_record))) ;;;
     modify (set_log_buffer
               (fun b => LogBuffer.set_offset
                           (LogBuffer.offset_ b + LogRecord.log_tot_len_ log_record) b)) ;;;
     ret (LogRecord.lsn_ log_record, log_record)).

End LogManager.

(** ** Transactions ([transaction.h], [txn_defs.h]) *)

Inductive TransactionState : Type := DEFAULT | GROWING | SHRINKING | COMMITTED | ABORTED.

#[global] Instance TransactionState_eq_dec : EqDecision TransactionState.
Proof. solve_decision. Defined.

Inductive WType : Type := INSERT_TUPLE | DELETE_TUPLE | UPDATE_TUPLE.

Module WriteRecord.
(** [record_] is the saved image: the deleted bytes of a [DELETE_TUPLE],
    the before-image of an [UPDATE_TUPLE]. *)
Record t : Type := mk {
  wtype_ : WType;
  tab_name_ : string;
  rid_ : Rid;
  record_ : RmRecord
}.
End WriteRecord.

Inductive LockDataType : Type := TABLE | RECORD.

Module LockDataId.
Record t : Type := mk { fd_ : Z; rid_ : Rid; type_ : LockDataType }.
End LockDataId.

Module Transaction.

Record t : Type := mk {
  txn_id_ : Z;
  state_ : TransactionState;
  start_ts_ : Z;
  prev_lsn_ : Z;
  write_set_ : list WriteRecord.t;
  lock_set_ : list LockDataId.t;
  index_latch_page_set_ : list Z;
  index_deleted_page_set_ : list Z
}.

(** The constructor [Transaction(txn_id)]. *)
Definition new (txn_id : Z) : t := mk txn_id DEFAULT 0 INVALID_LSN [] [] [] [].

Definition set_state (st : TransactionState) (x : t) : t :=
  mk (txn_id_ x) st (start_ts_ x) (prev_lsn_ x) (write_set_ x) (lock_set_ x)
     (index_latch_page_set_ x) (index_deleted_page_set_ x).
Definition set_start_ts (ts : Z) (x : t) : t :=
  mk (txn_id_ x) (state_ x) ts (prev_lsn_ x) (write_set_ x) (lock_set_ x)
     (index_latch_page_set_ x) (index_deleted_page_set_ x).
Definition set_prev_lsn (l : Z) (x : t) : t :=
  mk (txn_id_ x) (state_ x) (start_ts_ x) l (write_set_ x) (lock_set_ x)
     (index_latch_page_set_ x) (index_deleted_page_set_ x).
Definition append_write_record (w : WriteRecord.t) (x : t) : t :=
  mk (txn_id_ x) (state_ x) (start_ts_ x) (prev_lsn_ x) (write_set_ x ++ [w]) (lock_set_ x)
     (index_latch_page_set_ x) (index_deleted_page_set_ x).
(** [write_set->clear()], [lock_set->clear()] and the two page sets. *)
Definition clear_sets (x : t) : t :=
  mk (txn_id_ x) (state_ x) (start_ts_ x) (prev_lsn_ x) [] [] [] [].

End Transaction.

(** ** Transaction manager ([transaction_manager.cpp]) *)

Module TransactionManager.

(** The objects the transaction manager works on: the heap of
    [Transaction] objects (by address), the static [txn_map] from
    transaction id to address, the counters and latch of the manager, the
    file handles [sm_manager_->fhs_], the log manager a non-null
    [log_manager] argument points to, and the [unlock] calls made to the
    lock manager. *)
Record state : Type := mkState {
  heap : gmap Z Transaction.t;
  brk : Z;                                 (* the next free address *)
  txn_map : gmap Z Z;
  next_txn_id_ : Z;
  next_timestamp_ : Z;
  latch_ : bool;
  fhs_ : gmap string RmFileHandle;
  log : LogManager.t;
  unlocked : list (Z * LockDataId.t)
}.

Definition set_heap (f : gmap Z Transaction.t -> gmap Z Transaction.t) (s : state) : state :=
  mkState (f (heap s)) (brk s) (txn_map s) (next_txn_id_ s) (next_timestamp_ s) (latch_ s)
          (fhs_ s) (log s) (unlocked s).
Definition set_brk (b : Z) (s : state) : state :=
  mkState (heap s) b (txn_map s) (next_txn_id_ s) (next_timestamp_ s) (latch_ s)
          (fhs_ s) (log s) (unlocked s).
Definition set_txn_map (f : gmap Z Z -> gmap Z Z) (s : state) : state :=
  mkState (heap s) (brk s) (f (txn_map s)) (next_txn_id_ s) (next_timestamp_ s) (latch_ s)
          (fhs_ s) (log s) (unlocked s).
Definition set_next_txn_id (n : Z) (s : state) : state :=
  mkState (heap s) (brk s) (txn_map s) n (next_timestamp_ s) (latch_ s)
          (fhs_ s) (log s) (unlocked s).
Definition set_next_timestamp (n : Z) (s : state) : state :=
  mkState (heap s) (brk s) (txn_map s) (next_txn_id_ s) n (latch_ s)
          (fhs_ s) (log s) (unlocked s).
Definition set_latch (b : bool) (s : state) : state :=
  mkState (heap s) (brk s) (txn_map s) (next_txn_id_ s) (next_timestamp_ s) b
          (fhs_ s) (log s) (unlocked s).
Definition set_fh (tab : string) (h : RmFileHandle) (s : state) : state :=
  mkState (heap s) (brk s) (txn_map s) (next_txn_id_ s) (next_timestamp_ s) (latch_ s)
          (<[tab := h]> (fhs_ s)) (log s) (unlocked s).
Definition set_log (l : LogManager.t) (s : state) : state :=
  mkState (heap s) (brk s) (txn_map s) (next_txn_id_ s) (next_timestamp_ s) (latch_ s)
          (fhs_ s) l (unlocked s).
Definition add_unlocked (u : Z * LockDataId.t) (s : state) : state :=
  mkState (heap s) (brk s) (txn_map s) (next_txn_id_ s) (next_timestamp_ s) (latch_ s)
          (fhs_ s) (log s) (unlocked s ++ [u]).

Definition on_log {A} (m : M LogManager.t A) : M state A := zoom log set_log m.

(** Dereference of a [Transaction] pointer. *)
Definition deref (txn : Z) : M state Transaction.t :=
  s <- get ;;
  match heap s !! txn with
  | Some x => ret x
  | None => halt NullDeref
  end.

(** A member call that updates the object behind a [Transaction] pointer. *)
Definition update_txn (txn : Z) (f : Transaction.t -> Transaction.t) : M state unit :=
  x <- deref txn ;;
  modify (set_heap (fun hp => <[txn := f x]> hp)).

(** [new Transaction(txn_id)]. *)
Definition new_transaction (txn_id : Z) : M state Z :=
  s <- get ;;
  let a := brk s in
  modify (set_heap (fun hp => <[a := Transaction.new txn_id]> hp)) ;;;
  modify (set_brk (a + 1)) ;;;
  ret a.

(** [std::unique_lock<std::mutex> lock(latch_)] around [body]. *)
Definition with_latch {A} (body : M state A) : M state A :=
  fun s =>
    if latch_ s then Halted SelfDeadlock s
    else
      match body (set_latch true s) with
      | Returned a s' => Returned a (set_latch false s')
      | Threw e s' => Threw e (set_latch false s')
      | Halted h s' => Halted h s'
      end.

(** [TransactionManager::begin]; [txn = None] is the null pointer, and
    [log_manager] tells whether the log-manager pointer is non-null. *)
Definition begin (txn : option Z) (log_manager : bool) : M state Z :=
  txn <- match txn with
         | None =>
             s <- get ;;
             let txn_id := next_txn_id_ s in
             modify (set_next_txn_id (Counter.succ txn_id)) ;;;
             txn <- new_transaction txn_id ;;
             update_txn txn (Transaction.set_state GROWING) ;;;
             s <- get ;;
             update_txn txn (Transaction.set_start_ts (next_timestamp_ s)) ;;;
             modify (set_next_timestamp (Counter.succ (next_timestamp_ s))) ;;;
             (if log_manager then
                let begin_log :=
                  LogRecord.set_prev_lsn INVALID_LSN (LogRecord.BeginLogRecord txn_id) in
                r <- on_log (LogManager.add_log_to_buffer begin_log) ;;
                update_txn txn (Transaction.set_prev_lsn (fst r))
              else ret tt) ;;;
             ret txn
         | Some txn => ret txn
         end ;;
  with_latch
    (x <- deref txn ;;
     modify (set_txn_map (fun m => <[Transaction.txn_id_ x := txn]> m))) ;;;
  ret txn.

(** Modelled from the spec: [LockManager::unlock] is an external
    collaborator.  Releasing a lock moves a [GROWING] transaction to
    [SHRINKING]; the call is recorded. *)
Definition unlock (txn : Z) (lock_data_id : LockDataId.t) : M state unit :=
  update_txn txn (fun x => match Transaction.state_ x with
                           | GROWING => Transaction.set_state SHRINKING x
                           | _ => x
                           end) ;;;
  modify (add_unlocked (txn, lock_data_id)).

Fixpoint unlock_all (txn : Z) (lock_set : list LockDataId.t) : M state unit :=
  match lock_set with
  | [] => ret tt
  | lock_data_id :: rest => unlock txn lock_data_id ;;; unlock_all txn rest
  end.

(** [TransactionManager::commit]. *)
Definition commit (txn : Z) (log_manager : bool) : M state unit :=
  x <- deref txn ;;
  if bool_decide (Transaction.state_ x = COMMITTED) then halt AssertFailed
  else
    unlock_all txn (Transaction.lock_set_ x) ;;;
    update_txn txn Transaction.clear_sets ;;;
    (if log_manager then
       x <- deref txn ;;
       let commit_log :=
         LogRecord.set_prev_lsn (Transaction.prev_lsn_ x)
                                (LogRecord.CommitLogRecord (Transaction.txn_id_ x)) in
       r <- on_log (LogManager.add_log_to_buffer commit_log) ;;
       update_txn txn (Transaction.set_prev_lsn (fst r)) ;;;
       on_log LogManager.flush_log_to_disk
     else ret tt) ;;;
    update_txn txn (Transaction.set_state COMMITTED).

(** A member call on [sm_manager_->fhs_[tab_name].get()]; the subscript
    yields a null pointer for a table without a file handle. *)
Definition on_fh {A} (tab_name : string) (m : M RmFileHandle A) : M state A :=
  fun s =>
    match fhs_ s !! tab_name with
    | None => Halted NullDeref s
    | Some h => zoom (fun _ => h) (set_fh tab_name) m s
    end.

(** One round of the rollback loop of [abort]. *)
Definition undo (fuel : nat) (write_record : WriteRecord.t) : M state unit :=
  let tab := WriteRecord.tab_name_ write_record in
  match WriteRecord.wtype_ write_record with
  | INSERT_TUPLE =>
      on_fh tab (Rm.delete_record (WriteRecord.rid_ write_record) None)
  | DELETE_TUPLE =>
      on_fh tab (Rm.insert_record fuel (WriteRecord.record_ write_record) None) ;;; ret tt
  | UPDATE_TUPLE =>
      on_fh tab (Rm.update_record (WriteRecord.rid_ write_record)
                                  (WriteRecord.record_ write_record) None)
  end.

Fixpoint undo_all (fuel : nat) (ws : list WriteRecord.t) : M state unit :=
  match ws with
  | [] => ret tt
  | write_record :: rest => undo fuel write_record ;;; undo_all fuel rest
  end.

(** [TransactionManager::abort]; [fuel] bounds the recursion of
    [create_page_handle] inside the re-insertions. *)
Definition abort (fuel : nat) (txn : Z) (log_manager : bool) : M state unit :=
  x <- deref txn ;;
  undo_all fuel (rev (Transaction.write_set_ x)) ;;;
  unlock_all txn (Transaction.lock_set_ x) ;;;
  update_txn txn Transaction.clear_sets ;;;
  (if log_manager then
     x <- deref txn ;;
     let abort_log :=
       LogRecord.set_prev_lsn (Transaction.prev_lsn_ x)
                              (LogRecord.AbortLogRecord (Transaction.txn_id_ x)) in
     r <- on_log (LogManager.add_log_to_buffer abort_log) ;;
     update_txn txn (Transaction.set_prev_lsn (fst r)) ;;;
     on_log LogManager.flush_log_to_disk
   else ret tt) ;;;
  update_txn txn (Transaction.set_state ABORTED).

End TransactionManager.

(** ** Catalogue ([sm_meta.h]) *)

(** Computations that only fail: [Exn + A]. *)
Definition rbind {A B} (m : Exn + A) (k : A -> Exn + B) : Exn + B :=
  match m with
  | inl e => inl e
  | inr a => k a
  end.

Declare Scope r_scope.
Delimit Scope r_scope with R.
Notation "x <-! m ;; k" := (rbind m (fun x => k))
  (at level 100, m at next level, right associativity) : r_scope.
Local Open Scope r_scope.

(** [for (auto &x : xs) body(x)], collecting the updated elements. *)
Fixpoint rmap {A B} (f : A -> Exn + B) (xs : list A) : Exn + list B :=
  match xs with
  | [] => inr []
  | x :: rest =>
      y <-! f x ;;
      ys <-! rmap f rest ;;
      inr (y :: ys)
  end.

Module TabMeta.

Record t : Type := mk {
  name : string;
  cols : list ColMeta.t;
  indexes : list IndexMeta.t
}.

(** Modelled from the spec: [TabMeta::get_col] is not part of the
    sources; it returns the column of that name and fails with
    [ColumnNotFound] when the table has none. *)
Fixpoint find_col (cols : list ColMeta.t) (col_name : string) : Exn + ColMeta.t :=
  match cols with
  | [] => inl (ColumnNotFoundError col_name)
  | col :: rest =>
      if bool_decide (ColMeta.name col = col_name) then inr col
      else find_col rest col_name
  end.

Definition get_col (tab : t) (col_name : string) : Exn + ColMeta.t :=
  find_col (cols tab) col_name.

End TabMeta.

Module DbMeta.

Record t : Type := mk { name_ : string; tabs_ : gmap string TabMeta.t }.

(** Modelled from the spec: [DbMeta::is_table] and [DbMeta::get_table] are
    not part of the sources; [get_table] fails with [TableNotFound]. *)
Definition is_table (db : t) (tab_name : string) : bool :=
  bool_decide (is_Some (tabs_ db !! tab_name)).

Definition get_table (db : t) (tab_name : string) : Exn + TabMeta.t :=
  match tabs_ db !! tab_name with
  | Some tab => inr tab
  | None => inl (TableNotFoundError tab_name)
  end.

End DbMeta.

(** ** Parse tree ([ast.h]) *)

Module ast.

Inductive SvCompOp : Type := SV_OP_EQ | SV_OP_NE | SV_OP_LT | SV_OP_GT | SV_OP_LE | SV_OP_GE.

Inductive Value : Type :=
  | IntLit (val : Z)
  | FloatLit (val : spec_float)
  | StringLit (val : string)
  | BoolLit (val : bool).

Record Col : Type := mkCol { tab_name : string; col_name : string }.

Inductive Expr : Type :=
  | EValue (v : Value)
  | ECol (c : Col).

Record BinaryExpr : Type := mkBinaryExpr { lhs : Col; op : SvCompOp; rhs : Expr }.

Record SetClause : Type := mkSetClause { set_col_name : string; val : Expr }.

Inductive TreeNode : Type :=
  | SelectStmt (cols : list Col) (tabs : list string) (conds : list BinaryExpr)
  | UpdateStmt (tab_name : string) (set_clauses : list SetClause) (conds : list BinaryExpr)
  | DeleteStmt (tab_name : string) (conds : list BinaryExpr)
  | InsertStmt (tab_name : string) (vals : list Value)
  | OtherStmt.

End ast.

(** ** Analyzer ([analyze.cpp]) *)

Module Query.
Record t : Type := mk {
  parse : option ast.TreeNode;
  conds : list Condition.t;
  cols : list TabCol.t;
  tables : list string;
  set_clauses : list SetClause.t;
  values : list Value.t
}.
End Query.

Module Analyze.

Section WithCatalogue.

(** [sm_manager_->db_], and the treatment of overlong strings by
  [init_raw]. *)
Variable db_ : DbMeta.t.
Variable ov : Value.Overlong.

(** The scan of [all_cols] in [check_column]; [tab_name] is the table
  inferred so far. *)
Fixpoint infer_tab_name (all_cols : list ColMeta.t) (col_name : string) (tab_name : string)
: Exn + string :=
match all_cols with
| [] => inr tab_name
| col :: rest =>
    if bool_decide (ColMeta.name col = col_name) then
      if negb (bool_decide (tab_name = "")) then inl (AmbiguousColumnError col_name)
      else infer_tab_name rest col_name (ColMeta.tab_name col)
    else infer_tab_name rest col_name tab_name
end.

(** [Analyze::check_column]. *)
Definition check_column (all_cols : list ColMeta.t) (target : TabCol.t) : Exn + TabCol.t :=
if bool_decide (TabCol.tab_name target = "") then
  tab_name <-! infer_tab_name all_cols (TabCol.col_name target) "" ;;
  if bool_decide (tab_name = "") then inl (ColumnNotFoundError (TabCol.col_name target))
  else inr (TabCol.mk tab_name (TabCol.col_name target))
else
  (* TODO in the source: make sure the target column exists *)
  inr target.

(** [Analyze::get_all_cols]. *)
Fixpoint get_all_cols (tab_names : list string) : Exn + list ColMeta.t :=
match tab_names with
| [] => inr []
| sel_tab_name :: rest =>
    tab <-! DbMeta.get_table db_ sel_tab_name ;;
    all_cols <-! get_all_cols rest ;;
    inr (TabMeta.cols tab ++ all_cols)
end.

(** [Analyze::convert_sv_value]. *)
Definition convert_sv_value (sv_val : ast.Value) : Exn + Value.t :=
match sv_val with
| ast.IntLit v => inr (Value.set_int v Value.empty)
| ast.FloatLit v => inr (Value.set_float v Value.empty)
| ast.StringLit v => inr (Value.set_str v Value.empty)
| _ => inl (InternalError "Unexpected sv value type")
end.

(** [Analyze::convert_sv_comp_op]. *)
Definition convert_sv_comp_op (op : ast.SvCompOp) : CompOp :=
match op with
| ast.SV_OP_EQ => OP_EQ | ast.SV_OP_NE => OP_NE | ast.SV_OP_LT => OP_LT
| ast.SV_OP_GT => OP_GT | ast.SV_OP_LE => OP_LE | ast.SV_OP_GE => OP_GE
end.

(** [Analyze::get_clause]. *)
Definition get_cond (expr : ast.BinaryExpr) : Exn + Condition.t :=
let lhs_col := TabCol.mk (ast.tab_name (ast.lhs expr)) (ast.col_name (ast.lhs expr)) in
let op := convert_sv_comp_op (ast.op expr) in
match ast.rhs expr with
| ast.EValue rhs_val =>
    v <-! convert_sv_value rhs_val ;;
    inr (Condition.mk lhs_col op true (TabCol.mk "" "") v)
| ast.ECol rhs_col =>
    inr (Condition.mk lhs_col op false
           (TabCol.mk (ast.tab_name rhs_col) (ast.col_name rhs_col)) Value.empty)
end.

Definition get_clause (sv_conds : list ast.BinaryExpr) : Exn + list Condition.t :=
rmap get_cond sv_conds.

(** The conversion of a literal to the type of the column it is paired
  with; a pair that is not [INT]/[FLOAT] is left as it is. *)
Definition coerce (col_type : ColType) (v : Value.t) : Value.t :=
match col_type, Value.type v with
| TYPE_FLOAT, TYPE_INT => Value.set_float (Enc.int_to_float (Value.int_val v)) v
| TYPE_INT, TYPE_FLOAT => Value.set_int (Enc.float_to_int (Value.float_val v)) v
| _, _ => v
end.

(** The body of the loop of [Analyze::check_clause]. *)
Definition check_cond (all_cols : list ColMeta.t) (cond : Condition.t) : Exn + Condition.t :=
lhs <-! check_column all_cols (Condition.lhs_col cond) ;;
rhs <-! (if negb (Condition.is_rhs_val cond)
         then check_column all_cols (Condition.rhs_col cond)
         else inr (Condition.rhs_col cond)) ;;
lhs_tab <-! DbMeta.get_table db_ (TabCol.tab_name lhs) ;;
lhs_col <-! TabMeta.get_col lhs_tab (TabCol.col_name lhs) ;;
let lhs_type := ColMeta.type lhs_col in
r <-! (if Condition.is_rhs_val cond then
         v <-! Value.init_raw ov (ColMeta.len lhs_col)
                              (coerce lhs_type (Condition.rhs_val cond)) ;;
         inr (v, Value.type v)
       else
         rhs_tab <-! DbMeta.get_table db_ (TabCol.tab_name rhs) ;;
         rhs_col <-! TabMeta.get_col rhs_tab (TabCol.col_name rhs) ;;
         inr (Condition.rhs_val cond, ColMeta.type rhs_col)) ;;
let rhs_type := snd r in
if negb (bool_decide (lhs_type = rhs_type))
   && negb ((bool_decide (lhs_type = TYPE_INT) && bool_decide (rhs_type = TYPE_FLOAT))
            || (bool_decide (lhs_type = TYPE_FLOAT) && bool_decide (rhs_type = TYPE_INT)))
then inl (IncompatibleTypeError (coltype2str lhs_type) (coltype2str rhs_type))
else inr (Condition.mk lhs (Condition.op cond) (Condition.is_rhs_val cond) rhs (fst r)).

(** [Analyze::check_clause]. *)
Definition check_clause (tab_names : list string) (conds : list Condition.t)
: Exn + list Condition.t :=
all_cols <-! get_all_cols tab_names ;;
rmap (check_cond all_cols) conds.

(** The body of the loop over the set clauses of an [UPDATE]. *)
Definition analyze_set_clause (tab_name : string) (all_cols : list ColMeta.t)
         (sv_set : ast.SetClause) : Exn + SetClause.t :=
lhs <-! check_column all_cols (TabCol.mk tab_name (ast.set_col_name sv_set)) ;;
match ast.val sv_set with
| ast.EValue rhs_val =>
    rhs <-! convert_sv_value rhs_val ;;
    tab <-! DbMeta.get_table db_ (TabCol.tab_name lhs) ;;
    col <-! TabMeta.get_col tab (TabCol.col_name lhs) ;;
    rhs <-! (if bool_decide (ColMeta.type col = TYPE_FLOAT)
                && bool_decide (Value.type rhs = TYPE_INT)
             then inr (Value.set_float (Enc.int_to_float (Value.int_val rhs)) rhs)
             else if bool_decide (ColMeta.type col = TYPE_INT)
                     && bool_decide (Value.type rhs = TYPE_FLOAT)
             then inr (Value.set_int (Enc.float_to_int (Value.float_val rhs)) rhs)
             else if negb (bool_decide (ColMeta.type col = Value.type rhs))
             then inl (IncompatibleTypeError (coltype2str (ColMeta.type col))
                                             (coltype2str (Value.type rhs)))
             else inr rhs) ;;
    rhs <-! Value.init_raw ov (ColMeta.len col) rhs ;;
    inr (SetClause.mk lhs rhs)
| _ => inl (InternalError "Unexpected value type in set clause")
end.

Fixpoint check_tables (tables : list string) : Exn + unit :=
match tables with
| [] => inr tt
| tab_name :: rest =>
    if negb (DbMeta.is_table db_ tab_name) then inl (TableNotFoundError tab_name)
    else check_tables rest
end.

(** [Analyze::do_analyze]. *)
Definition do_analyze (parse : ast.TreeNode) : Exn + Query.t :=
match parse with
| ast.SelectStmt x_cols x_tabs x_conds =>
    _ <-! check_tables x_tabs ;;
    let cols := map (fun c => TabCol.mk (ast.tab_name c) (ast.col_name c)) x_cols in
    all_cols <-! get_all_cols x_tabs ;;
    cols <-! (match cols with
              | [] => inr (map (fun col => TabCol.mk (ColMeta.tab_name col)
                                                     (ColMeta.name col)) all_cols)
              | _ => rmap (check_column all_cols) cols
              end) ;;
    conds <-! get_clause x_conds ;;
    conds <-! check_clause x_tabs conds ;;
    inr (Query.mk (Some parse) conds cols x_tabs [] [])
| ast.UpdateStmt x_tab_name x_set_clauses x_conds =>
    let tables := [x_tab_name] in
    conds <-! get_clause x_conds ;;
    conds <-! check_clause tables conds ;;
    all_cols <-! get_all_cols tables ;;
    set_clauses <-! rmap (analyze_set_clause x_tab_name all_cols) x_set_clauses ;;
    inr (Query.mk (Some parse) conds [] tables set_clauses [])
| ast.DeleteStmt x_tab_name x_conds =>
    conds <-! get_clause x_conds ;;
    conds <-! check_clause [x_tab_name] conds ;;
    inr (Query.mk (Some parse) conds [] [] [] [])
| ast.InsertStmt _ x_vals =>
    values <-! rmap convert_sv_value x_vals ;;
    inr (Query.mk (Some parse) [] [] [] [] values)
| ast.OtherStmt => inr (Query.mk (Some parse) [] [] [] [] [])
end.

End WithCatalogue.

End Analyze.

(** ** Update executor ([executor_update.h]) *)

(** Modelled from the spec: the index handle is an external collaborator,
    "an opaque associative index supporting [insert_entry(key, rid, txn)],
    [delete_entry(key, txn)] and point lookup". *)
Module IxIndexHandle.

Record t : Type := mk { entries : gmap (list Z) Rid }.

Definition delete_entry (key : list Z) (ih : t) : t := mk (delete key (entries ih)).
Definition insert_entry (key : list Z) (rid : Rid) (ih : t) : t :=
  mk (<[key := rid]> (entries ih)).
Definition get_value (key : list Z) (ih : t) : option Rid := entries ih !! key.

End IxIndexHandle.

Module UpdateExecutor.

Record t : Type := mk {
  tab_ : TabMeta.t;
  conds_ : list Condition.t;
  rids_ : list Rid;
  tab_name_ : string;
  set_clauses_ : list SetClause.t;
  context_ : option Context
}.

(** The executor, the file handle [fh_] points to and the index handles
    [sm_manager_->ihs_], keyed by index name. *)
Record state : Type := mkState {
  self : t;
  fh_ : RmFileHandle;
  ihs_ : gmap string IxIndexHandle.t
}.

Definition on_fh {A} (m : M RmFileHandle A) : M state A :=
  zoom fh_ (fun h s => mkState (self s) h (ihs_ s)) m.

Definition set_set_clauses (scs : list SetClause.t) (s : state) : state :=
  let e := self s in
  mkState (mk (tab_ e) (conds_ e) (rids_ e) (tab_name_ e) scs (context_ e)) (fh_ s) (ihs_ s).

Definition clear_rids (s : state) : state :=
  let e := self s in
  mkState (mk (tab_ e) (conds_ e) [] (tab_name_ e) (set_clauses_ e) (context_ e))
          (fh_ s) (ihs_ s).

Definition set_ih (name : string) (ih : IxIndexHandle.t) (s : state) : state :=
  mkState (self s) (fh_ s) (<[name := ih]> (ihs_ s)).

(** Modelled from the spec: [IxManager::get_index_name] is not part of the
    sources; the name of an index is built from the table name and the
    names of the indexed columns. *)
Definition get_index_name (tab_name : string) (index_cols : list ColMeta.t) : string :=
  fold_left (fun acc col => acc +:+ "_" +:+ ColMeta.name col) index_cols tab_name +:+ ".idx".

(** [memcpy(dst + offset, src, len)]. *)
Definition memcpy_at (dst : list Z) (offset : Z) (src : list Z) (len : Z) : list Z :=
  let o := Z.to_nat offset in
  let n := Z.to_nat len in
  take o dst ++ take n (src ++ replicate n 0) ++ drop (o + n) dst.

(** The key of an index: the bytes of the indexed columns, in order. *)
Definition index_key (index : IndexMeta.t) (data : list Z) : list Z :=
  flat_map (fun col => Enc.bytes_at data (ColMeta.offset col) (Z.to_nat (ColMeta.len col)))
           (IndexMeta.cols index).

Section WithOverlong.

Variable ov : Value.Overlong.

(** The loop over [set_clauses_], at its [i]-th clause; [init_raw] writes
  the [raw] buffer of the clause held by the executor. *)
Fixpoint apply_set_clauses (i : nat) (set_clauses : list SetClause.t) (new_rec : RmRecord)
: M state RmRecord :=
match set_clauses with
| [] => ret new_rec
| set_clause :: rest =>
    s <- get ;;
    col <- lift_r (TabMeta.get_col (tab_ (self s))
                                   (TabCol.col_name (SetClause.lhs set_clause))) ;;
    if negb (bool_decide (ColMeta.type col = Value.type (SetClause.rhs set_clause))) then
      throw (IncompatibleTypeError (coltype2str (ColMeta.type col))
                                   (coltype2str (Value.type (SetClause.rhs set_clause))))
    else
      rhs <- lift_r (Value.init_raw ov (ColMeta.len col) (SetClause.rhs set_clause)) ;;
      modify (set_set_clauses
                (<[i := SetClause.mk (SetClause.lhs set_clause) rhs]>
                   (set_clauses_ (self s)))) ;;;
      apply_set_clauses (S i) rest
        (memcpy_at new_rec (ColMeta.offset col) (default [] (Value.raw rhs))
                   (ColMeta.len col))
end.

(** The loop over [tab_.indexes] for one row. *)
Fixpoint update_indexes (indexes : list IndexMeta.t) (rec new_rec : RmRecord) (rid : Rid)
: M state unit :=
match indexes with
| [] => ret tt
| index :: rest =>
    s <- get ;;
    let old_key := index_key index rec in
    let new_key := index_key index new_rec in
    let name := get_index_name (tab_name_ (self s)) (IndexMeta.cols index) in
    match ihs_ s !! name with
    | None => throw OutOfRange
    | Some ih =>
        match context_ (self s) with
        | None => halt NullDeref
        | Some _ =>
            modify (set_ih name (IxIndexHandle.insert_entry new_key rid
                                   (IxIndexHandle.delete_entry old_key ih))) ;;;
            update_indexes rest rec new_rec rid
        end
    end
end.

(** The body of the loop over [rids_]. *)
Definition update_row (rid : Rid) : M state unit :=
s <- get ;;
rec <- on_fh (Rm.get_record rid (context_ (self s))) ;;
new_rec <- apply_set_clauses 0 (set_clauses_ (self s)) rec ;;
update_indexes (TabMeta.indexes (tab_ (self s))) rec new_rec rid ;;;
on_fh (Rm.update_record rid new_rec (context_ (self s))).

Fixpoint update_rows (rids : list Rid) : M state unit :=
match rids with
| [] => ret tt
| rid :: rest => update_row rid ;;; update_rows rest
end.

(** [UpdateExecutor::Next]. *)
Definition Next : M state (option RmRecord) :=
s <- get ;;
match rids_ (self s) with
| [] => ret None
| rids =>
    update_rows rids ;;;
    modify clear_rids ;;;
    ret None
end.

End WithOverlong.

End UpdateExecutor.

(** * Sample states and inputs *)

Module BeginProps.

Import TransactionManager.

(** A transaction that has run for a while: it holds a lock, has written
    a record and has logged. *)
Definition running_txn : Transaction.t :=
  Transaction.mk 7 GROWING 3 12
    [WriteRecord.mk INSERT_TUPLE "t" (mkRid 1 0) []]
    [LockDataId.mk 3 (mkRid 1 0) RECORD] [] [].

Definition idle_log : LogManager.t :=
  LogManager.mk 12 12 (LogBuffer.mk 64 (replicate 64 0) 0) false (DiskManager.mk [] true).

Definition sample_state : state :=
  mkState {[ 100 := running_txn ]} 101 ∅ 8 4 false ∅ idle_log [].

End BeginProps.


Module LogSamples.

(** A log manager as it is created: nothing appended, an empty buffer of
    [size] bytes, a writable log file. *)
Definition fresh (size : Z) : LogManager.t :=
  LogManager.mk 0 0 (LogBuffer.mk size (replicate (Z.to_nat size) 0) 0) false
                (DiskManager.mk [] true).

(** Two header-only records (58 bytes) appended to a buffer of 64 bytes. *)
Definition two_appended : LogManager.t :=
  state_of (LogManager.add_log_to_buffer (LogRecord.CommitLogRecord 1)
              (state_of (LogManager.add_log_to_buffer (LogRecord.BeginLogRecord 1)
                                                      (fresh 64)))).

End LogSamples.

Module CommitSample.

Import TransactionManager.

(** A transaction manager at start-up, with a 64-byte log buffer. *)
Definition initial : state :=
  mkState ∅ 100 ∅ 1 1 false ∅ (LogSamples.fresh 64) [].

(** The state after [begin(nullptr, log_manager)]: transaction 1 lives at
    address 100 and its [BEGIN] record (LSN 1) is in the buffer. *)
Definition started : state := state_of (begin None true initial).

Definition started_txn : Transaction.t := Transaction.mk 1 GROWING 1 1 [] [] [] [].

Definition begin_record : LogRecord.t := LogRecord.set_lsn 1 (LogRecord.BeginLogRecord 1).

End CommitSample.

Module AnalyzeSample.

(** Table [t(id INT, x INT)]. *)
Definition t_id : ColMeta.t := ColMeta.mk "t" "id" TYPE_INT 4 0.
Definition t_x : ColMeta.t := ColMeta.mk "t" "x" TYPE_INT 4 4.
Definition tab_t : TabMeta.t := TabMeta.mk "t" [t_id; t_x] [].

Definition db : DbMeta.t := DbMeta.mk "db" {[ "t" := tab_t ]}.

(** [SELECT t.zzz FROM t]: the qualified column [t.zzz] does not exist. *)
Definition select_missing : ast.TreeNode :=
  ast.SelectStmt [ast.mkCol "t" "zzz"] ["t"] [].

(** [SELECT zzz FROM t]: the same column without qualifier. *)
Definition select_missing_unqualified : ast.TreeNode :=
  ast.SelectStmt [ast.mkCol "" "zzz"] ["t"] [].

End AnalyzeSample.

Module RmSamples.

(** A table file as it is created: only the header page, no free page; the
    buffer pool always has a frame for a new page. *)
Definition empty_file (record_size num_records_per_page : Z) : RmFileHandle :=
  mkRmFileHandle 3
    (mkRmFileHdr record_size 1 num_records_per_page RM_NO_PAGE
                 ((num_records_per_page + Bitmap.BITMAP_WIDTH - 1) / Bitmap.BITMAP_WIDTH))
    ∅ [] (fun _ => true).

(** A context with a running transaction whose lock requests are granted. *)
Definition granting : LockManager := mkLockManager (fun _ _ _ => true) (fun _ _ _ => true).
Definition ctx : Context := mkContext granting false (Some 100).

(** A context whose shared locks are granted and exclusive locks refused:
    another transaction holds a shared lock on the record. *)
Definition read_only : LockManager := mkLockManager (fun _ _ _ => true) (fun _ _ _ => false).
Definition ctx_read_only : Context := mkContext read_only false (Some 100).

Definition a : RmRecord := [1; 2].
Definition b : RmRecord := [3; 4].
Definition c : RmRecord := [5; 6].

(** Two slots per page, one record [a] at (1, 0). *)
Definition one_record : RmFileHandle :=
  state_of (Rm.insert_record 1 a (Some ctx) (empty_file 2 2)).

(** [b] placed at (1, 1) by the insertion at a given position: page 1 is
    full. *)
Definition filled_at : RmFileHandle :=
  state_of (Rm.insert_record_at (mkRid 1 1) b one_record).

(** [a] deleted again: page 1 goes from full to non-full. *)
Definition relinked : RmFileHandle :=
  state_of (Rm.delete_record (mkRid 1 0) (Some ctx) filled_at).

(** [c] inserted: page 1 is full once more. *)
Definition refilled : RmFileHandle :=
  state_of (Rm.insert_record 1 c (Some ctx) relinked).

(** Page 1 filled by two ordinary insertions. *)
Definition full_page : RmFileHandle :=
  state_of (Rm.insert_record 1 b (Some ctx) one_record).

End RmSamples.

Module ScanSample.

(** Table [t(k INT, v INT)] with rows (1, 10), (5, 20), (1, 30). *)
Definition t_k : ColMeta.t := ColMeta.mk "t" "k" TYPE_INT 4 0.
Definition t_v : ColMeta.t := ColMeta.mk "t" "v" TYPE_INT 4 4.

Definition row (k v : Z) : RmRecord := Enc.int_bytes k ++ Enc.int_bytes v.

Definition insert (rec : RmRecord) (h : RmFileHandle) : RmFileHandle :=
  state_of (Rm.insert_record 1 rec (Some RmSamples.ctx) h).

Definition table : RmFileHandle :=
  insert (row 1 30) (insert (row 5 20) (insert (row 1 10) (RmSamples.empty_file 8 4))).

(** The condition [k = 1], as the analyzer leaves it. *)
Definition k_is_1 : Condition.t :=
  Condition.mk (TabCol.mk "t" "k") OP_EQ true (TabCol.mk "" "")
               (Value.mk TYPE_INT 1 (S754_zero false) "" (Some (Enc.int_bytes 1))).

Definition executor : SeqScanExecutor.state :=
  SeqScanExecutor.mkState
    (SeqScanExecutor.mk "t" [k_is_1] [t_k; t_v] 8 (mkRid 0 0) None (Some RmSamples.ctx))
    table.

End ScanSample.

Module UpdateSample.

(** Table [t(k INT, v INT)] with an index on [k] and the row (1, 10) at
    rid (1, 0); the statement is [UPDATE t SET k = 2 WHERE k = 1]. *)
Definition index_k : IndexMeta.t := IndexMeta.mk "t" 4 1 [ScanSample.t_k].

Definition tab_t : TabMeta.t := TabMeta.mk "t" [ScanSample.t_k; ScanSample.t_v] [index_k].

Definition R : Rid := mkRid 1 0.

Definition table : RmFileHandle :=
  ScanSample.insert (ScanSample.row 1 10) (RmSamples.empty_file 8 4).

Definition index_name : string := UpdateExecutor.get_index_name "t" [ScanSample.t_k].

Definition indexes : gmap string IxIndexHandle.t :=
  {[ index_name := IxIndexHandle.mk {[ Enc.int_bytes 1 := R ]} ]}.

(** [SET k = 2], as the analyzer leaves it. *)
Definition set_k_2 : SetClause.t :=
  SetClause.mk (TabCol.mk "t" "k")
               (Value.mk TYPE_INT 2 (S754_zero false) "" (Some (Enc.int_bytes 2))).

Definition executor (context : Context) : UpdateExecutor.state :=
  UpdateExecutor.mkState
    (UpdateExecutor.mk tab_t [ScanSample.k_is_1] [R] "t" [set_k_2] (Some context))
    table indexes.

(** The entry of the index on [k] for key [k]. *)
Definition lookup_k (s : UpdateExecutor.state) (k : Z) : option Rid :=
  match UpdateExecutor.ihs_ s !! index_name with
  | Some ih => IxIndexHandle.get_value (Enc.int_bytes k) ih
  | None => None
  end.

End UpdateSample.

Module UpdateSampleMismatch.

(** [SET k = 2.0] reaching the executor with a [FLOAT] value for the [INT]
    column [k]. *)
Definition set_k_float : SetClause.t :=
  SetClause.mk (TabCol.mk "t" "k")
               (Value.mk TYPE_FLOAT 0 (Enc.int_to_float 2) "" None).

Definition executor : UpdateExecutor.state :=
  UpdateExecutor.mkState
    (UpdateExecutor.mk UpdateSample.tab_t [ScanSample.k_is_1] [UpdateSample.R] "t"
                       [set_k_float] (Some RmSamples.ctx))
    UpdateSample.table UpdateSample.indexes.

End UpdateSampleMismatch.

Module CoerceSample.

(** Table [t(id INT, p FLOAT, s STRING(4))]. *)
Definition t_id : ColMeta.t := ColMeta.mk "t" "id" TYPE_INT 4 0.
Definition t_p : ColMeta.t := ColMeta.mk "t" "p" TYPE_FLOAT 4 4.
Definition t_s : ColMeta.t := ColMeta.mk "t" "s" TYPE_STRING 4 8.
Definition tab_t : TabMeta.t := TabMeta.mk "t" [t_id; t_p; t_s] [].
Definition db : DbMeta.t := DbMeta.mk "db" {[ "t" := tab_t ]}.

(** [SELECT * FROM t WHERE id = 'hello']. *)
Definition where_id_hello : ast.TreeNode :=
  ast.SelectStmt [] ["t"]
    [ast.mkBinaryExpr (ast.mkCol "" "id") ast.SV_OP_EQ (ast.EValue (ast.StringLit "hello"))].

(** [UPDATE t SET id = 'hello']. *)
Definition set_id_hello : ast.TreeNode :=
  ast.UpdateStmt "t" [ast.mkSetClause "id" (ast.EValue (ast.StringLit "hello"))] [].

(** The condition [p > 3] before [check_clause]. *)
Definition p_gt_3 : Condition.t :=
  Condition.mk (TabCol.mk "" "p") OP_GT true (TabCol.mk "" "")
               (Value.set_int 3 Value.empty).

End CoerceSample.
(** * Auxiliary definitions for the properties *)

Module LogInv.

(** [holds m flushed pending]: the records appended so far are
    [flushed ++ pending]; the log file is the serialization of [flushed]
    and the first [offset_] bytes of the buffer are the serialization of
    [pending]; the LSN counter holds a value of its type. *)
Record holds (m : LogManager.t) (flushed pending : list LogRecord.t) : Prop := mkHolds {
  file_ok : DiskManager.log_file (LogManager.disk_manager_ m)
            = flat_map LogRecord.serialize flushed;
  buffer_ok : take (Z.to_nat (LogBuffer.offset_ (LogManager.log_buffer_ m)))
                   (LogBuffer.buffer_ (LogManager.log_buffer_ m))
              = flat_map LogRecord.serialize pending;
  offset_ok : 0 <= LogBuffer.offset_ (LogManager.log_buffer_ m)
              <= LogBuffer.LOG_BUFFER_SIZE (LogManager.log_buffer_ m);
  size_ok : Z.of_nat (length (LogBuffer.buffer_ (LogManager.log_buffer_ m)))
            = LogBuffer.LOG_BUFFER_SIZE (LogManager.log_buffer_ m);
  lsn_ok : Counter.MIN <= LogManager.global_lsn_ m <= Counter.MAX
}.

(** The state [add_log_to_buffer] leaves when the record fits. *)
Definition appended (log_record : LogRecord.t) (m : LogManager.t) : LogManager.t :=
  let r := LogRecord.set_lsn (Counter.succ (LogManager.global_lsn_ m)) log_record in
  LogManager.mk (Counter.succ (LogManager.global_lsn_ m)) (LogManager.persist_lsn_ m)
    (LogBuffer.set_offset
       (LogBuffer.offset_ (LogManager.log_buffer_ m) + LogRecord.log_tot_len_ r)
       (LogBuffer.write (LogRecord.serialize r) (LogManager.log_buffer_ m)))
    false (LogManager.disk_manager_ m).

(** The state [flush_log_to_disk] leaves after a successful write. *)
Definition flushed_state (m : LogManager.t) : LogManager.t :=
  LogManager.mk (LogManager.global_lsn_ m) (LogManager.global_lsn_ m)
    (LogBuffer.set_offset 0 (LogBuffer.zero (LogManager.log_buffer_ m)))
    false
    (DiskManager.mk
       (DiskManager.log_file (LogManager.disk_manager_ m)
          ++ take (Z.to_nat (LogBuffer.offset_ (LogManager.log_buffer_ m)))
                  (LogBuffer.buffer_ (LogManager.log_buffer_ m)))
       true).

End LogInv.

Module TxnAux.

Import TransactionManager.

(** The effect of one or more [unlock] calls on the transaction. *)
Definition shrink (x : Transaction.t) : Transaction.t :=
  match Transaction.state_ x with
  | GROWING => Transaction.set_state SHRINKING x
  | _ => x
  end.

Definition released (lock_set : list LockDataId.t) (x : Transaction.t) : Transaction.t :=
  match lock_set with
  | [] => x
  | _ => shrink x
  end.

(** The state after the lock-release loop of [commit] and [abort]. *)
Definition after_unlock (txn : Z) (lock_set : list LockDataId.t) (x : Transaction.t) (s : state)
  : state :=
  mkState (<[txn := released lock_set x]> (heap s)) (brk s) (txn_map s) (next_txn_id_ s)
          (next_timestamp_ s) (latch_ s) (fhs_ s) (log s)
          (unlocked s ++ map (pair txn) lock_set).

(** The [COMMIT] record a commit of transaction [x] is to append when the
    last LSN handed out was [g]: a header-only record of type [COMMIT] for
    the transaction's id, whose LSN is the one after [g] and whose
    [prev_lsn] is the LSN of the transaction's previous log record. *)
Definition commit_record (g : Z) (x : Transaction.t) : LogRecord.t :=
  LogRecord.mk LogRecord.COMMIT (Counter.succ g) LogRecord.LOG_HEADER_SIZE
               (Transaction.txn_id_ x) (Transaction.prev_lsn_ x) [].

(** The state of the transaction behind pointer [txn]. *)
Definition state_at (s : state) (txn : Z) : option TransactionState :=
  Transaction.state_ <$> heap s !! txn.

Definition prev_lsn_at (s : state) (txn : Z) : option Z :=
  Transaction.prev_lsn_ <$> heap s !! txn.

End TxnAux.

Module RmAux.

(** Buffer-pool calls on page [pid] in a trace: pins taken and unpins. *)
Definition is_pin (pid : PageId) (e : Event) : bool :=
  match e with
  | EvFetchPage p | EvNewPage p => bool_decide (p = pid)
  | _ => false
  end.

Definition is_unpin (pid : PageId) (e : Event) : bool :=
  match e with
  | EvUnpinPage p _ => bool_decide (p = pid)
  | _ => false
  end.

Definition pins (pid : PageId) (trace : list Event) : nat :=
  length (filter (fun e => is_pin pid e = true) trace).

Definition unpins (pid : PageId) (trace : list Event) : nat :=
  length (filter (fun e => is_unpin pid e = true) trace).

(** The calls made between state [h] and a later state [h']. *)
Definition trace_since (h h' : RmFileHandle) : list Event :=
  drop (length (bpm_trace h)) (bpm_trace h').

(** The calls an operation run from [h] has made. *)
Definition calls {A} (h : RmFileHandle) (o : Outcome RmFileHandle A) : list Event :=
  trace_since h (state_of o).

(** The free list: the pages met from [first_free_page_no] along
    [next_free_page_no]; [None] when [RM_NO_PAGE] is not reached within
    [fuel] steps. *)
Fixpoint chain_from (fuel : nat) (h : RmFileHandle) (p : Z) : option (list Z) :=
  if p =? RM_NO_PAGE then Some []
  else
    match fuel with
    | O => None
    | S fuel' =>
        option_map (cons p)
                   (chain_from fuel' h (next_free_page_no (page_hdr (page_at h p))))
    end.

Definition free_chain (fuel : nat) (h : RmFileHandle) : option (list Z) :=
  chain_from fuel h (first_free_page_no (file_hdr_ h)).

(** The data pages, numbered from 1 to [num_pages - 1]. *)
Definition data_pages (h : RmFileHandle) : list Z :=
  seqZ RM_FIRST_RECORD_PAGE (num_pages (file_hdr_ h) - RM_FIRST_RECORD_PAGE).

Definition is_full (h : RmFileHandle) (p : Z) : bool :=
  num_records (page_hdr (page_at h p)) >=? num_records_per_page (file_hdr_ h).

Definition non_full_pages (h : RmFileHandle) : list Z :=
  filter (fun p => is_full h p = false) (data_pages h).

(** The live records of the file, in scan order. *)
Definition live_in_page (h : RmFileHandle) (p : Z) : list (Rid * RmRecord) :=
  omap (fun i => if Bitmap.is_set (bitmap (page_at h p)) i
                 then Some (mkRid p i, get_slot (page_at h p) i) else None)
       (seqZ 0 (num_records_per_page (file_hdr_ h))).

Definition live_records (h : RmFileHandle) : list (Rid * RmRecord) :=
  flat_map (live_in_page h) (data_pages h).

End RmAux.

Module SeqScanAux.

(** Repeated [Next()] calls until the null record: the records returned,
    each with the [rid()] of the executor at the time. *)
Fixpoint drain (fuel : nat) : M SeqScanExecutor.state (list (Rid * RmRecord)) :=
  match fuel with
  | O => ret []
  | S fuel' =>
      r <- SeqScanExecutor.Next ;;
      match r with
      | None => ret []
      | Some rec =>
          s <- get ;;
          rest <- drain fuel' ;;
          ret ((SeqScanExecutor.rid s, rec) :: rest)
      end
  end.

(** The protocol of the execution manager: [beginTuple], then [Next] and
    [nextTuple] until [is_end]. *)
Fixpoint pull (fuel : nat) : M SeqScanExecutor.state (list (Rid * RmRecord)) :=
  match fuel with
  | O => ret []
  | S fuel' =>
      e <- SeqScanExecutor.is_end ;;
      if e then ret []
      else
        r <- SeqScanExecutor.Next ;;
        s <- get ;;
        SeqScanExecutor.nextTuple ;;;
        rest <- pull fuel' ;;
        ret (match r with
             | Some rec => (SeqScanExecutor.rid s, rec) :: rest
             | None => rest
             end)
  end.

(** The rows of the table that satisfy the conditions of the executor. *)
Definition satisfies (s : SeqScanExecutor.state) (rec : RmRecord) : bool :=
  match SeqScanExecutor.eval_conds (SeqScanExecutor.cols_ (SeqScanExecutor.self s)) rec
                                   (SeqScanExecutor.conds_ (SeqScanExecutor.self s)) s with
  | Returned res _ => res
  | _ => false
  end.

Definition satisfying (s : SeqScanExecutor.state) : list (Rid * RmRecord) :=
  filter (fun rr => satisfies s rr.2 = true) (RmAux.live_records (SeqScanExecutor.fh_ s)).

End SeqScanAux.

Module AnalyzeAux.

(** The value [v] with image [bs] as its raw buffer of [len] bytes. *)
Definition encoded (len : Z) (bs : list Z) (v : Value.t) : Value.t :=
  Value.set_raw (Value.fit len bs) v.

(** An [INT] literal widened for a [FLOAT] column, and a [FLOAT] literal
    truncated for an [INT] column, each with its raw image. *)
Definition widened (len : Z) (v : Value.t) : Value.t :=
  let f := Enc.int_to_float (Value.int_val v) in
  encoded len (Enc.float_bytes f) (Value.set_float f v).

Definition truncated (len : Z) (v : Value.t) : Value.t :=
  let i := Enc.float_to_int (Value.float_val v) in
  encoded len (Enc.int_bytes i) (Value.set_int i v).

(** What the analyzer is claimed to do with a literal [v] paired with
    column [col]; [mismatch] is the outcome for a pair of types other than
    equal types and the two [INT]/[FLOAT] mixes. *)
Definition literal_for (ov : Value.Overlong) (col : ColMeta.t) (v : Value.t)
           (mismatch : Exn + Value.t) : Exn + Value.t :=
  match ColMeta.type col, Value.type v with
  | TYPE_FLOAT, TYPE_INT => inr (widened (ColMeta.len col) v)
  | TYPE_INT, TYPE_FLOAT => inr (truncated (ColMeta.len col) v)
  | TYPE_INT, TYPE_INT | TYPE_FLOAT, TYPE_FLOAT | TYPE_STRING, TYPE_STRING =>
      Value.init_raw ov (ColMeta.len col) v
  | _, _ => mismatch
  end.

Definition incompatible (col : ColMeta.t) (v : Value.t) : Exn :=
  IncompatibleTypeError (coltype2str (ColMeta.type col)) (coltype2str (Value.type v)).

(** The magnitude of a finite float [m * 2 ^ e] lies between [a] and
    [a + 1]. *)
Definition floor_of (a : Z) (m : positive) (e : Z) : Prop :=
  if 0 <=? e then a = Zpos m * 2 ^ e
  else a * 2 ^ (- e) <= Zpos m < (a + 1) * 2 ^ (- e).

End AnalyzeAux.

(** * A transaction that is rolled back *)

Module Workload.

Import TransactionManager.

(** Modelled from the spec: the executors that fill the write set are not
    part of the sources.  "Records in write_set are appended in the order
    the mutations occur"; an entry of an insertion names the new rid, and
    an entry of a deletion or an update owns "a byte copy of the before
    image".  Each operation runs on the file handle of table [tab] under
    the context of transaction [txn]. *)
Definition txn_insert (ctx : Context) (txn : Z) (tab : string) (buf : RmRecord) : M state Rid :=
  rid <- on_fh tab (Rm.insert_record 1 buf (Some ctx)) ;;
  update_txn txn (Transaction.append_write_record (WriteRecord.mk INSERT_TUPLE tab rid buf)) ;;;
  ret rid.

Definition txn_delete (ctx : Context) (txn : Z) (tab : string) (rid : Rid) : M state unit :=
  rec <- on_fh tab (Rm.get_record rid (Some ctx)) ;;
  on_fh tab (Rm.delete_record rid (Some ctx)) ;;;
  update_txn txn (Transaction.append_write_record (WriteRecord.mk DELETE_TUPLE tab rid rec)).

Definition txn_update (ctx : Context) (txn : Z) (tab : string) (rid : Rid) (buf : RmRecord)
  : M state unit :=
  rec <- on_fh tab (Rm.get_record rid (Some ctx)) ;;
  on_fh tab (Rm.update_record rid buf (Some ctx)) ;;;
  update_txn txn (Transaction.append_write_record (WriteRecord.mk UPDATE_TUPLE tab rid rec)).

(** The live records of table [tab]. *)
Definition table_contents (tab : string) (s : state) : list (Rid * RmRecord) :=
  match fhs_ s !! tab with
  | Some h => RmAux.live_records h
  | None => []
  end.

End Workload.

Module AbortSample.

Import TransactionManager.

(** Table [t], two slots per page, with the record [a] at (1, 0). *)
Definition at_begin : state :=
  mkState ∅ 100 ∅ 1 1 false {[ "t" := RmSamples.one_record ]} (LogSamples.fresh 64) [].

(** Transaction T: [begin]; insert [b] (it lands at (1, 1)); delete the
    record at (1, 0); delete the record at (1, 1). *)
Definition T : M state Z :=
  txn <- begin None true ;;
  Workload.txn_insert RmSamples.ctx txn "t" RmSamples.b ;;;
  Workload.txn_delete RmSamples.ctx txn "t" (mkRid 1 0) ;;;
  Workload.txn_delete RmSamples.ctx txn "t" (mkRid 1 1) ;;;
  ret txn.

Definition before_abort : state := state_of (T at_begin).

Definition after_abort : state := state_of (abort 1 100 true before_abort).

(** Transaction U: update the record at (1, 0) from [a] to [c], then abort. *)
Definition U : M state Z :=
  txn <- begin None true ;;
  Workload.txn_update RmSamples.ctx txn "t" (mkRid 1 0) RmSamples.c ;;;
  ret txn.

End AbortSample.
(** * Invariants and sample inputs for the further properties *)

(** ** Relations kept by a computation *)

Module Frame.

(** Every outcome of [m], returned, thrown or halted, leaves a state that
    [R] relates to the state [m] started from. *)
Definition keeps {S A : Type} (R : S -> S -> Prop) (m : M S A) : Prop :=
  forall s, R s (state_of (m s)).

(** The table file is the same up to the trace of calls. *)
Definition same_file (h h' : RmFileHandle) : Prop :=
  fd_ h' = fd_ h /\ file_hdr_ h' = file_hdr_ h /\ pages h' = pages h.

(** No page was added or removed. *)
Definition same_num_pages (h h' : RmFileHandle) : Prop :=
  num_pages (file_hdr_ h') = num_pages (file_hdr_ h).

End Frame.

(** ** Record manager: the invariant of a table file *)

Module RmInv.

(** The number of set bits of a bitmap. *)
Fixpoint popcount (bm : list bool) : Z :=
  match bm with
  | [] => 0
  | b :: bm' => (if b then 1 else 0) + popcount bm'
  end.

(** The link of the free list out of page [p]. *)
Definition next_of (h : RmFileHandle) (p : Z) : Z := next_free_page_no (page_hdr (page_at h p)).

(** [is_chain next start l]: following [next] from [start] visits the
    pages [l] and then reaches [RM_NO_PAGE]. *)
Fixpoint is_chain (next : Z -> Z) (start : Z) (l : list Z) : Prop :=
  match l with
  | [] => start = RM_NO_PAGE
  | p :: l' => start = p /\ p <> RM_NO_PAGE /\ is_chain next (next p) l'
  end.

Record page_ok (n : Z) (pg : RmPage) : Prop := mkPageOk {
  bitmap_covers : n <= Z.of_nat (length (bitmap pg));
  padding_clear : forall i, n <= i -> Bitmap.is_set (bitmap pg) i = false;
  count_ok : num_records (page_hdr pg) = popcount (bitmap pg);
  slots_ok : Z.of_nat (length (slots pg)) = n
}.

Definition is_data_page (h : RmFileHandle) (p : Z) : Prop :=
  RM_FIRST_RECORD_PAGE <= p < num_pages (file_hdr_ h).

Definition has_room (h : RmFileHandle) (p : Z) : Prop :=
  num_records (page_hdr (page_at h p)) < num_records_per_page (file_hdr_ h).

Record wf (h : RmFileHandle) : Prop := mkWf {
  slots_pos : 1 <= num_records_per_page (file_hdr_ h);
  bits_enough : num_records_per_page (file_hdr_ h)
                <= Bitmap.BITMAP_WIDTH * bitmap_size (file_hdr_ h);
  pages_pos : 1 <= num_pages (file_hdr_ h);
  pages_ok : forall p, is_data_page h p ->
               exists pg, pages h !! p = Some pg
                          /\ page_ok (num_records_per_page (file_hdr_ h)) pg;
  free_ok : exists l, is_chain (next_of h) (first_free_page_no (file_hdr_ h)) l
                      /\ NoDup l
                      /\ forall p, p ∈ l <-> is_data_page h p /\ has_room h p
}.

(** Slot [rid] holds a live record. *)
Definition live (h : RmFileHandle) (rid : Rid) : Prop :=
  is_data_page h (page_no rid)
  /\ Bitmap.is_set (bitmap (page_at h (page_no rid))) (slot_no rid) = true.

(** The bytes [get_record] returns for [rid]. *)
Definition content (h : RmFileHandle) (rid : Rid) : RmRecord :=
  take (Z.to_nat (record_size (file_hdr_ h))) (get_slot (page_at h (page_no rid)) (slot_no rid)).

(** The page [create_new_page_handle] initialises, and the state it
    leaves. *)
Definition fresh_page (hdr : RmFileHdr) : RmPage :=
  mkRmPage (mkRmPageHdr RM_NO_PAGE 0) (Bitmap.init (bitmap_size hdr))
           (replicate (Z.to_nat (num_records_per_page hdr)) []).

Definition with_new_page (h : RmFileHandle) : RmFileHandle :=
  let hdr := file_hdr_ h in
  let np := num_pages hdr in
  mkRmFileHandle (fd_ h)
    (mkRmFileHdr (record_size hdr) (np + 1) (num_records_per_page hdr)
                 (if first_free_page_no hdr =? RM_NO_PAGE then np else first_free_page_no hdr)
                 (bitmap_size hdr))
    (<[np := fresh_page hdr]> (pages h))
    (bpm_trace h ++ [EvNewPage (mkPageId (fd_ h) np)])
    (new_page_ok h).

(** The buffer pool serves the next insertion: with an empty free list an
    insertion asks it for a new page, and it has a frame to hand out. *)
Definition allocates (h : RmFileHandle) : bool :=
  if first_free_page_no (file_hdr_ h) =? RM_NO_PAGE then new_page_ok h (bpm_trace h)
  else true.

(** The page after the three updates of an insertion into slot [i]. *)
Definition inserted_page (record_size i : Z) (buf : list Z) (pg : RmPage) : RmPage :=
  set_num_records (num_records (page_hdr pg) + 1)
    (set_bitmap (Bitmap.set (bitmap pg) i) (write_slot record_size i buf pg)).

(** The page after the updates of a deletion of slot [i]. *)
Definition deleted_page (i : Z) (pg : RmPage) : RmPage :=
  set_num_records (num_records (page_hdr pg) - 1)
    (set_bitmap (Bitmap.reset (bitmap pg) i) pg).

(** [h'] is [h] with one more record, [buf], at [rid]. *)
Record inserted (h h' : RmFileHandle) (rid : Rid) (buf : list Z) : Prop := mkInserted {
  ins_fd : fd_ h' = fd_ h;
  ins_record_size : record_size (file_hdr_ h') = record_size (file_hdr_ h);
  ins_slots : num_records_per_page (file_hdr_ h') = num_records_per_page (file_hdr_ h);
  ins_bitmap_size : bitmap_size (file_hdr_ h') = bitmap_size (file_hdr_ h);
  ins_fresh : ~ live h rid;
  ins_live : forall r, live h' r <-> r = rid \/ live h r;
  ins_content : content h' rid = take (Z.to_nat (record_size (file_hdr_ h))) buf;
  ins_frame : forall r, live h r -> content h' r = content h r
}.

(** [h'] is [h] without the record at [rid]. *)
Record deleted (h h' : RmFileHandle) (rid : Rid) : Prop := mkDeleted {
  del_fd : fd_ h' = fd_ h;
  del_record_size : record_size (file_hdr_ h') = record_size (file_hdr_ h);
  del_slots : num_records_per_page (file_hdr_ h') = num_records_per_page (file_hdr_ h);
  del_bitmap_size : bitmap_size (file_hdr_ h') = bitmap_size (file_hdr_ h);
  del_was_live : live h rid;
  del_live : forall r, live h' r <-> r <> rid /\ live h r;
  del_frame : forall r, r <> rid -> live h r -> content h' r = content h r
}.

(** [h'] is [h] with the record at [rid] overwritten by [buf]. *)
Record updated (h h' : RmFileHandle) (rid : Rid) (buf : list Z) : Prop := mkUpdated {
  upd_fd : fd_ h' = fd_ h;
  upd_record_size : record_size (file_hdr_ h') = record_size (file_hdr_ h);
  upd_slots : num_records_per_page (file_hdr_ h') = num_records_per_page (file_hdr_ h);
  upd_bitmap_size : bitmap_size (file_hdr_ h') = bitmap_size (file_hdr_ h);
  upd_was_live : live h rid;
  upd_live : forall r, live h' r <-> live h r;
  upd_content : content h' rid = take (Z.to_nat (record_size (file_hdr_ h))) buf;
  upd_frame : forall r, r <> rid -> content h' r = content h r
}.

(** The answer of the lock manager to the requests an operation under
    [context] makes for [rid]; an operation without transaction asks for
    nothing. *)
Definition grants_exclusive (context : option Context) (fd : Z) (rid : Rid) : bool :=
  match context with
  | Some ctx =>
      match txn_ ctx with
      | Some t => lock_exclusive_on_record (lock_mgr_ ctx) t rid fd
      | None => true
      end
  | None => true
  end.

Definition grants_shared (context : option Context) (fd : Z) (rid : Rid) : bool :=
  match context with
  | Some ctx =>
      match txn_ ctx with
      | Some t => lock_shared_on_record (lock_mgr_ ctx) t rid fd
      | None => true
      end
  | None => true
  end.

(** [h'] holds the same live records as [h], with the same contents. *)
Record same_records (h h' : RmFileHandle) : Prop := mkSame {
  same_fd : fd_ h' = fd_ h;
  same_record_size : record_size (file_hdr_ h') = record_size (file_hdr_ h);
  same_slots : num_records_per_page (file_hdr_ h') = num_records_per_page (file_hdr_ h);
  same_bitmap_size : bitmap_size (file_hdr_ h') = bitmap_size (file_hdr_ h);
  same_live : forall r, live h' r <-> live h r;
  same_content : forall r, live h r -> content h' r = content h r
}.

(** Calls of the record manager, and the state a sequence of calls leaves
    (whether a call returns or throws). *)
Inductive op : Type :=
  | OpInsert (buf : list Z) (context : option Context)
  | OpDelete (rid : Rid) (context : option Context)
  | OpUpdate (rid : Rid) (buf : list Z) (context : option Context)
  | OpGet (rid : Rid) (context : option Context).

Definition run_op (h : RmFileHandle) (o : op) : RmFileHandle :=
  match o with
  | OpInsert buf context => state_of (Rm.insert_record 1 buf context h)
  | OpDelete rid context => state_of (Rm.delete_record rid context h)
  | OpUpdate rid buf context => state_of (Rm.update_record rid buf context h)
  | OpGet rid context => state_of (Rm.get_record rid context h)
  end.

Definition run_ops (ops : list op) (h : RmFileHandle) : RmFileHandle :=
  fold_left run_op ops h.

(** The rid an operation names does not point into the file header page. *)
Definition names_data_page (o : op) : Prop :=
  match o with
  | OpInsert _ _ => True
  | OpDelete rid _ | OpUpdate rid _ _ | OpGet rid _ => page_no rid <> RM_FILE_HDR_PAGE
  end.

(** The rid a call names; an insertion picks its own. *)
Definition target (o : op) : option Rid :=
  match o with
  | OpInsert _ _ => None
  | OpDelete rid _ | OpUpdate rid _ _ | OpGet rid _ => Some rid
  end.

(** The exception a call throws, if it throws. *)
Definition thrown {S A : Type} (o : Outcome S A) : option Exn :=
  match o with
  | Threw e _ => Some e
  | _ => None
  end.



End RmInv.

(** Sample files: two slots per page; [one] holds [a] at (1, 0), [two]
    holds [a] and [b] and its only data page is full. *)
Module RmWitness.

Definition file : RmFileHandle := RmSamples.empty_file 2 2.

Definition one : RmFileHandle :=
  RmInv.run_ops [RmInv.OpInsert RmSamples.a (Some RmSamples.ctx)] file.

Definition two : RmFileHandle :=
  RmInv.run_ops [RmInv.OpInsert RmSamples.a (Some RmSamples.ctx);
                 RmInv.OpInsert RmSamples.b (Some RmSamples.ctx)] file.


(** The file [two] with a buffer pool that has no frame left. *)
Definition out_of_frames : RmFileHandle :=
  mkRmFileHandle (fd_ two) (file_hdr_ two) (pages two) (bpm_trace two) (fun _ => false).

End RmWitness.


(** ** Table scan: the records a scan is to visit *)

Module ScanSpec.

(** The slots of page [p] from [lo] on that hold a record, in increasing
    order. *)
Definition live_slots (h : RmFileHandle) (p lo : Z) : list Z :=
  filter (fun i => Bitmap.is_set (bitmap (page_at h p)) i = true)
         (seqZ lo (num_records_per_page (file_hdr_ h) - lo)).

Definition page_rids (h : RmFileHandle) (p lo : Z) : list Rid :=
  map (mkRid p) (live_slots h p lo).

(** The rids of the records at or after position [(p, lo)], page by page
    and slot by slot. *)
Definition rids_from (h : RmFileHandle) (p lo : Z) : list Rid :=
  if p <? num_pages (file_hdr_ h) then
    page_rids h p lo
    ++ flat_map (fun q => page_rids h q 0)
                (seqZ (p + 1) (num_pages (file_hdr_ h) - (p + 1)))
  else [].

(** The rids of all records of the file, in scan order. *)
Definition live_rids (h : RmFileHandle) : list Rid := rids_from h RM_FIRST_RECORD_PAGE 0.

(** What is left to visit for a scan positioned on [r]. *)
Definition remaining (h : RmFileHandle) (r : Rid) : list Rid :=
  if page_no r <? num_pages (file_hdr_ h) then r :: rids_from h (page_no r) (slot_no r + 1)
  else [].

(** The pages a scan fetches are there. *)
Definition pages_present (h : RmFileHandle) : Prop :=
  forall p, RM_FIRST_RECORD_PAGE <= p < num_pages (file_hdr_ h) -> is_Some (pages h !! p).

(** The loop [for (RmScan scan(fh); !scan.is_end(); scan.next())
    visit(scan.rid())]. *)
Fixpoint scan_loop (fuel : nat) (scan : RmScan.t) : M RmFileHandle (list Rid) :=
  match fuel with
  | O => halt OutOfFuel
  | S fuel' =>
      h <- get ;;
      if RmScan.is_end scan h then ret []
      else
        scan' <- RmScan.next scan ;;
        rest <- scan_loop fuel' scan' ;;
        ret (RmScan.rid scan :: rest)
  end.

Definition scan_all (fuel : nat) : M RmFileHandle (list Rid) :=
  scan <- RmScan.new ;;
  scan_loop fuel scan.

End ScanSpec.

(** ** Sequential scan: the rows an executor is to yield *)

Module SeqScanSpec.

(** Every condition names a column of the executor and carries the raw
    image of its literal, as the analyzer leaves them. *)
Definition cond_ok (cols : list ColMeta.t) (cond : Condition.t) : bool :=
  match SeqScanExecutor.get_col cols (Condition.lhs_col cond),
        Value.raw (Condition.rhs_val cond) with
  | inr _, Some _ => true
  | _, _ => false
  end.

Definition conds_ok (s : SeqScanExecutor.state) : bool :=
  forallb (cond_ok (SeqScanExecutor.cols_ (SeqScanExecutor.self s)))
          (SeqScanExecutor.conds_ (SeqScanExecutor.self s)).

(** The executor is the same but for its cursor ([rid_], [scan_]) and the
    trace of its file. *)
Record same_exec (s s' : SeqScanExecutor.state) : Prop := mkSameExec {
  same_conds : SeqScanExecutor.conds_ (SeqScanExecutor.self s')
               = SeqScanExecutor.conds_ (SeqScanExecutor.self s);
  same_cols : SeqScanExecutor.cols_ (SeqScanExecutor.self s')
              = SeqScanExecutor.cols_ (SeqScanExecutor.self s);
  same_context : SeqScanExecutor.context_ (SeqScanExecutor.self s')
                 = SeqScanExecutor.context_ (SeqScanExecutor.self s);
  same_fh : Frame.same_file (SeqScanExecutor.fh_ s) (SeqScanExecutor.fh_ s')
}.

(** The scan of the executor stands at the head of [l], a final part of
    the live rids of the file. *)
Definition at_rids (s : SeqScanExecutor.state) (l : list Rid) : Prop :=
  exists scan,
    SeqScanExecutor.scan_ (SeqScanExecutor.self s) = Some scan
    /\ ScanSpec.remaining (SeqScanExecutor.fh_ s) (RmScan.rid_ scan) = l
    /\ (RmScan.is_end scan (SeqScanExecutor.fh_ s) = false ->
        RM_FIRST_RECORD_PAGE <= page_no (RmScan.rid_ scan))
    /\ l `suffix_of` ScanSpec.live_rids (SeqScanExecutor.fh_ s).

(** The record at [r] passes the conditions of the executor. *)
Definition passes (s : SeqScanExecutor.state) (r : Rid) : bool :=
  SeqScanAux.satisfies s (RmInv.content (SeqScanExecutor.fh_ s) r).

Definition row (s : SeqScanExecutor.state) (r : Rid) : Rid * RmRecord :=
  (r, RmInv.content (SeqScanExecutor.fh_ s) r).

(** The executor [s], started as [s0], stands on a record that passes, or
    at the end. *)
Definition settled (s0 s : SeqScanExecutor.state) (l : list Rid) : Prop :=
  same_exec s0 s /\ at_rids s l
  /\ match l with
     | [] => True
     | r :: _ => passes s0 r = true /\ SeqScanExecutor.rid_ (SeqScanExecutor.self s) = r
     end.

(** The shared lock is granted for every record of the file. *)
Definition reads_granted (s : SeqScanExecutor.state) : Prop :=
  forall rid, RmInv.grants_shared (SeqScanExecutor.context_ (SeqScanExecutor.self s))
                                  (fd_ (SeqScanExecutor.fh_ s)) rid = true.

(** The rows of the table that pass the conditions, in scan order. *)
Definition rows (s : SeqScanExecutor.state) : list (Rid * RmRecord) :=
  map (row s) (filter (fun r => passes s r = true)
                      (ScanSpec.live_rids (SeqScanExecutor.fh_ s))).

(** [beginTuple] followed by the loop of the execution manager. *)
Definition run (fuel : nat) : M SeqScanExecutor.state (list (Rid * RmRecord)) :=
  SeqScanExecutor.beginTuple ;;; SeqScanAux.pull fuel.

End SeqScanSpec.

(** ** Log manager: a batch of appends *)

Module LogSpec.

(** [add_log_to_buffer] for each record in turn; the LSNs returned. *)
Fixpoint add_all (rs : list LogRecord.t) : M LogManager.t (list Z) :=
  match rs with
  | [] => ret []
  | r :: rest =>
      x <- LogManager.add_log_to_buffer r ;;
      lsns <- add_all rest ;;
      ret (fst x :: lsns)
  end.

(** Record [r] carrying LSN [l]. *)
Definition with_lsn (l : Z) (r : LogRecord.t) : LogRecord.t :=
  LogRecord.mk (LogRecord.log_type_ r) l (LogRecord.log_tot_len_ r) (LogRecord.log_tid_ r)
               (LogRecord.prev_lsn_ r) (LogRecord.payload r).

(** The [n] LSNs following [g]: [g + 1, ..., g + n], each brought into the
    range of the counter's type. *)
Definition lsns_after (g : Z) (n : nat) : list Z :=
  map Counter.wrap (seqZ (g + 1) (Z.of_nat n)).

(** The records with the LSNs following [g]: the [k]-th record carries
    [g + k], brought into the range of the counter's type. *)
Fixpoint stamped (g : Z) (rs : list LogRecord.t) : list LogRecord.t :=
  match rs with
  | [] => []
  | r :: rest => with_lsn (Counter.wrap (g + 1)) r :: stamped (g + 1) rest
  end.

Definition total_len (rs : list LogRecord.t) : Z :=
  fold_right (fun r n => LogRecord.log_tot_len_ r + n) 0 rs.

(** The appends of a batch followed by a flush. *)
Definition append_and_flush (rs : list LogRecord.t) : M LogManager.t (list Z) :=
  lsns <- add_all rs ;;
  LogManager.flush_log_to_disk ;;;
  ret lsns.

(** Calls of the log manager, and the state a sequence of calls leaves,
    whether each call returns, throws or blocks. *)
Inductive call : Type :=
  | Add (log_record : LogRecord.t)
  | Flush.

Definition run_call (m : LogManager.t) (c : call) : LogManager.t :=
  match c with
  | Add log_record => state_of (LogManager.add_log_to_buffer log_record m)
  | Flush => state_of (LogManager.flush_log_to_disk m)
  end.

Definition run_calls (cs : list call) (m : LogManager.t) : LogManager.t :=
  fold_left run_call cs m.

(** The number of [add_log_to_buffer] calls of a sequence. *)
Fixpoint adds (cs : list call) : Z :=
  match cs with
  | [] => 0
  | Add _ :: rest => 1 + adds rest
  | Flush :: rest => adds rest
  end.

End LogSpec.

(** ** Rollback: what [abort] is to restore *)

Module AbortSpec.

(** The write record is about record [rid] of table [tab]. *)
Definition names (tab : string) (rid : Rid) (w : WriteRecord.t) : bool :=
  bool_decide (WriteRecord.tab_name_ w = tab) && bool_decide (WriteRecord.rid_ w = rid).

(** The image saved by the oldest write record about [(tab, rid)]. *)
Definition before_image (ws : list WriteRecord.t) (tab : string) (rid : Rid)
  : option RmRecord :=
  WriteRecord.record_ <$> find (names tab rid) ws.

(** Every table file satisfies the record-manager invariant. *)
Definition files_wf (s : TransactionManager.state) : Prop :=
  forall tab h, TransactionManager.fhs_ s !! tab = Some h -> RmInv.wf h.

(** The write set holds updates only, each of a live record of an open
    table. *)
Definition updates_of_live (s : TransactionManager.state) (ws : list WriteRecord.t) : Prop :=
  Forall (fun w => WriteRecord.wtype_ w = UPDATE_TUPLE
                   /\ exists h, TransactionManager.fhs_ s !! WriteRecord.tab_name_ w = Some h
                                /\ RmInv.live h (WriteRecord.rid_ w)) ws.

(** Only the table files differ. *)
Definition same_but_files (s s' : TransactionManager.state) : Prop :=
  s' = TransactionManager.mkState
         (TransactionManager.heap s) (TransactionManager.brk s) (TransactionManager.txn_map s)
         (TransactionManager.next_txn_id_ s) (TransactionManager.next_timestamp_ s)
         (TransactionManager.latch_ s) (TransactionManager.fhs_ s')
         (TransactionManager.log s) (TransactionManager.unlocked s).

(** Table by table, the files of [s'] hold the records of [s] with the
    before-images of [ws] written back. *)
Definition restored (ws : list WriteRecord.t) (s s' : TransactionManager.state) : Prop :=
  forall tab h,
    TransactionManager.fhs_ s !! tab = Some h ->
    exists h',
      TransactionManager.fhs_ s' !! tab = Some h'
      /\ record_size (file_hdr_ h') = record_size (file_hdr_ h)
      /\ (forall r, RmInv.live h' r <-> RmInv.live h r)
      /\ forall r,
           RmInv.content h' r
           = match before_image ws tab r with
             | Some b => take (Z.to_nat (record_size (file_hdr_ h))) b
             | None => RmInv.content h r
             end.

(** The table and rid a write record is about. *)
Definition key (w : WriteRecord.t) : string * Rid :=
  (WriteRecord.tab_name_ w, WriteRecord.rid_ w).

(** The write set holds insertions only, of distinct records that are
    live in open tables. *)
Definition inserts_of_live (s : TransactionManager.state) (ws : list WriteRecord.t) : Prop :=
  NoDup (map key ws)
  /\ Forall (fun w => WriteRecord.wtype_ w = INSERT_TUPLE
                      /\ exists h, TransactionManager.fhs_ s !! WriteRecord.tab_name_ w = Some h
                                   /\ RmInv.live h (WriteRecord.rid_ w)) ws.

(** Table by table, the files of [s'] hold the records of [s] except
    those named by [ws]. *)
Definition removed (ws : list WriteRecord.t) (s s' : TransactionManager.state) : Prop :=
  forall tab h,
    TransactionManager.fhs_ s !! tab = Some h ->
    exists h',
      TransactionManager.fhs_ s' !! tab = Some h'
      /\ (forall r, RmInv.live h' r <-> RmInv.live h r /\ (tab, r) ∉ map key ws)
      /\ forall r, RmInv.live h' r -> RmInv.content h' r = RmInv.content h r.

End AbortSpec.

(** A transaction that has inserted [a] and [b] into table [t]. *)
Module AbortInsertWitness.

Definition T : Transaction.t :=
  Transaction.mk 1 GROWING 1 INVALID_LSN
    [WriteRecord.mk INSERT_TUPLE "t" (mkRid 1 0) [];
     WriteRecord.mk INSERT_TUPLE "t" (mkRid 1 1) []]
    [LockDataId.mk 3 (mkRid 1 0) RECORD; LockDataId.mk 3 (mkRid 1 1) RECORD] [] [].

Definition s : TransactionManager.state :=
  TransactionManager.mkState {[ 100 := T ]} 101 {[ 1 := 100 ]} 2 2 false
                             {[ "t" := RmWitness.two ]} (LogSamples.fresh 64) [].

End AbortInsertWitness.

(** A transaction that has overwritten the record [a] at (1, 0) of table
    [t] with [b] and then with [c]. *)
Module AbortWitness.

Definition file : RmFileHandle :=
  RmInv.run_ops [RmInv.OpInsert RmSamples.a (Some RmSamples.ctx);
                 RmInv.OpUpdate (mkRid 1 0) RmSamples.b (Some RmSamples.ctx);
                 RmInv.OpUpdate (mkRid 1 0) RmSamples.c (Some RmSamples.ctx)]
                RmWitness.file.

Definition T : Transaction.t :=
  Transaction.mk 1 GROWING 1 INVALID_LSN
    [WriteRecord.mk UPDATE_TUPLE "t" (mkRid 1 0) RmSamples.a;
     WriteRecord.mk UPDATE_TUPLE "t" (mkRid 1 0) RmSamples.b]
    [LockDataId.mk 3 (mkRid 1 0) RECORD] [] [].

Definition s : TransactionManager.state :=
  TransactionManager.mkState {[ 100 := T ]} 101 {[ 1 := 100 ]} 2 2 false {[ "t" := file ]}
                             (LogSamples.fresh 64) [].

End AbortWitness.

(** ** Analyzer: the catalogue as the analyzer reads it *)

Module AnalyzeSpec.

Definition known (db : DbMeta.t) (tab_name : string) : Prop :=
  is_Some (DbMeta.tabs_ db !! tab_name).

(** The columns of a table of the catalogue. *)
Definition table_cols (db : DbMeta.t) (tab_name : string) : list ColMeta.t :=
  match DbMeta.tabs_ db !! tab_name with
  | Some tab => TabMeta.cols tab
  | None => []
  end.

(** The columns of the tables of a FROM list, table by table. *)
Definition all_table_cols (db : DbMeta.t) (tab_names : list string) : list ColMeta.t :=
  flat_map (table_cols db) tab_names.

(** The reference to a column of the catalogue. *)
Definition as_tab_col (col : ColMeta.t) : TabCol.t :=
  TabCol.mk (ColMeta.tab_name col) (ColMeta.name col).

(** The columns of the catalogue named [col_name]. *)
Definition named (col_name : string) (all_cols : list ColMeta.t) : list ColMeta.t :=
  filter (fun c => ColMeta.name c = col_name) all_cols.

(** The condition compares a column of [tab_name], referred to without
    qualifier or by the name of the table, with a literal. *)
Definition about_table (tab_name : string) (cond : Condition.t) : Prop :=
  Condition.is_rhs_val cond = true
  /\ (TabCol.tab_name (Condition.lhs_col cond) = ""
      \/ TabCol.tab_name (Condition.lhs_col cond) = tab_name).

End AnalyzeSpec.

(** ** Update executor: the record an UPDATE is to write *)

Module UpdateSpec.

(** The clause names a column of the table, its value has the column's
    type and already carries the raw image [init_raw] gives it, as the
    analyzer leaves it. *)
Definition clause_ok (ov : Value.Overlong) (tab : TabMeta.t) (sc : SetClause.t) : Prop :=
  exists col,
    TabMeta.get_col tab (TabCol.col_name (SetClause.lhs sc)) = inr col
    /\ ColMeta.type col = Value.type (SetClause.rhs sc)
    /\ Value.init_raw ov (ColMeta.len col) (SetClause.rhs sc) = inr (SetClause.rhs sc).

(** The record with the raw images of the clauses copied over the columns
    they name, clause by clause. *)
Fixpoint patched (tab : TabMeta.t) (scs : list SetClause.t) (rec : RmRecord) : RmRecord :=
  match scs with
  | [] => rec
  | sc :: rest =>
      match TabMeta.get_col tab (TabCol.col_name (SetClause.lhs sc)) with
      | inr col =>
          patched tab rest
                  (UpdateExecutor.memcpy_at rec (ColMeta.offset col)
                                            (default [] (Value.raw (SetClause.rhs sc)))
                                            (ColMeta.len col))
      | inl _ => rec
      end
  end.

(** Every index of the table has its handle, and the context is not
    null. *)
Definition indexes_open (s : UpdateExecutor.state) : Prop :=
  is_Some (UpdateExecutor.context_ (UpdateExecutor.self s))
  /\ Forall (fun index =>
               is_Some (UpdateExecutor.ihs_ s
                          !! UpdateExecutor.get_index_name
                               (UpdateExecutor.tab_name_ (UpdateExecutor.self s))
                               (IndexMeta.cols index)))
            (TabMeta.indexes (UpdateExecutor.tab_ (UpdateExecutor.self s))).

(** Both locks are granted for every record of the file. *)
Definition locks_granted (s : UpdateExecutor.state) : Prop :=
  forall rid,
    RmInv.grants_shared (UpdateExecutor.context_ (UpdateExecutor.self s))
                        (fd_ (UpdateExecutor.fh_ s)) rid = true
    /\ RmInv.grants_exclusive (UpdateExecutor.context_ (UpdateExecutor.self s))
                              (fd_ (UpdateExecutor.fh_ s)) rid = true.

(** The file [h'] holds the records of [h], those at [rids] with the
    clauses applied. *)
Definition rows_updated (tab : TabMeta.t) (scs : list SetClause.t) (rids : list Rid)
           (h h' : RmFileHandle) : Prop :=
  (forall r, RmInv.live h' r <-> RmInv.live h r)
  /\ forall r,
       RmInv.content h' r
       = if bool_decide (r ∈ rids)
         then take (Z.to_nat (record_size (file_hdr_ h))) (patched tab scs (RmInv.content h r))
         else RmInv.content h r.

End UpdateSpec.
(** * Properties *)

(** Splits a conjunction into its parts, leaving equations alone. *)
Ltac split_conj := repeat match goal with |- _ /\ _ => split end.

(** ** Transaction manager: [begin] on an existing transaction *)

(** C10. When [TransactionManager::begin] is called with a non-null
    transaction pointer (and the manager's latch is free), it returns that
    pointer and the only change of state is the entry of [txn_map] for the
    transaction's id: the heap of transactions (hence the state, start
    timestamp, [prev_lsn], write set and lock set of the transaction), the
    counters and the log manager are unchanged, whatever the log-manager
    argument is. *)
Theorem begin_existing_only_registers :
  forall (s : TransactionManager.state) (txn : Z) (x : Transaction.t) (log_manager : bool),
    TransactionManager.heap s !! txn = Some x ->
    TransactionManager.latch_ s = false ->
    TransactionManager.begin (Some txn) log_manager s
    = Returned txn
        (TransactionManager.set_txn_map (fun m => <[Transaction.txn_id_ x := txn]> m) s).
Proof.
  intros s txn x log_manager Hx Hlatch.
  unfold TransactionManager.begin, TransactionManager.with_latch, bind, ret.
  rewrite Hlatch.
  unfold TransactionManager.deref, bind, get, modify, ret. cbn.
  rewrite Hx. cbn.
  destruct s; cbn in *. subst. reflexivity.
Qed.

Lemma begin_existing_only_registers_witness :
  TransactionManager.heap BeginProps.sample_state !! 100 = Some BeginProps.running_txn
  /\ TransactionManager.latch_ BeginProps.sample_state = false
  /\ TransactionManager.begin (Some 100) true BeginProps.sample_state
     = Returned 100
         (TransactionManager.set_txn_map (fun m => <[7 := 100]> m) BeginProps.sample_state).
Proof.
  split; [reflexivity | split; [reflexivity |]].
  apply (begin_existing_only_registers BeginProps.sample_state 100 BeginProps.running_txn true);
    reflexivity.
Defined.

(** ** Log manager *)

(** The counters stay within their type, and count up to its largest
    value. *)
Lemma wrap_range (z : Z) : Counter.MIN <= Counter.wrap z <= Counter.MAX.
Proof.
  unfold Counter.wrap, Counter.MIN, Counter.MAX.
  pose proof (Z.mod_pos_bound (z + 2 ^ 63) (2 ^ 64) ltac:(lia)). lia.
Qed.

Lemma wrap_id (z : Z) : Counter.MIN <= z <= Counter.MAX -> Counter.wrap z = z.
Proof.
  unfold Counter.wrap, Counter.MIN, Counter.MAX. intros H.
  rewrite Z.mod_small; lia.
Qed.

Lemma wrap_add_wrap (a b : Z) : Counter.wrap (Counter.wrap a + b) = Counter.wrap (a + b).
Proof.
  unfold Counter.wrap.
  replace ((a + 2 ^ 63) mod 2 ^ 64 - 2 ^ 63 + b + 2 ^ 63)
    with ((a + 2 ^ 63) mod 2 ^ 64 + b) by lia.
  rewrite Zplus_mod_idemp_l. f_equal. f_equal. lia.
Qed.

Lemma succ_below_max (z : Z) :
  Counter.MIN <= z < Counter.MAX -> Counter.succ z = z + 1.
Proof. intros H. unfold Counter.succ. apply wrap_id. lia. Qed.

Lemma succ_at_max : Counter.succ Counter.MAX = Counter.MIN.
Proof. reflexivity. Qed.

Arguments Counter.wrap : simpl never.
Arguments Counter.succ : simpl never.

Lemma le_bytes_length (n : nat) (z : Z) : length (Enc.le_bytes n z) = n.
Proof. revert z. induction n as [|n IH]; intros z; cbn; [reflexivity | now rewrite IH]. Qed.

Lemma serialize_length (r : LogRecord.t) :
  LogRecord.wf r -> Z.of_nat (length (LogRecord.serialize r)) = LogRecord.log_tot_len_ r.
Proof.
  intros Hwf. unfold LogRecord.serialize.
  rewrite !length_app, !le_bytes_length. rewrite Hwf.
  unfold LogRecord.LOG_HEADER_SIZE. lia.
Qed.

Lemma header_only_wf (ty : LogRecord.LogType) (txn_id : Z) :
  LogRecord.wf (LogRecord.header_only ty txn_id).
Proof. reflexivity. Qed.

Lemma set_lsn_wf (l : Z) (r : LogRecord.t) : LogRecord.wf r -> LogRecord.wf (LogRecord.set_lsn l r).
Proof. intros H; exact H. Qed.

Lemma set_prev_lsn_wf (l : Z) (r : LogRecord.t) :
  LogRecord.wf r -> LogRecord.wf (LogRecord.set_prev_lsn l r).
Proof. intros H; exact H. Qed.

Lemma add_log_fits (log_record : LogRecord.t) (m : LogManager.t) :
  LogManager.latch_ m = false ->
  LogBuffer.is_full (LogRecord.log_tot_len_ log_record) (LogManager.log_buffer_ m) = false ->
  LogManager.add_log_to_buffer log_record m
  = Returned (Counter.succ (LogManager.global_lsn_ m),
              LogRecord.set_lsn (Counter.succ (LogManager.global_lsn_ m)) log_record)
             (LogInv.appended log_record m).
Proof.
  intros Hl Hfull.
  unfold LogManager.add_log_to_buffer, LogManager.with_latch. rewrite Hl.
  unfold bind, modify, get, ret. cbn. rewrite Hfull. reflexivity.
Qed.

(** On the path where the buffer cannot hold the record, the nested
    [flush_log_to_disk] locks the latch its caller owns. *)
Lemma add_log_full_self_deadlock (log_record : LogRecord.t) (m : LogManager.t) :
  LogManager.latch_ m = false ->
  LogBuffer.is_full (LogRecord.log_tot_len_ log_record) (LogManager.log_buffer_ m) = true ->
  LogManager.add_log_to_buffer log_record m
  = Halted SelfDeadlock
           (LogManager.set_latch true
              (LogManager.set_global_lsn (Counter.succ (LogManager.global_lsn_ m)) m)).
Proof.
  intros Hl Hfull.
  unfold LogManager.add_log_to_buffer, LogManager.with_latch. rewrite Hl.
  unfold bind, modify, get, ret. cbn. rewrite Hfull. reflexivity.
Qed.

Lemma flush_spec (m : LogManager.t) :
  LogManager.latch_ m = false ->
  LogManager.flush_log_to_disk m =
    if LogBuffer.offset_ (LogManager.log_buffer_ m) =? 0 then Returned tt m
    else if DiskManager.log_writable (LogManager.disk_manager_ m)
         then Returned tt (LogInv.flushed_state m)
         else Threw UnixError m.
Proof.
  intros Hl. destruct m as [g p b l d]. cbn in Hl. subst l.
  unfold LogManager.flush_log_to_disk, LogManager.with_latch, bind, get, zoom,
    DiskManager.write_log, modify, ret. cbn.
  destruct (LogBuffer.offset_ b =? 0); [reflexivity|].
  destruct d as [f w]; cbn. destruct w; reflexivity.
Qed.

Lemma holds_fresh (size : Z) : 0 <= size -> LogInv.holds (LogSamples.fresh size) [] [].
Proof.
  intros Hs. constructor; cbn; try lia; try reflexivity.
  - rewrite length_replicate. lia.
  - unfold Counter.MIN, Counter.MAX. lia.
Qed.

Lemma holds_appended (r : LogRecord.t) (m : LogManager.t) (flushed pending : list LogRecord.t) :
  LogRecord.wf r ->
  LogBuffer.is_full (LogRecord.log_tot_len_ r) (LogManager.log_buffer_ m) = false ->
  LogInv.holds m flushed pending ->
  LogInv.holds (LogInv.appended r m) flushed
               (pending ++ [LogRecord.set_lsn (Counter.succ (LogManager.global_lsn_ m)) r]).
Proof.
  intros Hwf Hfull [Hfile Hbuf Hoff Hsize Hlsn].
  pose proof (serialize_length (LogRecord.set_lsn (Counter.succ (LogManager.global_lsn_ m)) r)
                (set_lsn_wf _ _ Hwf)) as Hlen.
  cbn [LogRecord.set_lsn LogRecord.log_tot_len_] in Hlen.
  unfold LogBuffer.is_full in Hfull. rewrite Z.gtb_ltb in Hfull. apply Z.ltb_ge in Hfull.
  assert (0 <= LogRecord.log_tot_len_ r) by lia.
  set (img := LogRecord.serialize
                (LogRecord.set_lsn (Counter.succ (LogManager.global_lsn_ m)) r)) in *.
  set (b := LogManager.log_buffer_ m) in *.
  assert (Hto : length (take (Z.to_nat (LogBuffer.offset_ b)) (LogBuffer.buffer_ b))
                = Z.to_nat (LogBuffer.offset_ b)).
  { rewrite length_take. lia. }
  constructor; cbn -[LogRecord.serialize Z.add Z.to_nat Counter.succ]; fold b; fold img.
  - exact Hfile.
  - rewrite flat_map_app. cbn [flat_map]. rewrite app_nil_r. rewrite <- Hbuf.
    fold img.
    replace (Z.to_nat (LogBuffer.offset_ b + LogRecord.log_tot_len_ r))
      with (length (take (Z.to_nat (LogBuffer.offset_ b)) (LogBuffer.buffer_ b) ++ img) + 0)%nat.
    2: { rewrite length_app, Hto. lia. }
    rewrite app_assoc. rewrite take_app_add'; [|reflexivity].
    rewrite take_0. now rewrite app_nil_r.
  - lia.
  - rewrite !length_app, Hto, length_drop. lia.
  - apply wrap_range.
Qed.

Lemma holds_flushed (m : LogManager.t) (flushed pending : list LogRecord.t) :
  DiskManager.log_writable (LogManager.disk_manager_ m) = true ->
  LogInv.holds m flushed pending ->
  LogInv.holds (LogInv.flushed_state m) (flushed ++ pending) [].
Proof.
  intros Hw [Hfile Hbuf Hoff Hsize Hlsn].
  constructor; cbn.
  - rewrite flat_map_app, Hfile, Hbuf. reflexivity.
  - apply take_0.
  - lia.
  - rewrite length_replicate. lia.
  - exact Hlsn.
Qed.

(** C9. [add_log_to_buffer] does not always return: after two header-only
    records have been appended to a 64-byte buffer (both calls return, with
    LSN 1 and 2), a third record does not fit; the call takes the path
    through the nested [flush_log_to_disk], which locks the latch the call
    already owns, and never comes back. *)
Theorem add_log_to_buffer_full_buffer_self_deadlock :
  LogManager.add_log_to_buffer (LogRecord.BeginLogRecord 1) (LogSamples.fresh 64)
  = Returned (1, LogRecord.set_lsn 1 (LogRecord.BeginLogRecord 1))
             (LogInv.appended (LogRecord.BeginLogRecord 1) (LogSamples.fresh 64))
  /\ LogManager.latch_ LogSamples.two_appended = false
  /\ LogManager.global_lsn_ LogSamples.two_appended = 2
  /\ LogBuffer.offset_ (LogManager.log_buffer_ LogSamples.two_appended) = 58
  /\ LogManager.add_log_to_buffer (LogRecord.BeginLogRecord 2) LogSamples.two_appended
     = Halted SelfDeadlock
              (LogManager.set_latch true
                 (LogManager.set_global_lsn 3 LogSamples.two_appended)).
Proof. split_conj; vm_compute; reflexivity. Qed.

(** ** Transaction manager: [commit] *)

Lemma deref_eq (s : TransactionManager.state) (txn : Z) (x : Transaction.t) :
  TransactionManager.heap s !! txn = Some x ->
  TransactionManager.deref txn s = Returned x s.
Proof. intros H. unfold TransactionManager.deref, bind, get, ret. now rewrite H. Qed.

Lemma update_txn_eq (s : TransactionManager.state) (txn : Z) (x : Transaction.t)
      (f : Transaction.t -> Transaction.t) :
  TransactionManager.heap s !! txn = Some x ->
  TransactionManager.update_txn txn f s
  = Returned tt (TransactionManager.set_heap (fun hp => <[txn := f x]> hp) s).
Proof.
  intros H. unfold TransactionManager.update_txn, bind. rewrite (deref_eq _ _ _ H).
  reflexivity.
Qed.

Lemma shrink_idem (x : Transaction.t) : TxnAux.shrink (TxnAux.shrink x) = TxnAux.shrink x.
Proof. unfold TxnAux.shrink. destruct x as [i st ? ? ? ? ? ?]; destruct st; reflexivity. Qed.

Lemma released_shrink (ls : list LockDataId.t) (x : Transaction.t) :
  TxnAux.released ls (TxnAux.shrink x) = TxnAux.shrink x.
Proof. destruct ls; cbn; [reflexivity | apply shrink_idem]. Qed.

Lemma unlock_all_spec (txn : Z) (ls : list LockDataId.t) :
  forall (s : TransactionManager.state) (x : Transaction.t),
    TransactionManager.heap s !! txn = Some x ->
    TransactionManager.unlock_all txn ls s = Returned tt (TxnAux.after_unlock txn ls x s).
Proof.
  induction ls as [|l ls IH]; intros s x Hx.
  - cbn. unfold ret. f_equal. unfold TxnAux.after_unlock. cbn.
    rewrite insert_id by exact Hx. rewrite app_nil_r. now destruct s.
  - cbn [TransactionManager.unlock_all]. unfold bind at 1.
    unfold TransactionManager.unlock, bind.
    rewrite (update_txn_eq _ _ _ _ Hx). unfold modify.
    erewrite IH.
    2: { cbn. apply lookup_insert_eq. }
    f_equal. unfold TxnAux.after_unlock. cbn.
    rewrite insert_insert_eq. rewrite <- app_assoc. cbn.
    fold (TxnAux.shrink x). now rewrite released_shrink.
Qed.

Lemma released_state_not_committed (ls : list LockDataId.t) (x : Transaction.t) :
  Transaction.state_ x <> COMMITTED ->
  Transaction.state_ (TxnAux.released ls x) <> COMMITTED.
Proof.
  intros H. destruct ls; cbn; [exact H|].
  unfold TxnAux.shrink. destruct x as [i st ? ? ? ? ? ?]; destruct st; cbn in *; congruence.
Qed.

Lemma released_prev_lsn (ls : list LockDataId.t) (x : Transaction.t) :
  Transaction.prev_lsn_ (TxnAux.released ls x) = Transaction.prev_lsn_ x
  /\ Transaction.txn_id_ (TxnAux.released ls x) = Transaction.txn_id_ x.
Proof.
  destruct ls; cbn; [split; reflexivity|].
  unfold TxnAux.shrink. destruct x as [i st ? ? ? ? ? ?]; destruct st; split; reflexivity.
Qed.
Arguments LogRecord.serialize : simpl never.

(** C2. [commit] with a non-null log manager, on a transaction that is not
    yet committed, with the log latch free and the log in a consistent state
    ([flushed] on the file, [pending] in the buffer).  Let [g] be the last
    LSN handed out and [g'] the value of the counter after [++] (it is
    [g + 1], and wraps at the width of [lsn_t]).
    - If the call returns, then a [COMMIT] record has been appended and
      flushed which is exactly [TxnAux.commit_record g x]: a header-only
      record of type [COMMIT] with the transaction's id, LSN [g'] and
      [prev_lsn] the LSN the transaction held before the call, so that it
      is chained to the transaction's previous record.  The log file holds
      every record appended so far ([flushed ++ pending] and the [COMMIT]
      record), the buffer is empty, [persist_lsn = global_lsn = g'], which
      is also the transaction's final LSN, and the state is [COMMITTED].
      This happens exactly when the record fits the buffer and the log file
      can be written.
    - If the write of the log file fails, the call throws and the
      transaction is not [COMMITTED].
    - If the record does not fit, the call never returns (see C9) and the
      transaction is not [COMMITTED]. *)
Theorem commit_forces_log_before_committed :
  forall (s : TransactionManager.state) (txn : Z) (x : Transaction.t)
         (flushed pending : list LogRecord.t),
    TransactionManager.heap s !! txn = Some x ->
    Transaction.state_ x <> COMMITTED ->
    LogManager.latch_ (TransactionManager.log s) = false ->
    LogInv.holds (TransactionManager.log s) flushed pending ->
    let m := TransactionManager.log s in
    let g := LogManager.global_lsn_ m in
    let fits := negb (LogBuffer.is_full LogRecord.LOG_HEADER_SIZE (LogManager.log_buffer_ m)) in
    let writable := DiskManager.log_writable (LogManager.disk_manager_ m) in
    match TransactionManager.commit txn true s with
    | Returned _ s' =>
        fits = true /\ writable = true
        /\ LogInv.holds (TransactionManager.log s')
                        (flushed ++ pending ++ [TxnAux.commit_record g x]) []
        /\ LogManager.global_lsn_ (TransactionManager.log s') = Counter.succ g
        /\ LogManager.persist_lsn_ (TransactionManager.log s') = Counter.succ g
        /\ TxnAux.prev_lsn_at s' txn = Some (Counter.succ g)
        /\ TxnAux.state_at s' txn = Some COMMITTED
    | Threw e s' =>
        fits = true /\ writable = false /\ e = UnixError
        /\ exists st, TxnAux.state_at s' txn = Some st /\ st <> COMMITTED
    | Halted h s' =>
        fits = false /\ h = SelfDeadlock
        /\ exists st, TxnAux.state_at s' txn = Some st /\ st <> COMMITTED
    end.
Proof.
  intros s txn x flushed pending Hx Hst Hlatch Hinv m g fits writable.
  unfold TransactionManager.commit. unfold bind at 1.
  rewrite (deref_eq _ _ _ Hx).
  rewrite bool_decide_eq_false_2 by exact Hst.
  unfold bind at 1. rewrite (unlock_all_spec _ _ _ _ Hx).
  set (x1 := TxnAux.released (Transaction.lock_set_ x) x).
  set (s1 := TxnAux.after_unlock txn (Transaction.lock_set_ x) x s).
  assert (H1 : TransactionManager.heap s1 !! txn = Some x1) by apply lookup_insert_eq.
  unfold bind at 1. rewrite (update_txn_eq _ _ _ _ H1).
  set (s2 := TransactionManager.set_heap _ s1).
  assert (H2 : TransactionManager.heap s2 !! txn = Some (Transaction.clear_sets x1))
    by apply lookup_insert_eq.
  unfold bind at 1. lazy beta iota. unfold bind at 1. rewrite (deref_eq _ _ _ H2).
  unfold bind at 1. unfold TransactionManager.on_log at 1, zoom.
  change (TransactionManager.log s2) with m.
  pose proof (released_prev_lsn (Transaction.lock_set_ x) x) as [Hprev Hid].
  pose proof (released_state_not_committed (Transaction.lock_set_ x) x Hst) as Hst1.
  fold x1 in Hprev, Hid, Hst1.
  set (rec := LogRecord.set_prev_lsn _ _).
  assert (Hrec : LogRecord.set_lsn (Counter.succ g) rec = TxnAux.commit_record g x).
  { unfold rec, TxnAux.commit_record. cbn. now rewrite Hprev, Hid. }
  assert (Hwf : LogRecord.wf rec) by reflexivity.
  subst fits. change (LogRecord.log_tot_len_ rec) with LogRecord.LOG_HEADER_SIZE in *.
  destruct (LogBuffer.is_full LogRecord.LOG_HEADER_SIZE (LogManager.log_buffer_ m)) eqn:Hfull.
  - rewrite (add_log_full_self_deadlock rec m Hlatch Hfull).
    split; [reflexivity | split; [reflexivity |]].
    exists (Transaction.state_ x1). split; [|exact Hst1].
    unfold TxnAux.state_at. cbn. rewrite lookup_insert_eq. reflexivity.
  - rewrite (add_log_fits rec m Hlatch Hfull). fold g. rewrite Hrec.
    unfold bind at 1.
    erewrite update_txn_eq by (cbn; apply lookup_insert_eq).
    unfold TransactionManager.on_log, zoom.
    set (s3 := TransactionManager.set_heap _ _).
    change (TransactionManager.log s3) with (LogInv.appended rec m).
    rewrite flush_spec by reflexivity.
    pose proof (LogInv.offset_ok _ _ _ Hinv) as Hoff.
    assert (Hne : (LogBuffer.offset_ (LogManager.log_buffer_ (LogInv.appended rec m)) =? 0)
                  = false).
    { apply Z.eqb_neq. cbn. unfold LogRecord.LOG_HEADER_SIZE. subst m. lia. }
    rewrite Hne.
    change (DiskManager.log_writable (LogManager.disk_manager_ (LogInv.appended rec m)))
      with writable.
    destruct writable eqn:Hw.
    + erewrite update_txn_eq by (cbn; apply lookup_insert_eq).
      split; [reflexivity | split; [reflexivity |]].
      pose proof (holds_appended rec m flushed pending Hwf Hfull Hinv) as Ha.
      fold g in Ha. rewrite Hrec in Ha.
      pose proof (holds_flushed (LogInv.appended rec m) _ _ Hw Ha) as Hf.
      split; [exact Hf |].
      split; [reflexivity | split; [reflexivity |]].
      unfold TxnAux.prev_lsn_at, TxnAux.state_at. cbn.
      rewrite lookup_insert_eq. split; reflexivity.
    + split; [reflexivity | split; [reflexivity | split; [reflexivity |]]].
      exists (Transaction.state_ x1). split; [|exact Hst1].
      unfold TxnAux.state_at. cbn. rewrite lookup_insert_eq. reflexivity.
Qed.


Lemma commit_forces_log_before_committed_witness :
  let s := CommitSample.started in
  let x := CommitSample.started_txn in
  let flushed := [] in
  let pending := [CommitSample.begin_record] in
  TransactionManager.heap s !! 100 = Some x
  /\ Transaction.state_ x <> COMMITTED
  /\ LogManager.latch_ (TransactionManager.log s) = false
  /\ LogInv.holds (TransactionManager.log s) flushed pending
  /\ let m := TransactionManager.log s in
     let g := LogManager.global_lsn_ m in
     let fits := negb (LogBuffer.is_full LogRecord.LOG_HEADER_SIZE (LogManager.log_buffer_ m)) in
     let writable := DiskManager.log_writable (LogManager.disk_manager_ m) in
     match TransactionManager.commit 100 true s with
     | Returned _ s' =>
         fits = true /\ writable = true
         /\ LogInv.holds (TransactionManager.log s')
                         (flushed ++ pending ++ [TxnAux.commit_record g x]) []
         /\ LogManager.global_lsn_ (TransactionManager.log s') = Counter.succ g
         /\ LogManager.persist_lsn_ (TransactionManager.log s') = Counter.succ g
         /\ TxnAux.prev_lsn_at s' 100 = Some (Counter.succ g)
         /\ TxnAux.state_at s' 100 = Some COMMITTED
     | Threw e s' =>
         fits = true /\ writable = false /\ e = UnixError
         /\ exists st, TxnAux.state_at s' 100 = Some st /\ st <> COMMITTED
     | Halted h s' =>
         fits = false /\ h = SelfDeadlock
         /\ exists st, TxnAux.state_at s' 100 = Some st /\ st <> COMMITTED
     end.
Proof.
  intros s x flushed pending.
  assert (H1 : TransactionManager.heap s !! 100 = Some x) by reflexivity.
  assert (H2 : Transaction.state_ x <> COMMITTED) by discriminate.
  assert (H3 : LogManager.latch_ (TransactionManager.log s) = false) by reflexivity.
  assert (H4 : LogInv.holds (TransactionManager.log s) flushed pending).
  { exact (holds_appended (LogRecord.BeginLogRecord 1) (LogSamples.fresh 64) [] []
             (header_only_wf _ _) eq_refl (holds_fresh 64 ltac:(lia))). }
  exact (conj H1 (conj H2 (conj H3 (conj H4
           (commit_forces_log_before_committed s 100 x flushed pending H1 H2 H3 H4))))).
Defined.

(** On the sample, [commit] returns. *)
Example commit_sample_returns :
  returned (TransactionManager.commit 100 true CommitSample.started) = true.
Proof. vm_compute. reflexivity. Qed.

(** ** Analyzer: column resolution *)

Lemma infer_tab_name_spec (col_name : string) (all_cols : list ColMeta.t) :
  Forall (fun c => ColMeta.tab_name c <> "") all_cols ->
  forall acc : string,
    Analyze.infer_tab_name all_cols col_name acc
    = match filter (fun c => ColMeta.name c = col_name) all_cols with
      | [] => inr acc
      | c :: rest =>
          if bool_decide (acc = "") then
            match rest with
            | [] => inr (ColMeta.tab_name c)
            | _ => inl (AmbiguousColumnError col_name)
            end
          else inl (AmbiguousColumnError col_name)
      end.
Proof.
  induction 1 as [|c cols Hc Hcols IH]; intros acc; [reflexivity|].
  cbn [Analyze.infer_tab_name]. rewrite filter_cons.
  destruct (decide (ColMeta.name c = col_name)) as [Heq|Hne].
  - rewrite (bool_decide_eq_true_2 _ Heq).
    destruct (bool_decide (acc = "")); cbn [negb]; [|reflexivity].
    rewrite IH. rewrite (bool_decide_eq_false_2 _ Hc).
    destruct (filter _ cols); reflexivity.
  - rewrite (bool_decide_eq_false_2 _ Hne). apply IH.
Qed.

(** The unqualified branch of [check_column]: with no match the call fails
    with [ColumnNotFound], with one match it infers the owning table, with
    more it fails with [AmbiguousColumn]. *)
Lemma check_column_unqualified (all_cols : list ColMeta.t) (col_name : string) :
  Forall (fun c => ColMeta.tab_name c <> "") all_cols ->
  Analyze.check_column all_cols (TabCol.mk "" col_name)
  = match filter (fun c => ColMeta.name c = col_name) all_cols with
    | [] => inl (ColumnNotFoundError col_name)
    | [c] => inr (TabCol.mk (ColMeta.tab_name c) col_name)
    | _ => inl (AmbiguousColumnError col_name)
    end.
Proof.
  intros Hall. unfold Analyze.check_column. cbn [TabCol.tab_name TabCol.col_name].
  rewrite (bool_decide_eq_true_2 ("" = "") eq_refl).
  rewrite (infer_tab_name_spec _ _ Hall).
  rewrite (bool_decide_eq_true_2 ("" = "") eq_refl).
  destruct (filter _ all_cols) as [|c rest] eqn:Hf; [reflexivity|].
  destruct rest; [|reflexivity]. cbn [rbind].
  assert (Hin : c ∈ filter (fun c => ColMeta.name c = col_name) all_cols)
    by (rewrite Hf; constructor).
  apply list_elem_of_filter in Hin as [_ Hin].
  rewrite Forall_forall in Hall. specialize (Hall _ Hin).
  now rewrite (bool_decide_eq_false_2 _ Hall).
Qed.

(** The qualified branch of [check_column] accepts every column name. *)
Lemma check_column_qualified (all_cols : list ColMeta.t) (target : TabCol.t) :
  TabCol.tab_name target <> "" ->
  Analyze.check_column all_cols target = inr target.
Proof.
  intros H. unfold Analyze.check_column. now rewrite (bool_decide_eq_false_2 _ H).
Qed.

(** C7. A reference to a column that does not exist is not rejected when it
    carries a table qualifier: on table [t(id, x)], [check_column] returns
    [t.zzz] unchanged and the analysis of [SELECT t.zzz FROM t] succeeds
    with [t.zzz] in its column list, whereas the unqualified [zzz] fails
    with [ColumnNotFound]. *)
Theorem check_column_accepts_missing_qualified_column :
  Analyze.check_column [AnalyzeSample.t_id; AnalyzeSample.t_x] (TabCol.mk "t" "zzz")
  = inr (TabCol.mk "t" "zzz")
  /\ Analyze.do_analyze AnalyzeSample.db Value.Reject AnalyzeSample.select_missing
     = inr (Query.mk (Some AnalyzeSample.select_missing) [] [TabCol.mk "t" "zzz"] ["t"] [] [])
  /\ Analyze.do_analyze AnalyzeSample.db Value.Reject AnalyzeSample.select_missing_unqualified
     = inl (ColumnNotFoundError "zzz").
Proof. split_conj; vm_compute; reflexivity. Qed.

(** ** Record manager: the free list *)

(** Once the page at the head of the free list is full and points to
    itself, [create_page_handle] unlinks and retries for ever: no amount of
    fuel lets it return. *)
Lemma create_page_handle_self_loop (fuel : nat) :
  forall (h : RmFileHandle) (p : Z) (pg : RmPage),
    first_free_page_no (file_hdr_ h) = p ->
    p <> RM_NO_PAGE ->
    0 <= p < num_pages (file_hdr_ h) ->
    pages h !! p = Some pg ->
    num_records (page_hdr pg) = num_records_per_page (file_hdr_ h) ->
    next_free_page_no (page_hdr pg) = p ->
    exists h', Rm.create_page_handle fuel h = Halted OutOfFuel h'.
Proof.
  induction fuel as [|fuel IH]; intros h p pg Hff Hne Hrange Hpg Hfull Hnext.
  - eexists. reflexivity.
  - cbn [Rm.create_page_handle]. unfold bind at 1. unfold get at 1.
    rewrite Hff. rewrite (proj2 (Z.eqb_neq _ _) Hne).
    unfold bind at 1. unfold Rm.fetch_page_handle at 1, bind at 1, get at 1.
    replace ((p >=? num_pages (file_hdr_ h)) || (p <? 0)) with false
      by (symmetry; apply orb_false_iff; split;
          [rewrite Z.geb_leb; apply Z.leb_gt | apply Z.ltb_ge]; lia).
    rewrite Hpg. unfold bind at 1, modify at 1, ret at 1.
    unfold bind at 1, get at 1.
    assert (Hat : page_at (log_event (EvFetchPage (mkPageId (fd_ h) p)) h) p = pg).
    { unfold page_at. cbn. now rewrite Hpg. }
    rewrite Hat. cbn [log_event file_hdr_].
    rewrite Hfull, Z.eqb_refl.
    unfold bind at 1, modify at 1. unfold bind at 1, Rm.unpin_page at 1, modify at 1.
    eapply (IH _ p pg); cbn; assumption.
Qed.

Lemma insert_record_refilled_never_returns (fuel : nat) (buf : list Z) (context : option Context) :
  exists h, Rm.insert_record fuel buf context RmSamples.refilled = Halted OutOfFuel h.
Proof.
  assert (H1 : first_free_page_no (file_hdr_ RmSamples.refilled) = 1)
    by (vm_compute; reflexivity).
  assert (H2 : 1 <> RM_NO_PAGE) by discriminate.
  assert (H3 : 0 <= 1 < num_pages (file_hdr_ RmSamples.refilled))
    by (vm_compute; split; [discriminate | reflexivity]).
  assert (H4 : pages RmSamples.refilled !! 1 = Some (page_at RmSamples.refilled 1))
    by (vm_compute; reflexivity).
  assert (H5 : num_records (page_hdr (page_at RmSamples.refilled 1))
               = num_records_per_page (file_hdr_ RmSamples.refilled))
    by (vm_compute; reflexivity).
  assert (H6 : next_free_page_no (page_hdr (page_at RmSamples.refilled 1)) = 1)
    by (vm_compute; reflexivity).
  destruct (create_page_handle_self_loop fuel RmSamples.refilled 1
              (page_at RmSamples.refilled 1) H1 H2 H3 H4 H5 H6) as [h Hh].
  exists h. unfold Rm.insert_record, bind. now rewrite Hh.
Qed.

(** C3. The free-list invariant does not survive the insertion at a given
    position.  With two slots per page, starting from an empty file:
    - [insert_record] puts a record at (1, 0); page 1 is non-full and is the
      whole free list;
    - [insert_record] at position (1, 1) fills page 1 but leaves it on the
      free list, which now holds a full page;
    - [delete_record] of (1, 0) takes page 1 from full to non-full and links
      it at the head again, in front of itself: the chain is a cycle and
      never reaches [RM_NO_PAGE];
    - one more [insert_record] fills page 1, and the next one never
      returns. *)
Theorem free_list_broken_by_insert_at_rid :
  Rm.insert_record 1 RmSamples.a (Some RmSamples.ctx) (RmSamples.empty_file 2 2)
  = Returned (mkRid 1 0) RmSamples.one_record
  /\ RmAux.free_chain 2 RmSamples.one_record = Some [1]
  /\ RmAux.non_full_pages RmSamples.one_record = [1]
  /\ Rm.insert_record_at (mkRid 1 1) RmSamples.b RmSamples.one_record
     = Returned tt RmSamples.filled_at
  /\ RmAux.free_chain 2 RmSamples.filled_at = Some [1]
  /\ RmAux.non_full_pages RmSamples.filled_at = []
  /\ Rm.delete_record (mkRid 1 0) (Some RmSamples.ctx) RmSamples.filled_at
     = Returned tt RmSamples.relinked
  /\ first_free_page_no (file_hdr_ RmSamples.relinked) = 1
  /\ next_free_page_no (page_hdr (page_at RmSamples.relinked 1)) = 1
  /\ (forall fuel, RmAux.free_chain fuel RmSamples.relinked = None)
  /\ Rm.insert_record 1 RmSamples.c (Some RmSamples.ctx) RmSamples.relinked
     = Returned (mkRid 1 0) RmSamples.refilled
  /\ (forall fuel,
        returned (Rm.insert_record fuel RmSamples.c (Some RmSamples.ctx) RmSamples.refilled)
        = false).
Proof.
  repeat match goal with |- _ /\ _ => split end;
    try match goal with
        | |- forall _, _ => idtac
        | |- _ => vm_compute; reflexivity
        end.
  - intros fuel. unfold RmAux.free_chain.
    change (first_free_page_no (file_hdr_ RmSamples.relinked)) with 1.
    induction fuel as [|fuel IH]; [reflexivity|].
    cbn [RmAux.chain_from].
    change (next_free_page_no (page_hdr (page_at RmSamples.relinked 1))) with 1.
    rewrite IH. reflexivity.
  - intros fuel.
    destruct (insert_record_refilled_never_returns fuel RmSamples.c (Some RmSamples.ctx))
      as [h Hh].
    now rewrite Hh.
Qed.

(** ** Record manager: pins and unpins *)

(** With a null context, a successful [get_record] pins the page of the
    record and makes no other call to the buffer pool. *)
Lemma get_record_null_context_trace (rid : Rid) (h h' : RmFileHandle) (rec : RmRecord) :
  Rm.get_record rid None h = Returned rec h' ->
  bpm_trace h' = bpm_trace h ++ [EvFetchPage (mkPageId (fd_ h) (page_no rid))].
Proof.
  unfold Rm.get_record, bind, Rm.fetch_page_handle, bind, get.
  destruct ((page_no rid >=? num_pages (file_hdr_ h)) || (page_no rid <? 0));
    [discriminate|].
  destruct (pages h !! page_no rid); [|discriminate].
  unfold modify, ret. cbn.
  destruct (negb _); [discriminate|].
  intros [= _ <-]. reflexivity.
Qed.

(** Every round of the loop of [RmScan::next] that finds a record ends
    with a pinned page: the trace gains fetches only. *)
Lemma scan_next_loop_only_fetches (n : nat) :
  forall (rid rid' : Rid) (h h' : RmFileHandle),
    RmScan.next_loop n rid h = Returned rid' h' ->
    exists pids, bpm_trace h' = bpm_trace h ++ map EvFetchPage pids
                 /\ (page_no rid' < num_pages (file_hdr_ h) -> pids <> []).
Proof.
  induction n as [|n IH]; intros rid rid' h h'.
  - cbn. unfold bind, get, ret. intros [= <- <-]. exists [].
    split; [now rewrite app_nil_r | cbn; lia].
  - cbn [RmScan.next_loop]. unfold bind at 1.
    unfold Rm.fetch_page_handle, bind, get.
    destruct ((page_no rid >=? num_pages (file_hdr_ h)) || (page_no rid <? 0));
      [discriminate|].
    destruct (pages h !! page_no rid); [|discriminate].
    unfold modify, ret. cbn -[RmScan.next_loop RmScan.find_slot].
    destruct (RmScan.find_slot _ _ _).
    + intros [= <- <-]. exists [mkPageId (fd_ h) (page_no rid)]. cbn. split; [reflexivity|].
      intros _; discriminate.
    + intros Hn. apply IH in Hn as (pids & Htr & _). cbn in Htr.
      exists (mkPageId (fd_ h) (page_no rid) :: pids). split.
      * rewrite Htr, <- app_assoc. reflexivity.
      * intros _; discriminate.
Qed.

(** C4. Fetches and unpins are not paired one to one.
    - [get_record] with a null context returns the record of (1, 0) with
      the page pinned once and never unpinned; with a context it unpins
      once, clean.
    - [update_record] and [insert_record] with a null context leave their
      page pinned as well.
    - Creating an [RmScan] and advancing it pins page 1 at every step and
      never unpins it.
    - [delete_record] with a context, on the delete that takes a page from
      full to non-full, unpins the page twice for one fetch. *)
Theorem buffer_pool_pins_not_paired :
  let pid := mkPageId 3 1 in
  let one := RmSamples.one_record in
  let full := RmSamples.full_page in
  let get_null := Rm.get_record (mkRid 1 0) None one in
  let get_ctx := Rm.get_record (mkRid 1 0) (Some RmSamples.ctx) one in
  let update_null := Rm.update_record (mkRid 1 0) RmSamples.b None one in
  let insert_null := Rm.insert_record 1 RmSamples.b None one in
  let scan := RmScan.new one in
  let delete_ctx := Rm.delete_record (mkRid 1 1) (Some RmSamples.ctx) full in
  (returned get_null = true /\ RmAux.calls one get_null = [EvFetchPage pid]
   /\ RmAux.pins pid (RmAux.calls one get_null) = 1%nat
   /\ RmAux.unpins pid (RmAux.calls one get_null) = 0%nat)
  /\ (returned get_ctx = true
      /\ RmAux.calls one get_ctx
         = [EvFetchPage pid; EvLockShared 100 (mkRid 1 0) 3; EvUnpinPage pid false])
  /\ (returned update_null = true /\ RmAux.calls one update_null = [EvFetchPage pid])
  /\ (returned insert_null = true /\ RmAux.calls one insert_null = [EvFetchPage pid])
  /\ (scan = Returned (RmScan.mk (mkRid 1 0)) (state_of scan)
      /\ RmAux.calls one scan = [EvFetchPage pid]
      /\ RmAux.pins pid (RmAux.calls one scan) = 1%nat
      /\ RmAux.unpins pid (RmAux.calls one scan) = 0%nat)
  /\ (returned delete_ctx = true
      /\ RmAux.calls full delete_ctx
         = [EvFetchPage pid; EvLockExclusive 100 (mkRid 1 1) 3;
            EvUnpinPage pid true; EvUnpinPage pid true]
      /\ RmAux.pins pid (RmAux.calls full delete_ctx) = 1%nat
      /\ RmAux.unpins pid (RmAux.calls full delete_ctx) = 2%nat).
Proof. cbv zeta. split_conj; vm_compute; reflexivity. Qed.

(** ** Sequential scan executor *)

(** C5. Repeated [Next()] calls do not enumerate the satisfying records.  On
    table [t(k, v)] with rows (1, 10), (5, 20), (1, 30) and the condition
    [k = 1], [beginTuple] stops on (1, 10) at rid (1, 0); each [Next()]
    then returns the record at the unchanged [rid_] and moves the scan one
    live record further, whether it satisfies the condition or not: three
    calls return (1, 10) three times with [rid()] = (1, 0), the fourth
    returns nothing, and (1, 30) is never returned.  Calling [nextTuple]
    after each [Next], as the execution loop does, yields the two
    satisfying rows. *)
Theorem seq_scan_next_repeats_first_record :
  let started := state_of (SeqScanExecutor.beginTuple ScanSample.executor) in
  let drained := state_of (SeqScanAux.drain 10 started) in
  let first := (mkRid 1 0, ScanSample.row 1 10) in
  let last := (mkRid 1 2, ScanSample.row 1 30) in
  result_of (SeqScanExecutor.beginTuple ScanSample.executor) = Some tt
  /\ SeqScanExecutor.rid started = mkRid 1 0
  /\ SeqScanAux.satisfying ScanSample.executor = [first; last]
  /\ result_of (SeqScanAux.drain 10 started) = Some [first; first; first]
  /\ result_of (SeqScanExecutor.is_end drained) = Some true
  /\ result_of (SeqScanExecutor.Next drained) = Some None
  /\ result_of (SeqScanAux.pull 10 started) = Some [first; last].
Proof. cbv zeta. split_conj; vm_compute; reflexivity. Qed.

(** ** Update executor *)

(** C6. A lock refusal while writing leaves the row half updated.  For
    [UPDATE t SET k = 2 WHERE k = 1] on the row (1, 10) at rid R, with an
    index on [k]: the shared lock taken by [get_record] is granted, the index
    entry for key 1 is deleted and the entry for key 2 is inserted, and only
    then [update_record] asks for the exclusive lock.  When that request is
    refused the statement is aborted by [TransactionAbortException] with the
    index changed and the record bytes unchanged.  (A type mismatch, which
    is raised before the index loop, leaves both untouched.) *)
Theorem update_lock_refusal_leaves_row_half_updated :
  let before := UpdateSample.executor RmSamples.ctx_read_only in
  let o := UpdateExecutor.Next Value.Reject before in
  let mismatch := UpdateExecutor.Next Value.Reject UpdateSampleMismatch.executor in
  (UpdateSample.lookup_k before 1 = Some UpdateSample.R
   /\ UpdateSample.lookup_k before 2 = None
   /\ RmAux.live_records (UpdateExecutor.fh_ before)
      = [(UpdateSample.R, ScanSample.row 1 10)])
  /\ (o = Threw TransactionAbortException (state_of o)
      /\ UpdateSample.lookup_k (state_of o) 1 = None
      /\ UpdateSample.lookup_k (state_of o) 2 = Some UpdateSample.R
      /\ RmAux.live_records (UpdateExecutor.fh_ (state_of o))
         = [(UpdateSample.R, ScanSample.row 1 10)])
  /\ (mismatch = Threw (IncompatibleTypeError "INT" "FLOAT") (state_of mismatch)
      /\ UpdateExecutor.ihs_ (state_of mismatch) = UpdateSample.indexes
      /\ RmAux.live_records (UpdateExecutor.fh_ (state_of mismatch))
         = [(UpdateSample.R, ScanSample.row 1 10)]).
Proof. cbv zeta. split_conj; vm_compute; reflexivity. Qed.

(** ** Transaction manager: [abort] *)

(** C1. [abort] does not always restore the records touched by the
    transaction.  Table [t] holds the record [a] at (1, 0).  Transaction T
    inserts [b] (at (1, 1)), deletes (1, 0) and deletes (1, 1); its write
    set lists the three mutations in that order.  [abort] undoes them in
    reverse: [b] is re-inserted into the first free slot, (1, 0); [a] is
    re-inserted into (1, 1); the insertion is undone by deleting rid
    (1, 1), which now holds [a].  [abort] returns and the transaction is
    [ABORTED], but the table holds [b], which did not exist at [begin], and
    [a] is lost.  (A transaction that only updates a record is rolled back
    to the before-image.) *)
Theorem abort_loses_record_after_reinsertion :
  let run := AbortSample.T AbortSample.at_begin in
  let ws := [WriteRecord.mk INSERT_TUPLE "t" (mkRid 1 1) RmSamples.b;
             WriteRecord.mk DELETE_TUPLE "t" (mkRid 1 0) RmSamples.a;
             WriteRecord.mk DELETE_TUPLE "t" (mkRid 1 1) RmSamples.b] in
  let updated := state_of (AbortSample.U AbortSample.at_begin) in
  (Workload.table_contents "t" AbortSample.at_begin = [(mkRid 1 0, RmSamples.a)]
   /\ result_of run = Some 100
   /\ Transaction.write_set_ <$> TransactionManager.heap AbortSample.before_abort !! 100
      = Some ws
   /\ Workload.table_contents "t" AbortSample.before_abort = [])
  /\ (result_of (TransactionManager.abort 1 100 true AbortSample.before_abort) = Some tt
      /\ TxnAux.state_at AbortSample.after_abort 100 = Some ABORTED
      /\ Workload.table_contents "t" AbortSample.after_abort = [(mkRid 1 0, RmSamples.b)])
  /\ (Workload.table_contents "t" updated = [(mkRid 1 0, RmSamples.c)]
      /\ Workload.table_contents "t" (state_of (TransactionManager.abort 1 100 true updated))
         = [(mkRid 1 0, RmSamples.a)]).
Proof. cbv zeta. split_conj; vm_compute; reflexivity. Qed.

(** ** Analyzer: coercion of literals *)

Lemma fit_length (len : Z) (bs : list Z) : length (Value.fit len bs) = Z.to_nat len.
Proof.
  unfold Value.fit. rewrite length_take, length_app, length_replicate. lia.
Qed.

(** [static_cast<int>] of a finite float whose integer part fits an [int]
    is that integer part, the sign kept: rounding is toward zero. *)
Lemma float_to_int_toward_zero (s : bool) (m : positive) (e : Z) :
  let r := Enc.float_to_int (S754_finite s m e) in
  r <> Enc.INT_MIN ->
  (if s then r <= 0 else 0 <= r) /\ AnalyzeAux.floor_of (Z.abs r) m e.
Proof.
  cbv zeta. unfold Enc.float_to_int, Enc.trunc_float, AnalyzeAux.floor_of.
  set (a := if 0 <=? e then Z.pos m * 2 ^ e else Z.pos m `div` 2 ^ (- e)).
  assert (Ha : 0 <= a).
  { unfold a. destruct (0 <=? e) eqn:He.
    - apply Z.leb_le in He. apply Z.mul_nonneg_nonneg; [lia | apply Z.pow_nonneg; lia].
    - apply Z.leb_gt in He. apply Z.div_pos; [lia | apply Z.pow_pos_nonneg; lia]. }
  destruct ((Enc.INT_MIN <=? (if s then - a else a)) && ((if s then - a else a) <=? Enc.INT_MAX));
    [|congruence].
  intros _. split; [destruct s; lia|].
  replace (Z.abs (if s then - a else a)) with a by (destruct s; lia).
  unfold a. destruct (0 <=? e) eqn:He; [reflexivity|].
  apply Z.leb_gt in He.
  pose proof (Z.pow_pos_nonneg 2 (- e) ltac:(lia) ltac:(lia)) as Hp.
  pose proof (Z.div_mod (Z.pos m) (2 ^ (- e)) ltac:(lia)) as Hdm.
  pose proof (Z.mod_pos_bound (Z.pos m) (2 ^ (- e)) Hp) as Hb.
  nia.
Qed.

(** The two paths side by side.  Let a literal [v] be paired with a column
    [col], found through the resolved reference [lhs].
    - In a WHERE condition and in a SET clause alike, an [INT] literal for a
      [FLOAT] column is widened to float and a [FLOAT] literal for an [INT]
      column is converted by [static_cast<int>], which rounds toward zero;
      a literal of the column's type is kept.  The literal is then encoded
      by [init_raw] into a raw buffer whose length is the column's [len]
      (an overlong string may be rejected there).
    - For every other pair of types a SET clause fails with
      [IncompatibleType].  A WHERE condition encodes the literal first and
      compares the types afterwards: it fails with [IncompatibleType] when
      [init_raw] accepts the literal, and with the error of [init_raw]
      otherwise. *)
Theorem literal_coerced_then_encoded :
  forall (db : DbMeta.t) (ov : Value.Overlong) (all_cols : list ColMeta.t)
         (lhs : TabCol.t) (tab : TabMeta.t) (col : ColMeta.t) (v : Value.t),
    DbMeta.get_table db (TabCol.tab_name lhs) = inr tab ->
    TabMeta.get_col tab (TabCol.col_name lhs) = inr col ->
    0 <= ColMeta.len col ->
    (forall cond : Condition.t,
        Condition.is_rhs_val cond = true ->
        Condition.rhs_val cond = v ->
        Analyze.check_column all_cols (Condition.lhs_col cond) = inr lhs ->
        Analyze.check_cond db ov all_cols cond
        = rbind (AnalyzeAux.literal_for ov col v
                   (rbind (Value.init_raw ov (ColMeta.len col) v)
                          (fun _ => inl (AnalyzeAux.incompatible col v))))
                (fun v' => inr (Condition.mk lhs (Condition.op cond) true
                                             (Condition.rhs_col cond) v')))
    /\ (forall (tab_name : string) (sv_set : ast.SetClause) (lit : ast.Value),
          ast.val sv_set = ast.EValue lit ->
          Analyze.convert_sv_value lit = inr v ->
          Analyze.check_column all_cols (TabCol.mk tab_name (ast.set_col_name sv_set)) = inr lhs ->
          Analyze.analyze_set_clause db ov tab_name all_cols sv_set
          = rbind (AnalyzeAux.literal_for ov col v (inl (AnalyzeAux.incompatible col v)))
                  (fun v' => inr (SetClause.mk lhs v')))
    /\ (forall v' : Value.t,
          AnalyzeAux.literal_for ov col v (inl (AnalyzeAux.incompatible col v)) = inr v' ->
          Value.type v' = ColMeta.type col
          /\ exists bs, Value.raw v' = Some bs /\ length bs = Z.to_nat (ColMeta.len col))
    /\ (forall (s : bool) (m : positive) (e : Z),
          Value.float_val v = S754_finite s m e ->
          let r := Enc.float_to_int (Value.float_val v) in
          r <> Enc.INT_MIN ->
          (if s then r <= 0 else 0 <= r) /\ AnalyzeAux.floor_of (Z.abs r) m e).
Proof.
  intros db ov all_cols lhs tab col v Htab Hcol Hlen.
  split; [|split; [|split]]; [| | |intros s m e ->; apply float_to_int_toward_zero].
  - intros cond Hval Hv Hlhs.
    unfold Analyze.check_cond. rewrite Hlhs. cbn [rbind].
    rewrite Hval. cbn [negb rbind]. rewrite Htab. cbn [rbind]. rewrite Hcol. cbn [rbind].
    rewrite Hv. unfold AnalyzeAux.literal_for, Analyze.coerce, AnalyzeAux.incompatible.
    destruct v as [ty i f s raw]; destruct col as [ct cn cty clen coff]; cbn in *.
    destruct cty, ty; cbn; try reflexivity;
      destruct ov; cbn; try reflexivity;
      destruct (_ <? _); reflexivity.
  - intros tab_name sv_set lit Hlit Hconv Hlhs.
    unfold Analyze.analyze_set_clause. rewrite Hlhs. cbn [rbind]. rewrite Hlit, Hconv.
    cbn [rbind]. rewrite Htab. cbn [rbind]. rewrite Hcol. cbn [rbind].
    unfold AnalyzeAux.literal_for, AnalyzeAux.incompatible.
    destruct v as [ty i f s raw]; destruct col as [ct cn cty clen coff]; cbn in *.
    destruct cty, ty; cbn; try reflexivity;
      destruct ov; cbn; try reflexivity;
      destruct (_ <? _); reflexivity.
  - intros v'. unfold AnalyzeAux.literal_for, AnalyzeAux.widened, AnalyzeAux.truncated,
                 AnalyzeAux.encoded, Value.init_raw.
    destruct v as [ty i f s raw]; destruct col as [ct cn cty clen coff]; cbn in *.
    destruct cty, ty; cbn; try discriminate;
      try (intros [= <-]; cbn; split; [reflexivity | eexists; split;
                                                      [reflexivity | apply fit_length]]).
    destruct ov; [|destruct (_ <? _); [discriminate|]];
      intros [= <-]; cbn; (split; [reflexivity | eexists; split;
                                                   [reflexivity | apply fit_length]]).
Qed.

Lemma literal_coerced_then_encoded_witness :
  let cols := [CoerceSample.t_id; CoerceSample.t_p; CoerceSample.t_s] in
  let lhs := TabCol.mk "t" "p" in
  DbMeta.get_table CoerceSample.db (TabCol.tab_name lhs) = inr CoerceSample.tab_t
  /\ TabMeta.get_col CoerceSample.tab_t (TabCol.col_name lhs) = inr CoerceSample.t_p
  /\ 0 <= ColMeta.len CoerceSample.t_p
  /\ Analyze.check_cond CoerceSample.db Value.Reject cols CoerceSample.p_gt_3
     = inr (Condition.mk lhs OP_GT true (TabCol.mk "" "")
              (Value.mk TYPE_FLOAT 3 (Enc.int_to_float 3) "" (Some [0; 0; 64; 64]))).
Proof.
  intros cols lhs.
  assert (H1 : DbMeta.get_table CoerceSample.db (TabCol.tab_name lhs)
               = inr CoerceSample.tab_t) by reflexivity.
  assert (H2 : TabMeta.get_col CoerceSample.tab_t (TabCol.col_name lhs)
               = inr CoerceSample.t_p) by reflexivity.
  assert (H3 : 0 <= ColMeta.len CoerceSample.t_p) by (cbn; lia).
  refine (conj H1 (conj H2 (conj H3 _))).
  destruct (literal_coerced_then_encoded CoerceSample.db Value.Reject cols lhs
              CoerceSample.tab_t CoerceSample.t_p (Value.set_int 3 Value.empty) H1 H2 H3)
    as [Hwhere _].
  rewrite (Hwhere CoerceSample.p_gt_3 eq_refl eq_refl eq_refl). reflexivity.
Defined.

(** C8. A WHERE condition encodes its literal before it compares the
    types; a SET clause compares first.  Table [t(id INT, p FLOAT,
    s STRING(4))]; the literal ['hello'] is paired with the [INT] column
    [id], a mismatch that is not [INT]/[FLOAT].
    - [UPDATE t SET id = 'hello'] fails with [IncompatibleType], as the
      claim says, whatever [init_raw] does with an overlong string.
    - [SELECT * FROM t WHERE id = 'hello'] calls [init_raw(4)] on the
      five-byte string first.  When [init_raw] rejects overlong strings the
      statement fails with [StringOverflowError] and the type check is
      never reached; only when [init_raw] truncates does it reach the type
      check and fail with [IncompatibleType]. *)
Theorem where_literal_encoded_before_type_check :
  Analyze.do_analyze CoerceSample.db Value.Reject CoerceSample.where_id_hello
  = inl StringOverflowError
  /\ Analyze.do_analyze CoerceSample.db Value.Reject CoerceSample.set_id_hello
     = inl (IncompatibleTypeError "INT" "STRING")
  /\ Analyze.do_analyze CoerceSample.db Value.Truncate CoerceSample.where_id_hello
     = inl (IncompatibleTypeError "INT" "STRING")
  /\ Analyze.do_analyze CoerceSample.db Value.Truncate CoerceSample.set_id_hello
     = inl (IncompatibleTypeError "INT" "STRING").
Proof. split_conj; vm_compute; reflexivity. Qed.
(** * Further properties of the modelled code *)

Import RmInv.


Lemma is_set_cons (b : bool) (bm : list bool) (i : Z) :
  0 <= i -> Bitmap.is_set (b :: bm) i = if i =? 0 then b else Bitmap.is_set bm (i - 1).
Proof.
  intros Hi. unfold Bitmap.is_set.
  destruct (i <? 0) eqn:E; [apply Z.ltb_lt in E; lia|].
  destruct (i =? 0) eqn:E0.
  - apply Z.eqb_eq in E0. subst. reflexivity.
  - apply Z.eqb_neq in E0.
    destruct (i - 1 <? 0) eqn:E1; [apply Z.ltb_lt in E1; lia|].
    replace (Z.to_nat i) with (S (Z.to_nat (i - 1))) by lia. reflexivity.
Qed.

Lemma is_set_true_range (bm : list bool) (i : Z) :
  Bitmap.is_set bm i = true -> 0 <= i < Z.of_nat (length bm).
Proof.
  unfold Bitmap.is_set. destruct (i <? 0) eqn:E; [discriminate|].
  apply Z.ltb_ge in E. destruct (bm !! Z.to_nat i) eqn:Hl; [|discriminate].
  intros _. apply lookup_lt_Some in Hl. lia.
Qed.

Lemma is_set_set (bm : list bool) (i j : Z) :
  0 <= i < Z.of_nat (length bm) ->
  Bitmap.is_set (Bitmap.set bm i) j = if j =? i then true else Bitmap.is_set bm j.
Proof.
  intros Hi. unfold Bitmap.is_set, Bitmap.set.
  destruct (i <? 0) eqn:E; [apply Z.ltb_lt in E; lia|].
  destruct (j <? 0) eqn:Ej.
  - apply Z.ltb_lt in Ej. destruct (j =? i) eqn:Eji; [apply Z.eqb_eq in Eji; lia|reflexivity].
  - apply Z.ltb_ge in Ej. destruct (j =? i) eqn:Eji.
    + apply Z.eqb_eq in Eji. subst. rewrite list_lookup_insert_eq by lia. reflexivity.
    + apply Z.eqb_neq in Eji. rewrite list_lookup_insert_ne by lia. reflexivity.
Qed.

Lemma is_set_reset (bm : list bool) (i j : Z) :
  0 <= i < Z.of_nat (length bm) ->
  Bitmap.is_set (Bitmap.reset bm i) j = if j =? i then false else Bitmap.is_set bm j.
Proof.
  intros Hi. unfold Bitmap.is_set, Bitmap.reset.
  destruct (i <? 0) eqn:E; [apply Z.ltb_lt in E; lia|].
  destruct (j <? 0) eqn:Ej.
  - apply Z.ltb_lt in Ej. destruct (j =? i) eqn:Eji; [apply Z.eqb_eq in Eji; lia|reflexivity].
  - apply Z.ltb_ge in Ej. destruct (j =? i) eqn:Eji.
    + apply Z.eqb_eq in Eji. subst. rewrite list_lookup_insert_eq by lia. reflexivity.
    + apply Z.eqb_neq in Eji. rewrite list_lookup_insert_ne by lia. reflexivity.
Qed.

Lemma popcount_insert (bm : list bool) (i : nat) (b b' : bool) :
  bm !! i = Some b ->
  popcount (<[i := b']> bm) = popcount bm - (if b then 1 else 0) + (if b' then 1 else 0).
Proof.
  revert i. induction bm as [|x bm IH]; intros [|i] H; try discriminate.
  - cbn in H. injection H as ->. cbn. lia.
  - cbn in H. specialize (IH _ H).
    change (<[S i:=b']> (x :: bm)) with (x :: <[i:=b']> bm).
    cbn [popcount]. rewrite IH. lia.
Qed.

Lemma popcount_set (bm : list bool) (i : Z) :
  0 <= i < Z.of_nat (length bm) -> Bitmap.is_set bm i = false ->
  popcount (Bitmap.set bm i) = popcount bm + 1.
Proof.
  intros Hi Hc. unfold Bitmap.set, Bitmap.is_set in *.
  destruct (i <? 0) eqn:E; [apply Z.ltb_lt in E; lia|].
  destruct (bm !! Z.to_nat i) eqn:Hl.
  - cbn in Hc. subst. rewrite (popcount_insert _ _ _ _ Hl). lia.
  - apply lookup_ge_None in Hl. lia.
Qed.

Lemma popcount_reset (bm : list bool) (i : Z) :
  Bitmap.is_set bm i = true -> popcount (Bitmap.reset bm i) = popcount bm - 1.
Proof.
  intros Hs. unfold Bitmap.reset, Bitmap.is_set in *.
  destruct (i <? 0) eqn:E; [discriminate|].
  destruct (bm !! Z.to_nat i) eqn:Hl; [|discriminate].
  cbn in Hs. subst. rewrite (popcount_insert _ _ _ _ Hl). lia.
Qed.

Lemma popcount_nonneg (bm : list bool) : 0 <= popcount bm.
Proof. induction bm as [|[] bm IH]; cbn; lia. Qed.

Lemma popcount_replicate_false (n : nat) : popcount (replicate n false) = 0.
Proof. induction n; cbn; lia. Qed.

(** With the bits from [n] on clear, at most [n] bits are set, and exactly
    [n] only when every bit below [n] is set. *)
Lemma popcount_bound (bm : list bool) :
  forall n, 0 <= n -> (forall i, n <= i -> Bitmap.is_set bm i = false) ->
            popcount bm <= n
            /\ (popcount bm = n -> forall j, 0 <= j < n -> Bitmap.is_set bm j = true).
Proof.
  induction bm as [|b bm IH]; intros n Hn Hpad.
  - cbn. split; [lia|]. intros <- j Hj. lia.
  - cbn [popcount].
    destruct (Z.eq_dec n 0) as [->|Hn0].
    + assert (Hb : b = false) by (specialize (Hpad 0 ltac:(lia)); now rewrite is_set_cons in Hpad by lia).
      assert (Hbm : forall i, 0 <= i -> Bitmap.is_set bm i = false).
      { intros i Hi. specialize (Hpad (i + 1) ltac:(lia)). rewrite is_set_cons in Hpad by lia.
        replace (i + 1 =? 0) with false in Hpad by (symmetry; apply Z.eqb_neq; lia).
        now replace (i + 1 - 1) with i in Hpad by lia. }
      destruct (IH 0 ltac:(lia) Hbm) as [Hle _]. pose proof (popcount_nonneg bm).
      subst b. split; [lia|]. intros _ j Hj. lia.
    + assert (Hbm : forall i, n - 1 <= i -> Bitmap.is_set bm i = false).
      { intros i Hi. specialize (Hpad (i + 1) ltac:(lia)). rewrite is_set_cons in Hpad by lia.
        replace (i + 1 =? 0) with false in Hpad by (symmetry; apply Z.eqb_neq; lia).
        now replace (i + 1 - 1) with i in Hpad by lia. }
      destruct (IH (n - 1) ltac:(lia) Hbm) as [Hle Hall].
      split; [destruct b; lia|].
      intros Heq j Hj. rewrite is_set_cons by lia.
      destruct (j =? 0) eqn:Ej.
      * destruct b; [reflexivity | lia].
      * apply Z.eqb_neq in Ej. apply Hall; [destruct b; lia | lia].
Qed.

Lemma next_bit_from_spec (bit : bool) (bm : list bool) (n : nat) :
  forall pos,
    match Bitmap.next_bit_from bit bm pos n with
    | Some i => pos <= i < pos + Z.of_nat n /\ Bitmap.is_set bm i = bit
                /\ forall j, pos <= j < i -> Bitmap.is_set bm j = negb bit
    | None => forall j, pos <= j < pos + Z.of_nat n -> Bitmap.is_set bm j = negb bit
    end.
Proof.
  induction n as [|n IH]; intros pos; cbn [Bitmap.next_bit_from].
  - intros j Hj. lia.
  - destruct (Bool.eqb (Bitmap.is_set bm pos) bit) eqn:E.
    + apply Bool.eqb_prop in E. split; [lia|]. split; [exact E|]. intros j Hj. lia.
    + apply Bool.eqb_false_iff in E. specialize (IH (pos + 1)).
      assert (Hpos : Bitmap.is_set bm pos = negb bit)
        by (destruct (Bitmap.is_set bm pos), bit; cbn; congruence).
      destruct (Bitmap.next_bit_from bit bm (pos + 1) n) as [i|].
      * destruct IH as (Hr & Hb & Hless). split; [lia|]. split; [exact Hb|].
        intros j Hj. destruct (Z.eq_dec j pos) as [->|]; [exact Hpos | apply Hless; lia].
      * intros j Hj. destruct (Z.eq_dec j pos) as [->|]; [exact Hpos | apply IH; lia].
Qed.

(** [first_bit false] on a bitmap that is not full finds the lowest clear
    bit. *)
Lemma first_bit_clear (bm : list bool) (n : Z) :
  0 <= n -> (forall i, n <= i -> Bitmap.is_set bm i = false) -> popcount bm < n ->
  let i := Bitmap.first_bit false bm n in
  0 <= i < n /\ Bitmap.is_set bm i = false
  /\ forall j, 0 <= j < i -> Bitmap.is_set bm j = true.
Proof.
  intros Hn Hpad Hcount. cbv zeta. unfold Bitmap.first_bit, Bitmap.next_bit.
  replace (-1 + 1) with 0 by lia. replace (n - 0) with n by lia.
  pose proof (next_bit_from_spec false bm (Z.to_nat n) 0) as H.
  destruct (Bitmap.next_bit_from false bm 0 (Z.to_nat n)) as [i|]; unfold default; cbn [from_option id].
  - destruct H as (Hr & Hb & Hl). split; [lia|]. split; [exact Hb|]. exact Hl.
  - exfalso. destruct (popcount_bound bm n Hn Hpad) as [Hle _].
    assert (Hall : forall j, 0 <= j < n -> Bitmap.is_set bm j = true)
      by (intros j Hj; apply H; lia).
    clear H. revert n Hn Hpad Hcount Hle Hall.
    induction bm as [|b bm IH]; intros n Hn Hpad Hcount Hle Hall.
    + cbn in Hcount. specialize (Hall 0 ltac:(lia)). discriminate.
    + pose proof (popcount_nonneg (b :: bm)) as Hnn.
      assert (Hpos : 0 < n) by lia.
      cbn [popcount] in *.
      assert (Hb : b = true) by (specialize (Hall 0 ltac:(lia)); now rewrite is_set_cons in Hall by lia).
      subst b.
      destruct (Z.eq_dec n 1) as [->|Hn1].
      * pose proof (popcount_nonneg bm). lia.
      * apply (IH (n - 1)); try lia.
        -- intros i Hi. specialize (Hpad (i + 1) ltac:(lia)). rewrite is_set_cons in Hpad by lia.
           replace (i + 1 =? 0) with false in Hpad by (symmetry; apply Z.eqb_neq; lia).
           now replace (i + 1 - 1) with i in Hpad by lia.
        -- intros j Hj. specialize (Hall (j + 1) ltac:(lia)). rewrite is_set_cons in Hall by lia.
           replace (j + 1 =? 0) with false in Hall by (symmetry; apply Z.eqb_neq; lia).
           now replace (j + 1 - 1) with j in Hall by lia.
Qed.

(** ** Execution lemmas *)



Lemma same_records_refl h : same_records h h.
Proof. constructor; try reflexivity; tauto. Qed.

Lemma same_records_trans h1 h2 h3 :
  same_records h1 h2 -> same_records h2 h3 -> same_records h1 h3.
Proof.
  intros [a1 b1 c1 d1 e1 f1] [a2 b2 c2 d2 e2 f2].
  constructor; try congruence.
  - intros r. rewrite e2. apply e1.
  - intros r Hr. rewrite f2 by (apply e1; exact Hr). apply f1; exact Hr.
Qed.

(** A chain depends on the links of its own pages only. *)
Lemma is_chain_ext (next next' : Z -> Z) (l : list Z) :
  forall start, (forall p, p ∈ l -> next' p = next p) ->
                is_chain next start l -> is_chain next' start l.
Proof.
  induction l as [|p l IH]; intros start Hext; cbn; [tauto|].
  intros (-> & Hne & Hc). split; [reflexivity|]. split; [exact Hne|].
  rewrite (Hext p) by constructor. apply IH; [|exact Hc].
  intros q Hq. apply Hext. now constructor.
Qed.

(** A state that differs in the trace only. *)
Lemma same_file_wf (h h' : RmFileHandle) :
  file_hdr_ h' = file_hdr_ h -> pages h' = pages h -> wf h -> wf h'.
Proof.
  intros Hh Hp [a b c d e].
  assert (Hat : forall p, page_at h' p = page_at h p) by (intros p; unfold page_at; now rewrite Hp).
  constructor; rewrite ?Hh; try assumption.
  - intros p Hd. unfold is_data_page in Hd. rewrite Hh in Hd. rewrite Hp. apply d. exact Hd.
  - destruct e as (l & Hc & Hnd & Hm). exists l. split; [|split; [exact Hnd|]].
    + apply (is_chain_ext (next_of h)); [|exact Hc].
      intros p _. unfold next_of. now rewrite Hat.
    + intros p. rewrite Hm. unfold is_data_page, has_room. now rewrite Hh, Hat.
Qed.

Lemma same_file_same_records (h h' : RmFileHandle) :
  fd_ h' = fd_ h -> file_hdr_ h' = file_hdr_ h -> pages h' = pages h -> same_records h h'.
Proof.
  intros Hf Hh Hp.
  assert (Hat : forall p, page_at h' p = page_at h p) by (intros p; unfold page_at; now rewrite Hp).
  constructor; rewrite ?Hh; try congruence.
  - intros r. unfold live, is_data_page. now rewrite Hh, Hat.
  - intros r _. unfold content. now rewrite Hh, Hat.
Qed.

Lemma fetch_page_handle_ok (h : RmFileHandle) (p : Z) (pg : RmPage) :
  0 <= p < num_pages (file_hdr_ h) -> pages h !! p = Some pg ->
  Rm.fetch_page_handle p h = Returned p (log_event (EvFetchPage (mkPageId (fd_ h) p)) h).
Proof.
  intros Hr Hp. unfold Rm.fetch_page_handle, bind, get.
  replace ((p >=? num_pages (file_hdr_ h)) || (p <? 0)) with false
    by (symmetry; apply orb_false_iff; split; [rewrite Z.geb_leb; apply Z.leb_gt | apply Z.ltb_ge]; lia).
  rewrite Hp. reflexivity.
Qed.

Lemma is_set_replicate_false (n : nat) (i : Z) : Bitmap.is_set (replicate n false) i = false.
Proof.
  unfold Bitmap.is_set. destruct (i <? 0); [reflexivity|].
  destruct (replicate n false !! Z.to_nat i) eqn:E; [|reflexivity].
  apply lookup_replicate in E as [-> _]. reflexivity.
Qed.

Lemma chain_head (next : Z -> Z) (start : Z) (l : list Z) :
  is_chain next start l -> start <> RM_NO_PAGE -> exists l', l = start :: l'.
Proof.
  destruct l as [|p l']; cbn; [congruence|]. intros (-> & _ & _) _. eauto.
Qed.

Lemma chain_nil (next : Z -> Z) (l : list Z) : is_chain next RM_NO_PAGE l -> l = [].
Proof. destruct l as [|p l']; cbn; [reflexivity|]. intros (<- & Hne & _). congruence. Qed.

Lemma create_new_page_handle_eq (h : RmFileHandle) :
  new_page_ok h (bpm_trace h) = true ->
  Rm.create_new_page_handle h = Returned (num_pages (file_hdr_ h)) (with_new_page h).
Proof.
  destruct h as [fd [rs np n ff bs] pgs tr ok]. cbn. intros Hok.
  unfold Rm.create_new_page_handle, with_new_page, bind, get, modify, ret. cbn.
  rewrite Hok. cbn.
  destruct (ff =? RM_NO_PAGE); reflexivity.
Qed.

(** Without a frame for the new page nothing is changed. *)
Lemma create_new_page_handle_fails (h : RmFileHandle) :
  new_page_ok h (bpm_trace h) = false ->
  Rm.create_new_page_handle h = Threw (InternalError "Failed to create new page") h.
Proof.
  intros Hok. unfold Rm.create_new_page_handle, bind, get, throw. now rewrite Hok.
Qed.

Lemma page_at_new_page (h : RmFileHandle) (p : Z) :
  page_at (with_new_page h) p
  = if decide (p = num_pages (file_hdr_ h)) then fresh_page (file_hdr_ h) else page_at h p.
Proof.
  unfold page_at, with_new_page. cbn. destruct (decide _) as [->|Hne].
  - now rewrite lookup_insert_eq.
  - now rewrite lookup_insert_ne by congruence.
Qed.

Lemma fresh_page_ok (hdr : RmFileHdr) :
  0 <= num_records_per_page hdr <= Bitmap.BITMAP_WIDTH * bitmap_size hdr ->
  page_ok (num_records_per_page hdr) (fresh_page hdr).
Proof.
  intros H. constructor; cbn.
  - unfold Bitmap.init. rewrite length_replicate. lia.
  - intros i _. apply is_set_replicate_false.
  - unfold Bitmap.init. now rewrite popcount_replicate_false.
  - rewrite length_replicate. lia.
Qed.

(** Under the invariant [create_page_handle] returns at once: the head of
    the free list when there is one, a new empty page otherwise.  In both
    cases the page returned is the head of the free list and has room. *)
Lemma create_page_handle_spec (fuel : nat) (h : RmFileHandle) :
  wf h -> allocates h = true ->
  exists p h',
    Rm.create_page_handle (S fuel) h = Returned p h'
    /\ wf h' /\ same_records h h'
    /\ first_free_page_no (file_hdr_ h') = p
    /\ is_data_page h' p /\ has_room h' p.
Proof.
  intros Hwf Hal. pose proof Hwf as [Hn Hbits Hnp Hpages (l & Hc & Hnd & Hm)].
  cbn [Rm.create_page_handle]. unfold bind at 1, get at 1.
  unfold allocates in Hal.
  destruct (first_free_page_no (file_hdr_ h) =? RM_NO_PAGE) eqn:Hff.
  - apply Z.eqb_eq in Hff. rewrite Hff in Hc. apply chain_nil in Hc. subst l.
    rewrite (create_new_page_handle_eq h Hal).
    set (np := num_pages (file_hdr_ h)) in *.
    assert (Hhdr : file_hdr_ (with_new_page h)
                   = mkRmFileHdr (record_size (file_hdr_ h)) (np + 1)
                                 (num_records_per_page (file_hdr_ h)) np
                                 (bitmap_size (file_hdr_ h))).
    { unfold with_new_page. cbn. rewrite Hff. reflexivity. }
    assert (Hold : forall p, p <> np -> page_at (with_new_page h) p = page_at h p).
    { intros p Hp. rewrite page_at_new_page. destruct (decide _); [contradiction | reflexivity]. }
    assert (Hnew : page_at (with_new_page h) np = fresh_page (file_hdr_ h)).
    { rewrite page_at_new_page. destruct (decide _); [reflexivity | contradiction]. }
    eexists _, _. split; [reflexivity|].
    split; [|split; [|split; [now rewrite Hhdr | split]]].
    + constructor; rewrite ?Hhdr; cbn; try lia.
      * intros p Hp. unfold is_data_page in Hp. rewrite Hhdr in Hp. cbn in Hp.
        unfold with_new_page. cbn. fold np.
        destruct (Z.eq_dec p np) as [->|Hne].
        -- rewrite lookup_insert_eq. eexists. split; [reflexivity|].
           apply fresh_page_ok. lia.
        -- rewrite lookup_insert_ne by congruence. apply Hpages. unfold is_data_page.
           fold np. lia.
      * exists [np]. split; [|split].
        -- cbn. split; [reflexivity|]. split; [unfold RM_NO_PAGE; lia|].
           unfold next_of. now rewrite Hnew.
        -- apply NoDup_singleton.
        -- intros p. rewrite list_elem_of_singleton. unfold is_data_page, has_room.
           rewrite Hhdr. cbn. split.
           ++ intros ->. rewrite Hnew. cbn. unfold RM_FIRST_RECORD_PAGE. lia.
           ++ intros [Hd Hr]. destruct (Z.eq_dec p np) as [|Hne]; [assumption|].
              exfalso. rewrite Hold in Hr by assumption.
              assert (Hin : p ∈ @nil Z).
              { apply Hm. unfold is_data_page, has_room. fold np. split; [lia | exact Hr]. }
              inversion Hin.
    + constructor; rewrite ?Hhdr; cbn; try reflexivity.
      * intros r. unfold live, is_data_page. rewrite Hhdr. cbn. fold np. split.
        -- intros [Hd Hs]. destruct (Z.eq_dec (page_no r) np) as [e|Hne].
           ++ rewrite e, Hnew in Hs. cbn in Hs. unfold Bitmap.init in Hs.
              rewrite is_set_replicate_false in Hs. discriminate.
           ++ rewrite Hold in Hs by assumption. split; [lia | exact Hs].
        -- intros [Hd Hs]. rewrite Hold by lia. split; [lia | exact Hs].
      * intros r [Hd _]. unfold is_data_page in Hd. fold np in Hd. unfold content.
        rewrite Hhdr. cbn. rewrite Hold by lia. reflexivity.
    + unfold is_data_page. rewrite Hhdr. cbn. unfold RM_FIRST_RECORD_PAGE. lia.
    + unfold has_room. rewrite Hnew, Hhdr. cbn. lia.
  - apply Z.eqb_neq in Hff.
    destruct (chain_head _ _ _ Hc Hff) as [l' ->].
    assert (Hin : first_free_page_no (file_hdr_ h) ∈ first_free_page_no (file_hdr_ h) :: l')
      by constructor.
    apply Hm in Hin as [Hd Hr].
    destruct (Hpages _ Hd) as (pg & Hpg & Hok).
    unfold bind at 1.
    rewrite (fetch_page_handle_ok h _ pg); [|unfold is_data_page, RM_FIRST_RECORD_PAGE in Hd; lia|exact Hpg].
    unfold bind at 1, get at 1.
    set (h1 := log_event _ h).
    assert (Hat : page_at h1 (first_free_page_no (file_hdr_ h)) = pg).
    { unfold page_at, h1. cbn. now rewrite Hpg. }
    rewrite Hat. change (file_hdr_ h1) with (file_hdr_ h).
    unfold has_room, page_at in Hr. rewrite Hpg in Hr. cbn in Hr.
    rewrite (proj2 (Z.eqb_neq _ _)) by lia.
    eexists _, _. split; [reflexivity|].
    split; [apply (same_file_wf h); auto|].
    split; [apply same_file_same_records; reflexivity|].
    split; [reflexivity|]. split; [exact Hd|].
    unfold has_room. rewrite Hat. exact Hr.
Qed.

(** With an empty free list and no frame for a new page,
    [create_page_handle] throws and leaves the file as it is. *)
Lemma create_page_handle_fails (fuel : nat) (h : RmFileHandle) :
  allocates h = false ->
  Rm.create_page_handle (S fuel) h = Threw (InternalError "Failed to create new page") h.
Proof.
  unfold allocates. intros Hal.
  cbn [Rm.create_page_handle]. unfold bind at 1, get at 1.
  destruct (first_free_page_no (file_hdr_ h) =? RM_NO_PAGE); [|discriminate].
  now apply create_new_page_handle_fails.
Qed.

Lemma page_at_set_page (h : RmFileHandle) (p q : Z) (pg : RmPage) :
  page_at (set_page p pg h) q = if decide (q = p) then pg else page_at h q.
Proof.
  unfold page_at, set_page. cbn. destruct (decide _) as [->|Hne].
  - now rewrite lookup_insert_eq.
  - now rewrite lookup_insert_ne by congruence.
Qed.

Lemma rid_eq (r : Rid) (p i : Z) : page_no r = p -> slot_no r = i -> r = mkRid p i.
Proof. destruct r; cbn; congruence. Qed.

(** The file after an insertion into the first clear slot of the head of
    the free list. *)
Lemma wf_after_insert (h : RmFileHandle) (p : Z) (buf : list Z) :
  wf h ->
  first_free_page_no (file_hdr_ h) = p ->
  is_data_page h p -> has_room h p ->
  let n := num_records_per_page (file_hdr_ h) in
  let i := Bitmap.first_bit false (bitmap (page_at h p)) n in
  let pg' := inserted_page (record_size (file_hdr_ h)) i buf (page_at h p) in
  forall h' : RmFileHandle,
    fd_ h' = fd_ h ->
    pages h' = <[p := pg']> (pages h) ->
    file_hdr_ h' = (if num_records (page_hdr pg') =? n
                    then set_first_free_page_no (next_free_page_no (page_hdr pg')) (file_hdr_ h)
                    else file_hdr_ h) ->
    wf h' /\ inserted h h' (mkRid p i) buf.
Proof.
  intros Hwf Hff Hd Hroom n i pg' h' Hfd Hpages' Hhdr'.
  pose proof Hwf as [Hn Hbits Hnp Hpages (l & Hc & Hnd & Hm)].
  destruct (Hpages _ Hd) as (pg & Hpg & [Hcov Hpad Hcnt Hslots]).
  assert (Hat : page_at h p = pg) by (unfold page_at; now rewrite Hpg).
  unfold has_room in Hroom. rewrite Hat in Hroom. fold n in Hroom, Hcov, Hpad, Hslots, Hn.
  assert (Hi : 0 <= i < n /\ Bitmap.is_set (bitmap pg) i = false
               /\ forall j, 0 <= j < i -> Bitmap.is_set (bitmap pg) j = true).
  { unfold i. rewrite Hat. apply first_bit_clear; [lia | exact Hpad | lia]. }
  destruct Hi as (Hi & Hclear & _).
  assert (Hpg' : pg' = inserted_page (record_size (file_hdr_ h)) i buf pg)
    by (unfold pg'; now rewrite Hat).
  clearbody pg' i.
  assert (Hconst : record_size (file_hdr_ h') = record_size (file_hdr_ h)
                   /\ num_records_per_page (file_hdr_ h') = n
                   /\ bitmap_size (file_hdr_ h') = bitmap_size (file_hdr_ h)
                   /\ num_pages (file_hdr_ h') = num_pages (file_hdr_ h)).
  { rewrite Hhdr'. destruct (_ =? _); cbn; auto. }
  destruct Hconst as (Hrs & Hn' & Hbs & Hnp').
  assert (Hat' : forall q, page_at h' q = if decide (q = p) then pg' else page_at h q).
  { intros q. unfold page_at. rewrite Hpages'. destruct (decide _) as [->|Hne].
    - now rewrite lookup_insert_eq.
    - now rewrite lookup_insert_ne by congruence. }
  assert (Hbm' : bitmap pg' = Bitmap.set (bitmap pg) i).
  { rewrite Hpg'. unfold inserted_page, write_slot. destruct (i <? 0); reflexivity. }
  assert (Hcnt' : num_records (page_hdr pg') = num_records (page_hdr pg) + 1).
  { rewrite Hpg'. unfold inserted_page, write_slot. destruct (i <? 0); reflexivity. }
  assert (Hnext' : next_free_page_no (page_hdr pg') = next_free_page_no (page_hdr pg)).
  { rewrite Hpg'. unfold inserted_page, write_slot. destruct (i <? 0); reflexivity. }
  assert (Hok' : page_ok n pg').
  { constructor.
    - rewrite Hbm'. unfold Bitmap.set. destruct (i <? 0); [lia|]. rewrite length_insert. lia.
    - intros j Hj. rewrite Hbm', is_set_set by lia.
      destruct (j =? i) eqn:E; [apply Z.eqb_eq in E; lia | now apply Hpad].
    - rewrite Hcnt', Hbm', popcount_set by (try lia; assumption). lia.
    - rewrite Hpg'. unfold inserted_page, write_slot.
      destruct (i <? 0); cbn; rewrite ?length_insert; lia. }
  assert (Hdata : forall q, is_data_page h' q <-> is_data_page h q).
  { intros q. unfold is_data_page. now rewrite Hnp'. }
  assert (Hnext : forall q, next_of h' q = next_of h q).
  { intros q. unfold next_of. rewrite Hat'. destruct (decide _) as [->|]; [|reflexivity].
    now rewrite Hnext', Hat. }
  assert (Hroom' : forall q, q <> p -> (has_room h' q <-> has_room h q)).
  { intros q Hq. unfold has_room. rewrite Hat', Hn'. destruct (decide _); [contradiction | reflexivity]. }
  split.
  - constructor; rewrite ?Hn', ?Hbs, ?Hnp'; try assumption.
    + intros q Hq. apply Hdata in Hq. rewrite Hpages'.
      destruct (Z.eq_dec q p) as [->|Hne].
      * rewrite lookup_insert_eq. eauto.
      * rewrite lookup_insert_ne by congruence. fold n in Hpages. now apply Hpages.
    + destruct (chain_head _ _ _ Hc) as [l' ->].
      { rewrite Hff. unfold is_data_page, RM_FIRST_RECORD_PAGE in Hd. unfold RM_NO_PAGE. lia. }
      cbn in Hc. destruct Hc as (Hhead & Hne & Hc). rewrite Hff in Hhead. subst p.
      apply NoDup_cons in Hnd as [Hnotin Hnd'].
      rewrite Hhdr'. destruct (num_records (page_hdr pg') =? n) eqn:Hfull.
      * apply Z.eqb_eq in Hfull. exists l'. cbn. split; [|split; [exact Hnd'|]].
        -- rewrite Hnext'. unfold next_of in Hc. rewrite Hat in Hc.
           apply (is_chain_ext (next_of h)); [intros q _; apply Hnext | exact Hc].
        -- intros q. destruct (Z.eq_dec q (first_free_page_no (file_hdr_ h))) as [->|Hq].
           ++ split; [intros Hin; contradiction|].
              intros [_ Hr]. unfold has_room in Hr. rewrite Hat', Hn' in Hr.
              destruct (decide _); [lia | contradiction].
           ++ rewrite Hdata, (Hroom' q Hq), <- Hm. rewrite elem_of_cons. tauto.
      * apply Z.eqb_neq in Hfull.
        exists (first_free_page_no (file_hdr_ h) :: l').
        split; [|split; [apply NoDup_cons; auto|]].
        -- cbn. split; [reflexivity|]. split; [exact Hne|].
           rewrite Hnext. apply (is_chain_ext (next_of h)); [intros q _; apply Hnext | exact Hc].
        -- intros q. destruct (Z.eq_dec q (first_free_page_no (file_hdr_ h))) as [->|Hq].
           ++ split; [|intros _; constructor].
              intros _. split; [now apply Hdata|]. unfold has_room. rewrite Hat', Hn'.
              destruct (decide _); [lia | contradiction].
           ++ rewrite Hdata, (Hroom' q Hq), <- Hm. reflexivity.
  - assert (Hlive : forall r, live h' r <-> r = mkRid p i \/ live h r).
    { intros r. unfold live. rewrite Hdata, Hat'. destruct (decide (page_no r = p)) as [Hp|Hp].
      - rewrite Hbm', is_set_set by lia. rewrite Hp, Hat.
        destruct (slot_no r =? i) eqn:E.
        + apply Z.eqb_eq in E. split; [intros _; left; now apply rid_eq|].
          intros _. split; [exact Hd | reflexivity].
        + apply Z.eqb_neq in E. split; [tauto|]. intros [->|H]; [cbn in E; lia | exact H].
      - split; [tauto|]. intros [->|H]; [cbn in Hp; lia | exact H]. }
    constructor; try assumption.
    + unfold live. cbn. rewrite Hat, Hclear. intros [_ ?]; discriminate.
    + unfold content. cbn. rewrite Hat', Hrs. destruct (decide _); [|contradiction].
      rewrite Hpg'. unfold inserted_page, write_slot, get_slot.
      destruct (i <? 0) eqn:E; [apply Z.ltb_lt in E; lia|]. cbn.
      rewrite list_lookup_insert_eq by lia. cbn. rewrite take_take. f_equal. lia.
    + intros r Hr. unfold content. rewrite Hat', Hrs.
      destruct (decide (page_no r = p)) as [Hp|Hp]; [|reflexivity].
      rewrite Hp, Hat. rewrite Hpg'. unfold inserted_page, write_slot, get_slot.
      destruct (i <? 0) eqn:E; [apply Z.ltb_lt in E; lia|]. cbn.
      destruct (slot_no r <? 0); [reflexivity|].
      destruct (Z.eq_dec (slot_no r) i) as [e|Hne].
      * exfalso. destruct Hr as [_ Hs]. rewrite Hp, Hat, e, Hclear in Hs. discriminate.
      * destruct Hr as [_ Hs]. apply is_set_true_range in Hs.
        rewrite list_lookup_insert_ne by lia. reflexivity.
Qed.

Lemma lock_exclusive_cases (context : option Context) (rid : Rid) (h : RmFileHandle) :
  exists h', fd_ h' = fd_ h /\ file_hdr_ h' = file_hdr_ h /\ pages h' = pages h
             /\ Rm.lock_exclusive context rid h
                = if grants_exclusive context (fd_ h) rid then Returned tt h'
                  else Threw TransactionAbortException h'.
Proof.
  unfold Rm.lock_exclusive, grants_exclusive.
  destruct context as [ctx|]; [destruct (txn_ ctx) as [t|]|].
  - unfold bind, get, modify, ret, throw. cbn.
    eexists. split; [|split; [|split]]; [| | |destruct (lock_exclusive_on_record _ _ _ _); reflexivity];
      reflexivity.
  - exists h. auto.
  - exists h. auto.
Qed.

Lemma lock_shared_cases (context : option Context) (rid : Rid) (h : RmFileHandle) :
  exists h', fd_ h' = fd_ h /\ file_hdr_ h' = file_hdr_ h /\ pages h' = pages h
             /\ Rm.lock_shared context rid h
                = if grants_shared context (fd_ h) rid then Returned tt h'
                  else Threw TransactionAbortException h'.
Proof.
  unfold Rm.lock_shared, grants_shared.
  destruct context as [ctx|]; [destruct (txn_ ctx) as [t|]|].
  - unfold bind, get, modify, ret, throw. cbn.
    eexists. split; [|split; [|split]]; [| | |destruct (lock_shared_on_record _ _ _ _); reflexivity];
      reflexivity.
  - exists h. auto.
  - exists h. auto.
Qed.

Lemma inserted_after_same (h h1 h' : RmFileHandle) (rid : Rid) (buf : list Z) :
  same_records h h1 -> inserted h1 h' rid buf -> inserted h h' rid buf.
Proof.
  intros [a b c d e f] [a' b' c' d' e' f' g' k'].
  refine (mkInserted _ _ _ _ _ _ _ _ _ _ _ _); try congruence.
  - now rewrite <- e.
  - intros r. rewrite f'. now rewrite e.
  - intros r Hr. rewrite k' by (now apply e). now apply f.
Qed.

(** The part of [insert_record] after the lock. *)
Lemma insert_tail_eq (p i rs : Z) (buf : list Z) (context : option Context) (h2 : RmFileHandle) :
  let pg' := inserted_page rs i buf (page_at h2 p) in
  exists h',
    (Rm.update_page p (write_slot rs i buf) ;;;
     Rm.update_page p (fun pg => set_bitmap (Bitmap.set (bitmap pg) i) pg) ;;;
     Rm.update_page p (fun pg => set_num_records (num_records (page_hdr pg) + 1) pg) ;;;
     h <- get ;;
     (if num_records (page_hdr (page_at h p)) =? num_records_per_page (file_hdr_ h)
      then modify (set_file_hdr (set_first_free_page_no
                                   (next_free_page_no (page_hdr (page_at h p)))))
      else ret tt) ;;;
     match context with
     | Some _ => Rm.unpin_page p true
     | None => ret tt
     end ;;;
     ret (mkRid p i)) h2
    = Returned (mkRid p i) h'
    /\ fd_ h' = fd_ h2
    /\ pages h' = <[p := pg']> (pages h2)
    /\ file_hdr_ h' = (if num_records (page_hdr pg') =? num_records_per_page (file_hdr_ h2)
                       then set_first_free_page_no (next_free_page_no (page_hdr pg'))
                                                   (file_hdr_ h2)
                       else file_hdr_ h2).
Proof.
  cbv zeta. unfold Rm.update_page, Rm.unpin_page, bind, modify, get, ret.
  rewrite !page_at_set_page. rewrite !decide_True by reflexivity.
  assert (E : set_num_records
                (num_records (page_hdr (set_bitmap
                   (Bitmap.set (bitmap (write_slot rs i buf (page_at h2 p))) i)
                   (write_slot rs i buf (page_at h2 p)))) + 1)
                (set_bitmap (Bitmap.set (bitmap (write_slot rs i buf (page_at h2 p))) i)
                            (write_slot rs i buf (page_at h2 p)))
              = inserted_page rs i buf (page_at h2 p)).
  { unfold inserted_page, write_slot. destruct (i <? 0); reflexivity. }
  rewrite E.
  assert (En : next_free_page_no (page_hdr (write_slot rs i buf (page_at h2 p)))
               = next_free_page_no (page_hdr (inserted_page rs i buf (page_at h2 p)))).
  { unfold inserted_page, write_slot. destruct (i <? 0); reflexivity. }
  set (pg' := inserted_page rs i buf (page_at h2 p)) in *.
  cbn [file_hdr_ set_page].
  destruct (num_records (page_hdr pg') =? num_records_per_page (file_hdr_ h2));
    destruct context; eexists; (split; [reflexivity|]);
    unfold log_event, set_file_hdr, set_page; cbn;
    rewrite ?insert_insert_eq, ?En; auto.
Qed.

(** [insert_record] under the invariant: it returns the rid of a slot that
    was free, holding the record, with every other record unchanged, or it
    is refused the exclusive lock, or, with an empty free list, it is
    refused a new page and nothing has changed; the invariant holds
    afterwards in all cases. *)
Lemma insert_record_spec (fuel : nat) (buf : list Z) (context : option Context)
      (h : RmFileHandle) :
  wf h ->
  match Rm.insert_record (S fuel) buf context h with
  | Returned rid h' => wf h' /\ inserted h h' rid buf
                       /\ grants_exclusive context (fd_ h) rid = true
                       /\ allocates h = true
  | Threw e h' => wf h' /\ same_records h h'
                  /\ ((e = TransactionAbortException /\ allocates h = true
                       /\ exists rid, grants_exclusive context (fd_ h) rid = false)
                      \/ (e = InternalError "Failed to create new page"
                          /\ allocates h = false /\ h' = h))
  | Halted _ _ => False
  end.
Proof.
  intros Hwf. unfold Rm.insert_record. unfold bind at 1.
  destruct (allocates h) eqn:Hal.
  2: { rewrite (create_page_handle_fails fuel h Hal).
       split; [exact Hwf|]. split; [apply same_records_refl|]. right. auto. }
  destruct (create_page_handle_spec fuel h Hwf Hal)
    as (p & h1 & -> & Hwf1 & Hsame & Hff & Hd & Hroom).
  unfold bind at 1, get at 1. unfold bind at 1.
  set (i := Bitmap.first_bit false _ _).
  destruct (lock_exclusive_cases context (mkRid p i) h1) as (h2 & Hfd2 & Hhdr2 & Hpg2 & ->).
  assert (Hfd1 : fd_ h1 = fd_ h) by apply Hsame.
  rewrite Hfd1.
  destruct (grants_exclusive context (fd_ h) (mkRid p i)) eqn:Hg.
  - assert (Hwf2 : wf h2) by (apply (same_file_wf h1); assumption).
    assert (Hat2 : forall q, page_at h2 q = page_at h1 q)
      by (intros q; unfold page_at; now rewrite Hpg2).
    assert (Hs12 : same_records h1 h2) by (apply same_file_same_records; assumption).
    destruct (insert_tail_eq p i (record_size (file_hdr_ h1)) buf context h2)
      as (h' & Heq & Hfd' & Hpages' & Hhdr').
    match goal with
    | |- match ?o with _ => _ end => change o with
          ((Rm.update_page p (write_slot (record_size (file_hdr_ h1)) i buf) ;;;
     Rm.update_page p (fun pg => set_bitmap (Bitmap.set (bitmap pg) i) pg) ;;;
     Rm.update_page p (fun pg => set_num_records (num_records (page_hdr pg) + 1) pg) ;;;
     h <- get ;;
     (if num_records (page_hdr (page_at h p)) =? num_records_per_page (file_hdr_ h)
      then modify (set_file_hdr (set_first_free_page_no
                                   (next_free_page_no (page_hdr (page_at h p)))))
      else ret tt) ;;;
     match context with
     | Some _ => Rm.unpin_page p true
     | None => ret tt
     end ;;;
     ret (mkRid p i)) h2)
    end.
    rewrite Heq.
    rewrite <- Hhdr2 in Hpages', Hhdr'. unfold i in Hpages', Hhdr'.
    rewrite <- Hhdr2, <- Hat2 in Hpages', Hhdr'.
    destruct (wf_after_insert h2 p buf Hwf2 ltac:(congruence)
                ltac:(unfold is_data_page in *; congruence)
                ltac:(unfold has_room in *; rewrite Hat2, Hhdr2; exact Hroom)
                h' Hfd' Hpages' Hhdr') as [Hwf' Hins].
    rewrite Hat2, Hhdr2 in Hins. fold i in Hins.
    split; [exact Hwf'|]. split; [|split; [exact Hg | reflexivity]].
    apply (inserted_after_same h h2); [|exact Hins].
    eapply same_records_trans; eassumption.
  - split; [apply (same_file_wf h1); assumption|].
    split; [|left; split; [reflexivity|split; [reflexivity|exists (mkRid p i); exact Hg]]].
    eapply same_records_trans; [exact Hsame|]. apply same_file_same_records; assumption.
Qed.

(** The file after the deletion of a live record. *)
Lemma wf_after_delete (h : RmFileHandle) (p i : Z) :
  wf h ->
  is_data_page h p ->
  Bitmap.is_set (bitmap (page_at h p)) i = true ->
  let n := num_records_per_page (file_hdr_ h) in
  let pg' := deleted_page i (page_at h p) in
  let relink := num_records (page_hdr pg') =? n - 1 in
  forall h' : RmFileHandle,
    fd_ h' = fd_ h ->
    pages h' = <[p := if relink
                      then set_next_free_page_no (first_free_page_no (file_hdr_ h)) pg'
                      else pg']> (pages h) ->
    file_hdr_ h' = (if relink then set_first_free_page_no p (file_hdr_ h) else file_hdr_ h) ->
    wf h' /\ deleted h h' (mkRid p i).
Proof.
  intros Hwf Hd Hset n pg' relink h' Hfd Hpages' Hhdr'.
  pose proof Hwf as [Hn Hbits Hnp Hpages (l & Hc & Hnd & Hm)].
  destruct (Hpages _ Hd) as (pg & Hpg & [Hcov Hpad Hcnt Hslots]).
  assert (Hat : page_at h p = pg) by (unfold page_at; now rewrite Hpg).
  rewrite Hat in Hset. fold n in Hcov, Hpad, Hslots, Hn.
  pose proof (is_set_true_range _ _ Hset) as Hi.
  assert (Hin : i < n).
  { destruct (Z_lt_ge_dec i n) as [|Hge]; [assumption|].
    rewrite Hpad in Hset by lia. discriminate. }
  destruct (popcount_bound (bitmap pg) n ltac:(lia) Hpad) as [Hle _].
  assert (Hpg' : pg' = deleted_page i pg) by (unfold pg'; now rewrite Hat).
  assert (Hbm' : bitmap pg' = Bitmap.reset (bitmap pg) i) by (now rewrite Hpg').
  assert (Hcnt' : num_records (page_hdr pg') = num_records (page_hdr pg) - 1)
    by (now rewrite Hpg').
  assert (Hnext' : next_free_page_no (page_hdr pg') = next_free_page_no (page_hdr pg))
    by (now rewrite Hpg').
  assert (Hslots' : slots pg' = slots pg) by (now rewrite Hpg').
  assert (Hok' : page_ok n pg').
  { constructor.
    - rewrite Hbm'. unfold Bitmap.reset. destruct (i <? 0); [lia|]. rewrite length_insert. lia.
    - intros j Hj. rewrite Hbm', is_set_reset by lia.
      destruct (j =? i); [reflexivity | now apply Hpad].
    - rewrite Hcnt', Hbm', popcount_reset by assumption. lia.
    - now rewrite Hslots'. }
  clearbody pg'.
  set (pg'' := if relink then set_next_free_page_no (first_free_page_no (file_hdr_ h)) pg'
               else pg') in *.
  assert (Hok'' : page_ok n pg'').
  { unfold pg''. destruct relink; [|exact Hok'].
    destruct Hok' as [a b c d]. constructor; assumption. }
  assert (Hbm'' : bitmap pg'' = Bitmap.reset (bitmap pg) i)
    by (unfold pg''; destruct relink; exact Hbm').
  assert (Hcnt'' : num_records (page_hdr pg'') = num_records (page_hdr pg) - 1)
    by (unfold pg''; destruct relink; exact Hcnt').
  assert (Hslots'' : slots pg'' = slots pg)
    by (unfold pg''; destruct relink; exact Hslots').
  assert (Hconst : record_size (file_hdr_ h') = record_size (file_hdr_ h)
                   /\ num_records_per_page (file_hdr_ h') = n
                   /\ bitmap_size (file_hdr_ h') = bitmap_size (file_hdr_ h)
                   /\ num_pages (file_hdr_ h') = num_pages (file_hdr_ h)).
  { rewrite Hhdr'. destruct relink; cbn; auto. }
  destruct Hconst as (Hrs & Hn' & Hbs & Hnp').
  assert (Hat' : forall q, page_at h' q = if decide (q = p) then pg'' else page_at h q).
  { intros q. unfold page_at. rewrite Hpages'. destruct (decide _) as [->|Hne].
    - now rewrite lookup_insert_eq.
    - now rewrite lookup_insert_ne by congruence. }
  assert (Hdata : forall q, is_data_page h' q <-> is_data_page h q).
  { intros q. unfold is_data_page. now rewrite Hnp'. }
  assert (Hnext : forall q, q <> p -> next_of h' q = next_of h q).
  { intros q Hq. unfold next_of. rewrite Hat'. destruct (decide _); [contradiction | reflexivity]. }
  assert (Hroom' : forall q, q <> p -> (has_room h' q <-> has_room h q)).
  { intros q Hq. unfold has_room. rewrite Hat', Hn'. destruct (decide _); [contradiction | reflexivity]. }
  assert (Hroomp : has_room h' p).
  { unfold has_room. rewrite Hat', Hn'. destruct (decide _); [|contradiction]. lia. }
  split.
  - constructor; rewrite ?Hn', ?Hbs, ?Hnp'; try assumption.
    + intros q Hq. apply Hdata in Hq. rewrite Hpages'.
      destruct (Z.eq_dec q p) as [->|Hne].
      * rewrite lookup_insert_eq. eauto.
      * rewrite lookup_insert_ne by congruence. fold n in Hpages. now apply Hpages.
    + rewrite Hhdr'. unfold relink in *.
      destruct (num_records (page_hdr pg') =? n - 1) eqn:Hrel.
      * pose proof Hrel as Hedge. apply Z.eqb_eq in Hedge. rewrite Hcnt' in Hedge.
        assert (Hnotin : p ∉ l).
        { intros Hin'. apply Hm in Hin' as [_ Hr]. unfold has_room in Hr.
          rewrite Hat in Hr. fold n in Hr. lia. }
        exists (p :: l). cbn. split; [|split; [apply NoDup_cons; auto|]].
        -- split; [reflexivity|].
           split; [unfold is_data_page, RM_FIRST_RECORD_PAGE in Hd; unfold RM_NO_PAGE; lia|].
           assert (Hnxp : next_of h' p = first_free_page_no (file_hdr_ h)).
           { unfold next_of. rewrite Hat'. destruct (decide _); [|contradiction].
             unfold pg''. reflexivity. }
           rewrite Hnxp. apply (is_chain_ext (next_of h)); [|exact Hc].
           intros q Hq. apply Hnext. intros ->. contradiction.
        -- intros q. rewrite elem_of_cons.
           destruct (Z.eq_dec q p) as [->|Hq].
           ++ split; [intros _; split; [now apply Hdata | exact Hroomp] | intros _; now left].
           ++ rewrite Hdata, (Hroom' q Hq), <- Hm. split; [intros [?|?]; [contradiction|assumption] | now right].
      * pose proof Hrel as Hedge. apply Z.eqb_neq in Hedge. rewrite Hcnt' in Hedge.
        assert (Hin' : p ∈ l).
        { apply Hm. split; [exact Hd|]. unfold has_room. rewrite Hat. fold n. lia. }
        exists l. split; [|split; [exact Hnd|]].
        -- apply (is_chain_ext (next_of h)); [|exact Hc].
           intros q _. destruct (Z.eq_dec q p) as [->|Hq]; [|now apply Hnext].
           unfold next_of. rewrite Hat'. destruct (decide _); [|contradiction].
           unfold pg''. rewrite Hat. exact Hnext'.
        -- intros q. destruct (Z.eq_dec q p) as [->|Hq].
           ++ split; [intros _; split; [now apply Hdata | exact Hroomp] | intros _; exact Hin'].
           ++ rewrite Hdata, (Hroom' q Hq), <- Hm. reflexivity.
  - constructor; try assumption.
    + split; [exact Hd|]. cbn. now rewrite Hat.
    + intros r. unfold live. rewrite Hdata, Hat'.
      destruct (decide (page_no r = p)) as [Hp|Hp].
      * rewrite Hbm'', is_set_reset by lia. rewrite Hp, Hat.
        destruct (slot_no r =? i) eqn:E.
        -- apply Z.eqb_eq in E. split; [intros [_ ?]; discriminate|].
           intros [Hne _]. exfalso. apply Hne. now apply rid_eq.
        -- apply Z.eqb_neq in E. split; [|tauto].
           intros H. split; [|exact H]. intros ->. cbn in E. lia.
      * split; [|tauto]. intros H. split; [|exact H]. intros ->. cbn in Hp. lia.
    + intros r _ _. unfold content. rewrite Hat', Hrs.
      destruct (decide (page_no r = p)) as [Hp|Hp]; [|reflexivity].
      rewrite Hp, Hat. unfold get_slot. now rewrite Hslots''.
Qed.

Lemma fetch_page_handle_cases (h : RmFileHandle) (p : Z) :
  wf h -> p <> RM_FILE_HDR_PAGE ->
  (is_data_page h p
   /\ Rm.fetch_page_handle p h = Returned p (log_event (EvFetchPage (mkPageId (fd_ h) p)) h))
  \/ (~ is_data_page h p /\ Rm.fetch_page_handle p h = Threw (PageNotExistError p) h).
Proof.
  intros Hwf Hp. unfold RM_FILE_HDR_PAGE in Hp.
  destruct (Z_lt_ge_dec p (num_pages (file_hdr_ h))) as [Hlt|Hge];
    [destruct (Z_lt_ge_dec p 0) as [Hneg|Hpos]|].
  - right. split; [unfold is_data_page, RM_FIRST_RECORD_PAGE; lia|].
    unfold Rm.fetch_page_handle, bind, get.
    replace (p <? 0) with true by (symmetry; apply Z.ltb_lt; lia).
    now rewrite orb_true_r.
  - left. assert (Hd : is_data_page h p) by (unfold is_data_page, RM_FIRST_RECORD_PAGE; lia).
    split; [exact Hd|].
    destruct (pages_ok h Hwf p Hd) as (pg & Hpg & _).
    apply (fetch_page_handle_ok h p pg); [lia | exact Hpg].
  - right. split; [unfold is_data_page; lia|].
    unfold Rm.fetch_page_handle, bind, get.
    replace (p >=? num_pages (file_hdr_ h)) with true
      by (symmetry; rewrite Z.geb_leb; apply Z.leb_le; lia).
    reflexivity.
Qed.

(** The part of [delete_record] after the lock. *)
Lemma delete_tail_eq (p i : Z) (context : option Context) (h2 : RmFileHandle) :
  let pg' := deleted_page i (page_at h2 p) in
  let relink := num_records (page_hdr pg') =? num_records_per_page (file_hdr_ h2) - 1 in
  exists h',
    (Rm.update_page p (fun pg => set_bitmap (Bitmap.reset (bitmap pg) i) pg) ;;;
     Rm.update_page p (fun pg => set_num_records (num_records (page_hdr pg) - 1) pg) ;;;
     Rm.release_page_handle p ;;;
     match context with
     | Some _ => Rm.unpin_page p true
     | None => ret tt
     end) h2
    = Returned tt h'
    /\ fd_ h' = fd_ h2
    /\ pages h' = <[p := if relink
                         then set_next_free_page_no (first_free_page_no (file_hdr_ h2)) pg'
                         else pg']> (pages h2)
    /\ file_hdr_ h' = (if relink then set_first_free_page_no p (file_hdr_ h2)
                       else file_hdr_ h2).
Proof.
  cbv zeta. unfold Rm.release_page_handle, Rm.update_page, Rm.unpin_page, bind, modify, get, ret.
  rewrite !page_at_set_page. rewrite !decide_True by reflexivity.
  change (set_num_records
            (num_records (page_hdr (set_bitmap (Bitmap.reset (bitmap (page_at h2 p)) i)
                                               (page_at h2 p))) - 1)
            (set_bitmap (Bitmap.reset (bitmap (page_at h2 p)) i) (page_at h2 p)))
    with (deleted_page i (page_at h2 p)).
  set (pg' := deleted_page i (page_at h2 p)).
  cbn [file_hdr_ set_page].
  destruct (num_records (page_hdr pg') =? num_records_per_page (file_hdr_ h2) - 1);
    destruct context; eexists; (split; [reflexivity|]);
    unfold log_event, set_file_hdr, set_page; cbn;
    rewrite ?page_at_set_page, ?insert_insert_eq; auto;
    unfold page_at; cbn; rewrite lookup_insert_eq; cbn; auto.
Qed.

Lemma deleted_after_same (h h1 h' : RmFileHandle) (rid : Rid) :
  same_records h h1 -> deleted h1 h' rid -> deleted h h' rid.
Proof.
  intros [a b c d e f] [a' b' c' d' e' f' g'].
  refine (mkDeleted _ _ _ _ _ _ _ _ _ _); try congruence.
  - now apply e.
  - intros r. rewrite f'. now rewrite e.
  - intros r Hne Hr. rewrite g' by (try assumption; now apply e). now apply f.
Qed.

(** [delete_record] under the invariant. *)
Lemma delete_record_spec (rid : Rid) (context : option Context) (h : RmFileHandle) :
  wf h -> page_no rid <> RM_FILE_HDR_PAGE ->
  match Rm.delete_record rid context h with
  | Returned _ h' => wf h' /\ deleted h h' rid
                     /\ grants_exclusive context (fd_ h) rid = true
  | Threw e h' =>
      wf h' /\ same_records h h'
      /\ ((e = PageNotExistError (page_no rid) /\ ~ is_data_page h (page_no rid))
          \/ (e = RecordNotFoundError (page_no rid) (slot_no rid)
              /\ is_data_page h (page_no rid) /\ ~ live h rid)
          \/ (e = TransactionAbortException /\ live h rid
              /\ grants_exclusive context (fd_ h) rid = false))
      /\ Frame.same_file h h'
  | Halted _ _ => False
  end.
Proof.
  intros Hwf Hp. unfold Rm.delete_record. unfold bind at 1.
  destruct (fetch_page_handle_cases h (page_no rid) Hwf Hp) as [[Hd ->]|[Hnd ->]].
  2: { split; [exact Hwf|]. split; [apply same_records_refl|].
       split; [left; auto | repeat split]. }
  set (h1 := log_event _ h).
  assert (Hwf1 : wf h1) by (apply (same_file_wf h); auto).
  assert (Hs1 : same_records h h1) by (apply same_file_same_records; reflexivity).
  assert (Hat1 : forall q, page_at h1 q = page_at h q) by reflexivity.
  unfold bind at 1, get at 1.
  destruct (Bitmap.is_set (bitmap (page_at h1 (page_no rid))) (slot_no rid)) eqn:Hset; cbn [negb].
  2: { split; [exact Hwf1|]. split; [exact Hs1|]. split; [|repeat split]. right; left.
       split; [reflexivity|]. split; [exact Hd|].
       intros [_ Hl]. rewrite Hat1 in Hset. congruence. }
  unfold bind at 1.
  destruct (lock_exclusive_cases context rid h1) as (h2 & Hfd2 & Hhdr2 & Hpg2 & ->).
  change (fd_ h1) with (fd_ h).
  assert (Hlive : live h rid) by (split; [exact Hd | rewrite <- Hat1; exact Hset]).
  destruct (grants_exclusive context (fd_ h) rid) eqn:Hg.
  - assert (Hwf2 : wf h2) by (apply (same_file_wf h1); assumption).
    assert (Hat2 : forall q, page_at h2 q = page_at h1 q)
      by (intros q; unfold page_at; now rewrite Hpg2).
    assert (Hs12 : same_records h1 h2) by (apply same_file_same_records; assumption).
    destruct (delete_tail_eq (page_no rid) (slot_no rid) context h2)
      as (h' & Heq & Hfd' & Hpages' & Hhdr').
    match goal with
    | |- match ?o with _ => _ end => change o with
        ((Rm.update_page (page_no rid)
            (fun pg => set_bitmap (Bitmap.reset (bitmap pg) (slot_no rid)) pg) ;;;
          Rm.update_page (page_no rid)
            (fun pg => set_num_records (num_records (page_hdr pg) - 1) pg) ;;;
          Rm.release_page_handle (page_no rid) ;;;
          match context with
          | Some _ => Rm.unpin_page (page_no rid) true
          | None => ret tt
          end) h2)
    end.
    rewrite Heq.
    destruct (wf_after_delete h2 (page_no rid) (slot_no rid) Hwf2
                ltac:(unfold is_data_page in *; rewrite Hhdr2; exact Hd)
                ltac:(rewrite Hat2; exact Hset)
                h' Hfd' Hpages' Hhdr') as [Hwf' Hdel].
    split; [exact Hwf'|]. split; [|reflexivity].
    apply (deleted_after_same h h2); [eapply same_records_trans; eassumption|].
    destruct rid; exact Hdel.
  - split; [apply (same_file_wf h1); assumption|].
    split; [eapply same_records_trans; [exact Hs1|]; apply same_file_same_records; assumption|].
    split; [right; right; auto | repeat split; assumption].
Qed.

(** [get_record] under the invariant: it reads and changes nothing but the
    trace. *)
Lemma get_record_spec (rid : Rid) (context : option Context) (h : RmFileHandle) :
  wf h -> page_no rid <> RM_FILE_HDR_PAGE ->
  match Rm.get_record rid context h with
  | Returned rec h' =>
      live h rid /\ rec = content h rid
      /\ grants_shared context (fd_ h) rid = true
      /\ fd_ h' = fd_ h /\ file_hdr_ h' = file_hdr_ h /\ pages h' = pages h
  | Threw e h' =>
      fd_ h' = fd_ h /\ file_hdr_ h' = file_hdr_ h /\ pages h' = pages h
      /\ ((e = PageNotExistError (page_no rid) /\ ~ is_data_page h (page_no rid))
          \/ (e = RecordNotFoundError (page_no rid) (slot_no rid)
              /\ is_data_page h (page_no rid) /\ ~ live h rid)
          \/ (e = TransactionAbortException /\ live h rid
              /\ grants_shared context (fd_ h) rid = false))
  | Halted _ _ => False
  end.
Proof.
  intros Hwf Hp. unfold Rm.get_record. unfold bind at 1.
  destruct (fetch_page_handle_cases h (page_no rid) Hwf Hp) as [[Hd ->]|[Hnd ->]].
  2: { repeat split; auto. }
  set (h1 := log_event _ h).
  assert (Hat1 : forall q, page_at h1 q = page_at h q) by reflexivity.
  unfold bind at 1, get at 1.
  destruct (Bitmap.is_set (bitmap (page_at h1 (page_no rid))) (slot_no rid)) eqn:Hset; cbn [negb].
  2: { assert (Hnl : ~ live h rid) by (intros [_ Hl]; rewrite Hat1 in Hset; congruence).
       repeat split; auto; right; left; auto. }
  unfold bind at 1.
  destruct (lock_shared_cases context rid h1) as (h2 & Hfd2 & Hhdr2 & Hpg2 & ->).
  change (fd_ h1) with (fd_ h).
  assert (Hlive : live h rid) by (split; [exact Hd | rewrite <- Hat1; exact Hset]).
  destruct (grants_shared context (fd_ h) rid) eqn:Hg.
  - unfold bind, get, ret, Rm.unpin_page, modify.
    assert (Hat2 : page_at h2 (page_no rid) = page_at h (page_no rid))
      by (unfold page_at; now rewrite Hpg2).
    destruct context; cbn; rewrite Hat2, Hhdr2;
      (split; [exact Hlive|]); (split; [reflexivity|]);
      (split; [reflexivity|]); auto.
  - repeat split; auto; right; right; auto.
Qed.

(** [update_record] under the invariant. *)
Lemma update_record_spec (rid : Rid) (buf : list Z) (context : option Context)
      (h : RmFileHandle) :
  wf h -> page_no rid <> RM_FILE_HDR_PAGE ->
  match Rm.update_record rid buf context h with
  | Returned _ h' => wf h' /\ updated h h' rid buf
                     /\ grants_exclusive context (fd_ h) rid = true
  | Threw e h' =>
      fd_ h' = fd_ h /\ file_hdr_ h' = file_hdr_ h /\ pages h' = pages h
      /\ ((e = PageNotExistError (page_no rid) /\ ~ is_data_page h (page_no rid))
          \/ (e = RecordNotFoundError (page_no rid) (slot_no rid)
              /\ is_data_page h (page_no rid) /\ ~ live h rid)
          \/ (e = TransactionAbortException /\ live h rid
              /\ grants_exclusive context (fd_ h) rid = false))
  | Halted _ _ => False
  end.
Proof.
  intros Hwf Hp. unfold Rm.update_record. unfold bind at 1.
  destruct (fetch_page_handle_cases h (page_no rid) Hwf Hp) as [[Hd ->]|[Hnd ->]].
  2: { repeat split; auto. }
  set (h1 := log_event _ h).
  assert (Hat1 : forall q, page_at h1 q = page_at h q) by reflexivity.
  unfold bind at 1, get at 1.
  destruct (Bitmap.is_set (bitmap (page_at h1 (page_no rid))) (slot_no rid)) eqn:Hset; cbn [negb].
  2: { assert (Hnl : ~ live h rid) by (intros [_ Hl]; rewrite Hat1 in Hset; congruence).
       repeat split; auto; right; left; auto. }
  unfold bind at 1.
  destruct (lock_exclusive_cases context rid h1) as (h2 & Hfd2 & Hhdr2 & Hpg2 & ->).
  change (fd_ h1) with (fd_ h).
  assert (Hlive : live h rid) by (split; [exact Hd | rewrite <- Hat1; exact Hset]).
  destruct (grants_exclusive context (fd_ h) rid) eqn:Hg.
  2: { repeat split; auto; right; right; auto. }
  pose proof Hwf as [Hn Hbits Hnp Hpages (l & Hc & Hnd & Hm)].
  destruct (Hpages _ Hd) as (pg & Hpg & [Hcov Hpad Hcnt Hslots]).
  assert (Hat : page_at h (page_no rid) = pg) by (unfold page_at; now rewrite Hpg).
  rewrite Hat1, Hat in Hset.
  pose proof (is_set_true_range _ _ Hset) as Hi.
  assert (Hin : slot_no rid < num_records_per_page (file_hdr_ h)).
  { destruct (Z_lt_ge_dec (slot_no rid) (num_records_per_page (file_hdr_ h))) as [|Hge];
      [assumption|]. rewrite Hpad in Hset by lia. discriminate. }
  set (pg' := write_slot (record_size (file_hdr_ h)) (slot_no rid) buf pg).
  assert (Hres : exists h',
             (Rm.update_page (page_no rid)
                (write_slot (record_size (file_hdr_ h1)) (slot_no rid) buf) ;;;
              match context with
              | Some _ => Rm.unpin_page (page_no rid) true
              | None => ret tt
              end) h2 = Returned tt h'
             /\ fd_ h' = fd_ h /\ file_hdr_ h' = file_hdr_ h
             /\ pages h' = <[page_no rid := pg']> (pages h)).
  { unfold Rm.update_page, Rm.unpin_page, bind, modify, ret.
    assert (Hat2 : page_at h2 (page_no rid) = pg)
      by (unfold page_at; rewrite Hpg2; exact Hat).
    rewrite Hat2. change (file_hdr_ h1) with (file_hdr_ h). fold pg'.
    destruct context; eexists; (split; [reflexivity|]);
      unfold log_event, set_page; cbn; rewrite Hpg2; auto. }
  destruct Hres as (h' & Heq & Hfd' & Hhdr' & Hpages').
  match goal with
  | |- match ?o with _ => _ end => change o with
        ((Rm.update_page (page_no rid)
                (write_slot (record_size (file_hdr_ h1)) (slot_no rid) buf) ;;;
              match context with
              | Some _ => Rm.unpin_page (page_no rid) true
              | None => ret tt
              end) h2)
  end.
  rewrite Heq.
  assert (Hat' : forall q, page_at h' q = if decide (q = page_no rid) then pg' else page_at h q).
  { intros q. unfold page_at. rewrite Hpages'. destruct (decide _) as [->|Hne].
    - now rewrite lookup_insert_eq.
    - now rewrite lookup_insert_ne by congruence. }
  assert (Hpg'eq : page_hdr pg' = page_hdr pg /\ bitmap pg' = bitmap pg
                   /\ length (slots pg') = length (slots pg)).
  { unfold pg', write_slot. destruct (slot_no rid <? 0); cbn; rewrite ?length_insert; auto. }
  destruct Hpg'eq as (Hh' & Hb' & Hl').
  assert (Hnext : forall q, next_of h' q = next_of h q).
  { intros q. unfold next_of. rewrite Hat'. destruct (decide _) as [->|]; [|reflexivity].
    now rewrite Hh', Hat. }
  assert (Hlive' : forall r, live h' r <-> live h r).
  { intros r. unfold live, is_data_page. rewrite Hhdr', Hat'.
    destruct (decide _) as [e|]; [|reflexivity]. now rewrite Hb', e, Hat. }
  split; [|split; [|reflexivity]].
  - constructor; rewrite ?Hhdr'; try assumption.
    + intros q Hq. unfold is_data_page in Hq. rewrite Hhdr' in Hq. rewrite Hpages'.
      destruct (Z.eq_dec q (page_no rid)) as [->|Hne].
      * rewrite lookup_insert_eq. eexists. split; [reflexivity|].
        constructor; rewrite ?Hh', ?Hb', ?Hl'; assumption.
      * rewrite lookup_insert_ne by congruence. now apply Hpages.
    + exists l. split; [|split; [exact Hnd|]].
      * apply (is_chain_ext (next_of h)); [intros q _; apply Hnext | exact Hc].
      * intros q. rewrite Hm. unfold is_data_page, has_room. rewrite Hhdr', Hat'.
        destruct (decide _) as [->|]; [|reflexivity]. now rewrite Hh', Hat.
  - constructor; rewrite ?Hhdr'; try assumption; try reflexivity.
    + unfold content. rewrite Hhdr', Hat'. destruct (decide _); [|contradiction].
      unfold pg', write_slot, get_slot.
      destruct (slot_no rid <? 0) eqn:E; [apply Z.ltb_lt in E; lia|]. cbn.
      rewrite list_lookup_insert_eq by lia. cbn. rewrite take_take. f_equal. lia.
    + intros r Hne. unfold content. rewrite Hhdr', Hat'.
      destruct (decide (page_no r = page_no rid)) as [e|]; [|reflexivity].
      rewrite e, Hat. unfold pg', write_slot, get_slot.
      destruct (slot_no rid <? 0) eqn:E; [apply Z.ltb_lt in E; lia|]. cbn.
      destruct (slot_no r <? 0) eqn:E'; [reflexivity|]. apply Z.ltb_ge in E'.
      rewrite list_lookup_insert_ne; [reflexivity|].
      intros Heq'. apply Hne. destruct r, rid; cbn in *. f_equal; lia.
Qed.

Lemma wf_empty_file (record_size n : Z) : 1 <= n -> wf (RmSamples.empty_file record_size n).
Proof.
  intros Hn. constructor; cbn; try lia.
  - unfold Bitmap.BITMAP_WIDTH.
    pose proof (Z.div_mod (n + 8 - 1) 8 ltac:(lia)) as H1.
    pose proof (Z.mod_pos_bound (n + 8 - 1) 8 ltac:(lia)) as H2. lia.
  - intros p Hp. unfold is_data_page, RM_FIRST_RECORD_PAGE in Hp. cbn in Hp. lia.
  - exists []. split; [reflexivity|]. split; [constructor|].
    intros p. split; [intros H; inversion H|].
    intros [Hp _]. unfold is_data_page, RM_FIRST_RECORD_PAGE in Hp. cbn in Hp. lia.
Qed.

Lemma wf_run_op (h : RmFileHandle) (o : op) : wf h -> names_data_page o -> wf (run_op h o).
Proof.
  intros Hwf Hok. destruct o as [buf c|rid c|rid buf c|rid c]; cbn in *.
  - pose proof (insert_record_spec 0 buf c h Hwf) as H.
    destruct (Rm.insert_record 1 buf c h); cbn; [tauto | tauto | contradiction].
  - pose proof (delete_record_spec rid c h Hwf Hok) as H.
    destruct (Rm.delete_record rid c h); cbn; [tauto | tauto | contradiction].
  - pose proof (update_record_spec rid buf c h Hwf Hok) as H.
    destruct (Rm.update_record rid buf c h); cbn; [tauto | | contradiction].
    destruct H as (E1 & E2 & E3 & _). apply (same_file_wf h); assumption.
  - pose proof (get_record_spec rid c h Hwf Hok) as H.
    destruct (Rm.get_record rid c h); cbn; [| | contradiction].
    + destruct H as (_ & _ & _ & E1 & E2 & E3). apply (same_file_wf h); assumption.
    + destruct H as (E1 & E2 & E3 & _). apply (same_file_wf h); assumption.
Qed.

Lemma wf_run_ops (ops : list op) :
  forall h, wf h -> Forall names_data_page ops -> wf (run_ops ops h).
Proof.
  induction ops as [|o ops IH]; intros h Hwf Hall; [exact Hwf|].
  apply Forall_cons in Hall as [Ho Hall]. cbn. apply IH; [|exact Hall].
  now apply wf_run_op.
Qed.

(** The executable traversal agrees with the chain of the invariant. *)
Lemma chain_from_complete (h : RmFileHandle) (l : list Z) :
  forall start fuel,
    is_chain (next_of h) start l -> (length l <= fuel)%nat ->
    RmAux.chain_from fuel h start = Some l.
Proof.
  induction l as [|p l IH]; intros start fuel Hc Hf; cbn in Hc.
  - subst. destruct fuel; reflexivity.
  - destruct Hc as (-> & Hne & Hc). destruct fuel as [|fuel]; [cbn in Hf; lia|].
    cbn [RmAux.chain_from]. rewrite (proj2 (Z.eqb_neq _ _) Hne).
    fold (next_of h p). rewrite (IH _ fuel Hc); [reflexivity | cbn in Hf; lia].
Qed.

Lemma data_pages_spec (h : RmFileHandle) (p : Z) : p ∈ RmAux.data_pages h <-> is_data_page h p.
Proof.
  unfold RmAux.data_pages, is_data_page. rewrite elem_of_seqZ. lia.
Qed.

Lemma non_full_pages_spec (h : RmFileHandle) (p : Z) :
  wf h -> (p ∈ RmAux.non_full_pages h <-> is_data_page h p /\ has_room h p).
Proof.
  intros Hwf. unfold RmAux.non_full_pages. rewrite list_elem_of_filter, data_pages_spec.
  unfold RmAux.is_full, has_room. rewrite Z.geb_leb, Z.leb_gt. tauto.
Qed.

Lemma free_chain_of_wf (h : RmFileHandle) :
  wf h ->
  exists l, RmAux.free_chain (Z.to_nat (num_pages (file_hdr_ h))) h = Some l
            /\ NoDup l /\ forall p, p ∈ l <-> p ∈ RmAux.non_full_pages h.
Proof.
  intros Hwf. destruct (free_ok h Hwf) as (l & Hc & Hnd & Hm).
  exists l. split; [|split; [exact Hnd|]].
  - apply chain_from_complete; [exact Hc|].
    assert (Hsub : l ⊆+ RmAux.data_pages h).
    { apply NoDup_submseteq; [exact Hnd|]. intros p Hp. apply data_pages_spec. now apply Hm. }
    apply submseteq_length in Hsub. unfold RmAux.data_pages in Hsub.
    rewrite length_seqZ in Hsub. unfold RM_FIRST_RECORD_PAGE in Hsub. lia.
  - intros p. rewrite non_full_pages_spec by assumption. apply Hm.
Qed.

(** What [get_record] answers depends only on the live records, their
    contents and the descriptor the lock is asked for. *)
Lemma get_record_returns (rid : Rid) (context : option Context) (h : RmFileHandle) :
  wf h -> live h rid -> grants_shared context (fd_ h) rid = true ->
  exists h', Rm.get_record rid context h = Returned (content h rid) h'
             /\ fd_ h' = fd_ h /\ file_hdr_ h' = file_hdr_ h /\ pages h' = pages h.
Proof.
  intros Hwf Hl Hg.
  assert (Hp : page_no rid <> RM_FILE_HDR_PAGE).
  { destruct Hl as [Hd _]. unfold is_data_page, RM_FIRST_RECORD_PAGE, RM_FILE_HDR_PAGE in *. lia. }
  pose proof (get_record_spec rid context h Hwf Hp) as H.
  destruct (Rm.get_record rid context h) as [rec h'|e h'|x h']; [| |contradiction].
  - destruct H as (_ & -> & _ & H). exists h'. split; [reflexivity|exact H].
  - destruct H as (_ & _ & _ & [[_ Hn]|[(_ & _ & Hn)|(_ & _ & Hn)]]).
    + destruct Hl as [Hd _]. contradiction.
    + contradiction.
    + congruence.
Qed.

Lemma get_record_result_ext (r : Rid) (context : option Context) (h h' : RmFileHandle) :
  wf h -> wf h' -> page_no r <> RM_FILE_HDR_PAGE -> fd_ h' = fd_ h ->
  (live h' r <-> live h r) -> (live h r -> content h' r = content h r) ->
  result_of (Rm.get_record r context h') = result_of (Rm.get_record r context h).
Proof.
  intros Hwf Hwf' Hp Hfd Hlive Hcont.
  pose proof (get_record_spec r context h Hwf Hp) as H.
  pose proof (get_record_spec r context h' Hwf' Hp) as H'.
  rewrite Hfd in H'.
  destruct (Rm.get_record r context h) as [rec h1|e h1|x h1]; [| |contradiction];
    destruct (Rm.get_record r context h') as [rec' h1'|e' h1'|x' h1']; try contradiction; cbn.
  - destruct H as (Hl & -> & _). destruct H' as (_ & -> & _). now rewrite Hcont.
  - exfalso. destruct H as (Hl & _ & Hg & _).
    destruct H' as (_ & _ & _ & [[_ Hn]|[(_ & _ & Hn)|(_ & _ & Hn)]]).
    + apply Hlive in Hl. destruct Hl; contradiction.
    + apply Hn, Hlive, Hl.
    + congruence.
  - exfalso. destruct H' as (Hl & _ & Hg & _).
    destruct H as (_ & _ & _ & [[_ Hn]|[(_ & _ & Hn)|(_ & _ & Hn)]]).
    + apply Hlive in Hl. destruct Hl; contradiction.
    + apply Hn, Hlive, Hl.
    + congruence.
  - reflexivity.
Qed.

Lemma live_names_data_page (h : RmFileHandle) (r : Rid) :
  live h r -> page_no r <> RM_FILE_HDR_PAGE.
Proof.
  intros [Hd _]. unfold is_data_page, RM_FIRST_RECORD_PAGE, RM_FILE_HDR_PAGE in *. lia.
Qed.

(** ** Relations kept by the operations *)

Section Keeps.
Context {S : Type} (R : S -> S -> Prop) `{!Reflexive R} `{!Transitive R}.

Lemma keeps_ret {A} (a : A) : Frame.keeps R (ret a).
Proof. intros s. cbn. reflexivity. Qed.

Lemma keeps_throw {A} (e : Exn) : Frame.keeps R (@throw S A e).
Proof. intros s. cbn. reflexivity. Qed.

Lemma keeps_halt {A} (x : Halt) : Frame.keeps R (@halt S A x).
Proof. intros s. cbn. reflexivity. Qed.

Lemma keeps_get : Frame.keeps R (@get S).
Proof. intros s. cbn. reflexivity. Qed.

Lemma keeps_modify (f : S -> S) : (forall s, R s (f s)) -> Frame.keeps R (modify f).
Proof. intros H s. cbn. apply H. Qed.

Lemma keeps_bind {A B} (m : M S A) (k : A -> M S B) :
  Frame.keeps R m -> (forall a, Frame.keeps R (k a)) -> Frame.keeps R (bind m k).
Proof.
  intros Hm Hk s. unfold bind. specialize (Hm s).
  destruct (m s) as [a s'|e s'|x s']; cbn in *; [|exact Hm|exact Hm].
  etransitivity; [exact Hm|]. apply Hk.
Qed.

Lemma keeps_lift_r {A} (r : Exn + A) : Frame.keeps R (@lift_r S A r).
Proof. destruct r; [apply keeps_throw | apply keeps_ret]. Qed.

End Keeps.

#[local] Instance same_file_refl : Reflexive Frame.same_file.
Proof. intros h. repeat split. Qed.

#[local] Instance same_file_trans : Transitive Frame.same_file.
Proof. intros h1 h2 h3 (a & b & c) (a' & b' & c'). repeat split; congruence. Qed.

#[local] Instance same_num_pages_refl : Reflexive Frame.same_num_pages.
Proof. intros h. reflexivity. Qed.

#[local] Instance same_num_pages_trans : Transitive Frame.same_num_pages.
Proof. intros h1 h2 h3. unfold Frame.same_num_pages. congruence. Qed.

(** Decompose a computation along its binds and branches. *)
Ltac keeps_step :=
  lazymatch goal with
  | |- Frame.keeps _ (bind _ _) => apply keeps_bind; [typeclasses eauto | | intros ?]
  | |- Frame.keeps _ (ret _) => apply keeps_ret; typeclasses eauto
  | |- Frame.keeps _ (throw _) => apply keeps_throw; typeclasses eauto
  | |- Frame.keeps _ (halt _) => apply keeps_halt; typeclasses eauto
  | |- Frame.keeps _ get => apply keeps_get; typeclasses eauto
  | |- Frame.keeps _ (lift_r _) => apply keeps_lift_r; typeclasses eauto
  | |- Frame.keeps _ (modify _) => apply keeps_modify; intros ?
  | |- Frame.keeps _ (if ?b then _ else _) => destruct b
  | |- Frame.keeps _ (match ?x with _ => _ end) => destruct x
  end.

Lemma fetch_page_handle_same_file (p : Z) : Frame.keeps Frame.same_file (Rm.fetch_page_handle p).
Proof. unfold Rm.fetch_page_handle. repeat keeps_step; repeat split. Qed.

Lemma lock_shared_same_file (context : option Context) (rid : Rid) :
  Frame.keeps Frame.same_file (Rm.lock_shared context rid).
Proof. unfold Rm.lock_shared. repeat keeps_step; repeat split. Qed.

Lemma lock_exclusive_same_file (context : option Context) (rid : Rid) :
  Frame.keeps Frame.same_file (Rm.lock_exclusive context rid).
Proof. unfold Rm.lock_exclusive. repeat keeps_step; repeat split. Qed.

Lemma unpin_page_same_file (p : Z) (d : bool) : Frame.keeps Frame.same_file (Rm.unpin_page p d).
Proof. unfold Rm.unpin_page. repeat keeps_step; repeat split. Qed.

(** [get_record] changes nothing but the trace, in any file. *)
Lemma get_record_same_file (rid : Rid) (context : option Context) :
  Frame.keeps Frame.same_file (Rm.get_record rid context).
Proof.
  unfold Rm.get_record.
  repeat first [ apply fetch_page_handle_same_file | apply lock_shared_same_file
               | apply unpin_page_same_file | keeps_step ].
Qed.

Lemma same_file_same_num_pages {A} (m : M RmFileHandle A) :
  Frame.keeps Frame.same_file m -> Frame.keeps Frame.same_num_pages m.
Proof. intros H s. destruct (H s) as (_ & E & _). unfold Frame.same_num_pages. now rewrite E. Qed.

(** Only an insertion adds a page; no operation removes one. *)
Lemma delete_record_same_num_pages (rid : Rid) (context : option Context) :
  Frame.keeps Frame.same_num_pages (Rm.delete_record rid context).
Proof.
  unfold Rm.delete_record, Rm.release_page_handle, Rm.update_page.
  repeat first [ apply same_file_same_num_pages;
                 first [ apply fetch_page_handle_same_file | apply lock_exclusive_same_file
                       | apply unpin_page_same_file ]
               | keeps_step ]; reflexivity.
Qed.

Lemma update_record_same_num_pages (rid : Rid) (buf : list Z) (context : option Context) :
  Frame.keeps Frame.same_num_pages (Rm.update_record rid buf context).
Proof.
  unfold Rm.update_record, Rm.update_page.
  repeat first [ apply same_file_same_num_pages;
                 first [ apply fetch_page_handle_same_file | apply lock_exclusive_same_file
                       | apply unpin_page_same_file ]
               | keeps_step ]; reflexivity.
Qed.

(** ** Record manager: properties of the operations *)

Lemma witness_file_wf : wf RmWitness.file.
Proof. apply wf_empty_file; lia. Qed.

Lemma witness_one_wf : wf RmWitness.one.
Proof. apply wf_run_ops; [exact witness_file_wf | repeat constructor]. Qed.

Lemma witness_two_wf : wf RmWitness.two.
Proof. apply wf_run_ops; [exact witness_file_wf | repeat constructor]. Qed.

(** X1. The free list stays exact under the ordinary operations.  From a
    table file that satisfies the invariant, any sequence of calls of
    [insert_record(buf, context)], [delete_record], [update_record] and
    [get_record], with any contexts, buffers and rids outside the header
    page, and whether each call returns or throws, leaves a file that
    satisfies the invariant again; in particular walking the free list
    from [first_free_page_no] ends at [RM_NO_PAGE] within [num_pages]
    steps and meets every data page with a free slot exactly once, and no
    other page. *)
Theorem rm_calls_keep_free_list_exact (ops : list op) (h : RmFileHandle) :
  wf h -> Forall names_data_page ops ->
  wf (run_ops ops h)
  /\ exists l,
       RmAux.free_chain (Z.to_nat (num_pages (file_hdr_ (run_ops ops h)))) (run_ops ops h)
       = Some l
       /\ NoDup l
       /\ forall p, p ∈ l <-> p ∈ RmAux.non_full_pages (run_ops ops h).
Proof.
  intros Hwf Hall. pose proof (wf_run_ops ops h Hwf Hall) as Hwf'.
  split; [exact Hwf'|]. now apply free_chain_of_wf.
Qed.

Lemma rm_calls_keep_free_list_exact_witness :
  let ops := [OpInsert RmSamples.a (Some RmSamples.ctx);
              OpInsert RmSamples.b (Some RmSamples.ctx_read_only);
              OpInsert RmSamples.b None;
              OpDelete (mkRid 1 0) (Some RmSamples.ctx);
              OpUpdate (mkRid 1 1) RmSamples.c None;
              OpGet (mkRid 7 0) None;
              OpInsert RmSamples.c (Some RmSamples.ctx)] in
  let h := RmWitness.file in
  wf h /\ Forall names_data_page ops
  /\ wf (run_ops ops h)
  /\ exists l,
       RmAux.free_chain (Z.to_nat (num_pages (file_hdr_ (run_ops ops h)))) (run_ops ops h)
       = Some l
       /\ NoDup l
       /\ forall p, p ∈ l <-> p ∈ RmAux.non_full_pages (run_ops ops h).
Proof.
  intros ops h.
  assert (H1 : wf h) by exact witness_file_wf.
  assert (H2 : Forall names_data_page ops) by (repeat constructor; discriminate).
  exact (conj H1 (conj H2 (rm_calls_keep_free_list_exact ops h H1 H2))).
Defined.




(** On the sample the free list is empty and the buffer pool has a frame:
    the insertion goes to a new page, (2, 0).  With a buffer pool that has
    none the same call throws. *)
Example insert_sample_new_page :
  allocates RmWitness.two = true
  /\ result_of (Rm.insert_record 1 RmSamples.c (Some RmSamples.ctx) RmWitness.two)
     = Some (mkRid 2 0)
  /\ thrown (Rm.insert_record 1 RmSamples.c (Some RmSamples.ctx) RmWitness.out_of_frames)
     = Some (InternalError "Failed to create new page").
Proof. repeat match goal with |- _ /\ _ => split end; vm_compute; reflexivity. Qed.

(** X3. Insert, then read: the record [get_record] returns for the rid
    that [insert_record(buf, context)] handed out is the first
    [record_size] bytes of [buf]. *)
Theorem insert_then_get_record (fuel : nat) (buf : list Z) (context context' : option Context)
        (h h' : RmFileHandle) (rid : Rid) :
  wf h ->
  Rm.insert_record (S fuel) buf context h = Returned rid h' ->
  grants_shared context' (fd_ h) rid = true ->
  result_of (Rm.get_record rid context' h')
  = Some (take (Z.to_nat (record_size (file_hdr_ h))) buf).
Proof.
  intros Hwf Hrun Hg. pose proof (insert_record_spec fuel buf context h Hwf) as H.
  rewrite Hrun in H. destruct H as (Hwf' & Hins & _).
  assert (Hl : live h' rid) by (apply (ins_live _ _ _ _ Hins); now left).
  rewrite <- (ins_fd _ _ _ _ Hins) in Hg.
  destruct (get_record_returns rid context' h' Hwf' Hl Hg) as (h'' & -> & _).
  cbn. now rewrite (ins_content _ _ _ _ Hins).
Qed.

Lemma insert_then_get_record_witness :
  let h := RmWitness.one in
  let h' := RmWitness.two in
  wf h
  /\ Rm.insert_record 1 RmSamples.b (Some RmSamples.ctx) h = Returned (mkRid 1 1) h'
  /\ grants_shared None (fd_ h) (mkRid 1 1) = true
  /\ result_of (Rm.get_record (mkRid 1 1) None h')
     = Some (take (Z.to_nat (record_size (file_hdr_ h))) RmSamples.b).
Proof.
  intros h h'.
  assert (H1 : wf h) by exact witness_one_wf.
  assert (H2 : Rm.insert_record 1 RmSamples.b (Some RmSamples.ctx) h = Returned (mkRid 1 1) h')
    by (vm_compute; reflexivity).
  assert (H3 : grants_shared None (fd_ h) (mkRid 1 1) = true) by reflexivity.
  exact (conj H1 (conj H2 (conj H3
           (insert_then_get_record 0 RmSamples.b (Some RmSamples.ctx) None h h' (mkRid 1 1)
                                   H1 H2 H3)))).
Defined.

(** X4. Update, then read: after [update_record(rid, buf, context)] has
    returned for a rid outside the header page, [get_record(rid)] returns
    the first [record_size] bytes of [buf]. *)
Theorem update_then_get_record (rid : Rid) (buf : list Z) (context context' : option Context)
        (h h' : RmFileHandle) :
  wf h -> page_no rid <> RM_FILE_HDR_PAGE ->
  Rm.update_record rid buf context h = Returned tt h' ->
  grants_shared context' (fd_ h) rid = true ->
  result_of (Rm.get_record rid context' h')
  = Some (take (Z.to_nat (record_size (file_hdr_ h))) buf).
Proof.
  intros Hwf Hp Hrun Hg. pose proof (update_record_spec rid buf context h Hwf Hp) as H.
  rewrite Hrun in H. destruct H as (Hwf' & Hupd & _).
  assert (Hl : live h' rid) by (apply (upd_live _ _ _ _ Hupd), (upd_was_live _ _ _ _ Hupd)).
  rewrite <- (upd_fd _ _ _ _ Hupd) in Hg.
  destruct (get_record_returns rid context' h' Hwf' Hl Hg) as (h'' & -> & _).
  cbn. now rewrite (upd_content _ _ _ _ Hupd).
Qed.

Lemma update_then_get_record_witness :
  let h := RmWitness.one in
  let h' := state_of (Rm.update_record (mkRid 1 0) RmSamples.c None h) in
  wf h /\ page_no (mkRid 1 0) <> RM_FILE_HDR_PAGE
  /\ Rm.update_record (mkRid 1 0) RmSamples.c None h = Returned tt h'
  /\ grants_shared (Some RmSamples.ctx) (fd_ h) (mkRid 1 0) = true
  /\ result_of (Rm.get_record (mkRid 1 0) (Some RmSamples.ctx) h')
     = Some (take (Z.to_nat (record_size (file_hdr_ h))) RmSamples.c).
Proof.
  intros h h'.
  assert (H1 : wf h) by exact witness_one_wf.
  assert (H2 : page_no (mkRid 1 0) <> RM_FILE_HDR_PAGE) by discriminate.
  assert (H3 : Rm.update_record (mkRid 1 0) RmSamples.c None h = Returned tt h')
    by (vm_compute; reflexivity).
  assert (H4 : grants_shared (Some RmSamples.ctx) (fd_ h) (mkRid 1 0) = true) by reflexivity.
  exact (conj H1 (conj H2 (conj H3 (conj H4
           (update_then_get_record (mkRid 1 0) RmSamples.c None (Some RmSamples.ctx) h h'
                                   H1 H2 H3 H4))))).
Defined.

(** X5. Delete, then read: after [delete_record(rid, context)] has
    returned for a rid outside the header page, [get_record(rid)] throws
    [RecordNotFoundError] for that rid, under any context. *)
Theorem delete_then_get_record_not_found (rid : Rid) (context context' : option Context)
        (h h' : RmFileHandle) :
  wf h -> page_no rid <> RM_FILE_HDR_PAGE ->
  Rm.delete_record rid context h = Returned tt h' ->
  exists h'', Rm.get_record rid context' h'
              = Threw (RecordNotFoundError (page_no rid) (slot_no rid)) h''.
Proof.
  intros Hwf Hp Hrun. pose proof (delete_record_spec rid context h Hwf Hp) as H.
  rewrite Hrun in H. destruct H as (Hwf' & Hdel & _).
  assert (Hnl : ~ live h' rid).
  { intros Hl. apply (del_live _ _ _ Hdel) in Hl. now destruct Hl. }
  assert (Hd : is_data_page h' (page_no rid)).
  { destruct (del_was_live _ _ _ Hdel) as [Hd _].
    pose proof (get_record_spec rid context' h' Hwf' Hp) as G.
    destruct (Rm.get_record rid context' h') as [rec g|e g|x g]; [| |contradiction].
    - destruct G as (Hl & _). contradiction.
    - destruct G as (_ & _ & _ & [[_ Hn]|[(_ & Hd' & _)|(_ & Hl & _)]]);
        [|exact Hd'|contradiction].
      exfalso. apply Hn. clear Hn.
      (* the page count is not changed by a deletion *)
      pose proof (delete_record_same_num_pages rid context h) as Hnp. rewrite Hrun in Hnp.
      unfold is_data_page in *. cbn in Hnp. rewrite Hnp. exact Hd. }
  pose proof (get_record_spec rid context' h' Hwf' Hp) as G.
  destruct (Rm.get_record rid context' h') as [rec g|e g|x g]; [| |contradiction].
  - destruct G as (Hl & _). contradiction.
  - destruct G as (_ & _ & _ & [[_ Hn]|[(-> & _)|(_ & Hl & _)]]);
      [contradiction| |contradiction].
    now exists g.
Qed.

Lemma delete_then_get_record_not_found_witness :
  let h := RmWitness.two in
  let h' := state_of (Rm.delete_record (mkRid 1 0) (Some RmSamples.ctx) h) in
  wf h /\ page_no (mkRid 1 0) <> RM_FILE_HDR_PAGE
  /\ Rm.delete_record (mkRid 1 0) (Some RmSamples.ctx) h = Returned tt h'
  /\ exists h'', Rm.get_record (mkRid 1 0) None h'
                 = Threw (RecordNotFoundError (page_no (mkRid 1 0)) (slot_no (mkRid 1 0))) h''.
Proof.
  intros h h'.
  assert (H1 : wf h) by exact witness_two_wf.
  assert (H2 : page_no (mkRid 1 0) <> RM_FILE_HDR_PAGE) by discriminate.
  assert (H3 : Rm.delete_record (mkRid 1 0) (Some RmSamples.ctx) h = Returned tt h')
    by (vm_compute; reflexivity).
  exact (conj H1 (conj H2 (conj H3
           (delete_then_get_record_not_found (mkRid 1 0) (Some RmSamples.ctx) None h h'
                                             H1 H2 H3)))).
Defined.

(** What a call leaves of a record it does not name. *)
Lemma run_op_frame (o : op) (h : RmFileHandle) (r : Rid) :
  wf h -> names_data_page o -> live h r -> target o <> Some r ->
  fd_ (run_op h o) = fd_ h
  /\ live (run_op h o) r
  /\ content (run_op h o) r = content h r.
Proof.
  intros Hwf Hok Hr Ht.
  assert (Hsame : forall h', same_records h h' ->
                    fd_ h' = fd_ h /\ live h' r /\ content h' r = content h r).
  { intros h' [a _ _ _ e f]. split; [exact a|]. split; [now apply e | now apply f]. }
  assert (Hfile : forall h', Frame.same_file h h' ->
                    fd_ h' = fd_ h /\ live h' r /\ content h' r = content h r).
  { intros h' (a & b & c). apply Hsame. now apply same_file_same_records. }
  destruct o as [buf c|rid c|rid buf c|rid c]; cbn in *.
  - pose proof (insert_record_spec 0 buf c h Hwf) as H.
    destruct (Rm.insert_record 1 buf c h) as [rid h'|e h'|x h']; cbn; [| |contradiction].
    + destruct H as (_ & Hins & _). split; [apply (ins_fd _ _ _ _ Hins)|].
      split; [apply (ins_live _ _ _ _ Hins); now right | now apply (ins_frame _ _ _ _ Hins)].
    + apply Hsame, H.
  - assert (Hne : r <> rid) by congruence.
    pose proof (delete_record_spec rid c h Hwf Hok) as H.
    destruct (Rm.delete_record rid c h) as [u h'|e h'|x h']; cbn; [| |contradiction].
    + destruct H as (_ & Hdel & _). split; [apply (del_fd _ _ _ Hdel)|].
      split; [now apply (del_live _ _ _ Hdel) | now apply (del_frame _ _ _ Hdel)].
    + apply Hsame, H.
  - assert (Hne : r <> rid) by congruence.
    pose proof (update_record_spec rid buf c h Hwf Hok) as H.
    destruct (Rm.update_record rid buf c h) as [u h'|e h'|x h']; cbn; [| |contradiction].
    + destruct H as (_ & Hupd & _). split; [apply (upd_fd _ _ _ _ Hupd)|].
      split; [now apply (upd_live _ _ _ _ Hupd) | now apply (upd_frame _ _ _ _ Hupd)].
    + apply Hfile. unfold Frame.same_file. tauto.
  - apply Hfile. apply (get_record_same_file rid c h).
Qed.

(** X6. A call leaves every other record readable as before: for a
    record [r] that is live and is not the one the call names (an
    insertion names none, the other calls a rid outside the header page),
    [get_record(r)] gives the same answer after an [insert_record],
    [delete_record], [update_record] or [get_record] as before it, whether
    that call returned or threw. *)
Theorem rm_call_keeps_other_records (o : op) (h : RmFileHandle) (r : Rid)
        (context : option Context) :
  wf h -> names_data_page o -> live h r -> target o <> Some r ->
  result_of (Rm.get_record r context (run_op h o)) = result_of (Rm.get_record r context h).
Proof.
  intros Hwf Hok Hr Ht.
  destruct (run_op_frame o h r Hwf Hok Hr Ht) as (Hfd & Hl & Hc).
  apply get_record_result_ext; auto.
  - now apply wf_run_op.
  - now apply (live_names_data_page h).
  - tauto.
Qed.

Lemma rm_call_keeps_other_records_witness :
  let o := OpDelete (mkRid 1 0) (Some RmSamples.ctx) in
  let h := RmWitness.two in
  wf h /\ names_data_page o /\ live h (mkRid 1 1) /\ target o <> Some (mkRid 1 1)
  /\ result_of (Rm.get_record (mkRid 1 1) None (run_op h o))
     = result_of (Rm.get_record (mkRid 1 1) None h).
Proof.
  intros o h.
  assert (H1 : wf h) by exact witness_two_wf.
  assert (H2 : names_data_page o) by discriminate.
  assert (H3 : live h (mkRid 1 1)) by (split; [vm_compute; split; congruence | vm_compute; reflexivity]).
  assert (H4 : target o <> Some (mkRid 1 1)) by discriminate.
  exact (conj H1 (conj H2 (conj H3 (conj H4
           (rm_call_keeps_other_records o h (mkRid 1 1) None H1 H2 H3 H4))))).
Defined.

(** X7. A rid outside the header page that holds no record is an error
    for [get_record], [delete_record] and [update_record] alike.  Page 0,
    the file header page, is left out: [fetch_page_handle] accepts it like
    any page below [num_pages], and the three calls then work on the
    header page.  For every other page number, under the invariant: the
    calls throw [PageNotExistError] when the page number is negative or
    not below [num_pages], and [RecordNotFoundError] when the page is a
    data page and the slot's bit is clear; the three calls throw the same
    exception and leave header and pages as they were. *)
Theorem rm_missing_record_is_error (rid : Rid) (buf : list Z) (context : option Context)
        (h : RmFileHandle) :
  wf h -> page_no rid <> RM_FILE_HDR_PAGE -> ~ live h rid ->
  exists e h1 h2 h3,
    ((e = PageNotExistError (page_no rid) /\ ~ is_data_page h (page_no rid))
     \/ (e = RecordNotFoundError (page_no rid) (slot_no rid)
         /\ is_data_page h (page_no rid)))
    /\ Rm.get_record rid context h = Threw e h1 /\ Frame.same_file h h1
    /\ Rm.delete_record rid context h = Threw e h2 /\ Frame.same_file h h2
    /\ Rm.update_record rid buf context h = Threw e h3 /\ Frame.same_file h h3.
Proof.
  intros Hwf Hp Hnl.
  pose proof (get_record_spec rid context h Hwf Hp) as G.
  pose proof (delete_record_spec rid context h Hwf Hp) as D.
  pose proof (update_record_spec rid buf context h Hwf Hp) as U.
  destruct (Rm.get_record rid context h) as [rec h1|e1 h1|x h1]; [| |contradiction].
  { destruct G as (Hl & _). contradiction. }
  destruct (Rm.delete_record rid context h) as [u h2|e2 h2|x h2]; [| |contradiction].
  { destruct D as (_ & Hdel & _). destruct (Hnl (del_was_live _ _ _ Hdel)). }
  destruct (Rm.update_record rid buf context h) as [u h3|e3 h3|x h3]; [| |contradiction].
  { destruct U as (_ & Hupd & _). destruct (Hnl (upd_was_live _ _ _ _ Hupd)). }
  destruct G as (G1 & G2 & G3 & G).
  destruct D as (_ & _ & D & D').
  destruct U as (U1 & U2 & U3 & U).
  assert (He : (e1 = PageNotExistError (page_no rid) /\ ~ is_data_page h (page_no rid))
               \/ (e1 = RecordNotFoundError (page_no rid) (slot_no rid)
                   /\ is_data_page h (page_no rid))).
  { destruct G as [G|[(G & Hd & _)|(_ & Hl & _)]]; [now left | now right | contradiction]. }
  assert (E2 : e2 = e1).
  { destruct He as [[-> Hn]|[-> Hd]];
      destruct D as [[-> Hn']|[(-> & Hd' & _)|(_ & Hl & _)]];
      try reflexivity; contradiction. }
  assert (E3 : e3 = e1).
  { destruct He as [[-> Hn]|[-> Hd]];
      destruct U as [[-> Hn']|[(-> & Hd' & _)|(_ & Hl & _)]];
      try reflexivity; contradiction. }
  subst e2 e3. exists e1, h1, h2, h3. unfold Frame.same_file in *.
  split; [exact He|]. repeat split; try reflexivity; tauto.
Qed.

Lemma rm_missing_record_is_error_witness :
  let h := RmWitness.one in
  let rid := mkRid 1 1 in
  wf h /\ page_no rid <> RM_FILE_HDR_PAGE /\ ~ live h rid
  /\ exists e h1 h2 h3,
       ((e = PageNotExistError (page_no rid) /\ ~ is_data_page h (page_no rid))
        \/ (e = RecordNotFoundError (page_no rid) (slot_no rid)
            /\ is_data_page h (page_no rid)))
       /\ Rm.get_record rid None h = Threw e h1 /\ Frame.same_file h h1
       /\ Rm.delete_record rid None h = Threw e h2 /\ Frame.same_file h h2
       /\ Rm.update_record rid RmSamples.c None h = Threw e h3 /\ Frame.same_file h h3.
Proof.
  intros h rid.
  assert (H1 : wf h) by exact witness_one_wf.
  assert (H2 : page_no rid <> RM_FILE_HDR_PAGE) by discriminate.
  assert (H3 : ~ live h rid) by (intros [_ Hs]; vm_compute in Hs; discriminate).
  exact (conj H1 (conj H2 (conj H3
           (rm_missing_record_is_error rid RmSamples.c None h H1 H2 H3)))).
Defined.



(** ** Table scan *)

Import ScanSpec.

Lemma find_slot_spec (bm : list bool) (n : nat) :
  forall lo,
    match RmScan.find_slot bm lo n with
    | None => filter (fun i => Bitmap.is_set bm i = true) (seqZ lo (Z.of_nat n)) = []
    | Some s =>
        lo <= s < lo + Z.of_nat n
        /\ Bitmap.is_set bm s = true
        /\ filter (fun i => Bitmap.is_set bm i = true) (seqZ lo (Z.of_nat n))
           = s :: filter (fun i => Bitmap.is_set bm i = true)
                         (seqZ (s + 1) (lo + Z.of_nat n - (s + 1)))
    end.
Proof.
  induction n as [|n IH]; intros lo.
  - reflexivity.
  - cbn [RmScan.find_slot].
    rewrite (seqZ_cons lo (Z.of_nat (S n))) by lia.
    replace (Z.pred (Z.of_nat (S n))) with (Z.of_nat n) by lia.
    destruct (Bitmap.is_set bm lo) eqn:Hs.
    + split; [lia|]. split; [exact Hs|].
      rewrite filter_cons_True by exact Hs. f_equal. f_equal. f_equal; lia.
    + rewrite filter_cons_False by congruence.
      specialize (IH (Z.succ lo)).
      destruct (RmScan.find_slot bm (lo + 1) n) eqn:Hf;
        replace (lo + 1) with (Z.succ lo) in Hf by lia; rewrite Hf in IH.
      * destruct IH as (Hr & Hset & Heq). split; [lia|]. split; [exact Hset|].
        rewrite Heq. f_equal. f_equal. f_equal. lia.
      * exact IH.
Qed.

Lemma seqZ_to_nat (lo len : Z) : seqZ lo (Z.of_nat (Z.to_nat len)) = seqZ lo len.
Proof.
  destruct (Z_le_gt_dec 0 len) as [H|H].
  - now rewrite Z2Nat.id.
  - rewrite Z2Nat.nonpos by lia. cbn. symmetry. apply seqZ_nil. lia.
Qed.

(** The inner loop of [next] on page [p] from slot [lo]. *)
Lemma find_slot_live_slots (h : RmFileHandle) (p lo : Z) :
  match RmScan.find_slot (bitmap (page_at h p)) lo
                         (Z.to_nat (num_records_per_page (file_hdr_ h) - lo)) with
  | None => live_slots h p lo = []
  | Some s => lo <= s /\ live_slots h p lo = s :: live_slots h p (s + 1)
  end.
Proof.
  pose proof (find_slot_spec (bitmap (page_at h p))
                (Z.to_nat (num_records_per_page (file_hdr_ h) - lo)) lo) as H.
  unfold live_slots.
  destruct (RmScan.find_slot _ _ _) as [s|].
  - destruct H as (Hr & _ & Heq). rewrite seqZ_to_nat in Heq. split; [lia|].
    rewrite Heq. f_equal. f_equal. f_equal.
    rewrite Z2Nat.id by lia. lia.
  - now rewrite seqZ_to_nat in H.
Qed.

Lemma rids_from_same_file (h h' : RmFileHandle) (p lo : Z) :
  Frame.same_file h h' -> rids_from h' p lo = rids_from h p lo.
Proof.
  intros (_ & Hh & Hp). unfold rids_from, page_rids, live_slots, page_at.
  now rewrite Hh, Hp.
Qed.

Lemma rids_from_next_page (h : RmFileHandle) (p lo : Z) :
  p < num_pages (file_hdr_ h) -> live_slots h p lo = [] ->
  rids_from h p lo = rids_from h (p + 1) 0.
Proof.
  intros Hp Hnil. unfold rids_from, page_rids. rewrite Hnil. cbn [map app].
  rewrite (proj2 (Z.ltb_lt _ _) Hp).
  destruct (p + 1 <? num_pages (file_hdr_ h)) eqn:E.
  - apply Z.ltb_lt in E. rewrite (seqZ_cons (p + 1)) by lia. cbn [flat_map].
    f_equal. f_equal. f_equal; lia.
  - apply Z.ltb_ge in E. rewrite seqZ_nil by lia. reflexivity.
Qed.

Lemma wf_pages_present (h : RmFileHandle) : wf h -> pages_present h.
Proof.
  intros Hwf p Hp. destruct (pages_ok h Hwf p Hp) as (pg & -> & _). eauto.
Qed.

Lemma pages_present_same_file (h h' : RmFileHandle) :
  Frame.same_file h h' -> pages_present h -> pages_present h'.
Proof. intros (_ & Hh & Hp) H p. rewrite Hh, Hp. apply H. Qed.

(** The outer loop of [next]: from position [(p, s)] it stops on the first
    record after that position, or at the end position. *)
Lemma next_loop_spec (n : nat) :
  forall (p s : Z) (h : RmFileHandle),
    pages_present h -> RM_FIRST_RECORD_PAGE <= p ->
    n = Z.to_nat (num_pages (file_hdr_ h) - p) ->
    exists r h',
      RmScan.next_loop n (mkRid p s) h = Returned r h'
      /\ Frame.same_file h h'
      /\ ((rids_from h p (s + 1) = [] /\ r = mkRid (num_pages (file_hdr_ h)) 0)
          \/ (p <= page_no r < num_pages (file_hdr_ h)
              /\ rids_from h p (s + 1) = r :: rids_from h (page_no r) (slot_no r + 1))).
Proof.
  induction n as [|n IH]; intros p s h Hpres Hp Hn.
  - exists (mkRid (num_pages (file_hdr_ h)) 0), h. split; [reflexivity|].
    split; [reflexivity|]. left. split; [|reflexivity].
    unfold rids_from. destruct (p <? num_pages (file_hdr_ h)) eqn:E; [|reflexivity].
    apply Z.ltb_lt in E. lia.
  - assert (Hlt : p < num_pages (file_hdr_ h)) by lia.
    destruct (Hpres p ltac:(lia)) as [pg Hpg].
    cbn [RmScan.next_loop page_no slot_no]. unfold bind at 1. unfold Rm.fetch_page_handle.
    unfold bind at 1, get at 1.
    replace ((p >=? num_pages (file_hdr_ h)) || (p <? 0)) with false.
    2: { symmetry. apply orb_false_intro; [rewrite Z.geb_leb; apply Z.leb_gt; lia|].
         apply Z.ltb_ge. unfold RM_FIRST_RECORD_PAGE in Hp. lia. }
    rewrite Hpg. unfold bind at 1, modify at 1. unfold ret at 1.
    set (h1 := log_event _ h).
    assert (Hsame : Frame.same_file h h1) by (repeat split).
    unfold bind at 1, get at 1.
    change (page_at h1 p) with (page_at h p). change (file_hdr_ h1) with (file_hdr_ h).
    pose proof (find_slot_live_slots h p (s + 1)) as Hf.
    destruct (RmScan.find_slot _ _ _) as [s'|].
    + destruct Hf as (Hle & Heq). exists (mkRid p s'), h1. split; [reflexivity|].
      split; [exact Hsame|]. right. cbn [page_no slot_no]. split; [lia|].
      unfold rids_from, page_rids. rewrite (proj2 (Z.ltb_lt _ _) Hlt), Heq. reflexivity.
    + destruct (IH (p + 1) (-1) h1) as (r & h' & Hrun & Hs' & Hcase).
      * now apply (pages_present_same_file h).
      * lia.
      * change (file_hdr_ h1) with (file_hdr_ h). lia.
      * exists r, h'. split; [exact Hrun|].
        split; [transitivity h1; assumption|].
        rewrite (rids_from_next_page h p (s + 1) Hlt Hf).
        change (-1 + 1) with 0 in Hcase.
        rewrite !(rids_from_same_file h h1) in Hcase by exact Hsame.
        change (file_hdr_ h1) with (file_hdr_ h) in Hcase.
        destruct Hcase as [Hc|[Hr Hc]]; [left; exact Hc|right].
        split; [lia | exact Hc].
Qed.

(** [RmScan::next] from a position on or before the first data page's
    end. *)
Lemma scan_next_spec (scan : RmScan.t) (h : RmFileHandle) :
  pages_present h -> RM_FIRST_RECORD_PAGE <= page_no (RmScan.rid_ scan) ->
  exists scan' h',
    RmScan.next scan h = Returned scan' h'
    /\ Frame.same_file h h'
    /\ remaining h (RmScan.rid_ scan')
       = rids_from h (page_no (RmScan.rid_ scan)) (slot_no (RmScan.rid_ scan) + 1)
    /\ (RmScan.is_end scan' h = false ->
        RM_FIRST_RECORD_PAGE <= page_no (RmScan.rid_ scan')).
Proof.
  intros Hpres Hp. destruct scan as [[p s]]. cbn [RmScan.rid_ page_no slot_no] in *.
  unfold RmScan.next. unfold bind at 1, get at 1. cbn [RmScan.rid_ page_no].
  destruct (next_loop_spec _ p s h Hpres Hp eq_refl) as (r & h' & Hrun & Hsame & Hcase).
  unfold bind at 1. rewrite Hrun. exists (RmScan.mk r), h'. split; [reflexivity|].
  split; [exact Hsame|]. cbn [RmScan.rid_]. unfold remaining, RmScan.is_end. cbn [RmScan.rid_].
  destruct Hcase as [[Hnil ->]|[Hr Heq]].
  - cbn [page_no]. rewrite Z.ltb_irrefl. split; [now rewrite Hnil|].
    rewrite Z.geb_leb. intros E. apply Z.leb_gt in E. lia.
  - rewrite (proj2 (Z.ltb_lt _ _) (proj2 Hr)). split; [now rewrite Heq|]. intros _. lia.
Qed.

Lemma remaining_same_file (h h' : RmFileHandle) (r : Rid) :
  Frame.same_file h h' -> remaining h' r = remaining h r.
Proof.
  intros Hs. unfold remaining. rewrite (rids_from_same_file h h') by exact Hs.
  destruct Hs as (_ & -> & _). reflexivity.
Qed.

Lemma scan_loop_spec (fuel : nat) :
  forall (scan : RmScan.t) (h : RmFileHandle),
    pages_present h ->
    (RmScan.is_end scan h = false -> RM_FIRST_RECORD_PAGE <= page_no (RmScan.rid_ scan)) ->
    (length (remaining h (RmScan.rid_ scan)) < fuel)%nat ->
    exists h', scan_loop fuel scan h = Returned (remaining h (RmScan.rid_ scan)) h'
               /\ Frame.same_file h h'.
Proof.
  induction fuel as [|fuel IH]; intros scan h Hpres Hpos Hlen; [lia|].
  cbn [scan_loop]. unfold bind at 1, get at 1.
  destruct (RmScan.is_end scan h) eqn:Hend.
  - exists h. split; [|reflexivity]. unfold remaining. unfold RmScan.is_end in Hend.
    rewrite Z.geb_leb in Hend. apply Z.leb_le in Hend.
    now rewrite (proj2 (Z.ltb_ge _ _) Hend).
  - specialize (Hpos eq_refl).
    destruct (scan_next_spec scan h Hpres Hpos) as (scan' & h1 & Hrun & Hsame & Hrem & Hpos').
    unfold bind at 1. rewrite Hrun.
    assert (Hlt : page_no (RmScan.rid_ scan) < num_pages (file_hdr_ h)).
    { unfold RmScan.is_end in Hend. rewrite Z.geb_leb in Hend. now apply Z.leb_gt in Hend. }
    assert (Hr : remaining h (RmScan.rid_ scan)
                 = RmScan.rid_ scan :: remaining h (RmScan.rid_ scan')).
    { rewrite Hrem. unfold remaining at 1. now rewrite (proj2 (Z.ltb_lt _ _) Hlt). }
    assert (Hend' : RmScan.is_end scan' h1 = RmScan.is_end scan' h).
    { unfold RmScan.is_end. destruct Hsame as (_ & -> & _). reflexivity. }
    destruct (IH scan' h1) as (h' & Hrun' & Hsame').
    + now apply (pages_present_same_file h).
    + rewrite Hend'. exact Hpos'.
    + rewrite (remaining_same_file h h1) by exact Hsame. rewrite Hr in Hlen. cbn in Hlen. lia.
    + unfold bind at 1. rewrite Hrun'. exists h'. split; [|transitivity h1; assumption].
      unfold ret. rewrite (remaining_same_file h h1) by exact Hsame. now rewrite Hr.
Qed.

Lemma scan_new_spec (h : RmFileHandle) :
  pages_present h ->
  exists scan h',
    RmScan.new h = Returned scan h'
    /\ Frame.same_file h h'
    /\ remaining h (RmScan.rid_ scan) = live_rids h
    /\ (RmScan.is_end scan h = false -> RM_FIRST_RECORD_PAGE <= page_no (RmScan.rid_ scan)).
Proof.
  intros Hpres. unfold RmScan.new.
  destruct (scan_next_spec (RmScan.mk (mkRid RM_FIRST_RECORD_PAGE (-1))) h Hpres)
    as (scan & h' & Hrun & Hsame & Hrem & Hpos); [cbn; lia|].
  exists scan, h'. split; [exact Hrun|]. split; [exact Hsame|]. split; [exact Hrem|exact Hpos].
Qed.

(** The rids a scan is to visit are the live records, each once. *)
Lemma live_slots_spec (h : RmFileHandle) (p lo i : Z) :
  i ∈ live_slots h p lo
  <-> lo <= i < num_records_per_page (file_hdr_ h)
      /\ Bitmap.is_set (bitmap (page_at h p)) i = true.
Proof.
  unfold live_slots. rewrite list_elem_of_filter, elem_of_seqZ. intuition lia.
Qed.

Lemma live_rids_spec (h : RmFileHandle) (r : Rid) :
  wf h -> (r ∈ live_rids h <-> live h r).
Proof.
  intros Hwf. unfold live_rids, rids_from, live.
  pose proof (pages_pos h Hwf) as Hnp.
  assert (Hin : forall q lo, r ∈ page_rids h q lo
                  <-> page_no r = q /\ lo <= slot_no r < num_records_per_page (file_hdr_ h)
                      /\ Bitmap.is_set (bitmap (page_at h q)) (slot_no r) = true).
  { intros q lo. unfold page_rids. rewrite list_elem_of_fmap. split.
    - intros (i & -> & Hi). apply live_slots_spec in Hi. cbn. tauto.
    - intros (Hq & Hi). exists (slot_no r). split; [destruct r; cbn in *; congruence|].
      now apply live_slots_spec. }
  assert (Hbound : forall q, is_data_page h q ->
                     Bitmap.is_set (bitmap (page_at h q)) (slot_no r) = true ->
                     0 <= slot_no r < num_records_per_page (file_hdr_ h)).
  { intros q Hq Hs. destruct (pages_ok h Hwf q Hq) as (pg & Hpg & Hok).
    assert (Hat : page_at h q = pg) by (unfold page_at; now rewrite Hpg).
    rewrite Hat in Hs. pose proof (is_set_true_range _ _ Hs).
    destruct (Z_lt_ge_dec (slot_no r) (num_records_per_page (file_hdr_ h))); [lia|].
    rewrite (padding_clear _ _ Hok) in Hs by lia. discriminate. }
  unfold is_data_page in *. unfold RM_FIRST_RECORD_PAGE in *.
  destruct (1 <? num_pages (file_hdr_ h)) eqn:E.
  - apply Z.ltb_lt in E. rewrite elem_of_app, Hin, list_elem_of_In, in_flat_map.
    split.
    + intros [(Hq & Hi & Hs)|(q & Hq & Hr)].
      * rewrite Hq. split; [lia|exact Hs].
      * apply list_elem_of_In, elem_of_seqZ in Hq. apply list_elem_of_In, Hin in Hr.
        destruct Hr as (Hq' & _ & Hs). rewrite Hq'. split; [lia|exact Hs].
    + intros [Hp Hs]. pose proof (Hbound _ Hp Hs) as Hb.
      destruct (Z.eq_dec (page_no r) 1) as [E1|E1].
      * left. rewrite <- E1. tauto.
      * right. exists (page_no r). split.
        -- apply list_elem_of_In, elem_of_seqZ. lia.
        -- apply list_elem_of_In, Hin. tauto.
  - apply Z.ltb_ge in E. split; [intros H; inversion H | intros [Hp _]; lia].
Qed.

Lemma live_rids_NoDup (h : RmFileHandle) : NoDup (live_rids h).
Proof.
  unfold live_rids, rids_from.
  assert (Hpage : forall q lo, NoDup (page_rids h q lo)).
  { intros q lo. unfold page_rids. apply NoDup_fmap_2.
    - intros i j Heq. now injection Heq.
    - unfold live_slots. apply NoDup_filter, NoDup_seqZ. }
  assert (Hin : forall q lo r, r ∈ page_rids h q lo -> page_no r = q).
  { intros q lo r Hr. unfold page_rids in Hr. apply list_elem_of_fmap in Hr as (i & -> & _).
    reflexivity. }
  assert (Hflat : forall l, NoDup l -> NoDup (flat_map (fun q => page_rids h q 0) l)).
  { induction l as [|q l IHl]; intros Hnd; [constructor|].
    apply NoDup_cons in Hnd as [Hq Hnd]. cbn [flat_map]. apply NoDup_app.
    split; [apply Hpage|]. split; [|now apply IHl].
    intros r Hr Hr'. apply Hin in Hr. apply list_elem_of_In, in_flat_map in Hr'.
    destruct Hr' as (q' & Hq' & Hr'). apply list_elem_of_In, Hin in Hr'.
    apply list_elem_of_In in Hq'. congruence. }
  destruct (_ <? _); [|constructor].
  apply NoDup_app. split; [apply Hpage|]. split; [|apply Hflat, NoDup_seqZ].
  intros r Hr Hr'. apply Hin in Hr. apply list_elem_of_In, in_flat_map in Hr'.
  destruct Hr' as (q' & Hq' & Hr'). apply list_elem_of_In, Hin in Hr'.
  apply list_elem_of_In, elem_of_seqZ in Hq'. unfold RM_FIRST_RECORD_PAGE in *. lia.
Qed.

(** X9. A table scan visits the live records, each exactly once, in page
    and slot order.  Under the invariant, constructing an [RmScan] and
    calling [next] until [is_end] returns, with [rid()] taking the values
    [live_rids] in turn: a list without repetition whose members are
    exactly the rids with a set bit on a data page.  The scan changes
    neither the header nor any page. *)
Theorem scan_visits_each_live_record_once (fuel : nat) (h : RmFileHandle) :
  wf h -> (length (live_rids h) < fuel)%nat ->
  exists h',
    scan_all fuel h = Returned (live_rids h) h'
    /\ Frame.same_file h h'
    /\ NoDup (live_rids h)
    /\ forall r, r ∈ live_rids h <-> live h r.
Proof.
  intros Hwf Hfuel. pose proof (wf_pages_present h Hwf) as Hpres.
  destruct (scan_new_spec h Hpres) as (scan & h1 & Hrun & Hsame & Hrem & Hpos).
  assert (Hend : RmScan.is_end scan h1 = RmScan.is_end scan h).
  { unfold RmScan.is_end. destruct Hsame as (_ & -> & _). reflexivity. }
  destruct (scan_loop_spec fuel scan h1) as (h' & Hrun' & Hsame').
  - now apply (pages_present_same_file h).
  - rewrite Hend. exact Hpos.
  - rewrite (remaining_same_file h h1) by exact Hsame. now rewrite Hrem.
  - exists h'. unfold scan_all. unfold bind. rewrite Hrun, Hrun'.
    rewrite (remaining_same_file h h1) by exact Hsame. rewrite Hrem.
    split; [reflexivity|]. split; [transitivity h1; assumption|].
    split; [apply live_rids_NoDup|]. intros r. now apply live_rids_spec.
Qed.

Lemma scan_visits_each_live_record_once_witness :
  let h := RmWitness.two in
  wf h /\ (length (live_rids h) < 5)%nat
  /\ exists h',
       scan_all 5 h = Returned (live_rids h) h'
       /\ Frame.same_file h h'
       /\ NoDup (live_rids h)
       /\ forall r, r ∈ live_rids h <-> live h r.
Proof.
  intros h.
  assert (H1 : wf h) by exact witness_two_wf.
  assert (H2 : (length (live_rids h) < 5)%nat) by (vm_compute; lia).
  exact (conj H1 (conj H2 (scan_visits_each_live_record_once 5 h H1 H2))).
Defined.

(** ** Sequential scan executor *)

Import SeqScanSpec.

Lemma eval_cond_returns (cols : list ColMeta.t) (rec : RmRecord) (cond : Condition.t) :
  cond_ok cols cond = true ->
  exists b, forall s, SeqScanExecutor.eval_cond cols rec cond s = Returned b s.
Proof.
  unfold cond_ok, SeqScanExecutor.eval_cond. intros H.
  destruct (SeqScanExecutor.get_col cols (Condition.lhs_col cond)) as [e|col]; [discriminate|].
  destruct (Value.raw (Condition.rhs_val cond)) as [rhs|]; [|discriminate].
  eexists. intros s. reflexivity.
Qed.

Lemma eval_conds_returns (cols : list ColMeta.t) (rec : RmRecord) (conds : list Condition.t) :
  forallb (cond_ok cols) conds = true ->
  exists b, forall s, SeqScanExecutor.eval_conds cols rec conds s = Returned b s.
Proof.
  induction conds as [|cond conds IH]; intros H.
  - exists true. intros s. reflexivity.
  - cbn in H. apply andb_true_iff in H as [H1 H2].
    destruct (eval_cond_returns cols rec cond H1) as (b & Hb).
    destruct (IH H2) as (b' & Hb').
    exists (if b then b' else false). intros s.
    cbn [SeqScanExecutor.eval_conds]. unfold bind. rewrite Hb.
    destruct b; [apply Hb' | reflexivity].
Qed.

Lemma eval_conds_satisfies (s0 s : SeqScanExecutor.state) (rec : RmRecord) :
  conds_ok s0 = true -> same_exec s0 s ->
  SeqScanExecutor.eval_conds (SeqScanExecutor.cols_ (SeqScanExecutor.self s)) rec
                             (SeqScanExecutor.conds_ (SeqScanExecutor.self s)) s
  = Returned (SeqScanAux.satisfies s0 rec) s.
Proof.
  intros Hok [Hc Hcols _ _]. rewrite Hc, Hcols.
  destruct (eval_conds_returns _ rec _ Hok) as (b & Hb).
  unfold SeqScanAux.satisfies. now rewrite !Hb.
Qed.

Lemma same_exec_refl (s : SeqScanExecutor.state) : same_exec s s.
Proof. constructor; reflexivity. Qed.

Lemma same_exec_trans (s1 s2 s3 : SeqScanExecutor.state) :
  same_exec s1 s2 -> same_exec s2 s3 -> same_exec s1 s3.
Proof.
  intros [a b c d] [a' b' c' d']. constructor; try congruence.
  transitivity (SeqScanExecutor.fh_ s2); assumption.
Qed.

Lemma content_same_file (h h' : RmFileHandle) (r : Rid) :
  Frame.same_file h h' -> content h' r = content h r.
Proof. intros (_ & Hh & Hp). unfold content, page_at. now rewrite Hh, Hp. Qed.

Lemma live_same_file (h h' : RmFileHandle) (r : Rid) :
  Frame.same_file h h' -> (live h' r <-> live h r).
Proof. intros (_ & Hh & Hp). unfold live, is_data_page, page_at. now rewrite Hh, Hp. Qed.

Lemma live_rids_same_file (h h' : RmFileHandle) :
  Frame.same_file h h' -> live_rids h' = live_rids h.
Proof. intros H. now apply rids_from_same_file. Qed.

Lemma wf_same_file (h h' : RmFileHandle) : Frame.same_file h h' -> wf h -> wf h'.
Proof. intros (_ & Hh & Hp). now apply same_file_wf. Qed.

(** [on_fh] runs a file operation and keeps the executor. *)
Lemma on_fh_eq {A} (m : M RmFileHandle A) (s : SeqScanExecutor.state) :
  SeqScanExecutor.on_fh m s
  = match m (SeqScanExecutor.fh_ s) with
    | Returned a h => Returned a (SeqScanExecutor.mkState (SeqScanExecutor.self s) h)
    | Threw e h => Threw e (SeqScanExecutor.mkState (SeqScanExecutor.self s) h)
    | Halted x h => Halted x (SeqScanExecutor.mkState (SeqScanExecutor.self s) h)
    end.
Proof. reflexivity. Qed.


Lemma remaining_nil_iff (h : RmFileHandle) (scan : RmScan.t) :
  RmScan.is_end scan h = true <-> remaining h (RmScan.rid_ scan) = [].
Proof.
  unfold RmScan.is_end, remaining. rewrite Z.geb_leb.
  destruct (page_no (RmScan.rid_ scan) <? num_pages (file_hdr_ h)) eqn:E.
  - apply Z.ltb_lt in E. split; [intros H; apply Z.leb_le in H; lia | discriminate].
  - apply Z.ltb_ge in E. split; [reflexivity | intros _; now apply Z.leb_le].
Qed.

Lemma remaining_head (h : RmFileHandle) (scan : RmScan.t) (r : Rid) (l : list Rid) :
  remaining h (RmScan.rid_ scan) = r :: l ->
  r = RmScan.rid_ scan /\ RmScan.is_end scan h = false
  /\ l = rids_from h (page_no r) (slot_no r + 1).
Proof.
  intros H. destruct (RmScan.is_end scan h) eqn:E.
  - apply remaining_nil_iff in E. congruence.
  - unfold remaining in H. destruct (_ <? _); [|discriminate].
    injection H as <- <-. auto.
Qed.

Lemma at_rids_same_file (s s' : SeqScanExecutor.state) (l : list Rid) :
  SeqScanExecutor.scan_ (SeqScanExecutor.self s') = SeqScanExecutor.scan_ (SeqScanExecutor.self s) ->
  Frame.same_file (SeqScanExecutor.fh_ s) (SeqScanExecutor.fh_ s') ->
  at_rids s l -> at_rids s' l.
Proof.
  intros Hsc Hf (scan & H1 & H2 & H3 & H4). exists scan.
  split; [congruence|]. split; [now rewrite (remaining_same_file _ _ _ Hf)|].
  split.
  - unfold RmScan.is_end in *. destruct Hf as (_ & Hh & _). now rewrite Hh.
  - now rewrite (live_rids_same_file _ _ Hf).
Qed.

(** One [next] of the scan of a positioned executor. *)
Lemma advance_spec (s : SeqScanExecutor.state) (scan : RmScan.t) (r : Rid) (l : list Rid) :
  wf (SeqScanExecutor.fh_ s) ->
  SeqScanExecutor.scan_ (SeqScanExecutor.self s) = Some scan ->
  at_rids s (r :: l) ->
  exists scan' h',
    RmScan.next scan (SeqScanExecutor.fh_ s) = Returned scan' h'
    /\ Frame.same_file (SeqScanExecutor.fh_ s) h'
    /\ forall s', SeqScanExecutor.scan_ (SeqScanExecutor.self s') = Some scan' ->
                  SeqScanExecutor.fh_ s' = h' -> at_rids s' l.
Proof.
  intros Hwf Hsc (scan0 & H1 & H2 & H3 & H4).
  assert (scan0 = scan) by congruence. subst scan0.
  destruct (remaining_head _ _ _ _ H2) as (Hr & Hend & Hl).
  destruct (scan_next_spec scan (SeqScanExecutor.fh_ s) (wf_pages_present _ Hwf) (H3 Hend))
    as (scan' & h' & Hrun & Hsame & Hrem & Hpos).
  exists scan', h'. split; [exact Hrun|]. split; [exact Hsame|].
  intros s' Hsc' Hfh. exists scan'. subst h'. split; [exact Hsc'|].
  split; [|split].
  - rewrite (remaining_same_file _ _ _ Hsame), Hrem, Hl, Hr. reflexivity.
  - intros E. apply Hpos. unfold RmScan.is_end in *. destruct Hsame as (_ & Hh & _).
    now rewrite <- Hh.
  - rewrite (live_rids_same_file _ _ Hsame). eapply suffix_cons_l. exact H4.
Qed.

(** Reading the record under the cursor. *)
Lemma read_spec (s0 s : SeqScanExecutor.state) (r : Rid) :
  wf (SeqScanExecutor.fh_ s0) -> reads_granted s0 -> same_exec s0 s ->
  live (SeqScanExecutor.fh_ s0) r ->
  exists h',
    Rm.get_record r (SeqScanExecutor.context_ (SeqScanExecutor.self s)) (SeqScanExecutor.fh_ s)
    = Returned (content (SeqScanExecutor.fh_ s0) r) h'
    /\ Frame.same_file (SeqScanExecutor.fh_ s) h'.
Proof.
  intros Hwf Hg [_ _ Hctx Hf] Hl.
  destruct (get_record_returns r (SeqScanExecutor.context_ (SeqScanExecutor.self s))
              (SeqScanExecutor.fh_ s)) as (h' & Hrun & Hs).
  - now apply (wf_same_file (SeqScanExecutor.fh_ s0)).
  - now apply (live_same_file _ _ _ Hf).
  - rewrite Hctx. destruct Hf as (-> & _). apply Hg.
  - exists h'. rewrite Hrun, (content_same_file _ _ _ Hf). split; [reflexivity|exact Hs].
Qed.

Lemma at_rids_live (s0 s : SeqScanExecutor.state) (r : Rid) (l : list Rid) :
  wf (SeqScanExecutor.fh_ s0) -> same_exec s0 s -> at_rids s (r :: l) ->
  live (SeqScanExecutor.fh_ s0) r.
Proof.
  intros Hwf [_ _ _ Hf] (scan & _ & _ & _ & Hsuf).
  apply (live_rids_spec _ _ Hwf). rewrite <- (live_rids_same_file _ _ Hf).
  destruct Hsuf as (k & ->). apply elem_of_app. right. constructor.
Qed.

Lemma nextTuple_loop_spec (s0 : SeqScanExecutor.state) (fuel : nat) :
  wf (SeqScanExecutor.fh_ s0) -> conds_ok s0 = true -> reads_granted s0 ->
  forall (s : SeqScanExecutor.state) (l : list Rid),
    same_exec s0 s -> at_rids s l -> (length l < fuel)%nat ->
    exists s' l',
      SeqScanExecutor.nextTuple_loop fuel s = Returned tt s'
      /\ settled s0 s' l'
      /\ filter (fun r => passes s0 r = true) l' = filter (fun r => passes s0 r = true) l
      /\ (length l' <= length l)%nat.
Proof.
  intros Hwf Hok Hg. induction fuel as [|fuel IH]; intros s l Hex Hat Hlen; [lia|].
  pose proof Hat as (scan & Hsc & Hrem & Hpos & Hsuf).
  cbn [SeqScanExecutor.nextTuple_loop]. unfold bind at 1. unfold SeqScanExecutor.the_scan.
  unfold bind at 1, get at 1. rewrite Hsc. unfold ret at 1. unfold bind at 1, get at 1.
  destruct l as [|r l].
  - rewrite (proj2 (remaining_nil_iff _ _) Hrem). exists s, []. split; [reflexivity|].
    split; [|split; [reflexivity|lia]]. split; [exact Hex|]. split; [exact Hat|exact I].
  - destruct (remaining_head _ _ _ _ Hrem) as (Hr & Hend & Hl). rewrite Hend.
    unfold bind at 1, modify at 1. unfold RmScan.rid. rewrite <- Hr.
    set (s1 := SeqScanExecutor.set_rid r s).
    assert (Hex1 : same_exec s0 s1) by (destruct Hex; constructor; assumption).
    assert (Hlive : live (SeqScanExecutor.fh_ s0) r) by (eapply at_rids_live; eassumption).
    destruct (read_spec s0 s1 r Hwf Hg Hex1 Hlive) as (h2 & Hrun & Hsame2).
    unfold bind at 1. rewrite on_fh_eq.
    change (SeqScanExecutor.context_ (SeqScanExecutor.self s))
      with (SeqScanExecutor.context_ (SeqScanExecutor.self s1)).
    rewrite Hrun.
    set (s2 := SeqScanExecutor.mkState (SeqScanExecutor.self s1) h2).
    assert (Hex2 : same_exec s0 s2).
    { destruct Hex1 as [a b c d]. constructor; try assumption.
      transitivity (SeqScanExecutor.fh_ s1); assumption. }
    unfold bind at 1.
    change (SeqScanExecutor.cols_ (SeqScanExecutor.self s))
      with (SeqScanExecutor.cols_ (SeqScanExecutor.self s2)).
    change (SeqScanExecutor.conds_ (SeqScanExecutor.self s))
      with (SeqScanExecutor.conds_ (SeqScanExecutor.self s2)).
    rewrite (eval_conds_satisfies s0 s2 _ Hok Hex2).
    fold (passes s0 r).
    assert (Hat2 : at_rids s2 (r :: l)).
    { apply (at_rids_same_file s); [reflexivity | exact Hsame2 | exact Hat]. }
    destruct (passes s0 r) eqn:Hpass.
    + exists s2, (r :: l). split; [reflexivity|]. split; [|split; [reflexivity|lia]].
      split; [exact Hex2|]. split; [exact Hat2|]. split; [exact Hpass|reflexivity].
    + assert (Hwf2 : wf (SeqScanExecutor.fh_ s2)).
      { destruct Hex2 as [_ _ _ Hf]. now apply (wf_same_file _ _ Hf). }
      destruct (advance_spec s2 scan r l Hwf2 Hsc Hat2) as (scan' & h3 & Hnext & Hsame3 & Hat3).
      unfold bind at 1. rewrite on_fh_eq. cbn [SeqScanExecutor.fh_ s2] in Hnext |- *.
      rewrite Hnext. unfold bind at 1, modify at 1.
      set (s3 := SeqScanExecutor.set_scan scan' _).
      assert (Hex3 : same_exec s0 s3).
      { destruct Hex2 as [a b c d]. constructor; try assumption.
        transitivity (SeqScanExecutor.fh_ s2); assumption. }
      destruct (IH s3 l Hex3 (Hat3 s3 eq_refl eq_refl) ltac:(cbn in Hlen; lia))
        as (s' & l' & Hrun' & Hset & Hfil & Hlen').
      exists s', l'. split; [exact Hrun'|]. split; [exact Hset|].
      split; [|cbn; lia].
      rewrite Hfil. rewrite filter_cons_False; [reflexivity|]. congruence.
Qed.

(** The fuel of [nextTuple] covers every position of the file. *)
Lemma page_rids_length (h : RmFileHandle) (q : Z) :
  (length (page_rids h q 0) <= Z.to_nat (num_records_per_page (file_hdr_ h)))%nat.
Proof.
  unfold page_rids, live_slots. rewrite length_map.
  etransitivity; [apply length_filter|]. rewrite length_seqZ. lia.
Qed.

Lemma flat_map_length_le {A B} (f : A -> list B) (k : nat) (l : list A) :
  (forall x, length (f x) <= k)%nat -> (length (flat_map f l) <= length l * k)%nat.
Proof.
  intros H. induction l as [|x l IH]; cbn; [lia|].
  rewrite length_app. specialize (H x). lia.
Qed.

Lemma live_rids_length (h : RmFileHandle) :
  wf h -> (length (live_rids h) < SeqScanExecutor.scan_fuel h)%nat.
Proof.
  intros Hwf. pose proof (pages_pos h Hwf) as Hnp. pose proof (slots_pos h Hwf) as Hn.
  unfold SeqScanExecutor.scan_fuel, live_rids, rids_from.
  destruct (_ <? _) eqn:E; [|cbn; lia].
  apply Z.ltb_lt in E. unfold RM_FIRST_RECORD_PAGE in *.
  rewrite length_app.
  pose proof (page_rids_length h 1) as H1.
  pose proof (flat_map_length_le (fun q => page_rids h q 0)
                (Z.to_nat (num_records_per_page (file_hdr_ h)))
                (seqZ (1 + 1) (num_pages (file_hdr_ h) - (1 + 1)))
                (page_rids_length h)) as H2.
  rewrite length_seqZ in H2.
  set (np := num_pages (file_hdr_ h)) in *. set (n := num_records_per_page (file_hdr_ h)) in *.
  assert (Hb : (Z.to_nat (np - (1 + 1)) * Z.to_nat n <= Z.to_nat ((np - 1) * n) - Z.to_nat n)%nat).
  { destruct (Z.eq_dec np 1) as [->|]; [cbn; lia|].
    replace ((np - 1) * n) with ((np - (1 + 1)) * n + n) by lia.
    rewrite Z2Nat.inj_add by nia. rewrite Z2Nat.inj_mul by lia. lia. }
  assert (Hc : (Z.to_nat n <= Z.to_nat ((np - 1) * n))%nat) by (apply Z2Nat.inj_le; nia).
  assert (Hd : (Z.to_nat ((np - 1) * n) <= Z.to_nat (np * (n + 1)))%nat)
    by (apply Z2Nat.inj_le; nia).
  lia.
Qed.

Lemma at_rids_length (s0 s : SeqScanExecutor.state) (l : list Rid) :
  wf (SeqScanExecutor.fh_ s0) -> same_exec s0 s -> at_rids s l ->
  (length l < SeqScanExecutor.scan_fuel (SeqScanExecutor.fh_ s))%nat.
Proof.
  intros Hwf [_ _ _ Hf] (scan & _ & _ & _ & Hsuf).
  pose proof (live_rids_length _ (wf_same_file _ _ Hf Hwf)) as H.
  apply suffix_length in Hsuf. lia.
Qed.

(** [nextTuple] settles the executor on the next record that passes. *)
Lemma nextTuple_spec (s0 s : SeqScanExecutor.state) (l : list Rid) :
  wf (SeqScanExecutor.fh_ s0) -> conds_ok s0 = true -> reads_granted s0 ->
  same_exec s0 s -> at_rids s l ->
  exists s' l',
    SeqScanExecutor.nextTuple s = Returned tt s'
    /\ settled s0 s' l'
    /\ filter (fun r => passes s0 r = true) l' = filter (fun r => passes s0 r = true) l
    /\ (length l' <= length l)%nat.
Proof.
  intros Hwf Hok Hg Hex Hat. unfold SeqScanExecutor.nextTuple, bind, get.
  apply nextTuple_loop_spec; try assumption. now apply (at_rids_length s0).
Qed.

(** [beginTuple] settles the executor on the first record that passes. *)
Lemma beginTuple_spec (s0 : SeqScanExecutor.state) :
  wf (SeqScanExecutor.fh_ s0) -> conds_ok s0 = true -> reads_granted s0 ->
  exists s' l',
    SeqScanExecutor.beginTuple s0 = Returned tt s'
    /\ settled s0 s' l'
    /\ filter (fun r => passes s0 r = true) l'
       = filter (fun r => passes s0 r = true) (live_rids (SeqScanExecutor.fh_ s0)).
Proof.
  intros Hwf Hok Hg. unfold SeqScanExecutor.beginTuple. unfold bind at 1. rewrite on_fh_eq.
  destruct (scan_new_spec _ (wf_pages_present _ Hwf)) as (scan & h1 & Hrun & Hsame & Hrem & Hpos).
  rewrite Hrun. unfold bind at 1, modify at 1.
  set (s1 := SeqScanExecutor.set_scan scan _).
  assert (Hex1 : same_exec s0 s1) by (constructor; try reflexivity; exact Hsame).
  assert (Hat1 : at_rids s1 (live_rids (SeqScanExecutor.fh_ s0))).
  { exists scan. split; [reflexivity|]. cbn [SeqScanExecutor.fh_ s1 SeqScanExecutor.set_scan].
    change (SeqScanExecutor.fh_ s1) with h1.
    split; [now rewrite (remaining_same_file _ _ _ Hsame)|]. split.
    - intros E. apply Hpos. unfold RmScan.is_end in *. destruct Hsame as (_ & Hh & _).
      now rewrite <- Hh.
    - rewrite (live_rids_same_file _ _ Hsame). reflexivity. }
  destruct (nextTuple_spec s0 s1 _ Hwf Hok Hg Hex1 Hat1) as (s' & l' & H1 & H2 & H3 & _).
  exists s', l'. auto.
Qed.

(** The loop of the execution manager from a settled executor. *)
Lemma pull_spec (s0 : SeqScanExecutor.state) (fuel : nat) :
  wf (SeqScanExecutor.fh_ s0) -> conds_ok s0 = true -> reads_granted s0 ->
  forall (s : SeqScanExecutor.state) (l : list Rid),
    settled s0 s l -> (length l < fuel)%nat ->
    exists s',
      SeqScanAux.pull fuel s
      = Returned (map (row s0) (filter (fun r => passes s0 r = true) l)) s'.
Proof.
  intros Hwf Hok Hg. induction fuel as [|fuel IH]; intros s l (Hex & Hat & Hhead) Hlen; [lia|].
  pose proof Hat as (scan & Hsc & Hrem & Hpos & Hsuf).
  cbn [SeqScanAux.pull]. unfold bind at 1. unfold SeqScanExecutor.is_end.
  unfold bind at 1. unfold SeqScanExecutor.the_scan at 1. unfold bind at 1, get at 1.
  rewrite Hsc. unfold ret at 1. unfold bind at 1, get at 1. unfold ret at 1.
  destruct l as [|r l].
  - rewrite (proj2 (remaining_nil_iff _ _) Hrem). eexists. reflexivity.
  - destruct (remaining_head _ _ _ _ Hrem) as (Hr & Hend & Hl). rewrite Hend.
    destruct Hhead as [Hpass Hrid].
    unfold bind at 1. unfold SeqScanExecutor.Next.
    unfold bind at 1. unfold SeqScanExecutor.the_scan at 1. unfold bind at 1, get at 1.
    rewrite Hsc. unfold ret at 1. unfold bind at 1, get at 1. rewrite Hend.
    assert (Hlive : live (SeqScanExecutor.fh_ s0) r) by (eapply at_rids_live; eassumption).
    destruct (read_spec s0 s r Hwf Hg Hex Hlive) as (h2 & Hrun & Hsame2).
    unfold bind at 1. rewrite on_fh_eq, Hrid, Hrun.
    set (s2 := SeqScanExecutor.mkState (SeqScanExecutor.self s) h2).
    assert (Hex2 : same_exec s0 s2).
    { destruct Hex as [a b c d]. constructor; try assumption.
      transitivity (SeqScanExecutor.fh_ s); assumption. }
    assert (Hat2 : at_rids s2 (r :: l)).
    { apply (at_rids_same_file s); [reflexivity | exact Hsame2 | exact Hat]. }
    assert (Hwf2 : wf (SeqScanExecutor.fh_ s2)).
    { destruct Hex2 as [_ _ _ Hf]. now apply (wf_same_file _ _ Hf). }
    destruct (advance_spec s2 scan r l Hwf2 Hsc Hat2) as (scan' & h3 & Hnext & Hsame3 & Hat3).
    unfold bind at 1. rewrite on_fh_eq. cbn [SeqScanExecutor.fh_ s2] in Hnext |- *.
    rewrite Hnext. unfold bind at 1, modify at 1. unfold ret at 1.
    set (s3 := SeqScanExecutor.set_scan scan' _).
    assert (Hex3 : same_exec s0 s3).
    { destruct Hex2 as [a b c d]. constructor; try assumption.
      transitivity (SeqScanExecutor.fh_ s2); assumption. }
    unfold bind at 1, get at 1.
    destruct (nextTuple_spec s0 s3 l Hwf Hok Hg Hex3 (Hat3 s3 eq_refl eq_refl))
      as (s4 & l4 & Hrun4 & Hset4 & Hfil4 & Hlen4).
    unfold bind at 1. rewrite Hrun4.
    destruct (IH s4 l4 Hset4 ltac:(cbn in Hlen; lia)) as (s5 & Hrun5).
    unfold bind at 1. rewrite Hrun5. exists s5. unfold ret.
    rewrite filter_cons_True by exact Hpass. cbn [map]. rewrite Hfil4.
    unfold SeqScanExecutor.rid. cbn [s3 SeqScanExecutor.set_scan SeqScanExecutor.self
                                     SeqScanExecutor.rid_ s2].
    rewrite Hrid. reflexivity.
Qed.

(** X10. A sequential scan yields exactly the rows that pass its
    conditions, each once, in page and slot order.  For an executor over a
    table file that satisfies the invariant, whose conditions name columns
    of the table and carry raw literals, and whose shared-lock requests are
    granted, [beginTuple] followed by the loop of the execution manager
    ([Next], then [nextTuple], until [is_end]) returns the rids and record
    images of the live records for which every condition holds, in scan
    order. *)
Theorem seq_scan_yields_passing_rows (fuel : nat) (s : SeqScanExecutor.state) :
  wf (SeqScanExecutor.fh_ s) -> conds_ok s = true -> reads_granted s ->
  (length (live_rids (SeqScanExecutor.fh_ s)) < fuel)%nat ->
  result_of (run fuel s) = Some (rows s).
Proof.
  intros Hwf Hok Hg Hfuel. unfold run, bind.
  destruct (beginTuple_spec s Hwf Hok Hg) as (s1 & l1 & Hrun & Hset & Hfil).
  rewrite Hrun.
  assert (Hlen : (length l1 < fuel)%nat).
  { destruct Hset as ([_ _ _ Hf] & (scan & _ & _ & _ & Hsuf) & _).
    apply suffix_length in Hsuf. rewrite (live_rids_same_file _ _ Hf) in Hsuf. lia. }
  destruct (pull_spec s fuel Hwf Hok Hg s1 l1 Hset Hlen) as (s2 & Hrun2).
  rewrite Hrun2. cbn. unfold rows. now rewrite Hfil.
Qed.

Lemma wf_insert_record (rec : RmRecord) (context : option Context) (h : RmFileHandle) :
  wf h -> wf (state_of (Rm.insert_record 1 rec context h)).
Proof. intros Hwf. exact (wf_run_op h (OpInsert rec context) Hwf I). Qed.

Lemma scan_sample_wf : wf ScanSample.table.
Proof.
  unfold ScanSample.table, ScanSample.insert.
  repeat apply wf_insert_record. apply wf_empty_file. lia.
Qed.

Lemma seq_scan_yields_passing_rows_witness :
  let s := ScanSample.executor in
  wf (SeqScanExecutor.fh_ s) /\ conds_ok s = true /\ reads_granted s
  /\ (length (live_rids (SeqScanExecutor.fh_ s)) < 4)%nat
  /\ result_of (run 4 s) = Some (rows s).
Proof.
  intros s.
  assert (H1 : wf (SeqScanExecutor.fh_ s)) by exact scan_sample_wf.
  assert (H2 : conds_ok s = true) by (vm_compute; reflexivity).
  assert (H3 : reads_granted s) by (intros rid; reflexivity).
  assert (H4 : (length (live_rids (SeqScanExecutor.fh_ s)) < 4)%nat) by (vm_compute; lia).
  exact (conj H1 (conj H2 (conj H3 (conj H4 (seq_scan_yields_passing_rows 4 s H1 H2 H3 H4))))).
Defined.

(** ** Log manager *)

Lemma total_len_nonneg (rs : list LogRecord.t) :
  Forall LogRecord.wf rs -> 0 <= LogSpec.total_len rs.
Proof.
  unfold LogSpec.total_len. induction 1 as [|r rs Hr _ IH]; cbn [fold_right]; [lia|].
  unfold LogRecord.wf, LogRecord.LOG_HEADER_SIZE in Hr. lia.
Qed.

Lemma wrap_wrap (z : Z) : Counter.wrap (Counter.wrap z) = Counter.wrap z.
Proof. apply wrap_id, wrap_range. Qed.

Lemma wrap_succ_eq (a b : Z) :
  Counter.wrap a = Counter.wrap b -> Counter.wrap (a + 1) = Counter.wrap (b + 1).
Proof. intros H. rewrite <- (wrap_add_wrap a 1), <- (wrap_add_wrap b 1). now rewrite H. Qed.

Lemma lsns_after_wrap (n : nat) :
  forall a b, Counter.wrap a = Counter.wrap b -> LogSpec.lsns_after a n = LogSpec.lsns_after b n.
Proof.
  unfold LogSpec.lsns_after. induction n as [|n IH]; intros a b H; [reflexivity|].
  rewrite (seqZ_cons (a + 1)), (seqZ_cons (b + 1)) by lia.
  replace (Z.pred (Z.of_nat (S n))) with (Z.of_nat n) by lia.
  cbn [map]. f_equal; [now apply wrap_succ_eq|].
  change (Z.succ (a + 1)) with (Z.succ (a + 1)).
  replace (Z.succ (a + 1)) with (a + 1 + 1) by lia.
  replace (Z.succ (b + 1)) with (b + 1 + 1) by lia.
  apply IH. now apply wrap_succ_eq.
Qed.

Lemma lsns_after_cons (g : Z) (n : nat) :
  LogSpec.lsns_after g (S n) = Counter.wrap (g + 1) :: LogSpec.lsns_after (g + 1) n.
Proof.
  unfold LogSpec.lsns_after. rewrite (seqZ_cons (g + 1)) by lia.
  replace (Z.pred (Z.of_nat (S n))) with (Z.of_nat n) by lia.
  replace (Z.succ (g + 1)) with (g + 1 + 1) by lia. reflexivity.
Qed.

Lemma stamped_wrap (rs : list LogRecord.t) :
  forall a b, Counter.wrap a = Counter.wrap b -> LogSpec.stamped a rs = LogSpec.stamped b rs.
Proof.
  induction rs as [|r rs IH]; intros a b H; [reflexivity|].
  cbn [LogSpec.stamped]. rewrite (wrap_succ_eq a b H). f_equal.
  apply IH. now apply wrap_succ_eq.
Qed.

Lemma add_all_spec (rs : list LogRecord.t) :
  forall (m : LogManager.t) (flushed pending : list LogRecord.t),
    LogInv.holds m flushed pending ->
    LogManager.latch_ m = false ->
    Forall LogRecord.wf rs ->
    LogBuffer.offset_ (LogManager.log_buffer_ m) + LogSpec.total_len rs
    <= LogBuffer.LOG_BUFFER_SIZE (LogManager.log_buffer_ m) ->
    exists m',
      LogSpec.add_all rs m
      = Returned (LogSpec.lsns_after (LogManager.global_lsn_ m) (length rs)) m'
      /\ LogInv.holds m' flushed (pending ++ LogSpec.stamped (LogManager.global_lsn_ m) rs)
      /\ LogManager.latch_ m' = false
      /\ LogManager.global_lsn_ m'
         = Counter.wrap (LogManager.global_lsn_ m + Z.of_nat (length rs))
      /\ LogManager.disk_manager_ m' = LogManager.disk_manager_ m.
Proof.
  induction rs as [|r rs IH]; intros m flushed pending Hinv Hl Hwf Hfit.
  - exists m. cbn [LogSpec.add_all LogSpec.stamped length]. unfold ret.
    rewrite app_nil_r, Z.add_0_r, (wrap_id _ (LogInv.lsn_ok _ _ _ Hinv)). auto.
  - apply Forall_cons in Hwf as [Hr Hwf]. cbn [LogSpec.total_len fold_right] in Hfit.
    fold (LogSpec.total_len rs) in Hfit.
    pose proof (total_len_nonneg rs Hwf) as Hnn.
    assert (Hfull : LogBuffer.is_full (LogRecord.log_tot_len_ r) (LogManager.log_buffer_ m)
                    = false).
    { unfold LogBuffer.is_full. rewrite Z.gtb_ltb. apply Z.ltb_ge. lia. }
    cbn [LogSpec.add_all]. unfold bind at 1. rewrite (add_log_fits r m Hl Hfull).
    pose proof (holds_appended r m flushed pending Hr Hfull Hinv) as Ha.
    set (g := LogManager.global_lsn_ m) in *.
    destruct (IH (LogInv.appended r m) flushed
                 (pending ++ [LogRecord.set_lsn (Counter.succ g) r]) Ha
                 eq_refl Hwf) as (m' & Hrun & Hinv' & Hl' & Hg' & Hd').
    { unfold LogInv.appended.
      cbn [LogManager.log_buffer_ LogBuffer.set_offset LogBuffer.offset_
           LogBuffer.LOG_BUFFER_SIZE LogBuffer.write LogRecord.set_lsn LogRecord.log_tot_len_].
      lia. }
    unfold bind at 1. rewrite Hrun. exists m'. unfold ret.
    cbn [LogInv.appended LogManager.global_lsn_ LogManager.disk_manager_] in *.
    assert (Hw : Counter.wrap (Counter.succ g) = Counter.wrap (g + 1))
      by (unfold Counter.succ; apply wrap_wrap).
    split.
    + cbn [fst length]. rewrite lsns_after_cons.
      rewrite (lsns_after_wrap _ _ _ Hw). reflexivity.
    + split; [|split; [exact Hl'|split; [|exact Hd']]].
      * cbn [LogSpec.stamped]. rewrite <- app_assoc in Hinv'.
        rewrite (stamped_wrap _ _ _ Hw) in Hinv'. exact Hinv'.
      * rewrite Hg'. unfold Counter.succ. rewrite wrap_add_wrap. f_equal.
        cbn [length]. lia.
Qed.

Lemma serialize_not_nil (r : LogRecord.t) : LogRecord.serialize r <> [].
Proof. unfold LogRecord.serialize. cbn. discriminate. Qed.

Lemma holds_empty_buffer (m : LogManager.t) (flushed pending : list LogRecord.t) :
  LogInv.holds m flushed pending ->
  LogBuffer.offset_ (LogManager.log_buffer_ m) = 0 -> pending = [].
Proof.
  intros [_ Hbuf _ _ _] Hoff. rewrite Hoff in Hbuf. cbn in Hbuf.
  destruct pending as [|r pending]; [reflexivity|]. cbn in Hbuf.
  symmetry in Hbuf. apply app_eq_nil in Hbuf as [Hr _]. now apply serialize_not_nil in Hr.
Qed.

(** X11. A batch of appends followed by a flush puts exactly those
    records on the log file, in order, with consecutive LSNs.  With the
    log consistent ([flushed] on the file, [pending] in the buffer), the
    latch free, the file writable and room in the buffer for all records
    of the batch, the [add_log_to_buffer] calls return the LSNs
    [g + 1, ..., g + n] after the last LSN [g] handed out (each brought
    into the range of [lsn_t], where the counter wraps), and after
    [flush_log_to_disk] the file holds [flushed], [pending] and the batch
    stamped with those LSNs, the buffer is empty and the latch is free. *)
Theorem append_and_flush_writes_batch (rs : list LogRecord.t) (m : LogManager.t)
        (flushed pending : list LogRecord.t) :
  LogInv.holds m flushed pending ->
  LogManager.latch_ m = false ->
  DiskManager.log_writable (LogManager.disk_manager_ m) = true ->
  Forall LogRecord.wf rs ->
  LogBuffer.offset_ (LogManager.log_buffer_ m) + LogSpec.total_len rs
  <= LogBuffer.LOG_BUFFER_SIZE (LogManager.log_buffer_ m) ->
  exists m',
    LogSpec.append_and_flush rs m
    = Returned (LogSpec.lsns_after (LogManager.global_lsn_ m) (length rs)) m'
    /\ LogInv.holds m' (flushed ++ pending ++ LogSpec.stamped (LogManager.global_lsn_ m) rs) []
    /\ LogManager.global_lsn_ m'
       = Counter.wrap (LogManager.global_lsn_ m + Z.of_nat (length rs))
    /\ LogBuffer.offset_ (LogManager.log_buffer_ m') = 0
    /\ LogManager.latch_ m' = false.
Proof.
  intros Hinv Hl Hw Hwf Hfit.
  destruct (add_all_spec rs m flushed pending Hinv Hl Hwf Hfit)
    as (m1 & Hrun & Hinv1 & Hl1 & Hg1 & Hd1).
  unfold LogSpec.append_and_flush. unfold bind at 1. rewrite Hrun.
  unfold bind at 1. rewrite (flush_spec m1 Hl1).
  destruct (LogBuffer.offset_ (LogManager.log_buffer_ m1) =? 0) eqn:Hoff.
  - apply Z.eqb_eq in Hoff. exists m1. unfold ret. split; [reflexivity|].
    pose proof (holds_empty_buffer _ _ _ Hinv1 Hoff) as Hnil.
    rewrite Hnil in Hinv1 |- *. rewrite app_nil_r. auto.
  - rewrite Hd1, Hw. exists (LogInv.flushed_state m1). unfold ret. split; [reflexivity|].
    split; [apply holds_flushed; [now rewrite Hd1 | exact Hinv1]|].
    cbn. auto.
Qed.

Lemma append_and_flush_writes_batch_witness :
  let rs := [LogRecord.BeginLogRecord 7; LogRecord.CommitLogRecord 7] in
  let m := LogSamples.fresh 64 in
  LogInv.holds m [] []
  /\ LogManager.latch_ m = false
  /\ DiskManager.log_writable (LogManager.disk_manager_ m) = true
  /\ Forall LogRecord.wf rs
  /\ LogBuffer.offset_ (LogManager.log_buffer_ m) + LogSpec.total_len rs
     <= LogBuffer.LOG_BUFFER_SIZE (LogManager.log_buffer_ m)
  /\ exists m',
       LogSpec.append_and_flush rs m
       = Returned (LogSpec.lsns_after (LogManager.global_lsn_ m) (length rs)) m'
       /\ LogInv.holds m' ([] ++ [] ++ LogSpec.stamped (LogManager.global_lsn_ m) rs) []
       /\ LogManager.global_lsn_ m'
          = Counter.wrap (LogManager.global_lsn_ m + Z.of_nat (length rs))
       /\ LogBuffer.offset_ (LogManager.log_buffer_ m') = 0
       /\ LogManager.latch_ m' = false.
Proof.
  intros rs m.
  assert (H1 : LogInv.holds m [] []) by (apply holds_fresh; lia).
  assert (H2 : LogManager.latch_ m = false) by reflexivity.
  assert (H3 : DiskManager.log_writable (LogManager.disk_manager_ m) = true) by reflexivity.
  assert (H4 : Forall LogRecord.wf rs) by (repeat constructor).
  assert (H5 : LogBuffer.offset_ (LogManager.log_buffer_ m) + LogSpec.total_len rs
               <= LogBuffer.LOG_BUFFER_SIZE (LogManager.log_buffer_ m))
    by (vm_compute; discriminate).
  exact (conj H1 (conj H2 (conj H3 (conj H4 (conj H5
           (append_and_flush_writes_batch rs m [] [] H1 H2 H3 H4 H5)))))).
Defined.

(** On the sample the LSNs are 1 and 2. *)
Example append_and_flush_sample_lsns :
  result_of (LogSpec.append_and_flush
               [LogRecord.BeginLogRecord 7; LogRecord.CommitLogRecord 7] (LogSamples.fresh 64))
  = Some [1; 2].
Proof. vm_compute. reflexivity. Qed.

(** X12. A flush loses no record.  With the log consistent and the latch
    free, [flush_log_to_disk] either returns with every record appended so
    far on the log file, in order, and the buffer empty, or it throws
    [UnixError] because the file cannot be written, and then the log
    manager is exactly as before: the pending records are still in the
    buffer and the latch is free again. *)
Theorem flush_loses_no_record (m : LogManager.t) (flushed pending : list LogRecord.t) :
  LogInv.holds m flushed pending ->
  LogManager.latch_ m = false ->
  match LogManager.flush_log_to_disk m with
  | Returned _ m' =>
      LogInv.holds m' (flushed ++ pending) []
      /\ LogBuffer.offset_ (LogManager.log_buffer_ m') = 0
      /\ LogManager.latch_ m' = false
      /\ LogManager.global_lsn_ m' = LogManager.global_lsn_ m
  | Threw e m' =>
      e = UnixError /\ m' = m
      /\ DiskManager.log_writable (LogManager.disk_manager_ m) = false
  | Halted _ _ => False
  end.
Proof.
  intros Hinv Hl. rewrite (flush_spec m Hl).
  destruct (LogBuffer.offset_ (LogManager.log_buffer_ m) =? 0) eqn:Hoff.
  - apply Z.eqb_eq in Hoff. pose proof (holds_empty_buffer _ _ _ Hinv Hoff) as Hnil.
    subst pending. rewrite app_nil_r. auto.
  - destruct (DiskManager.log_writable (LogManager.disk_manager_ m)) eqn:Hw.
    + split; [now apply holds_flushed|]. cbn. auto.
    + auto.
Qed.

Lemma flush_loses_no_record_witness :
  let m := LogSamples.two_appended in
  let pending := [LogRecord.set_lsn 1 (LogRecord.BeginLogRecord 1);
                  LogRecord.set_lsn 2 (LogRecord.CommitLogRecord 1)] in
  LogInv.holds m [] pending
  /\ LogManager.latch_ m = false
  /\ match LogManager.flush_log_to_disk m with
     | Returned _ m' =>
         LogInv.holds m' ([] ++ pending) []
         /\ LogBuffer.offset_ (LogManager.log_buffer_ m') = 0
         /\ LogManager.latch_ m' = false
         /\ LogManager.global_lsn_ m' = LogManager.global_lsn_ m
     | Threw e m' =>
         e = UnixError /\ m' = m
         /\ DiskManager.log_writable (LogManager.disk_manager_ m) = false
     | Halted _ _ => False
     end.
Proof.
  intros m pending.
  assert (H1 : LogInv.holds m [] pending).
  { pose proof (holds_fresh 64 ltac:(lia)) as H0.
    pose proof (holds_appended (LogRecord.BeginLogRecord 1) (LogSamples.fresh 64) [] []
                               (header_only_wf _ _) eq_refl H0) as Ha.
    exact (holds_appended (LogRecord.CommitLogRecord 1)
                          (LogInv.appended (LogRecord.BeginLogRecord 1) (LogSamples.fresh 64))
                          [] _ (header_only_wf _ _) eq_refl Ha). }
  assert (H2 : LogManager.latch_ m = false) by reflexivity.
  exact (conj H1 (conj H2 (flush_loses_no_record m [] pending H1 H2))).
Defined.

(** ** Transaction manager *)

Ltac tm_red :=
  lazy beta iota zeta delta
    [TransactionManager.heap TransactionManager.brk TransactionManager.txn_map
     TransactionManager.next_txn_id_ TransactionManager.next_timestamp_
     TransactionManager.latch_ TransactionManager.fhs_ TransactionManager.log
     TransactionManager.unlocked TransactionManager.set_heap TransactionManager.set_brk
     TransactionManager.set_txn_map TransactionManager.set_next_txn_id
     TransactionManager.set_next_timestamp TransactionManager.set_latch
     TransactionManager.set_fh TransactionManager.set_log TransactionManager.add_unlocked
     fst snd].

(** X13. [begin] with a null transaction pointer, called with the
    manager's latch free and, when a log manager is given, with the log
    latch free.
    - Without log manager, or when the log buffer has room for a
      header-only record, the call creates, registers and returns a new
      transaction: it returns the address of a new [Transaction] object
      whose id is [next_txn_id_], whose state is [GROWING], whose start
      timestamp is [next_timestamp_], whose sets are empty and whose
      [prev_lsn] is the LSN of its [BEGIN] record, the value of the LSN
      counter after [++] ([INVALID_LSN] without log manager); both
      counters of the manager are incremented (wrapping at the width of
      their type), [txn_map] maps the id to the new object, the [BEGIN]
      record (header only, for the new id, with [prev_lsn = INVALID_LSN])
      is appended to the log buffer, and nothing else changes.
    - With a log manager whose buffer has no room for the record, the
      call never returns (the nested flush blocks on the log latch, see
      C9), and the transaction it created is not in [txn_map]. *)
Theorem begin_creates_growing_transaction (s : TransactionManager.state) (log_manager : bool) :
  TransactionManager.latch_ s = false ->
  (log_manager = true -> LogManager.latch_ (TransactionManager.log s) = false) ->
  let txn := TransactionManager.brk s in
  let txn_id := TransactionManager.next_txn_id_ s in
  let begin_log :=
    LogRecord.mk LogRecord.BEGIN INVALID_LSN LogRecord.LOG_HEADER_SIZE txn_id INVALID_LSN [] in
  let lsn := if log_manager
             then Counter.succ (LogManager.global_lsn_ (TransactionManager.log s))
             else INVALID_LSN in
  let no_room :=
    log_manager && LogBuffer.is_full LogRecord.LOG_HEADER_SIZE
                                     (LogManager.log_buffer_ (TransactionManager.log s)) in
  if no_room then
    exists s',
      TransactionManager.begin None log_manager s = Halted SelfDeadlock s'
      /\ TransactionManager.txn_map s' = TransactionManager.txn_map s
  else
    TransactionManager.begin None log_manager s
    = Returned txn
        (TransactionManager.mkState
           (<[txn := Transaction.mk txn_id GROWING (TransactionManager.next_timestamp_ s) lsn
                                    [] [] [] []]> (TransactionManager.heap s))
           (txn + 1)
           (<[txn_id := txn]> (TransactionManager.txn_map s))
           (Counter.succ txn_id)
           (Counter.succ (TransactionManager.next_timestamp_ s))
           false
           (TransactionManager.fhs_ s)
           (if log_manager then LogInv.appended begin_log (TransactionManager.log s)
            else TransactionManager.log s)
           (TransactionManager.unlocked s)).
Proof.
  intros Hl Hlog txn txn_id begin_log lsn no_room.
  destruct s as [hp b tm nid nts l fhs lg ul].
  cbn in Hl, Hlog, txn, txn_id, lsn, no_room. subst l txn txn_id no_room.
  unfold TransactionManager.begin, TransactionManager.new_transaction,
    TransactionManager.update_txn, TransactionManager.deref, TransactionManager.with_latch,
    TransactionManager.on_log, zoom, bind, get, modify, ret.
  do 3 (tm_red; rewrite ?lookup_insert_eq). rewrite ?insert_insert_eq.
  destruct log_manager; cbn [andb].
  - pose proof (Hlog eq_refl) as Hll.
    change (LogRecord.set_prev_lsn INVALID_LSN (LogRecord.BeginLogRecord nid))
      with (LogRecord.mk LogRecord.BEGIN INVALID_LSN LogRecord.LOG_HEADER_SIZE nid
                         INVALID_LSN []).
    destruct (LogBuffer.is_full LogRecord.LOG_HEADER_SIZE (LogManager.log_buffer_ lg)) eqn:Hfull.
    + pose proof (add_log_full_self_deadlock begin_log lg Hll Hfull) as Hadd.
      unfold begin_log in Hadd. rewrite Hadd.
      eexists. split; reflexivity.
    + pose proof (add_log_fits begin_log lg Hll Hfull) as Hadd. unfold begin_log in Hadd.
      rewrite Hadd.
      do 3 (tm_red; rewrite ?lookup_insert_eq). rewrite ?insert_insert_eq. reflexivity.
  - do 2 (tm_red; rewrite ?lookup_insert_eq). reflexivity.
Qed.

Lemma begin_creates_growing_transaction_witness :
  let s := CommitSample.initial in
  TransactionManager.latch_ s = false
  /\ (true = true -> LogManager.latch_ (TransactionManager.log s) = false)
  /\ let txn := TransactionManager.brk s in
     let txn_id := TransactionManager.next_txn_id_ s in
     let begin_log :=
       LogRecord.mk LogRecord.BEGIN INVALID_LSN LogRecord.LOG_HEADER_SIZE txn_id
                    INVALID_LSN [] in
     let lsn := Counter.succ (LogManager.global_lsn_ (TransactionManager.log s)) in
     TransactionManager.begin None true s
     = Returned txn
         (TransactionManager.mkState
            (<[txn := Transaction.mk txn_id GROWING (TransactionManager.next_timestamp_ s) lsn
                                     [] [] [] []]> (TransactionManager.heap s))
            (txn + 1)
            (<[txn_id := txn]> (TransactionManager.txn_map s))
            (Counter.succ txn_id)
            (Counter.succ (TransactionManager.next_timestamp_ s))
            false
            (TransactionManager.fhs_ s)
            (LogInv.appended begin_log (TransactionManager.log s))
            (TransactionManager.unlocked s)).
Proof.
  intros s.
  assert (H1 : TransactionManager.latch_ s = false) by reflexivity.
  assert (H2 : true = true -> LogManager.latch_ (TransactionManager.log s) = false)
    by (intros _; reflexivity).
  exact (conj H1 (conj H2 (begin_creates_growing_transaction s true H1 H2))).
Defined.

(** On the sample: transaction 1 at address 100, with LSN 1; the counters
    stand at 2. *)
Example begin_sample_counters :
  let s' := state_of (TransactionManager.begin None true CommitSample.initial) in
  TransactionManager.heap s' !! 100 = Some (Transaction.mk 1 GROWING 1 1 [] [] [] [])
  /\ TransactionManager.next_txn_id_ s' = 2
  /\ TransactionManager.next_timestamp_ s' = 2
  /\ LogManager.global_lsn_ (TransactionManager.log s') = 1.
Proof. cbv zeta. repeat match goal with |- _ /\ _ => split end; vm_compute; reflexivity. Qed.

Lemma finished_eq (st : TransactionState) (ls : list LockDataId.t) (x : Transaction.t) :
  Transaction.set_state st (Transaction.clear_sets (TxnAux.released ls x))
  = Transaction.mk (Transaction.txn_id_ x) st (Transaction.start_ts_ x)
                   (Transaction.prev_lsn_ x) [] [] [] [].
Proof.
  destruct ls; cbn; [reflexivity|].
  unfold TxnAux.shrink. destruct x as [i s ? ? ? ? ? ?]; destruct s; reflexivity.
Qed.

(** The part of [commit] and [abort] after the write set has been dealt
    with, when no log manager is given. *)
Lemma finish_without_log (st : TransactionState) (txn : Z) (x : Transaction.t)
      (s : TransactionManager.state) :
  TransactionManager.heap s !! txn = Some x ->
  (TransactionManager.unlock_all txn (Transaction.lock_set_ x) ;;;
   TransactionManager.update_txn txn Transaction.clear_sets ;;;
   ret tt ;;;
   TransactionManager.update_txn txn (Transaction.set_state st)) s
  = Returned tt
      (TransactionManager.mkState
         (<[txn := Transaction.mk (Transaction.txn_id_ x) st (Transaction.start_ts_ x)
                                  (Transaction.prev_lsn_ x) [] [] [] []]>
            (TransactionManager.heap s))
         (TransactionManager.brk s) (TransactionManager.txn_map s)
         (TransactionManager.next_txn_id_ s) (TransactionManager.next_timestamp_ s)
         (TransactionManager.latch_ s) (TransactionManager.fhs_ s) (TransactionManager.log s)
         (TransactionManager.unlocked s ++ map (pair txn) (Transaction.lock_set_ x))).
Proof.
  intros Hx. unfold bind at 1. rewrite (unlock_all_spec _ _ _ _ Hx).
  set (s1 := TxnAux.after_unlock txn (Transaction.lock_set_ x) x s).
  assert (H1 : TransactionManager.heap s1 !! txn
               = Some (TxnAux.released (Transaction.lock_set_ x) x)) by apply lookup_insert_eq.
  unfold bind at 1. rewrite (update_txn_eq _ _ _ _ H1).
  unfold bind at 1, ret at 1.
  erewrite update_txn_eq by (cbn; apply lookup_insert_eq).
  f_equal. unfold TransactionManager.set_heap, s1, TxnAux.after_unlock. cbn.
  rewrite !insert_insert_eq, finished_eq. reflexivity.
Qed.

(** X14. [commit] without a log manager.  Through a pointer to no
    transaction the call is a null dereference; on a transaction that is
    already [COMMITTED] the assertion fails; in both cases nothing has
    changed.  Otherwise the call returns: the transaction is [COMMITTED]
    with its id, start timestamp and [prev_lsn] kept and its write set,
    lock set and page sets empty, [unlock] has been called once for every
    lock of the lock set, in the order of the set, and no other
    transaction, table file, counter or log record is touched. *)
Theorem commit_without_log_manager (s : TransactionManager.state) (txn : Z) :
  TransactionManager.commit txn false s
  = match TransactionManager.heap s !! txn with
    | None => Halted NullDeref s
    | Some x =>
        if bool_decide (Transaction.state_ x = COMMITTED) then Halted AssertFailed s
        else
          Returned tt
            (TransactionManager.mkState
               (<[txn := Transaction.mk (Transaction.txn_id_ x) COMMITTED
                                        (Transaction.start_ts_ x) (Transaction.prev_lsn_ x)
                                        [] [] [] []]>
                  (TransactionManager.heap s))
               (TransactionManager.brk s) (TransactionManager.txn_map s)
               (TransactionManager.next_txn_id_ s) (TransactionManager.next_timestamp_ s)
               (TransactionManager.latch_ s) (TransactionManager.fhs_ s)
               (TransactionManager.log s)
               (TransactionManager.unlocked s
                  ++ map (pair txn) (Transaction.lock_set_ x)))
    end.
Proof.
  unfold TransactionManager.commit. unfold bind at 1.
  destruct (TransactionManager.heap s !! txn) as [x|] eqn:Hx.
  - rewrite (deref_eq _ _ _ Hx).
    destruct (bool_decide (Transaction.state_ x = COMMITTED)); [reflexivity|].
    apply (finish_without_log COMMITTED txn x s Hx).
  - unfold TransactionManager.deref, bind, get. rewrite Hx. reflexivity.
Qed.

(** ** Rollback *)

Import AbortSpec.

Lemma find_snoc {A} (f : A -> bool) (l : list A) (x : A) :
  find f (l ++ [x])
  = match find f l with
    | Some y => Some y
    | None => if f x then Some x else None
    end.
Proof.
  induction l as [|y l IH]; cbn; [reflexivity|].
  destruct (f y); [reflexivity | exact IH].
Qed.

Lemma on_fh_returned {A} (tab : string) (m : M RmFileHandle A) (s : TransactionManager.state)
      (h h' : RmFileHandle) (a : A) :
  TransactionManager.fhs_ s !! tab = Some h ->
  m h = Returned a h' ->
  TransactionManager.on_fh tab m s = Returned a (TransactionManager.set_fh tab h' s).
Proof. intros Hh Hm. unfold TransactionManager.on_fh, zoom. now rewrite Hh, Hm. Qed.

(** Undoing one update of a live record. *)
Lemma undo_update_spec (fuel : nat) (w : WriteRecord.t) (s : TransactionManager.state)
      (h : RmFileHandle) :
  WriteRecord.wtype_ w = UPDATE_TUPLE ->
  TransactionManager.fhs_ s !! WriteRecord.tab_name_ w = Some h ->
  wf h -> live h (WriteRecord.rid_ w) ->
  exists h',
    TransactionManager.undo fuel w s
    = Returned tt (TransactionManager.set_fh (WriteRecord.tab_name_ w) h' s)
    /\ wf h' /\ updated h h' (WriteRecord.rid_ w) (WriteRecord.record_ w).
Proof.
  intros Hty Hh Hwf Hl. unfold TransactionManager.undo. rewrite Hty.
  pose proof (update_record_spec (WriteRecord.rid_ w) (WriteRecord.record_ w) None h Hwf
                (live_names_data_page _ _ Hl)) as H.
  destruct (Rm.update_record _ _ None h) as [[] h'|e h'|x h'] eqn:Hrun; [| |contradiction].
  - exists h'. split; [now apply (on_fh_returned _ _ _ h)|]. tauto.
  - exfalso. destruct H as (_ & _ & _ & [[_ Hn]|[(_ & _ & Hn)|(_ & _ & Hg)]]).
    + destruct Hl; contradiction.
    + contradiction.
    + discriminate.
Qed.

Lemma undo_updates_spec (fuel : nat) (l : list WriteRecord.t) :
  forall s : TransactionManager.state,
    files_wf s -> updates_of_live s l ->
    exists s',
      TransactionManager.undo_all fuel l s = Returned tt s'
      /\ same_but_files s s' /\ files_wf s' /\ restored (rev l) s s'.
Proof.
  induction l as [|w l IH]; intros s Hwf Hall.
  - exists s. split; [reflexivity|]. split; [now destruct s|]. split; [exact Hwf|].
    intros tab h Hh. exists h. split; [exact Hh|]. split; [reflexivity|].
    split; [tauto | reflexivity].
  - apply Forall_cons in Hall as [(Hty & h & Hh & Hl) Hall].
    destruct (undo_update_spec fuel w s h Hty Hh (Hwf _ _ Hh) Hl) as (h1 & Hrun & Hwf1 & Hupd).
    set (s1 := TransactionManager.set_fh (WriteRecord.tab_name_ w) h1 s) in *.
    assert (Hwfs1 : files_wf s1).
    { intros tab h0 H0. unfold s1 in H0. cbn in H0.
      destruct (decide (WriteRecord.tab_name_ w = tab)) as [<-|Hne].
      - rewrite lookup_insert_eq in H0. now injection H0 as <-.
      - rewrite lookup_insert_ne in H0 by exact Hne. now apply (Hwf tab). }
    assert (Hall1 : updates_of_live s1 l).
    { eapply Forall_impl; [exact Hall|]. intros w' (Hty' & h' & Hh' & Hl').
      split; [exact Hty'|]. unfold s1. cbn.
      destruct (decide (WriteRecord.tab_name_ w = WriteRecord.tab_name_ w')) as [E|Hne].
      - rewrite <- E, lookup_insert_eq. exists h1. split; [reflexivity|].
        rewrite <- E, Hh in Hh'. injection Hh' as <-.
        now apply (upd_live _ _ _ _ Hupd).
      - rewrite lookup_insert_ne by exact Hne. eauto. }
    destruct (IH s1 Hwfs1 Hall1) as (s' & Hrun' & Hsame & Hwf' & Hres).
    exists s'. cbn [TransactionManager.undo_all]. unfold bind. rewrite Hrun, Hrun'.
    split; [reflexivity|]. split; [|split; [exact Hwf'|]].
    + unfold same_but_files in *. rewrite Hsame. reflexivity.
    + intros tab h0 H0.
      assert (H01 : exists h01, TransactionManager.fhs_ s1 !! tab = Some h01
                      /\ record_size (file_hdr_ h01) = record_size (file_hdr_ h0)
                      /\ (forall r, live h01 r <-> live h0 r)
                      /\ forall r, content h01 r
                                   = if names tab r w
                                     then take (Z.to_nat (record_size (file_hdr_ h0)))
                                               (WriteRecord.record_ w)
                                     else content h0 r).
      { unfold s1. cbn. unfold names.
        destruct (decide (WriteRecord.tab_name_ w = tab)) as [E|Hne].
        - rewrite E, lookup_insert_eq. exists h1. split; [reflexivity|].
          rewrite E, H0 in Hh. injection Hh as <-.
          split; [apply (upd_record_size _ _ _ _ Hupd)|].
          split; [apply (upd_live _ _ _ _ Hupd)|].
          intros r. rewrite (bool_decide_eq_true_2 (tab = tab)) by reflexivity. cbn [andb].
          destruct (decide (WriteRecord.rid_ w = r)) as [<-|Hr].
          + rewrite bool_decide_eq_true_2 by reflexivity. apply (upd_content _ _ _ _ Hupd).
          + rewrite bool_decide_eq_false_2 by exact Hr.
            apply (upd_frame _ _ _ _ Hupd). congruence.
        - rewrite lookup_insert_ne by exact Hne. exists h0. split; [exact H0|].
          split; [reflexivity|]. split; [tauto|]. intros r.
          now rewrite (bool_decide_eq_false_2 _ Hne). }
      destruct H01 as (h01 & H1 & Hrs1 & Hlive1 & Hcont1).
      destruct (Hres tab h01 H1) as (h' & H' & Hrs' & Hlive' & Hcont').
      exists h'. split; [exact H'|]. split; [congruence|].
      split; [intros r; rewrite Hlive'; apply Hlive1|].
      intros r. rewrite Hcont'. cbn [rev]. unfold before_image. rewrite find_snoc.
      destruct (find (names tab r) (rev l)) as [w'|]; cbn; [now rewrite Hrs1|].
      rewrite Hcont1. destruct (names tab r w); reflexivity.
Qed.

(** X15. [abort] writes the oldest before-image back.  For a transaction
    whose write set holds updates only, each of a live record of an open
    table whose file satisfies the invariant, [abort] without a log
    manager returns; every record named by the write set then holds the
    first [record_size] bytes of the image saved by the {e first} write
    record about it (the write set is replayed backwards, so the oldest
    image is written last), every other slot holds what it held, the same
    records are live, the files still satisfy the invariant, the
    transaction is [ABORTED] with empty sets and [unlock] has been called
    for each of its locks. *)
Theorem abort_restores_oldest_before_image (fuel : nat) (s : TransactionManager.state)
        (txn : Z) (x : Transaction.t) :
  TransactionManager.heap s !! txn = Some x ->
  files_wf s ->
  updates_of_live s (Transaction.write_set_ x) ->
  exists s',
    TransactionManager.abort fuel txn false s = Returned tt s'
    /\ restored (Transaction.write_set_ x) s s'
    /\ files_wf s'
    /\ TransactionManager.heap s'
       = <[txn := Transaction.mk (Transaction.txn_id_ x) ABORTED (Transaction.start_ts_ x)
                                 (Transaction.prev_lsn_ x) [] [] [] []]>
           (TransactionManager.heap s)
    /\ TransactionManager.unlocked s'
       = TransactionManager.unlocked s ++ map (pair txn) (Transaction.lock_set_ x).
Proof.
  intros Hx Hwf Hall. unfold TransactionManager.abort. unfold bind at 1.
  rewrite (deref_eq _ _ _ Hx).
  destruct (undo_updates_spec fuel (rev (Transaction.write_set_ x)) s Hwf)
    as (s1 & Hrun & Hsame & Hwf1 & Hres).
  { unfold updates_of_live. apply Forall_rev. exact Hall. }
  rewrite rev_involutive in Hres.
  unfold bind at 1. rewrite Hrun.
  assert (Hx1 : TransactionManager.heap s1 !! txn = Some x).
  { rewrite Hsame. exact Hx. }
  pose proof (finish_without_log ABORTED txn x s1 Hx1) as Hfin.
  eexists. split; [exact Hfin|].
  cbn [TransactionManager.fhs_ TransactionManager.heap TransactionManager.unlocked].
  split; [exact Hres|]. split; [exact Hwf1|].
  rewrite Hsame. cbn. split; reflexivity.
Qed.

Lemma abort_witness_file_wf : wf AbortWitness.file.
Proof. apply wf_run_ops; [exact witness_file_wf | repeat constructor; discriminate]. Qed.

Lemma abort_witness_live : live AbortWitness.file (mkRid 1 0).
Proof. split; [vm_compute; split; congruence | vm_compute; reflexivity]. Qed.

Lemma abort_restores_oldest_before_image_witness :
  let s := AbortWitness.s in
  let x := AbortWitness.T in
  TransactionManager.heap s !! 100 = Some x
  /\ files_wf s
  /\ updates_of_live s (Transaction.write_set_ x)
  /\ exists s',
       TransactionManager.abort 1 100 false s = Returned tt s'
       /\ restored (Transaction.write_set_ x) s s'
       /\ files_wf s'
       /\ TransactionManager.heap s'
          = <[100 := Transaction.mk (Transaction.txn_id_ x) ABORTED (Transaction.start_ts_ x)
                                    (Transaction.prev_lsn_ x) [] [] [] []]>
              (TransactionManager.heap s)
       /\ TransactionManager.unlocked s'
          = TransactionManager.unlocked s ++ map (pair 100) (Transaction.lock_set_ x).
Proof.
  intros s x.
  assert (H1 : TransactionManager.heap s !! 100 = Some x) by reflexivity.
  assert (H2 : files_wf s).
  { intros tab h H. unfold s, AbortWitness.s in H. cbn [TransactionManager.fhs_] in H.
    apply lookup_singleton_Some in H as [_ <-]. exact abort_witness_file_wf. }
  assert (H3 : updates_of_live s (Transaction.write_set_ x)).
  { repeat constructor; exists AbortWitness.file; (split; [reflexivity | exact abort_witness_live]). }
  exact (conj H1 (conj H2 (conj H3 (abort_restores_oldest_before_image 1 s 100 x H1 H2 H3)))).
Defined.

(** Undoing one insertion of a live record. *)
Lemma undo_insert_spec (fuel : nat) (w : WriteRecord.t) (s : TransactionManager.state)
      (h : RmFileHandle) :
  WriteRecord.wtype_ w = INSERT_TUPLE ->
  TransactionManager.fhs_ s !! WriteRecord.tab_name_ w = Some h ->
  wf h -> live h (WriteRecord.rid_ w) ->
  exists h',
    TransactionManager.undo fuel w s
    = Returned tt (TransactionManager.set_fh (WriteRecord.tab_name_ w) h' s)
    /\ wf h' /\ deleted h h' (WriteRecord.rid_ w).
Proof.
  intros Hty Hh Hwf Hl. unfold TransactionManager.undo. rewrite Hty.
  pose proof (delete_record_spec (WriteRecord.rid_ w) None h Hwf
                (live_names_data_page _ _ Hl)) as H.
  destruct (Rm.delete_record _ None h) as [[] h'|e h'|x h'] eqn:Hrun; [| |contradiction].
  - exists h'. split; [now apply (on_fh_returned _ _ _ h)|]. tauto.
  - exfalso. destruct H as (_ & _ & [[_ Hn]|[(_ & _ & Hn)|(_ & _ & Hg)]] & _).
    + destruct Hl; contradiction.
    + contradiction.
    + discriminate.
Qed.

Lemma undo_inserts_spec (fuel : nat) (l : list WriteRecord.t) :
  forall s : TransactionManager.state,
    files_wf s -> inserts_of_live s l ->
    exists s',
      TransactionManager.undo_all fuel l s = Returned tt s'
      /\ same_but_files s s' /\ files_wf s' /\ removed l s s'.
Proof.
  induction l as [|w l IH]; intros s Hwf [Hnd Hall].
  - exists s. split; [reflexivity|]. split; [now destruct s|]. split; [exact Hwf|].
    intros tab h Hh. exists h. split; [exact Hh|]. split; [|reflexivity].
    intros r. cbn. rewrite elem_of_nil. tauto.
  - cbn [map] in Hnd. apply NoDup_cons in Hnd as [Hnotin Hnd].
    apply Forall_cons in Hall as [(Hty & h & Hh & Hl) Hall].
    destruct (undo_insert_spec fuel w s h Hty Hh (Hwf _ _ Hh) Hl) as (h1 & Hrun & Hwf1 & Hdel).
    set (s1 := TransactionManager.set_fh (WriteRecord.tab_name_ w) h1 s) in *.
    assert (Hwfs1 : files_wf s1).
    { intros tab h0 H0. unfold s1 in H0. cbn in H0.
      destruct (decide (WriteRecord.tab_name_ w = tab)) as [<-|Hne].
      - rewrite lookup_insert_eq in H0. now injection H0 as <-.
      - rewrite lookup_insert_ne in H0 by exact Hne. now apply (Hwf tab). }
    assert (Hall1 : inserts_of_live s1 l).
    { split; [exact Hnd|]. apply Forall_forall. intros w' Hin.
      pose proof (proj1 (Forall_forall _ _) Hall w' Hin) as (Hty' & h' & Hh' & Hl').
      split; [exact Hty'|]. unfold s1. cbn.
      destruct (decide (WriteRecord.tab_name_ w = WriteRecord.tab_name_ w')) as [E|Hne].
      - rewrite <- E, lookup_insert_eq. exists h1. split; [reflexivity|].
        rewrite <- E, Hh in Hh'. injection Hh' as <-.
        apply (del_live _ _ _ Hdel). split; [|exact Hl'].
        intros Er. apply Hnotin. apply list_elem_of_fmap. exists w'.
        split; [|exact Hin]. unfold key. now rewrite E, Er.
      - rewrite lookup_insert_ne by exact Hne. eauto. }
    destruct (IH s1 Hwfs1 Hall1) as (s' & Hrun' & Hsame & Hwf' & Hres).
    exists s'. cbn [TransactionManager.undo_all]. unfold bind. rewrite Hrun, Hrun'.
    split; [reflexivity|]. split; [|split; [exact Hwf'|]].
    + unfold same_but_files in *. rewrite Hsame. reflexivity.
    + intros tab h0 H0.
      assert (H01 : exists h01, TransactionManager.fhs_ s1 !! tab = Some h01
                      /\ (forall r, live h01 r <-> live h0 r /\ (tab, r) <> key w)
                      /\ forall r, live h01 r -> content h01 r = content h0 r).
      { unfold s1. cbn. unfold key.
        destruct (decide (WriteRecord.tab_name_ w = tab)) as [E|Hne].
        - rewrite E, lookup_insert_eq. exists h1. split; [reflexivity|].
          rewrite E, H0 in Hh. injection Hh as <-.
          split.
          + intros r. rewrite (del_live _ _ _ Hdel). split.
            * intros [Hr Hlr]. split; [exact Hlr|]. congruence.
            * intros [Hlr Hr]. split; [|exact Hlr]. congruence.
          + intros r Hr. apply (del_live _ _ _ Hdel) in Hr as [Hne Hr].
            now apply (del_frame _ _ _ Hdel).
        - rewrite lookup_insert_ne by exact Hne. exists h0. split; [exact H0|].
          split; [|reflexivity]. intros r. split; [|tauto].
          intros Hr. split; [exact Hr|]. congruence. }
      destruct H01 as (h01 & H1 & Hlive1 & Hcont1).
      destruct (Hres tab h01 H1) as (h' & H' & Hlive' & Hcont').
      exists h'. split; [exact H'|]. split.
      * intros r. rewrite Hlive', Hlive1. cbn [map]. rewrite not_elem_of_cons. tauto.
      * intros r Hr. rewrite (Hcont' r Hr). apply Hcont1. now apply Hlive'.
Qed.

(** X16. [abort] removes what the transaction inserted.  For a
    transaction whose write set holds insertions only, of distinct records
    that are live in open tables whose files satisfy the invariant,
    [abort] without a log manager returns; afterwards the records named by
    the write set are gone, every other record is live with the bytes it
    had, the files still satisfy the invariant, and the transaction is
    [ABORTED] with empty sets and its locks released. *)
Theorem abort_removes_inserted_records (fuel : nat) (s : TransactionManager.state)
        (txn : Z) (x : Transaction.t) :
  TransactionManager.heap s !! txn = Some x ->
  files_wf s ->
  inserts_of_live s (Transaction.write_set_ x) ->
  exists s',
    TransactionManager.abort fuel txn false s = Returned tt s'
    /\ removed (Transaction.write_set_ x) s s'
    /\ files_wf s'
    /\ TransactionManager.heap s'
       = <[txn := Transaction.mk (Transaction.txn_id_ x) ABORTED (Transaction.start_ts_ x)
                                 (Transaction.prev_lsn_ x) [] [] [] []]>
           (TransactionManager.heap s)
    /\ TransactionManager.unlocked s'
       = TransactionManager.unlocked s ++ map (pair txn) (Transaction.lock_set_ x).
Proof.
  intros Hx Hwf [Hnd Hall]. unfold TransactionManager.abort. unfold bind at 1.
  rewrite (deref_eq _ _ _ Hx).
  destruct (undo_inserts_spec fuel (rev (Transaction.write_set_ x)) s Hwf)
    as (s1 & Hrun & Hsame & Hwf1 & Hres).
  { split; [|apply Forall_rev; exact Hall].
    rewrite map_rev. rewrite <- (Permutation_rev (map key (Transaction.write_set_ x))).
    exact Hnd. }
  unfold bind at 1. rewrite Hrun.
  assert (Hx1 : TransactionManager.heap s1 !! txn = Some x).
  { rewrite Hsame. exact Hx. }
  pose proof (finish_without_log ABORTED txn x s1 Hx1) as Hfin.
  eexists. split; [exact Hfin|].
  cbn [TransactionManager.fhs_ TransactionManager.heap TransactionManager.unlocked].
  split; [|split; [exact Hwf1|rewrite Hsame; cbn; split; reflexivity]].
  intros tab h Hh. destruct (Hres tab h Hh) as (h' & H' & Hlive & Hcont).
  exists h'. split; [exact H'|]. split; [|exact Hcont].
  intros r. rewrite Hlive. rewrite map_rev.
  assert (Hrev : forall (k : string * Rid) L, k ∈ rev L <-> k ∈ L)
    by (intros k L; rewrite !list_elem_of_In; symmetry; apply in_rev).
  now rewrite Hrev.
Qed.

Lemma abort_removes_inserted_records_witness :
  let s := AbortInsertWitness.s in
  let x := AbortInsertWitness.T in
  TransactionManager.heap s !! 100 = Some x
  /\ files_wf s
  /\ inserts_of_live s (Transaction.write_set_ x)
  /\ exists s',
       TransactionManager.abort 1 100 false s = Returned tt s'
       /\ removed (Transaction.write_set_ x) s s'
       /\ files_wf s'
       /\ TransactionManager.heap s'
          = <[100 := Transaction.mk (Transaction.txn_id_ x) ABORTED (Transaction.start_ts_ x)
                                    (Transaction.prev_lsn_ x) [] [] [] []]>
              (TransactionManager.heap s)
       /\ TransactionManager.unlocked s'
          = TransactionManager.unlocked s ++ map (pair 100) (Transaction.lock_set_ x).
Proof.
  intros s x.
  assert (H1 : TransactionManager.heap s !! 100 = Some x) by reflexivity.
  assert (H2 : files_wf s).
  { intros tab h H. unfold s, AbortInsertWitness.s in H. cbn [TransactionManager.fhs_] in H.
    apply lookup_singleton_Some in H as [_ <-]. exact witness_two_wf. }
  assert (H3 : inserts_of_live s (Transaction.write_set_ x)).
  { split.
    - cbn. repeat constructor; rewrite ?elem_of_cons, ?elem_of_nil; intuition discriminate.
    - repeat constructor; exists RmWitness.two;
        (split; [reflexivity |
                 split; [vm_compute; split; congruence | vm_compute; reflexivity]]). }
  exact (conj H1 (conj H2 (conj H3 (abort_removes_inserted_records 1 s 100 x H1 H2 H3)))).
Defined.

(** ** Analyzer *)

Import AnalyzeSpec.

Lemma get_all_cols_known (db : DbMeta.t) (tab_names : list string) :
  Forall (known db) tab_names ->
  Analyze.get_all_cols db tab_names = inr (all_table_cols db tab_names).
Proof.
  induction 1 as [|t ts [tab Ht] _ IH]; [reflexivity|].
  cbn [Analyze.get_all_cols all_table_cols flat_map]. unfold DbMeta.get_table, table_cols.
  rewrite Ht. cbn [rbind]. rewrite IH. reflexivity.
Qed.

Lemma check_tables_known (db : DbMeta.t) (tab_names : list string) :
  Forall (known db) tab_names -> Analyze.check_tables db tab_names = inr tt.
Proof.
  induction 1 as [|t ts Ht _ IH]; [reflexivity|].
  cbn [Analyze.check_tables]. unfold DbMeta.is_table.
  rewrite (bool_decide_eq_true_2 _ Ht). exact IH.
Qed.

Lemma check_tables_unknown (db : DbMeta.t) (pre post : list string) (t : string) :
  Forall (known db) pre -> ~ known db t ->
  Analyze.check_tables db (pre ++ t :: post) = inl (TableNotFoundError t).
Proof.
  intros Hpre Ht. induction Hpre as [|p ps Hp _ IH].
  - cbn. unfold DbMeta.is_table. now rewrite (bool_decide_eq_false_2 _ Ht).
  - cbn [app Analyze.check_tables]. unfold DbMeta.is_table.
    rewrite (bool_decide_eq_true_2 _ Hp). exact IH.
Qed.

Lemma check_tables_returns (db : DbMeta.t) (tab_names : list string) :
  Analyze.check_tables db tab_names = inr tt -> Forall (known db) tab_names.
Proof.
  induction tab_names as [|t ts IH]; intros H; [constructor|].
  cbn [Analyze.check_tables] in H. unfold DbMeta.is_table in H.
  destruct (decide (is_Some (DbMeta.tabs_ db !! t))) as [Ht|Ht].
  - rewrite (bool_decide_eq_true_2 _ Ht) in H. constructor; [exact Ht | now apply IH].
  - rewrite (bool_decide_eq_false_2 _ Ht) in H. discriminate.
Qed.

(** X17. A SELECT with an empty target list selects every column of every
    table of its FROM list.  Whenever the analysis of such a statement
    succeeds, whatever its WHERE clause, the columns of the query are the
    columns of the catalogue for the tables of the FROM list, table by
    table in the order of the list and column by column in the order of
    the catalogue, each qualified with its table; the tables of the query
    are the FROM list, and every one of them is in the catalogue. *)
Theorem select_star_expands_to_all_columns (db : DbMeta.t) (ov : Value.Overlong)
        (tabs : list string) (conds : list ast.BinaryExpr) (q : Query.t) :
  Analyze.do_analyze db ov (ast.SelectStmt [] tabs conds) = inr q ->
  Query.cols q = map as_tab_col (all_table_cols db tabs)
  /\ Query.tables q = tabs
  /\ Forall (known db) tabs.
Proof.
  cbn [Analyze.do_analyze map]. intros H.
  destruct (Analyze.check_tables db tabs) as [e|[]] eqn:Hct; [discriminate|].
  pose proof (check_tables_returns db tabs Hct) as Hk.
  cbn [rbind] in H. rewrite (get_all_cols_known db tabs Hk) in H. cbn [rbind] in H.
  destruct (Analyze.get_clause conds) as [e|cs]; [discriminate|]. cbn [rbind] in H.
  destruct (Analyze.check_clause db ov tabs cs) as [e|cs']; [discriminate|]. cbn [rbind] in H.
  injection H as <-. cbn. auto.
Qed.

Lemma select_star_expands_to_all_columns_witness :
  let q := Query.mk (Some (ast.SelectStmt [] ["t"] [])) []
                    [TabCol.mk "t" "id"; TabCol.mk "t" "x"] ["t"] [] [] in
  Analyze.do_analyze AnalyzeSample.db Value.Reject (ast.SelectStmt [] ["t"] []) = inr q
  /\ Query.cols q = map as_tab_col (all_table_cols AnalyzeSample.db ["t"])
  /\ Query.tables q = ["t"]
  /\ Forall (known AnalyzeSample.db) ["t"].
Proof.
  intros q.
  assert (H1 : Analyze.do_analyze AnalyzeSample.db Value.Reject (ast.SelectStmt [] ["t"] [])
               = inr q) by (vm_compute; reflexivity).
  exact (conj H1 (select_star_expands_to_all_columns AnalyzeSample.db Value.Reject ["t"] [] q H1)).
Defined.

(** X18. A SELECT from a table that is not in the catalogue is rejected
    before anything else is looked at: the analysis fails with
    [TableNotFoundError] for the first table of the FROM list that the
    catalogue does not have, whatever the target list and the WHERE
    clause. *)
Theorem select_from_unknown_table_rejected (db : DbMeta.t) (ov : Value.Overlong)
        (cols : list ast.Col) (pre post : list string) (t : string)
        (conds : list ast.BinaryExpr) :
  Forall (known db) pre -> ~ known db t ->
  Analyze.do_analyze db ov (ast.SelectStmt cols (pre ++ t :: post) conds)
  = inl (TableNotFoundError t).
Proof.
  intros Hpre Ht. cbn [Analyze.do_analyze].
  now rewrite (check_tables_unknown db pre post t Hpre Ht).
Qed.

Lemma select_from_unknown_table_rejected_witness :
  Forall (known AnalyzeSample.db) ["t"] /\ ~ known AnalyzeSample.db "u"
  /\ Analyze.do_analyze AnalyzeSample.db Value.Reject
       (ast.SelectStmt [ast.mkCol "t" "id"] (["t"] ++ "u" :: ["t"]) [])
     = inl (TableNotFoundError "u").
Proof.
  assert (H1 : Forall (known AnalyzeSample.db) ["t"]).
  { repeat constructor. exists AnalyzeSample.tab_t. reflexivity. }
  assert (H2 : ~ known AnalyzeSample.db "u").
  { intros [x Hx]. vm_compute in Hx. discriminate. }
  exact (conj H1 (conj H2
           (select_from_unknown_table_rejected AnalyzeSample.db Value.Reject
              [ast.mkCol "t" "id"] ["t"] ["t"] "u" [] H1 H2))).
Defined.

(** X19. Resolution of a column reference without table qualifier, over
    columns whose table names are not empty: the reference resolves
    exactly when one column of the tables at hand has that name, and then
    to the table of that column; with no such column the call fails with
    [ColumnNotFoundError], with two or more with [AmbiguousColumnError]. *)
Theorem unqualified_column_resolution (all_cols : list ColMeta.t) (col_name : string) :
  Forall (fun c => ColMeta.tab_name c <> "") all_cols ->
  match Analyze.check_column all_cols (TabCol.mk "" col_name) with
  | inr target =>
      exists col, named col_name all_cols = [col]
                  /\ target = TabCol.mk (ColMeta.tab_name col) col_name
  | inl e =>
      (e = ColumnNotFoundError col_name /\ named col_name all_cols = [])
      \/ (e = AmbiguousColumnError col_name /\ (2 <= length (named col_name all_cols))%nat)
  end.
Proof.
  intros Hall. rewrite (check_column_unqualified all_cols col_name Hall). unfold named.
  destruct (filter _ all_cols) as [|c [|c' rest]].
  - left. auto.
  - exists c. auto.
  - right. split; [reflexivity | cbn; lia].
Qed.

Lemma unqualified_column_resolution_witness :
  let all_cols := [AnalyzeSample.t_id; AnalyzeSample.t_x] in
  Forall (fun c => ColMeta.tab_name c <> "") all_cols
  /\ match Analyze.check_column all_cols (TabCol.mk "" "x") with
     | inr target =>
         exists col, named "x" all_cols = [col]
                     /\ target = TabCol.mk (ColMeta.tab_name col) "x"
     | inl e =>
         (e = ColumnNotFoundError "x" /\ named "x" all_cols = [])
         \/ (e = AmbiguousColumnError "x" /\ (2 <= length (named "x" all_cols))%nat)
     end.
Proof.
  intros all_cols.
  assert (H1 : Forall (fun c => ColMeta.tab_name c <> "") all_cols)
    by (repeat constructor; discriminate).
  exact (conj H1 (unqualified_column_resolution all_cols "x" H1)).
Defined.

Lemma rmap_inr {A B} (f : A -> Exn + B) (xs : list A) (ys : list B) :
  rmap f xs = inr ys -> Forall2 (fun x y => f x = inr y) xs ys.
Proof.
  revert ys. induction xs as [|x xs IH]; intros ys H; cbn in H.
  - injection H as <-. constructor.
  - destruct (f x) as [e|y] eqn:Hx; [discriminate|]. cbn [rbind] in H.
    destruct (rmap f xs) as [e|ys'] eqn:Hxs; [discriminate|]. cbn [rbind] in H.
    injection H as <-. constructor; [exact Hx | now apply IH].
Qed.

Lemma init_raw_sets_raw (ov : Value.Overlong) (len : Z) (v v' : Value.t) :
  Value.init_raw ov len v = inr v' ->
  exists bs, Value.raw v' = Some bs /\ length bs = Z.to_nat len
             /\ Value.type v' = Value.type v.
Proof.
  unfold Value.init_raw. destruct (Value.type v) eqn:Hty.
  - intros [= <-]. eexists. split; [reflexivity|]. split; [apply fit_length | now cbn].
  - intros [= <-]. eexists. split; [reflexivity|]. split; [apply fit_length | now cbn].
  - destruct ov; [|destruct (_ <? _); [discriminate|]];
      intros [= <-]; eexists; (split; [reflexivity|]); (split; [apply fit_length | now cbn]).
Qed.

(** The executor finds by table and name what the catalogue finds by name,
    when the columns at hand are those of one table. *)
Lemma get_col_of_find_col (tab : string) (cols : list ColMeta.t) (name : string)
      (col : ColMeta.t) :
  Forall (fun c => ColMeta.tab_name c = tab) cols ->
  TabMeta.find_col cols name = inr col ->
  SeqScanExecutor.get_col cols (TabCol.mk tab name) = inr col.
Proof.
  induction 1 as [|c cols Hc _ IH]; cbn; [discriminate|].
  rewrite (bool_decide_eq_true_2 _ Hc). cbn [andb].
  destruct (bool_decide (ColMeta.name c = name)); [auto | exact IH].
Qed.

Lemma check_column_about_table (tab : string) (all_cols : list ColMeta.t)
      (target lhs : TabCol.t) :
  tab <> "" ->
  Forall (fun c => ColMeta.tab_name c = tab) all_cols ->
  TabCol.tab_name target = "" \/ TabCol.tab_name target = tab ->
  Analyze.check_column all_cols target = inr lhs ->
  lhs = TabCol.mk tab (TabCol.col_name target).
Proof.
  intros Htab Hall Hq H. destruct target as [tn cn]. cbn in *.
  destruct Hq as [->| ->].
  - rewrite check_column_unqualified in H.
    2: { eapply Forall_impl; [exact Hall|]. intros c Hc. cbn in Hc. congruence. }
    destruct (filter _ all_cols) as [|c [|c' rest]] eqn:Hf; try discriminate.
    injection H as <-. f_equal.
    assert (Hin : c ∈ filter (fun c => ColMeta.name c = cn) all_cols) by (rewrite Hf; constructor).
    apply list_elem_of_filter in Hin as [_ Hin].
    rewrite Forall_forall in Hall. now apply Hall.
  - rewrite check_column_qualified in H by exact Htab. now injection H as <-.
Qed.

Lemma check_cond_evaluable (db : DbMeta.t) (ov : Value.Overlong) (tab : string)
      (T : TabMeta.t) (cond cond' : Condition.t) :
  DbMeta.tabs_ db !! tab = Some T -> tab <> "" ->
  Forall (fun c => ColMeta.tab_name c = tab) (TabMeta.cols T) ->
  about_table tab cond ->
  Analyze.check_cond db ov (TabMeta.cols T) cond = inr cond' ->
  cond_ok (TabMeta.cols T) cond' = true.
Proof.
  intros HT Htab Hall [Hval Hq] H. unfold Analyze.check_cond in H.
  destruct (Analyze.check_column (TabMeta.cols T) (Condition.lhs_col cond)) as [e|lhs] eqn:Hlhs;
    [discriminate|].
  pose proof (check_column_about_table tab _ _ _ Htab Hall Hq Hlhs) as ->.
  cbn [rbind] in H. rewrite Hval in H. cbn [negb rbind TabCol.tab_name TabCol.col_name] in H.
  unfold DbMeta.get_table in H. rewrite HT in H. cbn [rbind] in H.
  unfold TabMeta.get_col in H.
  destruct (TabMeta.find_col (TabMeta.cols T) _) as [e|col] eqn:Hcol; [discriminate|].
  cbn [rbind] in H.
  destruct (Value.init_raw ov (ColMeta.len col) _) as [e|v] eqn:Hv; [discriminate|].
  cbn [rbind fst snd] in H.
  destruct (_ && _) in H; [discriminate|]. injection H as <-.
  unfold cond_ok. cbn [Condition.lhs_col Condition.rhs_val].
  rewrite (get_col_of_find_col tab _ _ _ Hall Hcol).
  destruct (init_raw_sets_raw _ _ _ _ Hv) as (bs & -> & _). reflexivity.
Qed.

(** X20. A WHERE clause the analyzer accepts can be evaluated by a
    sequential scan of the table.  For a statement over one table of the
    catalogue, whose columns all carry the name of the table, and
    conditions that compare a column (unqualified, or qualified with the
    table) with a literal: in every condition that [check_clause] returns,
    the left-hand side names a column the scan executor finds among the
    columns of the table, and the literal carries its raw image; so
    [nextTuple] meets neither an unknown column nor a null pointer. *)
Theorem analyzed_where_clause_is_evaluable (db : DbMeta.t) (ov : Value.Overlong)
        (tab : string) (T : TabMeta.t) (conds conds' : list Condition.t) :
  DbMeta.tabs_ db !! tab = Some T -> tab <> "" ->
  Forall (fun c => ColMeta.tab_name c = tab) (TabMeta.cols T) ->
  Forall (about_table tab) conds ->
  Analyze.check_clause db ov [tab] conds = inr conds' ->
  forallb (cond_ok (TabMeta.cols T)) conds' = true
  /\ length conds' = length conds.
Proof.
  intros HT Htab Hall Hconds H. unfold Analyze.check_clause in H.
  rewrite (get_all_cols_known db [tab]) in H by (repeat constructor; now exists T).
  cbn [rbind all_table_cols flat_map] in H. unfold table_cols in H. rewrite HT in H.
  rewrite app_nil_r in H. apply rmap_inr in H.
  split; [|symmetry; eapply Forall2_length; exact H].
  induction H as [|c c' cs cs' Hc _ IH]; [reflexivity|].
  apply Forall_cons in Hconds as [Hab Hconds]. cbn [forallb].
  rewrite (check_cond_evaluable db ov tab T c c' HT Htab Hall Hab Hc). now apply IH.
Qed.

Lemma analyzed_where_clause_is_evaluable_witness :
  let cond := Condition.mk (TabCol.mk "" "x") OP_GT true (TabCol.mk "" "")
                           (Value.set_int 3 Value.empty) in
  let cond' := Condition.mk (TabCol.mk "t" "x") OP_GT true (TabCol.mk "" "")
                            (Value.mk TYPE_INT 3 (S754_zero false) "" (Some [3; 0; 0; 0])) in
  DbMeta.tabs_ AnalyzeSample.db !! "t" = Some AnalyzeSample.tab_t
  /\ "t" <> ""
  /\ Forall (fun c => ColMeta.tab_name c = "t") (TabMeta.cols AnalyzeSample.tab_t)
  /\ Forall (about_table "t") [cond]
  /\ Analyze.check_clause AnalyzeSample.db Value.Reject ["t"] [cond] = inr [cond']
  /\ forallb (cond_ok (TabMeta.cols AnalyzeSample.tab_t)) [cond'] = true
  /\ length [cond'] = length [cond].
Proof.
  intros cond cond'.
  assert (H1 : DbMeta.tabs_ AnalyzeSample.db !! "t" = Some AnalyzeSample.tab_t) by reflexivity.
  assert (H2 : "t" <> "") by discriminate.
  assert (H3 : Forall (fun c => ColMeta.tab_name c = "t") (TabMeta.cols AnalyzeSample.tab_t))
    by (repeat constructor).
  assert (H4 : Forall (about_table "t") [cond]) by (repeat constructor; now left).
  assert (H5 : Analyze.check_clause AnalyzeSample.db Value.Reject ["t"] [cond] = inr [cond'])
    by (vm_compute; reflexivity).
  exact (conj H1 (conj H2 (conj H3 (conj H4 (conj H5
           (analyzed_where_clause_is_evaluable AnalyzeSample.db Value.Reject "t"
              AnalyzeSample.tab_t [cond] [cond'] H1 H2 H3 H4 H5)))))).
Defined.

Lemma init_raw_idempotent (ov : Value.Overlong) (len : Z) (v v' : Value.t) :
  Value.init_raw ov len v = inr v' -> Value.init_raw ov len v' = inr v'.
Proof.
  unfold Value.init_raw. destruct v as [ty i f str raw]. cbn.
  destruct ty.
  - intros [= <-]. reflexivity.
  - intros [= <-]. reflexivity.
  - destruct ov.
    + intros [= <-]. reflexivity.
    + destruct (_ <? _) eqn:E; [discriminate|]. intros [= <-]. cbn. rewrite E. reflexivity.
Qed.

(** X21. A SET clause the analyzer accepts is applied by the update
    executor without error.  When [analyze_set_clause] returns a clause
    and the executor works on the table the analyzer looked the column up
    in, then the value of the clause has the type of its column and
    carries a raw image of the column's length; in the executor the type
    check passes, [init_raw] leaves the clause as it is, and the bytes
    copied into the new record at the column's offset are that raw
    image. *)
Theorem analyzed_set_clause_is_applied (db : DbMeta.t) (ov : Value.Overlong)
        (tab_name : string) (all_cols : list ColMeta.t) (sv_set : ast.SetClause)
        (sc : SetClause.t) (s : UpdateExecutor.state) (i : nat) (rec : RmRecord) :
  Analyze.analyze_set_clause db ov tab_name all_cols sv_set = inr sc ->
  DbMeta.get_table db (TabCol.tab_name (SetClause.lhs sc))
  = inr (UpdateExecutor.tab_ (UpdateExecutor.self s)) ->
  exists col bs,
    TabMeta.get_col (UpdateExecutor.tab_ (UpdateExecutor.self s))
                    (TabCol.col_name (SetClause.lhs sc)) = inr col
    /\ Value.type (SetClause.rhs sc) = ColMeta.type col
    /\ Value.raw (SetClause.rhs sc) = Some bs
    /\ length bs = Z.to_nat (ColMeta.len col)
    /\ UpdateExecutor.apply_set_clauses ov i [sc] rec s
       = Returned (UpdateExecutor.memcpy_at rec (ColMeta.offset col) bs (ColMeta.len col))
                  (UpdateExecutor.set_set_clauses
                     (<[i := sc]> (UpdateExecutor.set_clauses_ (UpdateExecutor.self s))) s).
Proof.
  unfold Analyze.analyze_set_clause. intros H Htab.
  destruct (Analyze.check_column all_cols _) as [e|lhs]; [discriminate|]. cbn [rbind] in H.
  destruct (ast.val sv_set) as [lit|]; [|discriminate].
  destruct (Analyze.convert_sv_value lit) as [e|rhs0]; [discriminate|]. cbn [rbind] in H.
  destruct (DbMeta.get_table db (TabCol.tab_name lhs)) as [e|T] eqn:HT; [discriminate|].
  cbn [rbind] in H.
  destruct (TabMeta.get_col T (TabCol.col_name lhs)) as [e|col] eqn:Hcol; [discriminate|].
  cbn [rbind] in H.
  match type of H with
  | rbind ?c _ = _ => destruct c as [e|rhs1] eqn:Hco; [discriminate|]
  end.
  cbn [rbind] in H.
  destruct (Value.init_raw ov (ColMeta.len col) rhs1) as [e|rhs2] eqn:Hraw; [discriminate|].
  cbn [rbind] in H. injection H as <-. cbn [SetClause.lhs SetClause.rhs] in *.
  rewrite HT in Htab. injection Htab as ->.
  destruct (init_raw_sets_raw _ _ _ _ Hraw) as (bs & Hbs & Hlen & Hty).
  assert (Hty1 : Value.type rhs1 = ColMeta.type col).
  { clear -Hco. destruct col as [ctn cn cty clen coff]. destruct rhs0 as [rty ri rf rs rr].
    cbn in *. destruct cty, rty; cbn in Hco; try discriminate; injection Hco as <-;
      reflexivity. }
  exists col, bs. split; [exact Hcol|]. split; [congruence|]. split; [exact Hbs|].
  split; [exact Hlen|].
  cbn [UpdateExecutor.apply_set_clauses]. unfold bind at 1, get at 1.
  cbn [SetClause.lhs SetClause.rhs]. unfold bind at 1. rewrite Hcol. unfold lift_r at 1, ret at 1.
  rewrite bool_decide_eq_true_2 by congruence. cbn [negb].
  unfold bind at 1. rewrite (init_raw_idempotent _ _ _ _ Hraw). unfold lift_r, ret at 1.
  unfold bind, modify, ret. rewrite Hbs. reflexivity.
Qed.

Lemma analyzed_set_clause_is_applied_witness :
  let sv := ast.mkSetClause "x" (ast.EValue (ast.IntLit 9)) in
  let sc := SetClause.mk (TabCol.mk "t" "x")
                         (Value.mk TYPE_INT 9 (S754_zero false) "" (Some [9; 0; 0; 0])) in
  let s := UpdateExecutor.mkState
             (UpdateExecutor.mk AnalyzeSample.tab_t [] [] "t" [sc] None)
             RmWitness.file ∅ in
  Analyze.analyze_set_clause AnalyzeSample.db Value.Reject "t"
                             [AnalyzeSample.t_id; AnalyzeSample.t_x] sv = inr sc
  /\ DbMeta.get_table AnalyzeSample.db (TabCol.tab_name (SetClause.lhs sc))
     = inr (UpdateExecutor.tab_ (UpdateExecutor.self s))
  /\ exists col bs,
       TabMeta.get_col (UpdateExecutor.tab_ (UpdateExecutor.self s))
                       (TabCol.col_name (SetClause.lhs sc)) = inr col
       /\ Value.type (SetClause.rhs sc) = ColMeta.type col
       /\ Value.raw (SetClause.rhs sc) = Some bs
       /\ length bs = Z.to_nat (ColMeta.len col)
       /\ UpdateExecutor.apply_set_clauses Value.Reject 0 [sc] [1; 0; 0; 0; 2; 0; 0; 0] s
          = Returned (UpdateExecutor.memcpy_at [1; 0; 0; 0; 2; 0; 0; 0]
                        (ColMeta.offset col) bs (ColMeta.len col))
                     (UpdateExecutor.set_set_clauses
                        (<[0%nat := sc]> (UpdateExecutor.set_clauses_ (UpdateExecutor.self s)))
                        s).
Proof.
  intros sv sc s.
  assert (H1 : Analyze.analyze_set_clause AnalyzeSample.db Value.Reject "t"
                 [AnalyzeSample.t_id; AnalyzeSample.t_x] sv = inr sc)
    by (vm_compute; reflexivity).
  assert (H2 : DbMeta.get_table AnalyzeSample.db (TabCol.tab_name (SetClause.lhs sc))
               = inr (UpdateExecutor.tab_ (UpdateExecutor.self s))) by reflexivity.
  exact (conj H1 (conj H2
           (analyzed_set_clause_is_applied AnalyzeSample.db Value.Reject "t"
              [AnalyzeSample.t_id; AnalyzeSample.t_x] sv sc s 0 [1; 0; 0; 0; 2; 0; 0; 0]
              H1 H2))).
Defined.

(** ** Encodings: what the analyzer writes is what the executor reads *)

Lemma le_value_le_bytes (n : nat) :
  forall z, Enc.le_value (Enc.le_bytes n z) = z mod 256 ^ Z.of_nat n.
Proof.
  induction n as [|n IH]; intros z.
  - cbn. now rewrite Z.mod_1_r.
  - cbn [Enc.le_bytes Enc.le_value]. rewrite IH.
    replace (256 ^ Z.of_nat (S n)) with (256 * 256 ^ Z.of_nat n)
      by (rewrite Nat2Z.inj_succ, Z.pow_succ_r by lia; reflexivity).
    rewrite Z.rem_mul_r by lia. reflexivity.
Qed.

Lemma bytes_at_middle (pre bs post : list Z) :
  Enc.bytes_at (pre ++ bs ++ post) (Z.of_nat (length pre)) (length bs) = bs.
Proof.
  unfold Enc.bytes_at. rewrite Nat2Z.id, drop_app_length.
  rewrite <- app_assoc. now rewrite take_app_length.
Qed.

Lemma int_bytes_length (i : Z) : length (Enc.int_bytes i) = 4%nat.
Proof. apply le_bytes_length. Qed.

Lemma read_int_int_bytes (pre post : list Z) (i : Z) :
  Enc.INT_MIN <= i <= Enc.INT_MAX ->
  Enc.read_int (pre ++ Enc.int_bytes i ++ post) (Z.of_nat (length pre)) = i.
Proof.
  intros Hi. unfold Enc.read_int.
  pose proof (bytes_at_middle pre (Enc.int_bytes i) post) as Hb.
  rewrite int_bytes_length in Hb. rewrite Hb.
  unfold Enc.int_bytes. rewrite le_value_le_bytes.
  change (256 ^ Z.of_nat 4) with (2 ^ 32). rewrite Z.mod_mod by lia.
  unfold Enc.wrap_int, Enc.INT_MIN, Enc.INT_MAX in *.
  destruct (Z_lt_ge_dec i 0) as [Hneg|Hpos].
  - replace (i mod 2 ^ 32) with (i + 2 ^ 32).
    2: { apply Z.mod_unique with (q := -1); lia. }
    destruct (_ <? _) eqn:E; [apply Z.ltb_lt in E; lia | lia].
  - rewrite Z.mod_small by lia.
    destruct (_ <? _) eqn:E; [reflexivity | apply Z.ltb_ge in E; lia].
Qed.

Lemma fit_exact (len : Z) (bs : list Z) : length bs = Z.to_nat len -> Value.fit len bs = bs.
Proof. intros H. unfold Value.fit. rewrite <- H. apply take_app_length. Qed.

(** X22. An [INT] literal compares as the integer it denotes.  A
    condition whose literal [k] (within the range of [int]) was given its
    raw image by [init_raw] for a 4-byte [INT] column [col], evaluated by
    the scan executor on a record that holds the integer [x] at the
    column's offset, yields [x op k]: the executor decodes on both sides
    the integers that were encoded. *)
Theorem int_condition_compares_integers (ov : Value.Overlong) (cols : list ColMeta.t)
        (lhs rhs_col : TabCol.t) (col : ColMeta.t) (op : CompOp) (k x : Z)
        (v : Value.t) (pre post : list Z) (s : SeqScanExecutor.state) :
  SeqScanExecutor.get_col cols lhs = inr col ->
  ColMeta.type col = TYPE_INT -> ColMeta.len col = 4 ->
  ColMeta.offset col = Z.of_nat (length pre) ->
  Enc.INT_MIN <= k <= Enc.INT_MAX -> Enc.INT_MIN <= x <= Enc.INT_MAX ->
  Value.init_raw ov (ColMeta.len col) (Value.set_int k Value.empty) = inr v ->
  SeqScanExecutor.eval_cond cols (pre ++ Enc.int_bytes x ++ post)
                            (Condition.mk lhs op true rhs_col v) s
  = Returned (Cmp.compare_int x k op) s.
Proof.
  intros Hcol Hty Hlen Hoff Hk Hx Hv. unfold SeqScanExecutor.eval_cond.
  cbn [Condition.lhs_col Condition.rhs_val Condition.op]. rewrite Hcol.
  unfold Value.init_raw in Hv.
  cbn [Value.type Value.set_int Value.empty Value.int_val] in Hv.
  injection Hv as <-. cbn [Value.raw Value.set_raw]. rewrite Hty, Hoff, Hlen.
  rewrite (read_int_int_bytes pre post x Hx).
  rewrite fit_exact by apply int_bytes_length.
  pose proof (read_int_int_bytes [] [] k Hk) as Hr. cbn [app length] in Hr.
  rewrite app_nil_r in Hr. change (Z.of_nat 0) with 0 in Hr. rewrite Hr. reflexivity.
Qed.

Lemma int_condition_compares_integers_witness :
  let cols := [ScanSample.t_k; ScanSample.t_v] in
  let lhs := TabCol.mk "t" "v" in
  let v := Value.mk TYPE_INT (-7) (S754_zero false) "" (Some [249; 255; 255; 255]) in
  SeqScanExecutor.get_col cols lhs = inr ScanSample.t_v
  /\ ColMeta.type ScanSample.t_v = TYPE_INT /\ ColMeta.len ScanSample.t_v = 4
  /\ ColMeta.offset ScanSample.t_v = Z.of_nat (length (Enc.int_bytes 1))
  /\ Enc.INT_MIN <= -7 <= Enc.INT_MAX /\ Enc.INT_MIN <= -30 <= Enc.INT_MAX
  /\ Value.init_raw Value.Reject (ColMeta.len ScanSample.t_v) (Value.set_int (-7) Value.empty)
     = inr v
  /\ SeqScanExecutor.eval_cond cols (Enc.int_bytes 1 ++ Enc.int_bytes (-30) ++ [])
                               (Condition.mk lhs OP_LT true (TabCol.mk "" "") v)
                               ScanSample.executor
     = Returned (Cmp.compare_int (-30) (-7) OP_LT) ScanSample.executor.
Proof.
  intros cols lhs v.
  assert (H1 : SeqScanExecutor.get_col cols lhs = inr ScanSample.t_v) by reflexivity.
  assert (H2 : ColMeta.type ScanSample.t_v = TYPE_INT) by reflexivity.
  assert (H3 : ColMeta.len ScanSample.t_v = 4) by reflexivity.
  assert (H4 : ColMeta.offset ScanSample.t_v = Z.of_nat (length (Enc.int_bytes 1)))
    by reflexivity.
  assert (H5 : Enc.INT_MIN <= -7 <= Enc.INT_MAX) by (vm_compute; split; discriminate).
  assert (H6 : Enc.INT_MIN <= -30 <= Enc.INT_MAX) by (vm_compute; split; discriminate).
  assert (H7 : Value.init_raw Value.Reject (ColMeta.len ScanSample.t_v)
                              (Value.set_int (-7) Value.empty) = inr v)
    by (vm_compute; reflexivity).
  exact (conj H1 (conj H2 (conj H3 (conj H4 (conj H5 (conj H6 (conj H7
           (int_condition_compares_integers Value.Reject cols lhs (TabCol.mk "" "")
              ScanSample.t_v OP_LT (-7) (-30) v (Enc.int_bytes 1) [] ScanSample.executor
              H1 H2 H3 H4 H5 H6 H7)))))))).
Defined.

(** ** Update executor *)

Import UpdateSpec.

Lemma set_set_clauses_id (s : UpdateExecutor.state) :
  UpdateExecutor.set_set_clauses (UpdateExecutor.set_clauses_ (UpdateExecutor.self s)) s = s.
Proof. destruct s as [[] ? ?]. reflexivity. Qed.

(** The loop over the set clauses, for clauses as the analyzer leaves
    them: the executor is left as it is. *)
Lemma apply_set_clauses_spec (ov : Value.Overlong) (s : UpdateExecutor.state)
      (scs : list SetClause.t) :
  forall (i : nat) (rec : RmRecord),
    Forall (clause_ok ov (UpdateExecutor.tab_ (UpdateExecutor.self s))) scs ->
    drop i (UpdateExecutor.set_clauses_ (UpdateExecutor.self s)) = scs ->
    UpdateExecutor.apply_set_clauses ov i scs rec s
    = Returned (patched (UpdateExecutor.tab_ (UpdateExecutor.self s)) scs rec) s.
Proof.
  induction scs as [|sc scs IH]; intros i rec Hok Hdrop; [reflexivity|].
  apply Forall_cons in Hok as [(col & Hcol & Hty & Hraw) Hok].
  cbn [UpdateExecutor.apply_set_clauses patched]. unfold bind at 1, get at 1.
  unfold bind at 1. rewrite Hcol. unfold lift_r at 1, ret at 1.
  rewrite (bool_decide_eq_true_2 _ Hty). cbn [negb].
  unfold bind at 1. rewrite Hraw. unfold lift_r at 1, ret at 1.
  unfold bind at 1, modify at 1.
  assert (Hi : UpdateExecutor.set_clauses_ (UpdateExecutor.self s) !! i = Some sc).
  { rewrite <- (Nat.add_0_r i), <- lookup_drop, Hdrop. reflexivity. }
  replace (SetClause.mk (SetClause.lhs sc) (SetClause.rhs sc)) with sc by (now destruct sc).
  rewrite (list_insert_id _ _ _ Hi), set_set_clauses_id.
  apply IH; [exact Hok|].
  rewrite (drop_S _ _ _ Hi) in Hdrop. now injection Hdrop.
Qed.

Lemma update_indexes_spec (indexes : list IndexMeta.t) (rec new_rec : RmRecord) (rid : Rid) :
  forall s : UpdateExecutor.state,
    is_Some (UpdateExecutor.context_ (UpdateExecutor.self s)) ->
    Forall (fun index =>
              is_Some (UpdateExecutor.ihs_ s
                         !! UpdateExecutor.get_index_name
                              (UpdateExecutor.tab_name_ (UpdateExecutor.self s))
                              (IndexMeta.cols index))) indexes ->
    exists ihs,
      UpdateExecutor.update_indexes indexes rec new_rec rid s
      = Returned tt (UpdateExecutor.mkState (UpdateExecutor.self s) (UpdateExecutor.fh_ s) ihs)
      /\ forall name, is_Some (UpdateExecutor.ihs_ s !! name) -> is_Some (ihs !! name).
Proof.
  induction indexes as [|index indexes IH]; intros s Hctx Hall.
  - exists (UpdateExecutor.ihs_ s). split; [now destruct s | auto].
  - apply Forall_cons in Hall as [[ih Hih] Hall].
    cbn [UpdateExecutor.update_indexes]. unfold bind at 1, get at 1. rewrite Hih.
    destruct Hctx as [c Hc]. rewrite Hc. unfold bind at 1, modify at 1.
    set (s1 := UpdateExecutor.set_ih _ _ s).
    destruct (IH s1) as (ihs & Hrun & Hdom).
    + cbn. rewrite Hc. eauto.
    + eapply Forall_impl; [exact Hall|]. intros ix Hix. cbn.
      destruct (decide (UpdateExecutor.get_index_name
                          (UpdateExecutor.tab_name_ (UpdateExecutor.self s))
                          (IndexMeta.cols index)
                        = UpdateExecutor.get_index_name
                            (UpdateExecutor.tab_name_ (UpdateExecutor.self s))
                            (IndexMeta.cols ix))) as [E|E].
      * rewrite E, lookup_insert_eq. eauto.
      * rewrite lookup_insert_ne by exact E. exact Hix.
    + exists ihs. split; [exact Hrun|]. intros name Hn. apply Hdom. unfold s1. cbn.
      destruct (decide (UpdateExecutor.get_index_name
                          (UpdateExecutor.tab_name_ (UpdateExecutor.self s))
                          (IndexMeta.cols index) = name)) as [E|E].
      * rewrite E, lookup_insert_eq. eauto.
      * rewrite lookup_insert_ne by exact E. exact Hn.
Qed.

Lemma updated_after_same_file (h h1 h' : RmFileHandle) (rid : Rid) (buf : list Z) :
  Frame.same_file h h1 -> updated h1 h' rid buf -> updated h h' rid buf.
Proof.
  intros Hs [a b c d e f g k]. pose proof Hs as (Hfd & Hh & Hp).
  constructor; rewrite <- ?Hh; try congruence.
  - now apply (live_same_file _ _ _ Hs).
  - intros r. rewrite f. apply (live_same_file _ _ _ Hs).
  - intros r Hr. rewrite (k r Hr). apply (content_same_file _ _ _ Hs).
Qed.

(** The body of the loop over the rids, for one live row. *)
Lemma update_row_spec (ov : Value.Overlong) (s : UpdateExecutor.state) (rid : Rid) :
  wf (UpdateExecutor.fh_ s) ->
  Forall (clause_ok ov (UpdateExecutor.tab_ (UpdateExecutor.self s)))
         (UpdateExecutor.set_clauses_ (UpdateExecutor.self s)) ->
  indexes_open s -> locks_granted s ->
  live (UpdateExecutor.fh_ s) rid ->
  exists h' ihs,
    UpdateExecutor.update_row ov rid s
    = Returned tt (UpdateExecutor.mkState (UpdateExecutor.self s) h' ihs)
    /\ wf h'
    /\ updated (UpdateExecutor.fh_ s) h' rid
               (patched (UpdateExecutor.tab_ (UpdateExecutor.self s))
                        (UpdateExecutor.set_clauses_ (UpdateExecutor.self s))
                        (content (UpdateExecutor.fh_ s) rid))
    /\ forall name, is_Some (UpdateExecutor.ihs_ s !! name) -> is_Some (ihs !! name).
Proof.
  intros Hwf Hok [Hctx Hix] Hg Hl.
  unfold UpdateExecutor.update_row. unfold bind at 1, get at 1.
  destruct (get_record_returns rid (UpdateExecutor.context_ (UpdateExecutor.self s))
              (UpdateExecutor.fh_ s) Hwf Hl (proj1 (Hg rid))) as (h1 & Hget & Hsame).
  unfold bind at 1. unfold UpdateExecutor.on_fh at 1, zoom. rewrite Hget.
  set (s1 := UpdateExecutor.mkState (UpdateExecutor.self s) h1 (UpdateExecutor.ihs_ s)).
  unfold bind at 1.
  rewrite (apply_set_clauses_spec ov s1 _ 0 _ Hok eq_refl).
  set (new_rec := patched _ _ _).
  destruct (update_indexes_spec
              (TabMeta.indexes (UpdateExecutor.tab_ (UpdateExecutor.self s)))
              (content (UpdateExecutor.fh_ s) rid) new_rec rid s1 Hctx Hix)
    as (ihs & Hrun & Hdom).
  unfold bind at 1. rewrite Hrun.
  unfold UpdateExecutor.on_fh, zoom. cbn [UpdateExecutor.fh_ UpdateExecutor.self s1].
  assert (Hwf1 : wf h1) by (apply (wf_same_file _ _ Hsame Hwf)).
  pose proof (update_record_spec rid new_rec
                (UpdateExecutor.context_ (UpdateExecutor.self s)) h1 Hwf1
                (live_names_data_page _ _ Hl)) as Hu.
  destruct (Rm.update_record rid new_rec _ h1) as [[] h'|e h'|x h']; [| |contradiction].
  - exists h', ihs. split; [reflexivity|]. destruct Hu as (Hwf' & Hupd & _).
    split; [exact Hwf'|]. split; [|exact Hdom].
    apply (updated_after_same_file _ h1); assumption.
  - exfalso. destruct Hu as (_ & _ & _ & [[_ Hn]|[(_ & _ & Hn)|(_ & _ & Hgx)]]).
    + apply Hn. destruct Hsame as (_ & Hh & _). unfold is_data_page. rewrite Hh. apply Hl.
    + apply Hn. now apply (live_same_file _ _ _ Hsame).
    + destruct Hsame as (Hfd & _). rewrite Hfd in Hgx.
      rewrite (proj2 (Hg rid)) in Hgx. discriminate.
Qed.

Lemma update_rows_spec (ov : Value.Overlong) (rids : list Rid) :
  forall s : UpdateExecutor.state,
    wf (UpdateExecutor.fh_ s) ->
    Forall (clause_ok ov (UpdateExecutor.tab_ (UpdateExecutor.self s)))
           (UpdateExecutor.set_clauses_ (UpdateExecutor.self s)) ->
    indexes_open s -> locks_granted s ->
    NoDup rids -> Forall (live (UpdateExecutor.fh_ s)) rids ->
    exists h' ihs,
      UpdateExecutor.update_rows ov rids s
      = Returned tt (UpdateExecutor.mkState (UpdateExecutor.self s) h' ihs)
      /\ wf h'
      /\ fd_ h' = fd_ (UpdateExecutor.fh_ s)
      /\ record_size (file_hdr_ h') = record_size (file_hdr_ (UpdateExecutor.fh_ s))
      /\ rows_updated (UpdateExecutor.tab_ (UpdateExecutor.self s))
                      (UpdateExecutor.set_clauses_ (UpdateExecutor.self s))
                      rids (UpdateExecutor.fh_ s) h'.
Proof.
  induction rids as [|rid rids IH]; intros s Hwf Hok Hopen Hg Hnd Hlive.
  - exists (UpdateExecutor.fh_ s), (UpdateExecutor.ihs_ s).
    split; [now destruct s|]. split; [exact Hwf|]. split; [reflexivity|].
    split; [reflexivity|]. split; [tauto|].
    intros r. rewrite bool_decide_eq_false_2 by apply not_elem_of_nil. reflexivity.
  - apply NoDup_cons in Hnd as [Hnotin Hnd]. apply Forall_cons in Hlive as [Hl Hlive].
    destruct (update_row_spec ov s rid Hwf Hok Hopen Hg Hl) as (h1 & ihs1 & Hrun & Hwf1 & Hupd & Hdom).
    set (s1 := UpdateExecutor.mkState (UpdateExecutor.self s) h1 ihs1) in *.
    destruct (IH s1) as (h' & ihs & Hrun' & Hwf' & Hfd' & Hrs' & Hlive' & Hcont').
    + exact Hwf1.
    + exact Hok.
    + destruct Hopen as [Hctx Hix]. split; [exact Hctx|].
      eapply Forall_impl; [exact Hix|]. intros ix Hx. now apply Hdom.
    + intros r. cbn [s1 UpdateExecutor.fh_ UpdateExecutor.self].
      rewrite (upd_fd _ _ _ _ Hupd). apply Hg.
    + exact Hnd.
    + eapply Forall_impl; [exact Hlive|]. intros r Hr. now apply (upd_live _ _ _ _ Hupd).
    + cbn [s1 UpdateExecutor.fh_ UpdateExecutor.self] in *.
      exists h', ihs. cbn [UpdateExecutor.update_rows]. unfold bind. rewrite Hrun, Hrun'.
      split; [reflexivity|]. split; [exact Hwf'|].
      split; [rewrite Hfd'; apply (upd_fd _ _ _ _ Hupd)|].
      split; [rewrite Hrs'; apply (upd_record_size _ _ _ _ Hupd)|].
      split; [intros r; rewrite Hlive'; apply (upd_live _ _ _ _ Hupd)|].
      intros r. rewrite Hcont', (upd_record_size _ _ _ _ Hupd).
      destruct (decide (r = rid)) as [->|Hne].
      * rewrite (bool_decide_eq_false_2 _ Hnotin).
        rewrite bool_decide_eq_true_2 by (now left).
        apply (upd_content _ _ _ _ Hupd).
      * rewrite (upd_frame _ _ _ _ Hupd r Hne).
        destruct (decide (r ∈ rids)) as [Hin|Hnin].
        -- rewrite (bool_decide_eq_true_2 _ Hin).
           rewrite bool_decide_eq_true_2 by (now right). reflexivity.
        -- rewrite (bool_decide_eq_false_2 _ Hnin).
           rewrite bool_decide_eq_false_2; [reflexivity|].
           rewrite elem_of_cons. tauto.
Qed.

(** X23. An UPDATE overwrites the set columns of the listed rows and
    nothing else.  For an executor over a table file that satisfies the
    invariant, with set clauses as the analyzer leaves them, the handles
    of the table's indexes open, both locks granted and a list of
    distinct rids of live records, [Next] returns (the null record) with
    the rid list cleared; each listed row then holds its old bytes with
    the raw image of every set clause copied over the clause's column (cut
    to the record size), every other record holds the bytes it held, the
    same records are live, and the file still satisfies the invariant. *)
Theorem update_overwrites_set_columns (ov : Value.Overlong) (s : UpdateExecutor.state) :
  wf (UpdateExecutor.fh_ s) ->
  Forall (clause_ok ov (UpdateExecutor.tab_ (UpdateExecutor.self s)))
         (UpdateExecutor.set_clauses_ (UpdateExecutor.self s)) ->
  indexes_open s -> locks_granted s ->
  NoDup (UpdateExecutor.rids_ (UpdateExecutor.self s)) ->
  Forall (live (UpdateExecutor.fh_ s)) (UpdateExecutor.rids_ (UpdateExecutor.self s)) ->
  exists s',
    UpdateExecutor.Next ov s = Returned None s'
    /\ UpdateExecutor.rids_ (UpdateExecutor.self s') = []
    /\ wf (UpdateExecutor.fh_ s')
    /\ rows_updated (UpdateExecutor.tab_ (UpdateExecutor.self s))
                    (UpdateExecutor.set_clauses_ (UpdateExecutor.self s))
                    (UpdateExecutor.rids_ (UpdateExecutor.self s))
                    (UpdateExecutor.fh_ s) (UpdateExecutor.fh_ s').
Proof.
  intros Hwf Hok Hopen Hg Hnd Hlive.
  destruct (update_rows_spec ov _ s Hwf Hok Hopen Hg Hnd Hlive)
    as (h' & ihs & Hrun & Hwf' & _ & _ & Hrows).
  unfold UpdateExecutor.Next. unfold bind at 1, get at 1.
  destruct (UpdateExecutor.rids_ (UpdateExecutor.self s)) as [|rid rids] eqn:Hrids.
  - exists s. split; [reflexivity|]. split; [exact Hrids|]. split; [exact Hwf|].
    split; [tauto|]. intros r.
    rewrite bool_decide_eq_false_2 by apply not_elem_of_nil. reflexivity.
  - unfold bind. rewrite Hrun. eexists. split; [reflexivity|].
    cbn. auto.
Qed.

Lemma update_sample_wf : wf UpdateSample.table.
Proof.
  unfold UpdateSample.table, ScanSample.insert.
  apply wf_insert_record. apply wf_empty_file. lia.
Qed.

Lemma update_overwrites_set_columns_witness :
  let s := UpdateSample.executor RmSamples.ctx in
  wf (UpdateExecutor.fh_ s)
  /\ Forall (clause_ok Value.Reject (UpdateExecutor.tab_ (UpdateExecutor.self s)))
            (UpdateExecutor.set_clauses_ (UpdateExecutor.self s))
  /\ indexes_open s /\ locks_granted s
  /\ NoDup (UpdateExecutor.rids_ (UpdateExecutor.self s))
  /\ Forall (live (UpdateExecutor.fh_ s)) (UpdateExecutor.rids_ (UpdateExecutor.self s))
  /\ exists s',
       UpdateExecutor.Next Value.Reject s = Returned None s'
       /\ UpdateExecutor.rids_ (UpdateExecutor.self s') = []
       /\ wf (UpdateExecutor.fh_ s')
       /\ rows_updated (UpdateExecutor.tab_ (UpdateExecutor.self s))
                       (UpdateExecutor.set_clauses_ (UpdateExecutor.self s))
                       (UpdateExecutor.rids_ (UpdateExecutor.self s))
                       (UpdateExecutor.fh_ s) (UpdateExecutor.fh_ s').
Proof.
  intros s.
  assert (H1 : wf (UpdateExecutor.fh_ s)) by exact update_sample_wf.
  assert (H2 : Forall (clause_ok Value.Reject (UpdateExecutor.tab_ (UpdateExecutor.self s)))
                      (UpdateExecutor.set_clauses_ (UpdateExecutor.self s))).
  { repeat constructor. exists ScanSample.t_k. repeat split; vm_compute; reflexivity. }
  assert (H3 : indexes_open s).
  { split; [eexists; reflexivity|]. repeat constructor. vm_compute. eauto. }
  assert (H4 : locks_granted s) by (intros rid; split; reflexivity).
  assert (H5 : NoDup (UpdateExecutor.rids_ (UpdateExecutor.self s))).
  { cbn. apply NoDup_singleton. }
  assert (H6 : Forall (live (UpdateExecutor.fh_ s))
                      (UpdateExecutor.rids_ (UpdateExecutor.self s))).
  { repeat constructor; vm_compute; congruence. }
  exact (conj H1 (conj H2 (conj H3 (conj H4 (conj H5 (conj H6
           (update_overwrites_set_columns Value.Reject s H1 H2 H3 H4 H5 H6))))))).
Defined.

(** ** Record manager: insertion at a given position *)

(** The file after a record has been put into a free slot of a data page,
    the header left as it is. *)
Lemma inserted_at_slot (h : RmFileHandle) (p i : Z) (buf : list Z) :
  wf h -> is_data_page h p ->
  0 <= i < num_records_per_page (file_hdr_ h) ->
  Bitmap.is_set (bitmap (page_at h p)) i = false ->
  forall h' : RmFileHandle,
    fd_ h' = fd_ h ->
    pages h' = <[p := inserted_page (record_size (file_hdr_ h)) i buf (page_at h p)]> (pages h) ->
    file_hdr_ h' = file_hdr_ h ->
    inserted h h' (mkRid p i) buf
    /\ forall q, is_data_page h' q ->
         exists pg, pages h' !! q = Some pg
                    /\ page_ok (num_records_per_page (file_hdr_ h')) pg.
Proof.
  intros Hwf Hd Hi Hclear h' Hfd Hpages' Hhdr'.
  pose proof Hwf as [Hn Hbits Hnp Hpages _].
  destruct (Hpages _ Hd) as (pg & Hpg & [Hcov Hpad Hcnt Hslots]).
  assert (Hat : page_at h p = pg) by (unfold page_at; now rewrite Hpg).
  rewrite Hat in Hclear, Hpages'.
  set (n := num_records_per_page (file_hdr_ h)) in *.
  set (pg' := inserted_page (record_size (file_hdr_ h)) i buf pg) in *.
  assert (Hat' : forall q, page_at h' q = if decide (q = p) then pg' else page_at h q).
  { intros q. unfold page_at. rewrite Hpages'. destruct (decide _) as [->|Hne].
    - now rewrite lookup_insert_eq.
    - now rewrite lookup_insert_ne by congruence. }
  assert (Hbm' : bitmap pg' = Bitmap.set (bitmap pg) i).
  { unfold pg', inserted_page, write_slot. destruct (i <? 0); reflexivity. }
  assert (Hcnt' : num_records (page_hdr pg') = num_records (page_hdr pg) + 1).
  { unfold pg', inserted_page, write_slot. destruct (i <? 0); reflexivity. }
  assert (Hok' : page_ok n pg').
  { constructor.
    - rewrite Hbm'. unfold Bitmap.set. destruct (i <? 0); [lia|]. rewrite length_insert. lia.
    - intros j Hj. rewrite Hbm', is_set_set by lia.
      destruct (j =? i) eqn:E; [apply Z.eqb_eq in E; lia | now apply Hpad].
    - rewrite Hcnt', Hbm', popcount_set by (try lia; assumption). lia.
    - unfold pg', inserted_page, write_slot.
      destruct (i <? 0); cbn; rewrite ?length_insert; lia. }
  assert (Hdata : forall q, is_data_page h' q <-> is_data_page h q).
  { intros q. unfold is_data_page. now rewrite Hhdr'. }
  split.
  - assert (Hlive : forall r, live h' r <-> r = mkRid p i \/ live h r).
    { intros r. unfold live. rewrite Hdata, Hat'. destruct (decide (page_no r = p)) as [Hp|Hp].
      - rewrite Hbm', is_set_set by lia. rewrite Hp, Hat.
        destruct (slot_no r =? i) eqn:E.
        + apply Z.eqb_eq in E. split; [intros _; left; now apply rid_eq|].
          intros _. split; [exact Hd | reflexivity].
        + apply Z.eqb_neq in E. split; [tauto|]. intros [->|H]; [cbn in E; lia | exact H].
      - split; [tauto|]. intros [->|H]; [cbn in Hp; lia | exact H]. }
    constructor; rewrite ?Hhdr'; try reflexivity; try assumption.
    + unfold live. cbn. rewrite Hat, Hclear. intros [_ ?]; discriminate.
    + unfold content. cbn. rewrite Hat', Hhdr'. destruct (decide _); [|contradiction].
      unfold pg', inserted_page, write_slot, get_slot.
      destruct (i <? 0) eqn:E; [apply Z.ltb_lt in E; lia|]. cbn.
      rewrite list_lookup_insert_eq by lia. cbn. rewrite take_take. f_equal. lia.
    + intros r Hr. unfold content. rewrite Hat', Hhdr'.
      destruct (decide (page_no r = p)) as [Hp|Hp]; [|reflexivity].
      rewrite Hp, Hat. unfold pg', inserted_page, write_slot, get_slot.
      destruct (i <? 0) eqn:E; [apply Z.ltb_lt in E; lia|]. cbn.
      destruct (slot_no r <? 0); [reflexivity|].
      destruct (Z.eq_dec (slot_no r) i) as [e|Hne].
      * exfalso. destruct Hr as [_ Hs]. rewrite Hp, Hat, e, Hclear in Hs. discriminate.
      * destruct Hr as [_ Hs]. apply is_set_true_range in Hs.
        rewrite list_lookup_insert_ne by lia. reflexivity.
  - intros q Hq. apply Hdata in Hq. rewrite Hpages', Hhdr'.
    destruct (Z.eq_dec q p) as [->|Hne].
    + rewrite lookup_insert_eq. eauto.
    + rewrite lookup_insert_ne by congruence. now apply Hpages.
Qed.

Lemma insert_at_tail_eq (p i rs : Z) (buf : list Z) (h2 : RmFileHandle) :
  exists h',
    (Rm.update_page p (write_slot rs i buf) ;;;
     Rm.update_page p (fun pg => set_bitmap (Bitmap.set (bitmap pg) i) pg) ;;;
     Rm.update_page p (fun pg => set_num_records (num_records (page_hdr pg) + 1) pg) ;;;
     Rm.unpin_page p true) h2
    = Returned tt h'
    /\ fd_ h' = fd_ h2
    /\ pages h' = <[p := inserted_page rs i buf (page_at h2 p)]> (pages h2)
    /\ file_hdr_ h' = file_hdr_ h2.
Proof.
  unfold Rm.update_page, Rm.unpin_page, bind, modify, get, ret.
  rewrite !page_at_set_page. rewrite !decide_True by reflexivity.
  assert (E : set_num_records
                (num_records (page_hdr (set_bitmap
                   (Bitmap.set (bitmap (write_slot rs i buf (page_at h2 p))) i)
                   (write_slot rs i buf (page_at h2 p)))) + 1)
                (set_bitmap (Bitmap.set (bitmap (write_slot rs i buf (page_at h2 p))) i)
                            (write_slot rs i buf (page_at h2 p)))
              = inserted_page rs i buf (page_at h2 p)).
  { unfold inserted_page, write_slot. destruct (i <? 0); reflexivity. }
  rewrite E. eexists. split; [reflexivity|].
  unfold log_event, set_page; cbn. rewrite ?insert_insert_eq. auto.
Qed.

(** X24. [insert_record(rid, buf)], the insertion at a given position.
    Under the invariant, for a rid outside the header page whose slot
    number is below [num_records_per_page]: on a page that is no data page
    the call throws [PageNotExistError], on an occupied slot
    [InternalError], and in both cases header and pages are unchanged;
    otherwise it returns, the slot holds the first [record_size] bytes of
    [buf], every other record is unchanged, the file header is untouched
    (so the free list is not maintained), and every data page still has
    its record count equal to the number of set bits. *)
Theorem insert_record_at_places_record (rid : Rid) (buf : list Z) (h : RmFileHandle) :
  wf h -> page_no rid <> RM_FILE_HDR_PAGE ->
  0 <= slot_no rid < num_records_per_page (file_hdr_ h) ->
  match Rm.insert_record_at rid buf h with
  | Returned _ h' =>
      inserted h h' rid buf
      /\ file_hdr_ h' = file_hdr_ h
      /\ forall q, is_data_page h' q ->
           exists pg, pages h' !! q = Some pg
                      /\ page_ok (num_records_per_page (file_hdr_ h')) pg
  | Threw e h' =>
      Frame.same_file h h'
      /\ ((e = PageNotExistError (page_no rid) /\ ~ is_data_page h (page_no rid))
          \/ (e = InternalError "Slot is already occupied" /\ live h rid))
  | Halted _ _ => False
  end.
Proof.
  intros Hwf Hp Hi. unfold Rm.insert_record_at. unfold bind at 1.
  destruct (fetch_page_handle_cases h (page_no rid) Hwf Hp) as [[Hd ->]|[Hnd ->]].
  2: { split; [reflexivity|]. left. auto. }
  set (h1 := log_event _ h).
  assert (Hs1 : Frame.same_file h h1) by (repeat split).
  unfold bind at 1, get at 1.
  change (page_at h1 (page_no rid)) with (page_at h (page_no rid)).
  destruct (Bitmap.is_set (bitmap (page_at h (page_no rid))) (slot_no rid)) eqn:Hset.
  - split; [exact Hs1|]. right. split; [reflexivity|]. split; assumption.
  - destruct (insert_at_tail_eq (page_no rid) (slot_no rid) (record_size (file_hdr_ h1)) buf h1)
      as (h' & Heq & Hfd' & Hpages' & Hhdr').
    match goal with
    | |- match ?o with _ => _ end => change o with
        ((Rm.update_page (page_no rid)
            (write_slot (record_size (file_hdr_ h1)) (slot_no rid) buf) ;;;
          Rm.update_page (page_no rid)
            (fun pg => set_bitmap (Bitmap.set (bitmap pg) (slot_no rid)) pg) ;;;
          Rm.update_page (page_no rid)
            (fun pg => set_num_records (num_records (page_hdr pg) + 1) pg) ;;;
          Rm.unpin_page (page_no rid) true) h1)
    end.
    rewrite Heq.
    destruct (inserted_at_slot h (page_no rid) (slot_no rid) buf Hwf Hd Hi Hset h'
                Hfd' Hpages' Hhdr') as [Hins Hok].
    split; [destruct rid; exact Hins|]. split; [exact Hhdr'| exact Hok].
Qed.

Lemma insert_record_at_places_record_witness :
  let h := RmWitness.one in
  let rid := mkRid 1 1 in
  wf h /\ page_no rid <> RM_FILE_HDR_PAGE
  /\ 0 <= slot_no rid < num_records_per_page (file_hdr_ h)
  /\ match Rm.insert_record_at rid RmSamples.b h with
     | Returned _ h' =>
         inserted h h' rid RmSamples.b
         /\ file_hdr_ h' = file_hdr_ h
         /\ forall q, is_data_page h' q ->
              exists pg, pages h' !! q = Some pg
                         /\ page_ok (num_records_per_page (file_hdr_ h')) pg
     | Threw e h' =>
         Frame.same_file h h'
         /\ ((e = PageNotExistError (page_no rid) /\ ~ is_data_page h (page_no rid))
             \/ (e = InternalError "Slot is already occupied" /\ live h rid))
     | Halted _ _ => False
     end.
Proof.
  intros h rid.
  assert (H1 : wf h) by exact witness_one_wf.
  assert (H2 : page_no rid <> RM_FILE_HDR_PAGE) by discriminate.
  assert (H3 : 0 <= slot_no rid < num_records_per_page (file_hdr_ h))
    by (vm_compute; split; congruence).
  exact (conj H1 (conj H2 (conj H3
           (insert_record_at_places_record rid RmSamples.b h H1 H2 H3)))).
Defined.

(** ** Record manager and scan together *)

Lemma scan_all_result (fuel : nat) (h : RmFileHandle) :
  wf h -> (length (live_rids h) < fuel)%nat ->
  result_of (scan_all fuel h) = Some (live_rids h).
Proof.
  intros Hwf Hfuel. pose proof (wf_pages_present h Hwf) as Hpres.
  destruct (scan_new_spec h Hpres) as (scan & h1 & Hrun & Hsame & Hrem & Hpos).
  assert (Hend : RmScan.is_end scan h1 = RmScan.is_end scan h).
  { unfold RmScan.is_end. destruct Hsame as (_ & -> & _). reflexivity. }
  destruct (scan_loop_spec fuel scan h1) as (h' & Hrun' & Hsame').
  - now apply (pages_present_same_file h).
  - rewrite Hend. exact Hpos.
  - rewrite (remaining_same_file h h1) by exact Hsame. now rewrite Hrem.
  - unfold scan_all, bind. rewrite Hrun, Hrun'. cbn.
    rewrite (remaining_same_file h h1) by exact Hsame. now rewrite Hrem.
Qed.

(** X25. A scan sees what was inserted.  Under the invariant, a scan of
    the file after [insert_record(buf, context)] has returned [rid] visits
    [rid] and the rids a scan visited before the insertion, each once. *)
Theorem scan_sees_inserted_record (fuel n : nat) (buf : list Z) (context : option Context)
        (h h' : RmFileHandle) (rid : Rid) :
  wf h -> (length (live_rids h) + 1 < fuel)%nat ->
  Rm.insert_record (S n) buf context h = Returned rid h' ->
  exists l l',
    result_of (scan_all fuel h) = Some l /\ result_of (scan_all fuel h') = Some l'
    /\ l' ≡ₚ rid :: l.
Proof.
  intros Hwf Hfuel Hrun.
  pose proof (insert_record_spec n buf context h Hwf) as H. rewrite Hrun in H.
  destruct H as (Hwf' & Hins & _).
  assert (Hperm : live_rids h' ≡ₚ rid :: live_rids h).
  { apply NoDup_Permutation.
    - apply live_rids_NoDup.
    - apply NoDup_cons. split; [|apply live_rids_NoDup].
      rewrite (live_rids_spec _ _ Hwf). apply (ins_fresh _ _ _ _ Hins).
    - intros r. rewrite elem_of_cons, !live_rids_spec by assumption.
      apply (ins_live _ _ _ _ Hins). }
  exists (live_rids h), (live_rids h'). split; [apply scan_all_result; [exact Hwf|lia]|].
  split; [|exact Hperm]. apply scan_all_result; [exact Hwf'|].
  apply Permutation_length in Hperm. cbn in Hperm. lia.
Qed.

Lemma scan_sees_inserted_record_witness :
  let h := RmWitness.one in
  let h' := RmWitness.two in
  wf h /\ (length (live_rids h) + 1 < 5)%nat
  /\ Rm.insert_record 1 RmSamples.b (Some RmSamples.ctx) h = Returned (mkRid 1 1) h'
  /\ exists l l',
       result_of (scan_all 5 h) = Some l /\ result_of (scan_all 5 h') = Some l'
       /\ l' ≡ₚ mkRid 1 1 :: l.
Proof.
  intros h h'.
  assert (H1 : wf h) by exact witness_one_wf.
  assert (H2 : (length (live_rids h) + 1 < 5)%nat) by (vm_compute; lia).
  assert (H3 : Rm.insert_record 1 RmSamples.b (Some RmSamples.ctx) h = Returned (mkRid 1 1) h')
    by (vm_compute; reflexivity).
  exact (conj H1 (conj H2 (conj H3
           (scan_sees_inserted_record 5 0 RmSamples.b (Some RmSamples.ctx) h h' (mkRid 1 1)
                                      H1 H2 H3)))).
Defined.

(** X26. A scan no longer sees what was deleted.  Under the invariant, a
    scan of the file after [delete_record(rid, context)] has returned, for
    a rid outside the header page, visits the rids a scan visited before
    the deletion except [rid], each once. *)
Theorem scan_skips_deleted_record (fuel : nat) (context : option Context)
        (h h' : RmFileHandle) (rid : Rid) :
  wf h -> (length (live_rids h) < fuel)%nat ->
  page_no rid <> RM_FILE_HDR_PAGE ->
  Rm.delete_record rid context h = Returned tt h' ->
  exists l l',
    result_of (scan_all fuel h) = Some l /\ result_of (scan_all fuel h') = Some l'
    /\ l ≡ₚ rid :: l'.
Proof.
  intros Hwf Hfuel Hp Hrun.
  pose proof (delete_record_spec rid context h Hwf Hp) as H. rewrite Hrun in H.
  destruct H as (Hwf' & Hdel & _).
  assert (Hperm : live_rids h ≡ₚ rid :: live_rids h').
  { apply NoDup_Permutation.
    - apply live_rids_NoDup.
    - apply NoDup_cons. split; [|apply live_rids_NoDup].
      rewrite (live_rids_spec _ _ Hwf'). intros Hl.
      apply (del_live _ _ _ Hdel) in Hl. now destruct Hl.
    - intros r. rewrite elem_of_cons, !live_rids_spec by assumption.
      rewrite (del_live _ _ _ Hdel). split.
      + intros Hr. destruct (decide (r = rid)) as [->|Hne]; [now left | right; tauto].
      + intros [->|[_ Hr]]; [apply (del_was_live _ _ _ Hdel) | exact Hr]. }
  exists (live_rids h), (live_rids h'). split; [apply scan_all_result; [exact Hwf|lia]|].
  split; [|exact Hperm]. apply scan_all_result; [exact Hwf'|].
  apply Permutation_length in Hperm. cbn in Hperm. lia.
Qed.

Lemma scan_skips_deleted_record_witness :
  let h := RmWitness.two in
  let h' := state_of (Rm.delete_record (mkRid 1 0) (Some RmSamples.ctx) h) in
  wf h /\ (length (live_rids h) < 5)%nat
  /\ page_no (mkRid 1 0) <> RM_FILE_HDR_PAGE
  /\ Rm.delete_record (mkRid 1 0) (Some RmSamples.ctx) h = Returned tt h'
  /\ exists l l',
       result_of (scan_all 5 h) = Some l /\ result_of (scan_all 5 h') = Some l'
       /\ l ≡ₚ mkRid 1 0 :: l'.
Proof.
  intros h h'.
  assert (H1 : wf h) by exact witness_two_wf.
  assert (H2 : (length (live_rids h) < 5)%nat) by (vm_compute; lia).
  assert (H3 : page_no (mkRid 1 0) <> RM_FILE_HDR_PAGE) by discriminate.
  assert (H4 : Rm.delete_record (mkRid 1 0) (Some RmSamples.ctx) h = Returned tt h')
    by (vm_compute; reflexivity).
  exact (conj H1 (conj H2 (conj H3 (conj H4
           (scan_skips_deleted_record 5 (Some RmSamples.ctx) h h' (mkRid 1 0)
                                      H1 H2 H3 H4))))).
Defined.

(** ** Analyzer: statements on a table the catalogue does not have *)

(** X27. UPDATE and DELETE on a table that is not in the catalogue are
    rejected with [TableNotFoundError]: neither branch of [do_analyze]
    checks the table name first, but [check_clause] collects the columns
    of the table before it looks at any condition, and the look-up fails.
    This holds whenever the conditions can be converted at all (no
    literal of an unexpected kind), whatever they and the set clauses
    refer to. *)
Theorem update_and_delete_on_unknown_table_rejected (db : DbMeta.t) (ov : Value.Overlong)
        (t : string) (set_clauses : list ast.SetClause) (conds : list ast.BinaryExpr)
        (cs : list Condition.t) :
  ~ known db t ->
  Analyze.get_clause conds = inr cs ->
  Analyze.do_analyze db ov (ast.UpdateStmt t set_clauses conds) = inl (TableNotFoundError t)
  /\ Analyze.do_analyze db ov (ast.DeleteStmt t conds) = inl (TableNotFoundError t).
Proof.
  intros Ht Hcs.
  assert (Hall : Analyze.get_all_cols db [t] = inl (TableNotFoundError t)).
  { cbn. unfold DbMeta.get_table. destruct (DbMeta.tabs_ db !! t) as [T|] eqn:E; [|reflexivity].
    exfalso. apply Ht. now exists T. }
  cbn [Analyze.do_analyze]. rewrite Hcs. cbn [rbind]. unfold Analyze.check_clause.
  rewrite Hall. split; reflexivity.
Qed.

Lemma update_and_delete_on_unknown_table_rejected_witness :
  let conds := [ast.mkBinaryExpr (ast.mkCol "" "id") ast.SV_OP_EQ (ast.EValue (ast.IntLit 1))] in
  let cs := [Condition.mk (TabCol.mk "" "id") OP_EQ true (TabCol.mk "" "")
                          (Value.set_int 1 Value.empty)] in
  ~ known AnalyzeSample.db "u"
  /\ Analyze.get_clause conds = inr cs
  /\ Analyze.do_analyze AnalyzeSample.db Value.Reject
       (ast.UpdateStmt "u" [ast.mkSetClause "id" (ast.EValue (ast.IntLit 2))] conds)
     = inl (TableNotFoundError "u")
  /\ Analyze.do_analyze AnalyzeSample.db Value.Reject (ast.DeleteStmt "u" conds)
     = inl (TableNotFoundError "u").
Proof.
  intros conds cs.
  assert (H1 : ~ known AnalyzeSample.db "u").
  { intros [x Hx]. vm_compute in Hx. discriminate. }
  assert (H2 : Analyze.get_clause conds = inr cs) by reflexivity.
  exact (conj H1 (conj H2
           (update_and_delete_on_unknown_table_rejected AnalyzeSample.db Value.Reject "u"
              [ast.mkSetClause "id" (ast.EValue (ast.IntLit 2))] conds cs H1 H2))).
Defined.

(** ** Record manager: where an insertion goes *)

Lemma create_page_handle_page (fuel : nat) (h : RmFileHandle) :
  wf h -> allocates h = true ->
  result_of (Rm.create_page_handle (S fuel) h)
  = Some (if first_free_page_no (file_hdr_ h) =? RM_NO_PAGE
          then num_pages (file_hdr_ h) else first_free_page_no (file_hdr_ h)).
Proof.
  intros Hwf Hal. pose proof Hwf as [Hn Hbits Hnp Hpages (l & Hc & Hnd & Hm)].
  cbn [Rm.create_page_handle]. unfold bind at 1, get at 1.
  unfold allocates in Hal.
  destruct (first_free_page_no (file_hdr_ h) =? RM_NO_PAGE) eqn:Hff.
  - rewrite (create_new_page_handle_eq h Hal). reflexivity.
  - apply Z.eqb_neq in Hff.
    destruct (chain_head _ _ _ Hc Hff) as [l' ->].
    assert (Hin : first_free_page_no (file_hdr_ h) ∈ first_free_page_no (file_hdr_ h) :: l')
      by constructor.
    apply Hm in Hin as [Hd Hr].
    destruct (Hpages _ Hd) as (pg & Hpg & Hok).
    unfold bind at 1.
    rewrite (fetch_page_handle_ok h _ pg);
      [|unfold is_data_page, RM_FIRST_RECORD_PAGE in Hd; lia|exact Hpg].
    unfold bind at 1, get at 1.
    set (h1 := log_event _ h).
    assert (Hat : page_at h1 (first_free_page_no (file_hdr_ h)) = pg).
    { unfold page_at, h1. cbn. now rewrite Hpg. }
    rewrite Hat. change (file_hdr_ h1) with (file_hdr_ h).
    unfold has_room, page_at in Hr. rewrite Hpg in Hr. cbn in Hr.
    rewrite (proj2 (Z.eqb_neq _ _)) by lia. reflexivity.
Qed.

(** X28. Where [insert_record(buf, context)] puts the record.  Under the
    invariant, the rid returned lies on the page at the head of the free
    list, or, when the free list is empty, on a new page numbered
    [num_pages]; its slot is the lowest free slot of that page: every
    slot below it held a record already. *)
Theorem insert_record_takes_lowest_free_slot (fuel : nat) (buf : list Z)
        (context : option Context) (h h' : RmFileHandle) (rid : Rid) :
  wf h ->
  Rm.insert_record (S fuel) buf context h = Returned rid h' ->
  page_no rid = (if first_free_page_no (file_hdr_ h) =? RM_NO_PAGE
                 then num_pages (file_hdr_ h) else first_free_page_no (file_hdr_ h))
  /\ 0 <= slot_no rid < num_records_per_page (file_hdr_ h)
  /\ forall j, 0 <= j < slot_no rid -> live h (mkRid (page_no rid) j).
Proof.
  intros Hwf Hrun.
  assert (Hal : allocates h = true).
  { pose proof (insert_record_spec fuel buf context h Hwf) as Hs. rewrite Hrun in Hs. apply Hs. }
  pose proof (create_page_handle_page fuel h Hwf Hal) as Hpage.
  unfold Rm.insert_record in Hrun. unfold bind at 1 in Hrun.
  destruct (create_page_handle_spec fuel h Hwf Hal)
    as (p & h1 & Heq & Hwf1 & Hsame & Hff & Hd & Hroom).
  rewrite Heq in Hrun, Hpage. cbn [result_of] in Hpage. injection Hpage as Hp.
  unfold bind at 1, get at 1 in Hrun. unfold bind at 1 in Hrun.
  set (i := Bitmap.first_bit false _ _) in Hrun.
  destruct (lock_exclusive_cases context (mkRid p i) h1) as (h2 & Hfd2 & Hhdr2 & Hpg2 & Hlock).
  rewrite Hlock in Hrun.
  destruct (grants_exclusive context (fd_ h1) (mkRid p i)); [|discriminate].
  destruct (insert_tail_eq p i (record_size (file_hdr_ h1)) buf context h2)
    as (h3 & Htail & _).
  match type of Hrun with
  | ?o = _ => change o with
      ((Rm.update_page p (write_slot (record_size (file_hdr_ h1)) i buf) ;;;
        Rm.update_page p (fun pg => set_bitmap (Bitmap.set (bitmap pg) i) pg) ;;;
        Rm.update_page p (fun pg => set_num_records (num_records (page_hdr pg) + 1) pg) ;;;
        h <- get ;;
        (if num_records (page_hdr (page_at h p)) =? num_records_per_page (file_hdr_ h)
         then modify (set_file_hdr (set_first_free_page_no
                                      (next_free_page_no (page_hdr (page_at h p)))))
         else ret tt) ;;;
        match context with
        | Some _ => Rm.unpin_page p true
        | None => ret tt
        end ;;;
        ret (mkRid p i)) h2) in Hrun
  end.
  rewrite Htail in Hrun. injection Hrun as <- _. cbn [page_no slot_no].
  destruct (pages_ok h1 Hwf1 p Hd) as (pg & Hpg & [Hcov Hpad Hcnt Hslots]).
  assert (Hat : page_at h1 p = pg) by (unfold page_at; now rewrite Hpg).
  assert (Hn1 : num_records_per_page (file_hdr_ h1) = num_records_per_page (file_hdr_ h))
    by apply Hsame.
  destruct (first_bit_clear (bitmap pg) (num_records_per_page (file_hdr_ h1)))
    as (Hi & _ & Hlow).
  { pose proof (slots_pos h1 Hwf1). lia. }
  { exact Hpad. }
  { unfold has_room in Hroom. rewrite Hat, Hcnt in Hroom. exact Hroom. }
  fold i in Hi, Hlow. unfold i in *. rewrite Hat in *.
  split; [exact Hp|]. split; [rewrite <- Hn1; exact Hi|].
  intros j Hj. apply (same_live _ _ Hsame). split; [exact Hd|]. cbn [page_no slot_no].
  rewrite Hat. now apply Hlow.
Qed.

Lemma insert_record_takes_lowest_free_slot_witness :
  let h := RmWitness.one in
  let h' := RmWitness.two in
  wf h
  /\ Rm.insert_record 1 RmSamples.b (Some RmSamples.ctx) h = Returned (mkRid 1 1) h'
  /\ page_no (mkRid 1 1) = (if first_free_page_no (file_hdr_ h) =? RM_NO_PAGE
                            then num_pages (file_hdr_ h) else first_free_page_no (file_hdr_ h))
  /\ 0 <= slot_no (mkRid 1 1) < num_records_per_page (file_hdr_ h)
  /\ forall j, 0 <= j < slot_no (mkRid 1 1) -> live h (mkRid (page_no (mkRid 1 1)) j).
Proof.
  intros h h'.
  assert (H1 : wf h) by exact witness_one_wf.
  assert (H2 : Rm.insert_record 1 RmSamples.b (Some RmSamples.ctx) h = Returned (mkRid 1 1) h')
    by (vm_compute; reflexivity).
  exact (conj H1 (conj H2
           (insert_record_takes_lowest_free_slot 0 RmSamples.b (Some RmSamples.ctx) h h'
                                                 (mkRid 1 1) H1 H2))).
Defined.

(** ** Encodings: binary32 *)

Lemma digits2_pos_bounds (m : positive) :
  2 ^ (Zpos (digits2_pos m) - 1) <= Zpos m < 2 ^ Zpos (digits2_pos m).
Proof.
  induction m as [m IH|m IH|]; cbn [digits2_pos].
  - rewrite Pos2Z.inj_succ. replace (Z.succ (Zpos (digits2_pos m)) - 1) with (Zpos (digits2_pos m)) by lia.
    rewrite Z.pow_succ_r by lia.
    replace (Zpos (digits2_pos m)) with (Zpos (digits2_pos m) - 1 + 1) at 1 by lia.
    rewrite Z.pow_add_r by lia. lia.
  - rewrite Pos2Z.inj_succ. replace (Z.succ (Zpos (digits2_pos m)) - 1) with (Zpos (digits2_pos m)) by lia.
    rewrite Z.pow_succ_r by lia.
    replace (Zpos (digits2_pos m)) with (Zpos (digits2_pos m) - 1 + 1) at 1 by lia.
    rewrite Z.pow_add_r by lia. lia.
  - cbn. lia.
Qed.

(** A valid binary32 number is subnormal, with exponent [-149] and a
    mantissa below [2^23], or normal, with a 24-bit mantissa. *)
Lemma valid_binary32 (s : bool) (m : positive) (e : Z) :
  valid_binary Enc.prec Enc.emax (S754_finite s m e) = true ->
  (e = -149 /\ Zpos m < 2 ^ 23) \/ (2 ^ 23 <= Zpos m < 2 ^ 24 /\ -149 <= e <= 104).
Proof.
  unfold valid_binary, bounded, canonical_mantissa, fexp, emin, Enc.prec, Enc.emax.
  intros H. apply andb_true_iff in H as [Hc He].
  apply Z.eqb_eq in Hc. apply Z.leb_le in He.
  pose proof (digits2_pos_bounds m) as Hd.
  set (d := Zpos (digits2_pos m)) in *.
  assert (Hdpos : 1 <= d) by (unfold d; lia).
  destruct (Z_lt_ge_dec d 24) as [Hlt|Hge].
  - left. split; [lia|].
    apply Z.lt_le_trans with (2 ^ d); [lia|]. apply Z.pow_le_mono_r; lia.
  - right. assert (d = 24) by lia. replace d with 24 in Hd by lia.
    change (24 - 1) with 23 in Hd. lia.
Qed.

Lemma testbit_31 (s : bool) (r : Z) :
  0 <= r < 2 ^ 31 -> Z.testbit ((if s then 2 ^ 31 else 0) + r) 31 = s.
Proof.
  intros Hr. apply Z.b2z_inj. rewrite Z.testbit_spec' by lia.
  destruct s; cbn [Z.b2z].
  - replace ((2 ^ 31 + r) / 2 ^ 31) with 1; [reflexivity|].
    apply Z.div_unique with (r := r); lia.
  - rewrite Z.add_0_l, Z.div_small by lia. reflexivity.
Qed.

Lemma float_of_bits_of_float (f : spec_float) :
  valid_binary Enc.prec Enc.emax f = true ->
  Enc.float_of_bits (Enc.bits_of_float f) = f
  /\ 0 <= Enc.bits_of_float f < 2 ^ 32.
Proof.
  intros Hv. destruct f as [s|s| |s m e].
  - destruct s; split; try reflexivity; cbn; lia.
  - destruct s; split; try reflexivity; cbn; lia.
  - split; [reflexivity | cbn; lia].
  - destruct (valid_binary32 s m e Hv) as [[-> Hm]|[Hm He]].
    + unfold Enc.bits_of_float. rewrite (proj2 (Z.ltb_lt _ _) Hm).
      split; [|destruct s; lia].
      unfold Enc.float_of_bits. rewrite testbit_31 by lia.
      assert (Hex : (((if s then 2 ^ 31 else 0) + Zpos m) / 2 ^ 23) mod 256 = 0).
      { destruct s.
        - replace ((2 ^ 31 + Zpos m) / 2 ^ 23) with 256; [reflexivity|].
          apply Z.div_unique with (r := Zpos m); lia.
        - rewrite Z.add_0_l, Z.div_small by lia. reflexivity. }
      assert (Hmant : ((if s then 2 ^ 31 else 0) + Zpos m) mod 2 ^ 23 = Zpos m).
      { destruct s.
        - symmetry. apply Z.mod_unique with (q := 256); lia.
        - rewrite Z.add_0_l. apply Z.mod_small. lia. }
      rewrite Hex, Hmant. reflexivity.
    + unfold Enc.bits_of_float. rewrite (proj2 (Z.ltb_ge _ _) (proj1 Hm)).
      split; [|destruct s; lia].
      unfold Enc.float_of_bits.
      replace ((if s then 2 ^ 31 else 0) + (e + 150) * 2 ^ 23 + (Zpos m - 2 ^ 23))
        with ((if s then 2 ^ 31 else 0) + ((e + 150) * 2 ^ 23 + (Zpos m - 2 ^ 23))) by lia.
      rewrite testbit_31 by lia.
      assert (Hex : (((if s then 2 ^ 31 else 0) + ((e + 150) * 2 ^ 23 + (Zpos m - 2 ^ 23)))
                       / 2 ^ 23) mod 256 = e + 150).
      { replace (((if s then 2 ^ 31 else 0) + ((e + 150) * 2 ^ 23 + (Zpos m - 2 ^ 23))) / 2 ^ 23)
          with ((if s then 256 else 0) + (e + 150)).
        - destruct s.
          + symmetry. apply Z.mod_unique with (q := 1); lia.
          + rewrite Z.add_0_l. apply Z.mod_small. lia.
        - apply Z.div_unique with (r := Zpos m - 2 ^ 23); destruct s; lia. }
      assert (Hmant : ((if s then 2 ^ 31 else 0) + ((e + 150) * 2 ^ 23 + (Zpos m - 2 ^ 23)))
                        mod 2 ^ 23 = Zpos m - 2 ^ 23).
      { symmetry.
        apply Z.mod_unique with (q := (if s then 256 else 0) + (e + 150)); destruct s; lia. }
      rewrite Hex, Hmant.
      rewrite (proj2 (Z.eqb_neq _ _)) by lia. rewrite (proj2 (Z.eqb_neq _ _)) by lia.
      replace (Zpos m - 2 ^ 23 + 2 ^ 23) with (Zpos m) by lia.
      replace (e + 150 - 150) with e by lia. reflexivity.
Qed.

Lemma float_bytes_length (f : spec_float) : length (Enc.float_bytes f) = 4%nat.
Proof. apply le_bytes_length. Qed.

Lemma read_float_float_bytes (pre post : list Z) (f : spec_float) :
  valid_binary Enc.prec Enc.emax f = true ->
  Enc.read_float (pre ++ Enc.float_bytes f ++ post) (Z.of_nat (length pre)) = f.
Proof.
  intros Hv. unfold Enc.read_float.
  pose proof (bytes_at_middle pre (Enc.float_bytes f) post) as Hb.
  rewrite float_bytes_length in Hb. rewrite Hb.
  destruct (float_of_bits_of_float f Hv) as [Hround Hrange].
  unfold Enc.float_bytes. rewrite le_value_le_bytes.
  change (256 ^ Z.of_nat 4) with (2 ^ 32). rewrite Z.mod_small by exact Hrange.
  exact Hround.
Qed.

(** X29. A [FLOAT] literal compares as the binary32 number it denotes.  A
    condition whose literal [k] (a valid binary32 value) was given its raw
    image by [init_raw] for a 4-byte [FLOAT] column, evaluated by the scan
    executor on a record that holds the valid binary32 value [x] at the
    column's offset, yields the IEEE comparison of [x] with [k]: sign,
    exponent and mantissa all survive the four-byte image, for zeros,
    subnormal and normal numbers, infinities and NaN. *)
Theorem float_condition_compares_floats (ov : Value.Overlong) (cols : list ColMeta.t)
        (lhs rhs_col : TabCol.t) (col : ColMeta.t) (op : CompOp) (k x : spec_float)
        (v : Value.t) (pre post : list Z) (s : SeqScanExecutor.state) :
  SeqScanExecutor.get_col cols lhs = inr col ->
  ColMeta.type col = TYPE_FLOAT -> ColMeta.len col = 4 ->
  ColMeta.offset col = Z.of_nat (length pre) ->
  valid_binary Enc.prec Enc.emax k = true -> valid_binary Enc.prec Enc.emax x = true ->
  Value.init_raw ov (ColMeta.len col) (Value.set_float k Value.empty) = inr v ->
  SeqScanExecutor.eval_cond cols (pre ++ Enc.float_bytes x ++ post)
                            (Condition.mk lhs op true rhs_col v) s
  = Returned (Cmp.compare_float x k op) s.
Proof.
  intros Hcol Hty Hlen Hoff Hk Hx Hv. unfold SeqScanExecutor.eval_cond.
  cbn [Condition.lhs_col Condition.rhs_val Condition.op]. rewrite Hcol.
  unfold Value.init_raw in Hv.
  cbn [Value.type Value.set_float Value.empty Value.float_val] in Hv.
  injection Hv as <-. cbn [Value.raw Value.set_raw]. rewrite Hty, Hoff, Hlen.
  rewrite (read_float_float_bytes pre post x Hx).
  rewrite fit_exact by apply float_bytes_length.
  pose proof (read_float_float_bytes [] [] k Hk) as Hr. cbn [app length] in Hr.
  rewrite app_nil_r in Hr. change (Z.of_nat 0) with 0 in Hr. rewrite Hr. reflexivity.
Qed.

Lemma float_condition_compares_floats_witness :
  let cols := [CoerceSample.t_id; CoerceSample.t_p; CoerceSample.t_s] in
  let lhs := TabCol.mk "t" "p" in
  let k := Enc.int_to_float 3 in
  let x := Enc.int_to_float (-5) in
  let v := Value.mk TYPE_FLOAT 0 k "" (Some [0; 0; 64; 64]) in
  SeqScanExecutor.get_col cols lhs = inr CoerceSample.t_p
  /\ ColMeta.type CoerceSample.t_p = TYPE_FLOAT /\ ColMeta.len CoerceSample.t_p = 4
  /\ ColMeta.offset CoerceSample.t_p = Z.of_nat (length (Enc.int_bytes 1))
  /\ valid_binary Enc.prec Enc.emax k = true /\ valid_binary Enc.prec Enc.emax x = true
  /\ Value.init_raw Value.Reject (ColMeta.len CoerceSample.t_p)
                    (Value.set_float k Value.empty) = inr v
  /\ SeqScanExecutor.eval_cond cols (Enc.int_bytes 1 ++ Enc.float_bytes x ++ [])
                               (Condition.mk lhs OP_LT true (TabCol.mk "" "") v)
                               ScanSample.executor
     = Returned (Cmp.compare_float x k OP_LT) ScanSample.executor.
Proof.
  intros cols lhs k x v.
  assert (H1 : SeqScanExecutor.get_col cols lhs = inr CoerceSample.t_p) by reflexivity.
  assert (H2 : ColMeta.type CoerceSample.t_p = TYPE_FLOAT) by reflexivity.
  assert (H3 : ColMeta.len CoerceSample.t_p = 4) by reflexivity.
  assert (H4 : ColMeta.offset CoerceSample.t_p = Z.of_nat (length (Enc.int_bytes 1)))
    by reflexivity.
  assert (H5 : valid_binary Enc.prec Enc.emax k = true) by (vm_compute; reflexivity).
  assert (H6 : valid_binary Enc.prec Enc.emax x = true) by (vm_compute; reflexivity).
  assert (H7 : Value.init_raw Value.Reject (ColMeta.len CoerceSample.t_p)
                              (Value.set_float k Value.empty) = inr v)
    by (vm_compute; reflexivity).
  exact (conj H1 (conj H2 (conj H3 (conj H4 (conj H5 (conj H6 (conj H7
           (float_condition_compares_floats Value.Reject cols lhs (TabCol.mk "" "")
              CoerceSample.t_p OP_LT k x v (Enc.int_bytes 1) [] ScanSample.executor
              H1 H2 H3 H4 H5 H6 H7)))))))).
Defined.

(** ** Log manager: the two LSN counters *)

Lemma adds_nonneg (cs : list LogSpec.call) : 0 <= LogSpec.adds cs.
Proof. induction cs as [|[r|] cs IH]; cbn [LogSpec.adds]; lia. Qed.

Lemma run_call_lsns (m : LogManager.t) (c : LogSpec.call) :
  Counter.MIN <= LogManager.persist_lsn_ m <= LogManager.global_lsn_ m ->
  LogManager.global_lsn_ m + LogSpec.adds [c] <= Counter.MAX ->
  LogManager.global_lsn_ m <= LogManager.global_lsn_ (LogSpec.run_call m c)
                           <= LogManager.global_lsn_ m + LogSpec.adds [c]
  /\ LogManager.persist_lsn_ m <= LogManager.persist_lsn_ (LogSpec.run_call m c)
  /\ LogManager.persist_lsn_ (LogSpec.run_call m c)
     <= LogManager.global_lsn_ (LogSpec.run_call m c).
Proof.
  intros Hle Hmax.
  assert (Hadd : 0 <= LogSpec.adds [c]) by apply adds_nonneg.
  destruct (LogManager.latch_ m) eqn:Hl.
  - assert (Hsame : LogSpec.run_call m c = m).
    { destruct c; cbn; unfold LogManager.add_log_to_buffer, LogManager.flush_log_to_disk,
        LogManager.with_latch; rewrite Hl; reflexivity. }
    rewrite Hsame. lia.
  - destruct c as [r|]; cbn [LogSpec.run_call LogSpec.adds] in *.
    + assert (Hs : Counter.succ (LogManager.global_lsn_ m) = LogManager.global_lsn_ m + 1)
        by (apply succ_below_max; lia).
      destruct (LogBuffer.is_full (LogRecord.log_tot_len_ r) (LogManager.log_buffer_ m)) eqn:Hf.
      * rewrite (add_log_full_self_deadlock r m Hl Hf).
        cbn [state_of LogManager.set_latch LogManager.set_global_lsn LogManager.global_lsn_
             LogManager.persist_lsn_].
        rewrite Hs. lia.
      * rewrite (add_log_fits r m Hl Hf).
        cbn [state_of LogInv.appended LogManager.global_lsn_ LogManager.persist_lsn_].
        rewrite Hs. lia.
    + rewrite (flush_spec m Hl).
      destruct (_ =? 0); [cbn; lia|].
      destruct (DiskManager.log_writable _); cbn; lia.
Qed.

(** X30. The LSN counters only move forward, up to the end of their
    range.  Take any sequence of [add_log_to_buffer] and
    [flush_log_to_disk] calls that does not exhaust the LSNs: the number of
    appends is at most the number of values left between [global_lsn_] and
    the largest value of [lsn_t].  Whatever each call does (return, throw
    because the log file cannot be written, or block on the latch),
    [global_lsn_] and [persist_lsn_] never decrease, [global_lsn_] grows by
    at most one per append, and [persist_lsn_] never passes [global_lsn_].
    (At the largest value the counter wraps: [succ_at_max].) *)
Theorem log_lsns_only_move_forward (cs : list LogSpec.call) (m : LogManager.t) :
  Counter.MIN <= LogManager.persist_lsn_ m <= LogManager.global_lsn_ m ->
  LogManager.global_lsn_ m + LogSpec.adds cs <= Counter.MAX ->
  LogManager.global_lsn_ m <= LogManager.global_lsn_ (LogSpec.run_calls cs m)
                           <= LogManager.global_lsn_ m + LogSpec.adds cs
  /\ LogManager.persist_lsn_ m <= LogManager.persist_lsn_ (LogSpec.run_calls cs m)
  /\ LogManager.persist_lsn_ (LogSpec.run_calls cs m)
     <= LogManager.global_lsn_ (LogSpec.run_calls cs m).
Proof.
  revert m. induction cs as [|c cs IH]; intros m Hle Hmax; [cbn; lia|].
  cbn [LogSpec.run_calls fold_left]. fold (LogSpec.run_calls cs (LogSpec.run_call m c)).
  pose proof (adds_nonneg cs) as Hcs.
  assert (Hsplit : LogSpec.adds (c :: cs) = LogSpec.adds [c] + LogSpec.adds cs)
    by (destruct c; cbn [LogSpec.adds]; lia).
  rewrite Hsplit in *.
  destruct (run_call_lsns m c Hle ltac:(lia)) as (H1 & H2 & H3).
  destruct (IH (LogSpec.run_call m c) ltac:(lia) ltac:(lia)) as (H4 & H5 & H6). lia.
Qed.

Lemma log_lsns_only_move_forward_witness :
  let cs := [LogSpec.Add (LogRecord.BeginLogRecord 1); LogSpec.Flush;
             LogSpec.Add (LogRecord.CommitLogRecord 1);
             LogSpec.Add (LogRecord.BeginLogRecord 2);
             LogSpec.Add (LogRecord.CommitLogRecord 2); LogSpec.Flush] in
  let m := LogSamples.fresh 64 in
  Counter.MIN <= LogManager.persist_lsn_ m <= LogManager.global_lsn_ m
  /\ LogManager.global_lsn_ m + LogSpec.adds cs <= Counter.MAX
  /\ LogManager.global_lsn_ m <= LogManager.global_lsn_ (LogSpec.run_calls cs m)
                              <= LogManager.global_lsn_ m + LogSpec.adds cs
  /\ LogManager.persist_lsn_ m <= LogManager.persist_lsn_ (LogSpec.run_calls cs m)
  /\ LogManager.persist_lsn_ (LogSpec.run_calls cs m)
     <= LogManager.global_lsn_ (LogSpec.run_calls cs m).
Proof.
  intros cs m.
  assert (H1 : Counter.MIN <= LogManager.persist_lsn_ m <= LogManager.global_lsn_ m)
    by (vm_compute; split; discriminate).
  assert (H2 : LogManager.global_lsn_ m + LogSpec.adds cs <= Counter.MAX)
    by (vm_compute; discriminate).
  exact (conj H1 (conj H2 (log_lsns_only_move_forward cs m H1 H2))).
Defined.

(** With the counter at the largest value, the next record gets the
    smallest one: the LSNs handed out are not increasing there. *)
Example lsn_wraps_at_largest_value :
  let m := LogManager.set_global_lsn Counter.MAX (LogSamples.fresh 64) in
  result_of (LogManager.add_log_to_buffer (LogRecord.BeginLogRecord 1) m)
  = Some (Counter.MIN, LogSpec.with_lsn Counter.MIN (LogRecord.BeginLogRecord 1)).
Proof. vm_compute. reflexivity. Qed.
